(** * Layout engine of the Gantt chart renderer (public/js/gantt.js)

    A shallow embedding of the renderer's layout code: the date helpers
    ([parseDate], [daysBetween], [dateToX]), the row flattener
    ([buildRows], [buildTaskMap]), the adaptive tick generator
    ([getTickDates]), the bar builders, the dependency arrow router and the
    [render] / [toggleGroup] entry points of class [GanttChart].

    Conventions of the embedding.
    - A JavaScript [Date] of this program always denotes a local midnight
      (it comes from [new Date(y, m, d)], from a copy, or from [setDate] /
      [setMonth] on such a date).  It is represented by its local calendar
      day number (days since 1970-01-01); its millisecond time value is
      [valueOf], which subtracts the zone's UTC offset on that day.  The
      zone is a parameter [tz]; zones whose clocks skip midnight are not
      covered.  A [Date] further than 100,000,000 days from the epoch is
      invalid in JavaScript and has no counterpart here: the facts on pixel
      positions take their dates in that range ([date_in_range]).
    - The date fields of the schedule are kept as the three numbers that
      [str.split('-').map(Number)] reads off a YYYY-MM-DD string
      ([splitDate]); other strings would give NaN and are not modelled.
    - Pixel quantities are JavaScript numbers, that is IEEE 754 doubles
      ([Double.double]): a finite double is kept as the rational it denotes,
      and every arithmetic operation returns its exact result rounded to the
      nearest double, ties to even, with the infinities and NaN where the
      standard has them.  Zero carries no sign (the renderer never divides
      by a computed zero other than [totalDays], which is never -0, and a
      number is written to the tree as text, where -0 reads 0).  Integers
      (day counts, row indices, row offsets) are [Z] or [nat]: they are exact
      as doubles.
    - The two [while] loops of [getTickDates] run on fuel: [None] means the
      loop has not finished within the fuel; the theorems show that it does
      finish.
    - The chart object is a record that each method takes and returns.
      [taskMap] refers to rows by their position in [rows], so that a write
      to a row is seen through the map as in the source.  The map holds the
      keys the renderer writes; for any other key the source's plain object
      answers [undefined] or a member of [Object.prototype], which the
      renderer skips alike, and the embedding answers [None].
    - The DOM built by a render pass is embedded as data: the rows of the
      left panel and the geometric attributes of the SVG elements.  Paint
      attributes (fill, stroke, fonts, gradient and marker definitions), cell
      texts and the scroll wiring are left out.
    - The text of the id cell, the entry point [loadGanttProject] and the
      line reader of the chat panel's response stream (public/js/chat.js)
      are embedded on their own, after the renderer.

    The first part holds the definitions, the second the facts. *)

From Stdlib Require Import ZArith QArith Qround Qabs Qpower Lia Lqa List String Ascii Bool.
From Stdlib Require Qcanon PrimFloat FloatOps SpecFloat.
From stdpp Require Import gmap strings list.

Local Open Scope Z_scope.
Set Warnings "-clear-no-such-hyp".

(** ** ECMAScript day arithmetic (the part of [Date] the renderer uses) *)

Module Calendar.

Definition MS_PER_DAY : Z := 86400000.

Definition DaysInYear (y : Z) : Z :=
  if negb (y mod 4 =? 0) then 365
  else if negb (y mod 100 =? 0) then 366
  else if negb (y mod 400 =? 0) then 365
  else 366.

Definition DayFromYear (y : Z) : Z :=
  365 * (y - 1970) + (y - 1969) / 4 - (y - 1901) / 100 + (y - 1601) / 400.

(** The largest year whose first day is not after day [n]: an estimate from
    the mean year length, corrected by at most one. *)
Definition YearFromDay (n : Z) : Z :=
  let y := 1970 + (400 * n) / 146097 in
  if n <? DayFromYear y then y - 1
  else if DayFromYear (y + 1) <=? n then y + 1
  else y.

Definition InLeapYear (y : Z) : Z := if DaysInYear y =? 366 then 1 else 0.

Definition DayWithinYear (n : Z) : Z := n - DayFromYear (YearFromDay n).

(** First day-within-year of month [m] (0-based) in a year with leap flag
    [leap]. *)
Definition MonthStart (m leap : Z) : Z :=
  match m with
  | 0 => 0
  | 1 => 31
  | 2 => 59 + leap
  | 3 => 90 + leap
  | 4 => 120 + leap
  | 5 => 151 + leap
  | 6 => 181 + leap
  | 7 => 212 + leap
  | 8 => 243 + leap
  | 9 => 273 + leap
  | 10 => 304 + leap
  | _ => 334 + leap
  end.

Definition MonthFromDay (n : Z) : Z :=
  let d := DayWithinYear n in
  let leap := InLeapYear (YearFromDay n) in
  if d <? 31 then 0
  else if d <? 59 + leap then 1
  else if d <? 90 + leap then 2
  else if d <? 120 + leap then 3
  else if d <? 151 + leap then 4
  else if d <? 181 + leap then 5
  else if d <? 212 + leap then 6
  else if d <? 243 + leap then 7
  else if d <? 273 + leap then 8
  else if d <? 304 + leap then 9
  else if d <? 334 + leap then 10
  else 11.

Definition DateFromDay (n : Z) : Z :=
  DayWithinYear n - MonthStart (MonthFromDay n) (InLeapYear (YearFromDay n)) + 1.

(** 1970-01-01 was a Thursday; 0 is Sunday. *)
Definition WeekDay (n : Z) : Z := (n + 4) mod 7.

(** [MakeDay(year, month, date)]: months and dates out of range carry over. *)
Definition MakeDay (year month date : Z) : Z :=
  let ym := year + month / 12 in
  let mn := month mod 12 in
  DayFromYear ym + MonthStart mn (InLeapYear ym) + date - 1.

End Calendar.

(** ** JavaScript dates at local midnight *)

Module JsDate.
Import Calendar.

(** A [Date] object at local midnight, as its local calendar day number. *)
Abbreviation Date := Z (only parsing).

(** [new Date(year, month, day)]: a year in 0..99 means 1900 + year. *)
Definition newDate (year month day : Z) : Date :=
  let y := if (0 <=? year) && (year <=? 99) then 1900 + year else year in
  MakeDay y month day.

Definition getFullYear (d : Date) : Z := YearFromDay d.
Definition getMonth (d : Date) : Z := MonthFromDay d.
Definition getDate (d : Date) : Z := DateFromDay d.
Definition getDay (d : Date) : Z := WeekDay d.

(** [d.setDate(v)] and [d.setMonth(m)] rebuild the day from the local fields. *)
Definition setDate (d : Date) (v : Z) : Date :=
  MakeDay (getFullYear d) (getMonth d) v.
Definition setMonth (d : Date) (m : Z) : Date :=
  MakeDay (getFullYear d) m (getDate d).

Section Zone.
(** [tz n]: the UTC offset, in milliseconds, in force at local midnight of
    day [n] (it changes with daylight saving time). *)
Variable tz : Z -> Z.

(** The time value of the date: what [b - a] and [a <= b] work on. *)
Definition valueOf (d : Date) : Z := d * MS_PER_DAY - tz d.

Definition date_leb (a b : Date) : bool := valueOf a <=? valueOf b.

(** Daylight saving moves local midnight by an hour or two: the offsets of
    two days of one zone differ by less than half a day. *)
Definition dst_drift_small : Prop :=
  forall d1 d2 : Z, 2 * Z.abs (tz d1 - tz d2) < MS_PER_DAY.
End Zone.

(** A [Date] is valid when its time value is within 8.64e15 milliseconds
    of the epoch, which is 100,000,000 days; [new Date] gives an invalid date
    beyond.  The local midnights of these days are within it. *)
Definition date_in_range (d : Date) : Prop := - 100000000 < d < 100000000.

(** A zone for examples: UTC+1, and UTC+2 on the summer days of each block of
    365 days. *)
Definition tz_summer (n : Z) : Z :=
  if (80 <=? n mod 365) && (n mod 365 <? 300) then 7200000 else 3600000.

(** [Math.round(n / d)] for integers [n] and [d > 0]: [floor(n/d + 1/2)],
    ties go up. *)
Definition MathRound_div (n d : Z) : Z := (2 * n + d) / (2 * d).

End JsDate.

(** ** JavaScript numbers *)

Module Double.

(** A JavaScript number is an IEEE 754 binary64 value.  A finite one is
    kept as the rational it denotes (zero carries no sign); the others are
    the two infinities and NaN. *)
Inductive double : Type :=
| Fin (q : Q)
| PInf
| NInf
| NaN.

(** 53 bits of precision; the least positive double is [2^EMIN], and
    [2^EMAX] is the first power of two that is no double. *)
Definition PREC : Z := 53.
Definition EMIN : Z := -1074.
Definition EMAX : Z := 1024.

Definition pow2 (e : Z) : Q := (2 ^ e)%Q.

(** [floor (log2 q)] for a positive rational. *)
Definition Qlog2 (q : Q) : Z :=
  let k := Z.log2 (Qnum q) - Z.log2 (Zpos (Qden q)) in
  if Qle_bool (pow2 k) q then k else k - 1.

(** The exponent of the last bit a double near [q] keeps. *)
Definition ulp_exp (q : Q) : Z := Z.max (Qlog2 (Qabs q) - (PREC - 1)) EMIN.

(** The nearest integer, a tie going to the even one. *)
Definition RNE (q : Q) : Z :=
  let f := Qfloor q in
  match (q - inject_Z f ?= 1 # 2)%Q with
  | Lt => f
  | Gt => f + 1
  | Eq => if Z.even f then f else f + 1
  end.

(** [q] rounded to the nearest multiple of [2^(ulp_exp q)], before the
    range check. *)
Definition round_unbounded (q : Q) : Q :=
  (inject_Z (RNE (q / pow2 (ulp_exp q))) * pow2 (ulp_exp q))%Q.

(** Round to nearest, ties to even: the double every arithmetic operation
    returns for the exact result [q]. *)
Definition round (q : Q) : double :=
  let r := Qred (round_unbounded q) in
  if Qle_bool (pow2 EMAX) (Qabs r) then (if Qle_bool 0 r then PInf else NInf)
  else Fin r.

Definition of_Z (z : Z) : double := round (inject_Z z).

(** [x + y] *)
Definition fadd (x y : double) : double :=
  match x, y with
  | NaN, _ | _, NaN => NaN
  | PInf, NInf | NInf, PInf => NaN
  | PInf, _ | _, PInf => PInf
  | NInf, _ | _, NInf => NInf
  | Fin a, Fin b => round (a + b)
  end.

(** [x - y] *)
Definition fsub (x y : double) : double :=
  match x, y with
  | NaN, _ | _, NaN => NaN
  | PInf, PInf | NInf, NInf => NaN
  | PInf, _ | _, NInf => PInf
  | NInf, _ | _, PInf => NInf
  | Fin a, Fin b => round (a - b)
  end.

(** The sign of a finite number, and the infinity of a given sign; zero
    times an infinity, and zero by zero, are NaN. *)
Definition Qsign (a : Q) : comparison := (a ?= 0)%Q.

Definition signed_inf (s : comparison) : double :=
  match s with
  | Gt => PInf
  | Lt => NInf
  | Eq => NaN
  end.

(** [x * y] *)
Definition fmul (x y : double) : double :=
  match x, y with
  | NaN, _ | _, NaN => NaN
  | Fin a, Fin b => round (a * b)
  | Fin a, PInf | PInf, Fin a => signed_inf (Qsign a)
  | Fin a, NInf | NInf, Fin a => signed_inf (CompOpp (Qsign a))
  | PInf, PInf | NInf, NInf => PInf
  | PInf, NInf | NInf, PInf => NInf
  end.

(** [x / y].  A zero divisor counts as +0: the one division of the
    renderer divides by [totalDays], a sum [n + 1], which is never -0. *)
Definition fdiv (x y : double) : double :=
  match x, y with
  | NaN, _ | _, NaN => NaN
  | Fin a, Fin b =>
      if Qeq_bool b 0 then signed_inf (Qsign a) else round (a / b)
  | Fin _, PInf | Fin _, NInf => Fin 0
  | PInf, Fin b => if Qle_bool 0 b then PInf else NInf
  | NInf, Fin b => if Qle_bool 0 b then NInf else PInf
  | _, _ => NaN
  end.

(** [x <= y] and [x < y]: false when either side is NaN. *)
Definition fleb (x y : double) : bool :=
  match x, y with
  | NaN, _ | _, NaN => false
  | NInf, _ | _, PInf => true
  | PInf, _ | _, NInf => false
  | Fin a, Fin b => Qle_bool a b
  end.

Definition fltb (x y : double) : bool :=
  match x, y with
  | NaN, _ | _, NaN => false
  | PInf, _ | _, NInf => false
  | NInf, _ | _, PInf => true
  | Fin a, Fin b => negb (Qle_bool b a)
  end.

(** [Math.max(x, y)]: NaN when either argument is. *)
Definition fmax (x y : double) : double :=
  match x, y with
  | NaN, _ | _, NaN => NaN
  | _, _ => if fleb x y then y else x
  end.


(** The rationals that are doubles, the range apart: an integer of fewer
    than 54 bits times a power of two that is no smaller than the least
    positive double. *)
Definition representable (r : Q) : Prop :=
  exists m e : Z, (r == inject_Z m * pow2 e)%Q /\ Z.abs m < 2 ^ PREC /\ EMIN <= e.

(** The values the operations return: a finite one is representable, in
    range and in lowest terms. *)
Definition valid (x : double) : Prop :=
  match x with
  | Fin r => representable r /\ (Qabs r < pow2 EMAX)%Q /\ Qred r = r
  | _ => True
  end.

(** The order of the comparisons, as propositions. *)
Definition dle (x y : double) : Prop := fleb x y = true.
Definition dlt (x y : double) : Prop := fltb x y = true.

(** The relative rounding error of a double in the normal range, and the
    absolute one below it. *)
Definition EPS : Q := pow2 (- PREC).
Definition ETA : Q := pow2 (EMIN - 1).

(** The doubles of the machine, to test the operations above against: the
    value of a binary floating-point number [(-1)^s * m * 2^e], and the
    machine double of an integer. *)
Definition of_spec (f : SpecFloat.spec_float) : double :=
  match f with
  | SpecFloat.S754_zero _ => Fin 0
  | SpecFloat.S754_infinity false => PInf
  | SpecFloat.S754_infinity true => NInf
  | SpecFloat.S754_nan => NaN
  | SpecFloat.S754_finite s m e =>
      Fin (Qred (inject_Z (if s then Zneg m else Zpos m) * pow2 e))
  end.

Definition of_float (f : PrimFloat.float) : double := of_spec (FloatOps.Prim2SF f).

Definition float_of_Z (z : Z) : PrimFloat.float :=
  FloatOps.SF2Prim (SpecFloat.binary_normalize FloatOps.prec FloatOps.emax z 0 false).

End Double.

(** Conversion unfolds the rounding last. *)
Strategy 1000 [Double.round Double.round_unbounded Double.RNE Double.Qlog2 Double.pow2].

(** ** Helpers of gantt.js *)

Module Gantt.
Import Calendar JsDate Double.

Definition ROW_HEIGHT : Z := 44.
Definition TIMELINE_HEADER_H : Z := 48.
Definition ELBOW : double := Fin 10.

(** The array [str.split('-').map(Number)] destructured as [y, m, d]. *)
Record DateFields : Type := mkDateFields {
  df_year : Z;
  df_month : Z;
  df_day : Z
}.

(** [Number(s)] on a string of decimal digits; the empty string is 0.
    Anything else is outside the modelled input (it would be NaN). *)
Definition digit_of (c : ascii) : option Z :=
  let n := Z.of_nat (nat_of_ascii c) in
  if (48 <=? n) && (n <=? 57) then Some (n - 48) else None.

Fixpoint Number_digits (acc : Z) (s : string) : option Z :=
  match s with
  | EmptyString => Some acc
  | String c s' =>
      match digit_of c with
      | Some k => Number_digits (10 * acc + k) s'
      | None => None
      end
  end.

Definition Number (s : string) : option Z := Number_digits 0 s.

(** [str.split('-')]. *)
Fixpoint split_dash (cur : string) (s : string) : list string :=
  match s with
  | EmptyString => [cur]
  | String c s' =>
      if Ascii.eqb c "-"%char then cur :: split_dash EmptyString s'
      else split_dash (cur ++ String c EmptyString)%string s'
  end.

Definition splitDate (str : string) : option DateFields :=
  match split_dash EmptyString str with
  | y :: m :: d :: _ =>
      match Number y, Number m, Number d with
      | Some y', Some m', Some d' => Some (mkDateFields y' m' d')
      | _, _, _ => None
      end
  | _ => None
  end.

(** [parseDate]: the schedule records of this embedding hold the date
    fields [splitDate] reads off a YYYY-MM-DD string. *)
Definition parseDate (f : DateFields) : Date :=
  newDate (df_year f) (df_month f - 1) (df_day f).

Definition parseDateString (str : string) : option Date :=
  parseDate <$> splitDate str.

Section Zone.
Variable tz : Z -> Z.

Definition daysBetween (a b : Date) : Z :=
  MathRound_div (valueOf tz b - valueOf tz a) MS_PER_DAY.

Definition dateToX (date projectStart : Date) (dayWidth : double) : double :=
  fmul (of_Z (daysBetween projectStart date)) dayWidth.
End Zone.

(** ** The schedule *)

Record Task : Type := mkTask {
  t_id : string;
  t_name : string;
  t_start : DateFields;
  t_end : DateFields;
  t_effort : string;
  t_dependsOn : list string
}.

Record Group : Type := mkGroup {
  g_id : string;
  g_name : string;
  g_start : DateFields;
  g_end : DateFields;
  g_effort : string;
  g_tasks : list Task
}.

Record Project : Type := mkProject {
  p_name : string;
  p_start : DateFields;
  p_end : DateFields
}.

Record Schedule : Type := mkSchedule {
  project : Project;
  groups : list Group
}.

(** ** Rows *)

Inductive RowType : Type := phase | task.

Inductive RowData : Type :=
| GroupData (g : Group)
| TaskData (t : Task).

Definition data_id (d : RowData) : string :=
  match d with GroupData g => g_id g | TaskData t => t_id t end.
Definition data_name (d : RowData) : string :=
  match d with GroupData g => g_name g | TaskData t => t_name t end.
Definition data_start (d : RowData) : DateFields :=
  match d with GroupData g => g_start g | TaskData t => t_start t end.
Definition data_end (d : RowData) : DateFields :=
  match d with GroupData g => g_end g | TaskData t => t_end t end.
Definition data_effort (d : RowData) : string :=
  match d with GroupData g => g_effort g | TaskData t => t_effort t end.
Definition data_dependsOn (d : RowData) : list string :=
  match d with GroupData _ => [] | TaskData t => t_dependsOn t end.

(** [{ type, groupIdx, taskIdx, data, rowIndex, visible }], and [visibleY]
    once [renderSVG] has laid the row out ([None] is [undefined]). *)
Record Row : Type := mkRow {
  type : RowType;
  groupIdx : nat;
  taskIdx : option nat;
  data : RowData;
  rowIndex : nat;
  visible : bool;
  visibleY : option Z
}.

Definition is_task (r : Row) : bool :=
  match type r with task => true | phase => false end.

Definition set_visibleY (y : Z) (r : Row) : Row :=
  mkRow (type r) (groupIdx r) (taskIdx r) (data r) (rowIndex r) (visible r) (Some y).

(** ** The chart object *)

(** [taskMap] holds references to the row objects of [rows]: a reference is
    the position of the row in [rows], so that a later write to the row
    ([row.visibleY = y]) is seen through the map. *)
Record GanttChart : Type := mkChart {
  chart_data : Schedule;
  projectStart : Date;
  projectEnd : Date;
  totalDays : Z;
  dayWidth : double;
  svgWidth : Z;
  rows : list Row;
  collapsedGroups : gset string;
  taskMap : gmap string nat
}.

Definition with_rows (rs : list Row) (c : GanttChart) : GanttChart :=
  mkChart (chart_data c) (projectStart c) (projectEnd c) (totalDays c)
    (dayWidth c) (svgWidth c) rs (collapsedGroups c) (taskMap c).
Definition with_taskMap (m : gmap string nat) (c : GanttChart) : GanttChart :=
  mkChart (chart_data c) (projectStart c) (projectEnd c) (totalDays c)
    (dayWidth c) (svgWidth c) (rows c) (collapsedGroups c) m.
Definition with_collapsed (s : gset string) (c : GanttChart) : GanttChart :=
  mkChart (chart_data c) (projectStart c) (projectEnd c) (totalDays c)
    (dayWidth c) (svgWidth c) (rows c) s (taskMap c).
Definition with_width (dw : double) (w : Z) (c : GanttChart) : GanttChart :=
  mkChart (chart_data c) (projectStart c) (projectEnd c) (totalDays c)
    dw w (rows c) (collapsedGroups c) (taskMap c).

(** *** buildRows *)

(** The inner [group.tasks.forEach]: the accumulator is [this.rows] and the
    counter [rowIndex]. *)
Fixpoint pushTasks (collapsed : bool) (gi ti : nat) (tasks : list Task)
    (acc : list Row * nat) : list Row * nat :=
  match tasks with
  | [] => acc
  | t :: rest =>
      pushTasks collapsed gi (S ti) rest
        (acc.1 ++ [mkRow task gi (Some ti) (TaskData t) acc.2 (negb collapsed) None],
         S acc.2)
  end.

(** The outer [this.data.groups.forEach]. *)
Fixpoint pushGroups (collapsedSet : gset string) (gi : nat) (gs : list Group)
    (acc : list Row * nat) : list Row * nat :=
  match gs with
  | [] => acc
  | g :: rest =>
      let collapsed := bool_decide (g_id g ∈ collapsedSet) in
      let acc1 :=
        (acc.1 ++ [mkRow phase gi None (GroupData g) acc.2 true None], S acc.2) in
      pushGroups collapsedSet (S gi) rest (pushTasks collapsed gi 0 (g_tasks g) acc1)
  end.

Definition buildRows (c : GanttChart) : GanttChart :=
  with_rows (pushGroups (collapsedGroups c) 0 (groups (chart_data c)) ([], 0%nat)).1 c.

(** *** buildTaskMap *)

Fixpoint taskMapLoop (i : nat) (rs : list Row) (m : gmap string nat) : gmap string nat :=
  match rs with
  | [] => m
  | r :: rest =>
      taskMapLoop (S i) rest (if is_task r then <[data_id (data r) := i]> m else m)
  end.

Definition buildTaskMap (c : GanttChart) : GanttChart :=
  with_taskMap (taskMapLoop 0 (rows c) ∅) c.

(** [this.taskMap[id]]: the row object the map refers to, for a key the
    renderer wrote. *)
Definition taskMap_get (c : GanttChart) (id : string) : option Row :=
  i ← taskMap c !! id; rows c !! i.

(** [this.rows.filter(r => r.visible)] *)
Definition visibleRows (rs : list Row) : list Row :=
  filter (fun r => visible r = true) rs.


(** ** Adaptive tick dates *)

Definition months : list string :=
  ["Jan"; "Feb"; "Mar"; "Apr"; "May"; "Jun"; "Jul"; "Aug"; "Sep"; "Oct"; "Nov"; "Dec"]%string.

Definition month_name (m : Z) : string := nth (Z.to_nat m) months ""%string.

(** The three label templates, with their holes. *)
Inductive TickLabel : Type :=
| MonthDay (month : string) (day : Z)
| MonthYear (month : string) (year : Z)
| QuarterYear (q : Z) (year : Z).

Record Tick : Type := mkTick {
  tick_date : Date;
  tick_label : TickLabel
}.

Definition qMonths : list Z := [0; 3; 6; 9].

Section Ticks.
Variable tz : Z -> Z.

(** [while (cur <= this.projectEnd) { ticks.push(..); cur.setDate(cur.getDate() + 7); }]
    [None]: the loop is still running when the fuel is spent. *)
Fixpoint weeklyLoop (fuel : nat) (cur projectEnd : Date) : option (list Tick) :=
  match fuel with
  | O => None
  | S fuel' =>
      if date_leb tz cur projectEnd then
        rest ← weeklyLoop fuel' (setDate cur (getDate cur + 7)) projectEnd;
        Some (mkTick cur (MonthDay (month_name (getMonth cur)) (getDate cur)) :: rest)
      else Some []
  end.

(** [while (cur <= this.projectEnd) { ticks.push(..); cur.setMonth(cur.getMonth() + 1); }] *)
Fixpoint monthlyLoop (fuel : nat) (cur projectEnd : Date) : option (list Tick) :=
  match fuel with
  | O => None
  | S fuel' =>
      if date_leb tz cur projectEnd then
        rest ← monthlyLoop fuel' (setMonth cur (getMonth cur + 1)) projectEnd;
        Some (mkTick cur (MonthYear (month_name (getMonth cur)) (getFullYear cur)) :: rest)
      else Some []
  end.

(** The body of [for (const qm of qMonths)] for one year. *)
Definition quarterTicks (projectStart projectEnd : Date) (yr : Z) : list Tick :=
  flat_map (fun qm =>
    let d := newDate yr qm 1 in
    if date_leb tz projectStart d && date_leb tz d projectEnd
    then [mkTick d (QuarterYear (qm / 3 + 1) yr)]
    else []) qMonths.

(** [for (let yr = start.getFullYear(); yr <= end.getFullYear(); yr++)] *)
Definition quarterlyTicks (projectStart projectEnd : Date) : list Tick :=
  flat_map (quarterTicks projectStart projectEnd)
    (seqZ (getFullYear projectStart)
          (getFullYear projectEnd - getFullYear projectStart + 1)).

Definition getTickDates (fuel : nat) (projectStart projectEnd : Date) (dayWidth : double)
    : option (list Tick) :=
  let pxPerWeek := fmul dayWidth (Fin 7) in
  let pxPerMonth := fmul dayWidth (Fin 30) in
  if fleb (Fin 40) pxPerWeek then
    let cur := projectStart in
    let cur := setDate cur (getDate cur - (getDay cur + 6) mod 7) in
    weeklyLoop fuel cur projectEnd
  else if fleb (Fin 40) pxPerMonth then
    let cur := newDate (getFullYear projectStart) (getMonth projectStart) 1 in
    monthlyLoop fuel cur projectEnd
  else
    let ticks := quarterlyTicks projectStart projectEnd in
    if (length ticks =? 0)%nat then
      Some [mkTick projectStart
              (MonthYear (month_name (getMonth projectStart)) (getFullYear projectStart))]
    else Some ticks.

End Ticks.

(** ** The rendered tree *)

Inductive PathCmd : Type :=
| M (x : double) (y : Z)
| H (x : double)
| V (y : Z).

(** SVG elements with their geometry: [rect] (x, y, width, height), [line]
    (x1, y1, x2, y2), [path] (d), [g] (children). *)
#[local] Unset Elimination Schemes.
Inductive SvgEl : Type :=
| SvgRect (x : double) (y : Z) (width : double) (height : Z)
| SvgLine (x1 : double) (y1 : Z) (x2 : double) (y2 : Z)
| SvgPath (d : list PathCmd)
| SvgG (children : list SvgEl).
#[local] Set Elimination Schemes.

(** A row of the left panel: [data-row-id], the classes [is-phase] /
    [is-task] and [is-collapsed], and, on phase rows, whether the toggle is
    drawn collapsed. *)
Record LeftRow : Type := mkLeftRow {
  lr_rowId : string;
  lr_isPhase : bool;
  lr_isCollapsed : bool;
  lr_toggle : option bool;
  lr_name : string;
  lr_start : DateFields;
  lr_end : DateFields;
  lr_effort : string
}.

(** A tick of the timeline header: the gridline at [x] and the label drawn
    at [x + 6]. *)
Record HeaderTick : Type := mkHeaderTick {
  ht_line : SvgEl;
  ht_textX : double;
  ht_text : TickLabel
}.

(** The header strip: its size, its background, the ticks and the rule at
    its bottom. *)
Record TimelineHeader : Type := mkTimelineHeader {
  th_width : Z;
  th_height : Z;
  th_background : SvgEl;
  th_ticks : list HeaderTick;
  th_rule : SvgEl
}.

Record SvgBody : Type := mkSvgBody {
  svg_width : Z;
  svg_height : Z;
  svg_grid : list SvgEl;
  svg_bars : list SvgEl;
  svg_dependencies : list SvgEl
}.

Record Dom : Type := mkDom {
  dom_left : list LeftRow;
  dom_header : TimelineHeader;
  dom_svg : SvgBody;
  dom_title : string;
  dom_dates : DateFields * DateFields
}.

(** [rightEl.clientWidth] and [window.innerWidth], read on every pass. *)
Record Viewport : Type := mkViewport {
  clientWidth : Z;
  innerWidth : Z
}.

(** [rightEl.clientWidth || (window.innerWidth - 560)] *)
Definition availableWidth (vp : Viewport) : Z :=
  if clientWidth vp =? 0 then innerWidth vp - 560 else clientWidth vp.

(** ** Rendering *)

Definition buildLeftRow (c : GanttChart) (row : Row) : LeftRow :=
  let isPhase := negb (is_task row) in
  let d := data row in
  mkLeftRow (data_id d) isPhase (negb (visible row))
    (if isPhase then Some (bool_decide (data_id d ∈ collapsedGroups c)) else None)
    (data_name d) (data_start d) (data_end d) (data_effort d).

Definition renderLeftPanel (c : GanttChart) : list LeftRow :=
  map (buildLeftRow c) (rows c).

Section Render.
Variable tz : Z -> Z.

Definition tickX (c : GanttChart) (t : Tick) : double :=
  fmax (Fin 0) (dateToX tz (tick_date t) (projectStart c) (dayWidth c)).

Definition renderTimelineHeader (fuel : nat) (c : GanttChart) : option TimelineHeader :=
  let svgH := TIMELINE_HEADER_H in
  ticks ← getTickDates tz fuel (projectStart c) (projectEnd c) (dayWidth c);
  Some (mkTimelineHeader (svgWidth c) svgH
          (SvgRect (Fin 0) 0 (of_Z (svgWidth c)) svgH)
          (map (fun t =>
             let x := tickX c t in
             mkHeaderTick (SvgLine x 0 x svgH) (fadd x (Fin 6)) (tick_label t)) ticks)
          (SvgLine (Fin 0) (svgH - 1) (of_Z (svgWidth c)) (svgH - 1))).

Definition buildPhaseBar (c : GanttChart) (row : Row) (y : Z) : SvgEl :=
  let d := data row in
  let x := dateToX tz (parseDate (data_start d)) (projectStart c) (dayWidth c) in
  let endX := fadd (dateToX tz (parseDate (data_end d)) (projectStart c) (dayWidth c))
                   (dayWidth c) in
  let w := fmax (fsub endX x) (Fin 4) in
  let barY := y + 8 in
  let barH := ROW_HEIGHT - 16 in
  SvgG [SvgRect x barY w barH].

Definition buildTaskBar (c : GanttChart) (row : Row) (y : Z) : SvgEl :=
  let d := data row in
  let x := dateToX tz (parseDate (data_start d)) (projectStart c) (dayWidth c) in
  let endX := fadd (dateToX tz (parseDate (data_end d)) (projectStart c) (dayWidth c))
                   (dayWidth c) in
  let w := fmax (fsub endX x) (Fin 4) in
  let barY := y + 10 in
  let barH := ROW_HEIGHT - 20 in
  SvgG [SvgRect x barY w barH].

(** A row that was never laid out has [visibleY] undefined and its path
    would carry NaN; the embedding has no path then.  [renderSVG] only
    routes between rows it has laid out. *)
Definition buildDependencyArrow (c : GanttChart) (fromRow toRow : Row) : option SvgEl :=
  fromVY ← visibleY fromRow;
  toVY ← visibleY toRow;
  let fromD := data fromRow in
  let toD := data toRow in
  let fromX := fadd (dateToX tz (parseDate (data_end fromD)) (projectStart c) (dayWidth c))
                    (dayWidth c) in
  let fromY := fromVY + ROW_HEIGHT / 2 in
  let toX := dateToX tz (parseDate (data_start toD)) (projectStart c) (dayWidth c) in
  let toY := toVY + ROW_HEIGHT / 2 in
  let pathD :=
    if fleb (fadd fromX (fmul ELBOW (Fin 2))) toX then
      [M fromX fromY; H (fadd fromX ELBOW); V toY; H toX]
    else
      let approachX := fmax ELBOW (fsub toX ELBOW) in
      let detourY :=
        if fromY <? toY then fromVY + ROW_HEIGHT + 4 else fromVY - 4 in
      [M fromX fromY; H (fadd fromX ELBOW); V detourY; H approachX; V toY; H toX] in
  Some (SvgPath pathD).

(** The bars loop of [renderSVG]: [visibleIdx] counts the visible rows seen
    so far; each visible row gets its [visibleY] written and contributes its
    background (odd task rows), its separator and its bar. *)
Fixpoint barsLoop (c : GanttChart) (visibleIdx : nat) (rs : list Row)
    : list Row * list SvgEl :=
  match rs with
  | [] => ([], [])
  | row :: rest =>
      if negb (visible row) then
        let '(rs', els) := barsLoop c visibleIdx rest in (row :: rs', els)
      else
        let y := Z.of_nat visibleIdx * ROW_HEIGHT in
        let bg :=
          if is_task row && (visibleIdx mod 2 =? 1)%nat
          then [SvgRect (Fin 0) y (of_Z (svgWidth c)) ROW_HEIGHT] else [] in
        let sep := SvgLine (Fin 0) (y + ROW_HEIGHT) (of_Z (svgWidth c)) (y + ROW_HEIGHT) in
        let bar :=
          match type row with
          | phase => buildPhaseBar c row y
          | task => buildTaskBar c row y
          end in
        let '(rs', els) := barsLoop c (S visibleIdx) rest in
        (set_visibleY y row :: rs', bg ++ [sep; bar] ++ els)
  end.

(** One iteration of [for (const depId of row.data.dependsOn)].  An id that
    is no key of the map reads as [undefined], or as a member of
    [Object.prototype], which has no [visible]: both are skipped. *)
Definition dependencyArrow (c : GanttChart) (row : Row) (depId : string) : list SvgEl :=
  match taskMap_get c depId with
  | None => []
  | Some depRow =>
      if negb (visible depRow) then []
      else match buildDependencyArrow c depRow row with
           | Some arrow => [arrow]
           | None => []
           end
  end.

(** One iteration of the arrows loop over [this.rows]; a missing or empty
    [dependsOn] is the empty list. *)
Definition rowArrows (c : GanttChart) (row : Row) : list SvgEl :=
  if negb (is_task row) || negb (visible row) then []
  else flat_map (dependencyArrow c row) (data_dependsOn (data row)).

Definition renderSVG (fuel : nat) (c : GanttChart) : option (GanttChart * SvgBody) :=
  let svgHeight := Z.of_nat (length (visibleRows (rows c))) * ROW_HEIGHT in
  ticks ← getTickDates tz fuel (projectStart c) (projectEnd c) (dayWidth c);
  let grid := map (fun t => let x := tickX c t in SvgLine x 0 x svgHeight) ticks in
  let '(rs, bars) := barsLoop c 0 (rows c) in
  let c' := with_rows rs c in
  let deps := flat_map (rowArrows c') (rows c') in
  Some (c', mkSvgBody (svgWidth c) svgHeight grid bars deps).

Definition constructor (sched : Schedule) : GanttChart :=
  let ps := parseDate (p_start (project sched)) in
  let pe := parseDate (p_end (project sched)) in
  mkChart sched ps pe (daysBetween tz ps pe + 1) (Fin 1) 0 [] ∅ ∅.

(** [render]: the panels are returned with the chart. *)
Definition render (fuel : nat) (vp : Viewport) (c : GanttChart) : option (GanttChart * Dom) :=
  let w := availableWidth vp in
  let c := with_width (fdiv (of_Z w) (of_Z (totalDays c))) w c in
  let c := buildRows c in
  let c := buildTaskMap c in
  let left := renderLeftPanel c in
  header ← renderTimelineHeader fuel c;
  '(c, svg) ← renderSVG fuel c;
  Some (c, mkDom left header svg (p_name (project (chart_data c)))
             (p_start (project (chart_data c)), p_end (project (chart_data c)))).

Definition toggleSet (groupId : string) (s : gset string) : gset string :=
  if bool_decide (groupId ∈ s) then s ∖ {[groupId]} else s ∪ {[groupId]}.

Definition toggleGroup (fuel : nat) (vp : Viewport) (groupId : string) (c : GanttChart)
    : option (GanttChart * Dom) :=
  render fuel vp (with_collapsed (toggleSet groupId (collapsedGroups c)) c).

End Render.

End Gantt.

(** ** Vocabulary for the tick dates *)

Module TickSpec.
Import Calendar JsDate Gantt.

(** The fields of a calendar date written YYYY-MM-DD. *)
Definition calendar_date (f : DateFields) : Prop :=
  0 <= df_year f /\ 1 <= df_month f <= 12 /\ 1 <= df_day f <= 31.

(** Every element is smaller than all the later ones. *)
Fixpoint increasing (l : list Z) : Prop :=
  match l with
  | [] => True
  | a :: rest => Forall (fun b => a < b) rest /\ increasing rest
  end.

(** Months counted from January of year 0, and the first day of a month. *)
Definition monthIndex (d : Date) : Z := 12 * getFullYear d + getMonth d.
Definition firstOfMonth (k : Z) : Date := MakeDay 0 k 1.

(** The Monday on or before a date. *)
Definition mondayOnOrBefore (d : Date) : Date := d - (getDay d + 6) mod 7.

(** The ticks the weekly and the monthly loop push for a date [cur], and
    the quarterly tick for a quarter start. *)
Definition weekTick (cur : Date) : Tick :=
  mkTick cur (MonthDay (month_name (getMonth cur)) (getDate cur)).
Definition monthTick (cur : Date) : Tick :=
  mkTick cur (MonthYear (month_name (getMonth cur)) (getFullYear cur)).
Definition quarterTick (d : Date) : Tick :=
  mkTick d (QuarterYear (getMonth d / 3 + 1) (getFullYear d)).

(** The range test of the quarterly loop, and the month indices of the
    four quarter starts of a year. *)
Definition in_range (ps pe d : Z) : Prop := ps <= d <= pe.

#[export] Instance in_range_dec ps pe d : Decision (in_range ps pe d).
Proof. unfold in_range. apply _. Defined.

Definition quarterIndices (yr : Z) : list Z :=
  [12 * yr; 12 * yr + 3; 12 * yr + 6; 12 * yr + 9].

(** A quarter boundary (1 January, April, July or October) of the range. *)
Definition quarter_start_in (projectStart projectEnd d : Date) : Prop :=
  getDate d = 1 /\ getMonth d ∈ qMonths /\ projectStart <= d <= projectEnd.

End TickSpec.

(** ** The flattener as the specification words it *)

Module Flattener.
Import Gantt.

(** For each task in group order, one task row; [n] is the ordinal of the
    first one. *)
Fixpoint flattenTasks (collapsed : bool) (gi ti n : nat) (tasks : list Task) : list Row :=
  match tasks with
  | [] => []
  | t :: rest =>
      mkRow task gi (Some ti) (TaskData t) n (negb collapsed) None
        :: flattenTasks collapsed gi (S ti) (S n) rest
  end.

(** For each group in schedule order, one phase row, then its task rows. *)
Fixpoint flattenGroups (collapsedSet : gset string) (gi n : nat) (gs : list Group)
    : list Row :=
  match gs with
  | [] => []
  | g :: rest =>
      mkRow phase gi None (GroupData g) n true None
        :: flattenTasks (bool_decide (g_id g ∈ collapsedSet)) gi 0 (S n) (g_tasks g)
        ++ flattenGroups collapsedSet (S gi) (S n + length (g_tasks g)) rest
  end.

Definition flatten (sched : Schedule) (collapsedSet : gset string) : list Row :=
  flattenGroups collapsedSet 0 0 (groups sched).

(** The rows of a schedule in document order, as the data they wrap. *)
Definition document_order (sched : Schedule) : list RowData :=
  flat_map (fun g => GroupData g :: map TaskData (g_tasks g)) (groups sched).

(** The shape of a row of the flattened list of the groups [gs], the first
    of which has index [gi0]. *)
Definition row_of_schedule (cs : gset string) (gs : list Group) (gi0 : nat) (r : Row) : Prop :=
  match data r with
  | GroupData g =>
      type r = phase /\ taskIdx r = None /\ visible r = true /\
      (gi0 <= groupIdx r)%nat /\ gs !! (groupIdx r - gi0)%nat = Some g
  | TaskData t =>
      type r = task /\
      exists g ti, (gi0 <= groupIdx r)%nat /\ gs !! (groupIdx r - gi0)%nat = Some g /\
        taskIdx r = Some ti /\ g_tasks g !! ti = Some t /\
        visible r = negb (bool_decide (g_id g ∈ cs))
  end.

End Flattener.

(** ** Geometry of a path *)

Module Geometry.
Import JsDate Double Gantt.

(** A straight piece of a path, from its start point to its end point. *)
Record Segment : Type := mkSegment {
  seg_x1 : double;
  seg_y1 : Z;
  seg_x2 : double;
  seg_y2 : Z
}.

(** The segments the commands draw, the pen being at [(x, y)]. *)
Fixpoint trace (x : double) (y : Z) (cmds : list PathCmd) : list Segment :=
  match cmds with
  | [] => []
  | M x' y' :: rest => trace x' y' rest
  | H x' :: rest => mkSegment x y x' y :: trace x' y rest
  | V y' :: rest => mkSegment x y x y' :: trace x y' rest
  end.

Definition segments (d : list PathCmd) : list Segment := trace (Fin 0) 0 d.





(** The last segment is horizontal and runs towards larger x. *)
Definition ends_rightward (d : list PathCmd) : Prop :=
  exists s, last (segments d) = Some s /\
            seg_y1 s = seg_y2 s /\ dlt (seg_x1 s) (seg_x2 s).


Section Bar.
Variable tz : Z -> Z.
Variable c : GanttChart.
Variable row : Row.

(** The left edge [x], the right edge [endX] before clamping, and the
    width [w] that [buildPhaseBar] and [buildTaskBar] compute for [row]. *)
Definition bar_x : double :=
  dateToX tz (parseDate (data_start (data row))) (projectStart c) (dayWidth c).
Definition bar_endX : double :=
  fadd (dateToX tz (parseDate (data_end (data row))) (projectStart c) (dayWidth c))
       (dayWidth c).
Definition bar_width : double := fmax (fsub bar_endX bar_x) (Fin 4).

(** The start point of the arrows that leave [row] and the end point of the
    arrows that reach it, for a row laid out at [vy]. *)
Definition arrow_fromX : double := bar_endX.
Definition arrow_toX : double := bar_x.
Definition row_centerY (vy : Z) : Z := vy + ROW_HEIGHT / 2.

End Bar.

End Geometry.

(** ** Vocabulary for render passes *)

Module RenderSpec.
Import Calendar JsDate Double Gantt.

(** What the constructor derives from the schedule stays in force for the
    life of the chart: no method writes these fields. *)
Definition constructed (tz : Z -> Z) (c : GanttChart) : Prop :=
  projectStart c = parseDate (p_start (project (chart_data c))) /\
  projectEnd c = parseDate (p_end (project (chart_data c))) /\
  totalDays c = daysBetween tz (projectStart c) (projectEnd c) + 1.

(** The fields of the chart that a render pass reads before writing. *)
Definition same_inputs (c1 c2 : GanttChart) : Prop :=
  chart_data c1 = chart_data c2 /\
  projectStart c1 = projectStart c2 /\
  projectEnd c1 = projectEnd c2 /\
  totalDays c1 = totalDays c2 /\
  collapsedGroups c1 = collapsedGroups c2.

(** The chart when [render] reaches the panels: widths set, rows and task
    map rebuilt. *)
Definition prepared (vp : Viewport) (c : GanttChart) : GanttChart :=
  let w := availableWidth vp in
  buildTaskMap (buildRows (with_width (fdiv (of_Z w) (of_Z (totalDays c))) w c)).

(** The rows as the bars loop leaves them: the visible ones get their
    offset, [visibleIdx] counting from [k]. *)
Fixpoint layoutRows (k : nat) (rs : list Row) : list Row :=
  match rs with
  | [] => []
  | r :: rest =>
      if visible r
      then set_visibleY (Z.of_nat k * ROW_HEIGHT) r :: layoutRows (S k) rest
      else r :: layoutRows k rest
  end.

(** The id of the group a row belongs to, and the task rows of the groups
    with id [g]. *)
Definition row_group_id (sched : Schedule) (r : Row) : option string :=
  g_id <$> groups sched !! groupIdx r.

Definition task_row_of (sched : Schedule) (g : string) (r : Row) : Prop :=
  is_task r = true /\ row_group_id sched r = Some g.

#[export] Instance task_row_of_dec sched g r : Decision (task_row_of sched g r).
Proof. unfold task_row_of. apply _. Defined.

(** A row without its layout: what [buildRows] made. *)
Definition unlaid (r : Row) : Row :=
  mkRow (type r) (groupIdx r) (taskIdx r) (data r) (rowIndex r) (visible r) None.

(** The ids of all tasks of a schedule. *)
Definition task_ids (sched : Schedule) : list string :=
  flat_map (fun g => map t_id (g_tasks g)) (groups sched).

(** The arrow the arrows loop appends for one dependency id of a row. *)
Definition edgeArrow (tz : Z -> Z) (c : GanttChart) (row : Row) (depId : string)
    : list SvgEl :=
  if negb (is_task row) || negb (visible row) then []
  else dependencyArrow tz c row depId.

(** Record updates. *)
Definition with_dependsOn (deps : list string) (t : Task) : Task :=
  mkTask (t_id t) (t_name t) (t_start t) (t_end t) (t_effort t) deps.
Definition with_tasks (ts : list Task) (g : Group) : Group :=
  mkGroup (g_id g) (g_name g) (g_start g) (g_end g) (g_effort g) ts.
Definition with_data (sched : Schedule) (c : GanttChart) : GanttChart :=
  mkChart sched (projectStart c) (projectEnd c) (totalDays c)
    (dayWidth c) (svgWidth c) (rows c) (collapsedGroups c) (taskMap c).

(** The schedule in which the task [t0] of the group [g0] has the
    dependencies [deps]. *)
Definition schedule_with_deps (p : Project) (gs1 : list Group) (g0 : Group)
    (ts1 : list Task) (t0 : Task) (ts2 : list Task) (gs2 : list Group)
    (deps : list string) : Schedule :=
  mkSchedule p (gs1 ++ with_tasks (ts1 ++ with_dependsOn deps t0 :: ts2) g0 :: gs2).

(** Rows, tasks and groups that agree on everything the layout reads
    except the dependency lists; [deps_rel] relates a list with the
    dependency [depId] at some place to the list without it. *)
Definition data_sim (d d0 : RowData) : Prop :=
  data_id d = data_id d0 /\ data_name d = data_name d0 /\
  data_start d = data_start d0 /\ data_end d = data_end d0 /\
  data_effort d = data_effort d0.

Definition row_sim (r r0 : Row) : Prop :=
  type r = type r0 /\ groupIdx r = groupIdx r0 /\ taskIdx r = taskIdx r0 /\
  rowIndex r = rowIndex r0 /\ visible r = visible r0 /\ visibleY r = visibleY r0 /\
  data_sim (data r) (data r0).

Definition deps_rel (depId : string) (l l0 : list string) : Prop :=
  exists l1 l2, l = l1 ++ depId :: l2 /\ l0 = l1 ++ l2.

Definition row_rel (depId : string) (vis : bool) (r r0 : Row) : Prop :=
  row_sim r r0 /\
  (data_dependsOn (data r) = data_dependsOn (data r0) \/
   (visible r = vis /\ deps_rel depId (data_dependsOn (data r)) (data_dependsOn (data r0)))).

Definition task_rel (depId : string) (special : Prop) (t t0 : Task) : Prop :=
  t_id t = t_id t0 /\ t_name t = t_name t0 /\ t_start t = t_start t0 /\
  t_end t = t_end t0 /\ t_effort t = t_effort t0 /\
  (t_dependsOn t = t_dependsOn t0 \/
   (special /\ deps_rel depId (t_dependsOn t) (t_dependsOn t0))).

Definition group_rel (depId gid : string) (g g0 : Group) : Prop :=
  g_id g = g_id g0 /\ g_name g = g_name g0 /\ g_start g = g_start g0 /\
  g_end g = g_end g0 /\ g_effort g = g_effort g0 /\
  Forall2 (task_rel depId (g_id g = gid)) (g_tasks g) (g_tasks g0).

(** Charts that agree on everything but the schedule and the rows, whose
    rows agree up to [row_sim]. *)
Definition chart_sim (c c0 : GanttChart) : Prop :=
  projectStart c = projectStart c0 /\ projectEnd c = projectEnd c0 /\
  totalDays c = totalDays c0 /\ dayWidth c = dayWidth c0 /\
  svgWidth c = svgWidth c0 /\ collapsedGroups c = collapsedGroups c0 /\
  taskMap c = taskMap c0 /\ Forall2 row_sim (rows c) (rows c0).

End RenderSpec.

(** ** Example schedules *)

Module Examples.
Import JsDate Gantt.

Definition d_2024_01 (day : Z) : DateFields := mkDateFields 2024 1 day.

(** The scenario of the specification: January 2024, one phase, one task
    from the 5th to the 10th. *)
Definition task_1_1 : Task :=
  mkTask "task-1-1" "Design" (d_2024_01 5) (d_2024_01 10) "6d" [].

Definition scenario_schedule : Schedule :=
  mkSchedule (mkProject "Plan" (d_2024_01 1) (d_2024_01 31))
    [mkGroup "phase-1" "Phase 1" (d_2024_01 1) (d_2024_01 31) "31d" [task_1_1]].

Definition viewport_310 : Viewport := mkViewport 310 1280.

(** The chart of the scenario when [render] reaches the panels. *)
Definition scenario_chart : GanttChart :=
  RenderSpec.prepared viewport_310 (constructor tz_summer scenario_schedule).

(** A task whose end date precedes its start date. *)
Definition inverted_task : Task :=
  mkTask "task-1-9" "Backwards" (d_2024_01 12) (d_2024_01 10) "0d" [].
Definition inverted_row : Row :=
  mkRow task 0 (Some 0%nat) (TaskData inverted_task) 1 true None.

(** A task that starts and ends on the same day. *)
Definition sameday_task : Task :=
  mkTask "task-1-1" "Review" (d_2024_01 5) (d_2024_01 5) "1d" [].

Definition sameday_schedule : Schedule :=
  mkSchedule (mkProject "Plan" (d_2024_01 1) (d_2024_01 31))
    [mkGroup "phase-1" "Phase 1" (d_2024_01 1) (d_2024_01 31) "31d" [sameday_task]].

(** A project of six days. *)
Definition sixday_schedule : Schedule :=
  mkSchedule (mkProject "Week" (d_2024_01 1) (d_2024_01 6))
    [mkGroup "phase-1" "Phase 1" (d_2024_01 1) (d_2024_01 6) "6d"
       [mkTask "task-1-1" "Work" (d_2024_01 1) (d_2024_01 6) "6d" []]].

(** A project whose end date is the day before its start date. *)
Definition void_schedule : Schedule :=
  mkSchedule (mkProject "Void" (d_2024_01 2) (d_2024_01 1))
    [mkGroup "phase-1" "Phase 1" (d_2024_01 2) (d_2024_01 2) "1d" []].

(** A plan with an overlapping dependency (task-1-2 on task-1-1), a clear
    one (task-1-3 on task-1-1), a dependency on an unknown id, and one across
    phases. *)
Definition task_1_2 : Task :=
  mkTask "task-1-2" "Build" (d_2024_01 8) (d_2024_01 20) "13d" ["task-1-1"].
Definition task_1_3 : Task :=
  mkTask "task-1-3" "Test" (d_2024_01 15) (d_2024_01 25) "11d" ["task-1-1"; "task-9-9"].
Definition task_2_1 : Task :=
  mkTask "task-2-1" "Ship" (d_2024_01 28) (d_2024_01 31) "4d" ["task-1-3"].

Definition plan_schedule : Schedule :=
  mkSchedule (mkProject "Plan" (d_2024_01 1) (d_2024_01 31))
    [mkGroup "phase-1" "Phase 1" (d_2024_01 1) (d_2024_01 25) "25d"
       [task_1_1; task_1_2; task_1_3];
     mkGroup "phase-2" "Phase 2" (d_2024_01 28) (d_2024_01 31) "4d" [task_2_1]].

(** The chart of the plan when [render] reaches the panels. *)
Definition plan_chart : GanttChart :=
  RenderSpec.prepared viewport_310 (constructor tz_summer plan_schedule).

Definition plan_row_1 : Row :=
  mkRow task 0 (Some 0%nat) (TaskData task_1_1) 1 true None.

(** A successor that starts on the first day of the project, while its
    predecessor is still running. *)
Definition early_pred : Task :=
  mkTask "task-1-1" "Design" (d_2024_01 1) (d_2024_01 3) "3d" [].
Definition early_succ : Task :=
  mkTask "task-1-2" "Build" (d_2024_01 1) (d_2024_01 5) "5d" ["task-1-1"].

Definition early_schedule : Schedule :=
  mkSchedule (mkProject "Plan" (d_2024_01 1) (d_2024_01 31))
    [mkGroup "phase-1" "Phase 1" (d_2024_01 1) (d_2024_01 31) "31d"
       [early_pred; early_succ]].




End Examples.

(** ** Texts of the left panel *)

Module Text.
Import Calendar JsDate Gantt.

(** The rest of a string after its first [n] characters. *)
Fixpoint string_skip (n : nat) (s : string) : string :=
  match n, s with
  | O, _ => s
  | S n', String _ s' => string_skip n' s'
  | S _, EmptyString => EmptyString
  end.

(** [s.replace(pat, rep)] for a string pattern: the first occurrence of
    [pat] is replaced, the others stay.  (The replacement strings of the
    renderer hold no [$] pattern.) *)
Fixpoint replace_first (pat rep s : string) : string :=
  if String.prefix pat s then (rep ++ string_skip (String.length pat) s)%string
  else match s with
       | EmptyString => EmptyString
       | String c s' => String c (replace_first pat rep s')
       end.

(** The text of the [row-id] cell of [buildLeftRow]: empty on a phase row,
    [d.id.replace('task-', '').replace('-', '.')] on a task row. *)
Definition rowIdText (row : Row) : string :=
  if is_task row
  then replace_first "-" "." (replace_first "task-" "" (data_id (data row)))
  else ""%string.

(** The format of the dates of a schedule, YYYY-MM-DD, as a string: four
    digits, two digits, two digits. *)
Definition digit_char (k : Z) : ascii := ascii_of_nat (48 + Z.to_nat k).

Definition two_digits (n : Z) : string :=
  String (digit_char (n / 10)) (String (digit_char (n mod 10)) EmptyString).

Definition four_digits (n : Z) : string :=
  String (digit_char (n / 1000))
    (String (digit_char (n / 100 mod 10))
       (String (digit_char (n / 10 mod 10))
          (String (digit_char (n mod 10)) EmptyString))).

Definition iso_date (f : DateFields) : string :=
  (four_digits (df_year f) ++ "-" ++ two_digits (df_month f) ++ "-"
   ++ two_digits (df_day f))%string.

End Text.

(** ** The stream reader of the chat panel (public/js/chat.js) *)

Module Stream.

Definition newline : ascii := "010"%char.

(** [s.split(sep)] for a separator of one character; [cur] is the piece
    being read. *)
Fixpoint split_on (sep : ascii) (cur : string) (s : string) : list string :=
  match s with
  | EmptyString => [cur]
  | String c s' =>
      if Ascii.eqb c sep then cur :: split_on sep EmptyString s'
      else split_on sep (cur ++ String c EmptyString)%string s'
  end.

(** [buffer.split('\n')] *)
Definition splitLines (s : string) : list string := split_on newline EmptyString s.

(** One turn of the read loop of [sendMessage], on the decoded text of a
    chunk: [buffer += chunk; lines = buffer.split('\n'); buffer = lines.pop()].
    It returns the complete lines, which the loop goes on to handle, and the
    buffer it keeps. *)
Definition readStep (buffer chunk : string) : list string * string :=
  let lines := splitLines (buffer ++ chunk)%string in
  (removelast lines, List.last lines EmptyString).

(** The turns of the loop over the chunks of a response. *)
Fixpoint readLoop (buffer : string) (chunks : list string) : list string * string :=
  match chunks with
  | [] => ([], buffer)
  | chunk :: rest =>
      let '(lines, buffer') := readStep buffer chunk in
      let '(lines', buffer'') := readLoop buffer' rest in
      (lines ++ lines', buffer'')
  end.

(** The whole text of a list of chunks. *)
Definition joined (chunks : list string) : string :=
  fold_right String.append EmptyString chunks.

End Stream.

(** ** Vocabulary for the task map *)

Module TaskMapSpec.
Import Gantt.

(** A task row that carries the id [id]. *)
Definition task_with_id (id : string) (r : Row) : Prop :=
  is_task r = true /\ data_id (data r) = id.

#[export] Instance task_with_id_dec id r : Decision (task_with_id id r).
Proof. unfold task_with_id. apply _. Defined.

End TaskMapSpec.

(** ** Reading the drawn elements *)

Module Drawing.
Import Double Gantt.

(** The x at which a vertical line is drawn. *)
Definition line_x (e : SvgEl) : double :=
  match e with
  | SvgLine x1 _ _ _ => x1
  | _ => Fin 0
  end.

(** The x of the gridlines of a rendered body, in drawing order. *)
Definition grid_xs (dom : Dom) : list double := map line_x (svg_grid (dom_svg dom)).

(** The bar groups among drawn elements, and the rectangle of a group. *)
Definition is_group (e : SvgEl) : Prop :=
  match e with SvgG _ => True | _ => False end.

#[export] Instance is_group_dec e : Decision (is_group e).
Proof. destruct e; simpl; apply _. Defined.

Definition bar_groups (dom : Dom) : list SvgEl :=
  filter is_group (svg_bars (dom_svg dom)).

(** The x arguments ([M], [H]) and the y arguments ([M], [V]) of a path:
    the coordinates of its corner points. *)
Definition path_xs (d : list PathCmd) : list double :=
  flat_map (fun cmd => match cmd with M x _ => [x] | H x => [x] | V _ => [] end) d.

Definition path_ys (d : list PathCmd) : list Z :=
  flat_map (fun cmd => match cmd with M _ y => [y] | H _ => [] | V y => [y] end) d.

(** A row whose start and end dates are days of the project. *)
Definition within_project (c : GanttChart) (r : Row) : Prop :=
  projectStart c <= parseDate (data_start (data r)) <= projectEnd c /\
  projectStart c <= parseDate (data_end (data r)) <= projectEnd c.

(** The rows of the left panel that are not hidden. *)
Definition shown_left_rows (dom : Dom) : list LeftRow :=
  filter (fun lr => lr_isCollapsed lr = false) (dom_left dom).

End Drawing.

(** ** Loading a project *)

Module Page.
Import Calendar JsDate Gantt.

(** [loadGanttProject(data)]: a new chart of the schedule, rendered once.
    (Showing the container and hiding the empty state are left out.)  The
    resize listener it installs calls [render] on the same chart. *)
Definition loadGanttProject (tz : Z -> Z) (fuel : nat) (vp : Viewport) (data : Schedule)
    : option (GanttChart * Dom) :=
  render tz fuel vp (constructor tz data).

End Page.

(** ** More example schedules *)

Module MoreExamples.
Import JsDate Gantt.

(** The year 2024 in one phase, for a pass in the monthly tier (2 pixels a
    day at a width of 732). *)
Definition year_schedule : Schedule :=
  mkSchedule (mkProject "Year" (mkDateFields 2024 1 1) (mkDateFields 2024 12 31))
    [mkGroup "phase-1" "Phase 1" (mkDateFields 2024 1 1) (mkDateFields 2024 12 31) "366d"
       [mkTask "task-1-1" "Design" (mkDateFields 2024 2 1) (mkDateFields 2024 3 15) "44d" []]].

Definition viewport_732 : Viewport := mkViewport 732 1400.

(** A schedule without groups. *)
Definition empty_schedule : Schedule :=
  mkSchedule (mkProject "Empty" (Examples.d_2024_01 1) (Examples.d_2024_01 31)) [].

(** A project of a single day. *)
Definition oneday_schedule : Schedule :=
  mkSchedule (mkProject "Day" (Examples.d_2024_01 15) (Examples.d_2024_01 15))
    [mkGroup "phase-1" "Phase 1" (Examples.d_2024_01 15) (Examples.d_2024_01 15) "1d"
       [mkTask "task-1-1" "Launch" (Examples.d_2024_01 15) (Examples.d_2024_01 15) "1d" []]].

(** A container that reports no width in a window of 500 pixels. *)
Definition viewport_hidden : Viewport := mkViewport 0 500.

End MoreExamples.

(** * Facts *)

(** ** The embedding on a few inputs *)

Module Sanity.
Import Calendar JsDate Double Gantt.

Example splitDate_2024_01_05 :
  splitDate "2024-01-05" = Some (mkDateFields 2024 1 5).
Proof. reflexivity. Qed.

Example parseDate_epoch :
  parseDateString "1970-01-01" = Some 0 /\ getDay 0 = 4.
Proof. split; reflexivity. Qed.

(** 1 January 2024 was a Monday. *)
Example parseDate_2024_01_01 :
  parseDateString "2024-01-01" = Some 19723 /\
  getFullYear 19723 = 2024 /\ getMonth 19723 = 0 /\ getDate 19723 = 1 /\
  getDay 19723 = 1.
Proof. repeat split; reflexivity. Qed.

Example parseDate_leap_day :
  parseDateString "2024-02-29" = Some 19782 /\
  getMonth 19782 = 1 /\ getDate 19782 = 29 /\
  parseDateString "2024-03-01" = Some 19783.
Proof. repeat split; reflexivity. Qed.

(** A day past the end of the month carries over. *)
Example parseDate_carries_over :
  parseDateString "2023-02-31" = parseDateString "2023-03-03".
Proof. reflexivity. Qed.

(** [new Date] reads the years 0..99 as 1900..1999. *)
Example parseDate_two_digit_year :
  getFullYear (parseDate (mkDateFields 99 12 31)) = 1999 /\
  getFullYear (parseDate (mkDateFields 100 1 1)) = 100.
Proof. split; reflexivity. Qed.

(** [Math.round] sends a tie up: half a day forwards is a day, half a day
    backwards is none. *)
Example MathRound_ties :
  MathRound_div 43200000 86400000 = 1 /\ MathRound_div (-43200000) 86400000 = 0.
Proof. split; reflexivity. Qed.

(** A night of summer time is one hour short and still counts as a day. *)
Example daysBetween_across_summer_time :
  valueOf tz_summer 19790 - valueOf tz_summer 19789 = 82800000 /\
  daysBetween tz_summer 19789 19790 = 1.
Proof. split; reflexivity. Qed.

(** The arithmetic of the doubles against the machine's: the day width of
    6 days at 100 pixels, the right edge of the last of these days, a bar
    edge at 50 pixels for 21 days, the test that decides the arrow route at
    200 pixels for 30 days (80.00000000000001 + 20 <= 100 fails), a tie, a subnormal, an overflow and the
    divisions by zero. *)
Example machine_day_width :
  fdiv (of_Z 100) (of_Z 6) = of_float (PrimFloat.div (float_of_Z 100) (float_of_Z 6)) /\
  fdiv (of_Z 100) (of_Z 6) = Fin (4691249611844267 # 281474976710656).
Proof. split; vm_compute; reflexivity. Qed.

Example machine_right_edge :
  let dw := fdiv (of_Z 100) (of_Z 6) in
  let dw' := PrimFloat.div (float_of_Z 100) (float_of_Z 6) in
  fadd (fmul (of_Z 5) dw) dw = of_float (PrimFloat.add (PrimFloat.mul (float_of_Z 5) dw') dw').
Proof. vm_compute. reflexivity. Qed.

Example machine_bar_edge :
  let dw := fdiv (of_Z 50) (of_Z 21) in
  let dw' := PrimFloat.div (float_of_Z 50) (float_of_Z 21) in
  fmul (of_Z 3) dw = of_float (PrimFloat.mul (float_of_Z 3) dw') /\
  fadd (fmul (of_Z 18) dw) dw = of_float (PrimFloat.add (PrimFloat.mul (float_of_Z 18) dw') dw') /\
  fsub (fadd (fmul (of_Z 18) dw) dw) (fmul (of_Z 3) dw) =
  of_float (PrimFloat.sub (PrimFloat.add (PrimFloat.mul (float_of_Z 18) dw') dw')
              (PrimFloat.mul (float_of_Z 3) dw')).
Proof. repeat split; vm_compute; reflexivity. Qed.

Example machine_route_test :
  let dw := fdiv (of_Z 200) (of_Z 30) in
  let dw' := PrimFloat.div (float_of_Z 200) (float_of_Z 30) in
  let fromX := fadd (fmul (of_Z 11) dw) dw in
  let fromX' := PrimFloat.add (PrimFloat.mul (float_of_Z 11) dw') dw' in
  fromX = of_float fromX' /\
  fromX = Fin (5629499534213121 # 70368744177664) /\
  fmul (of_Z 15) dw = Fin 100 /\
  fleb (fadd fromX (fmul (Fin 10) (Fin 2))) (fmul (of_Z 15) dw) = false /\
  PrimFloat.leb (PrimFloat.add fromX' (PrimFloat.mul (float_of_Z 10) (float_of_Z 2)))
                (PrimFloat.mul (float_of_Z 15) dw') = false.
Proof. repeat split; vm_compute; reflexivity. Qed.

Example machine_tie_to_even :
  of_Z (2 ^ 53 + 1) = of_float (float_of_Z (2 ^ 53 + 1)) /\
  of_Z (2 ^ 53 + 1) = Fin (inject_Z (2 ^ 53)) /\
  of_Z (2 ^ 53 + 3) = of_float (float_of_Z (2 ^ 53 + 3)) /\
  of_Z (2 ^ 53 + 3) = Fin (inject_Z (2 ^ 53 + 4)).
Proof. repeat split; vm_compute; reflexivity. Qed.

Example machine_subnormal :
  let tiny := fdiv (fdiv (of_Z 3) (of_Z (2 ^ 1000))) (of_Z (2 ^ 74)) in
  let tiny' := PrimFloat.div (PrimFloat.div (float_of_Z 3) (float_of_Z (2 ^ 1000)))
                 (float_of_Z (2 ^ 74)) in
  tiny = of_float tiny' /\
  tiny = Fin (Qred (3 * pow2 (-1074))) /\
  fdiv tiny (Fin 2) = of_float (PrimFloat.div tiny' (float_of_Z 2)) /\
  fdiv tiny (Fin 4) = of_float (PrimFloat.div tiny' (float_of_Z 4)) /\
  fdiv tiny (Fin 8) = of_float (PrimFloat.div tiny' (float_of_Z 8)).
Proof. repeat split; vm_compute; reflexivity. Qed.

Example machine_overflow :
  fmul (of_Z (2 ^ 1000)) (of_Z (2 ^ 24)) = PInf /\
  of_float (PrimFloat.mul (float_of_Z (2 ^ 1000)) (float_of_Z (2 ^ 24))) = PInf /\
  fmul (of_Z (2 ^ 1000)) (of_Z (2 ^ 23)) =
  of_float (PrimFloat.mul (float_of_Z (2 ^ 1000)) (float_of_Z (2 ^ 23))).
Proof. repeat split; vm_compute; reflexivity. Qed.

Example machine_division_by_zero :
  fdiv (of_Z 310) (of_Z 0) = of_float (PrimFloat.div (float_of_Z 310) (float_of_Z 0)) /\
  fdiv (of_Z 0) (of_Z 0) = of_float (PrimFloat.div (float_of_Z 0) (float_of_Z 0)) /\
  fmul (of_Z 0) PInf =
  of_float (PrimFloat.mul (float_of_Z 0) (PrimFloat.div (float_of_Z 1) (float_of_Z 0))) /\
  fmax (fsub NaN NaN) (Fin 4) = NaN.
Proof. repeat split; vm_compute; reflexivity. Qed.

End Sanity.

(** ** Facts of the calendar *)

Module CalendarFacts.
Import Calendar.

Lemma DayFromYear_succ y : DayFromYear (y + 1) = DayFromYear y + DaysInYear y.
Proof.
  unfold DayFromYear, DaysInYear.
  replace (y + 1 - 1969) with (y - 1968) by lia.
  replace (y + 1 - 1901) with (y - 1900) by lia.
  replace (y + 1 - 1601) with (y - 1600) by lia.
  replace (y + 1 - 1970) with (y - 1969) by lia.
  destruct (Z.eqb_spec (y mod 4) 0); destruct (Z.eqb_spec (y mod 100) 0);
    destruct (Z.eqb_spec (y mod 400) 0); simpl;
    Z.to_euclidean_division_equations; lia.
Qed.

Lemma DaysInYear_range y : 365 <= DaysInYear y <= 366.
Proof.
  unfold DaysInYear.
  destruct (y mod 4 =? 0), (y mod 100 =? 0), (y mod 400 =? 0); simpl; lia.
Qed.

Lemma DayFromYear_lt y : DayFromYear y < DayFromYear (y + 1).
Proof. rewrite DayFromYear_succ. pose proof (DaysInYear_range y). lia. Qed.

Lemma DayFromYear_mono y y' : y <= y' -> DayFromYear y <= DayFromYear y'.
Proof.
  intros H. unfold DayFromYear. Z.to_euclidean_division_equations. lia.
Qed.

Lemma YearFromDay_spec n :
  DayFromYear (YearFromDay n) <= n < DayFromYear (YearFromDay n + 1).
Proof.
  unfold YearFromDay.
  set (y := 1970 + 400 * n / 146097).
  assert (Hlo : DayFromYear (y - 1) <= n).
  { subst y. unfold DayFromYear. Z.to_euclidean_division_equations. lia. }
  assert (Hhi : n < DayFromYear (y + 2)).
  { subst y. unfold DayFromYear. Z.to_euclidean_division_equations. lia. }
  destruct (Z.ltb_spec n (DayFromYear y)).
  - replace (y - 1 + 1) with y by lia. lia.
  - destruct (Z.leb_spec (DayFromYear (y + 1)) n).
    + replace (y + 1 + 1) with (y + 2) by lia. lia.
    + lia.
Qed.

End CalendarFacts.

(** ** Facts of the date fields *)

Module DateFacts.
Import Calendar CalendarFacts JsDate.

Lemma DayWithinYear_range n : 0 <= DayWithinYear n < DaysInYear (YearFromDay n).
Proof.
  unfold DayWithinYear. pose proof (YearFromDay_spec n) as H.
  rewrite DayFromYear_succ in H. lia.
Qed.

Lemma DaysInYear_leap y : DaysInYear y = 365 + InLeapYear y.
Proof.
  unfold InLeapYear. pose proof (DaysInYear_range y).
  destruct (Z.eqb_spec (DaysInYear y) 366); lia.
Qed.

Lemma InLeapYear_range y : 0 <= InLeapYear y <= 1.
Proof. unfold InLeapYear. destruct (DaysInYear y =? 366); lia. Qed.

Lemma YearFromDay_unique n y :
  DayFromYear y <= n < DayFromYear (y + 1) -> YearFromDay n = y.
Proof.
  intros H. pose proof (YearFromDay_spec n) as Hs.
  destruct (Z.lt_trichotomy (YearFromDay n) y) as [Hlt | [Heq | Hgt]]; [| done |].
  - pose proof (DayFromYear_mono (YearFromDay n + 1) y). lia.
  - pose proof (DayFromYear_mono (y + 1) (YearFromDay n)). lia.
Qed.

Lemma YearFromDay_mono n n' : n <= n' -> YearFromDay n <= YearFromDay n'.
Proof.
  intros H. pose proof (YearFromDay_spec n) as Hs. pose proof (YearFromDay_spec n') as Hs'.
  destruct (Z.le_gt_cases (YearFromDay n) (YearFromDay n')) as [|Hgt]; [done|].
  pose proof (DayFromYear_mono (YearFromDay n' + 1) (YearFromDay n)). lia.
Qed.

(** The month is the one whose interval of days-within-year holds the day. *)
Lemma MonthFromDay_spec n :
  let m := MonthFromDay n in
  let leap := InLeapYear (YearFromDay n) in
  0 <= m <= 11 /\
  MonthStart m leap <= DayWithinYear n /\
  (m < 11 -> DayWithinYear n < MonthStart (m + 1) leap).
Proof.
  cbv zeta. unfold MonthFromDay.
  pose proof (DayWithinYear_range n) as Hr.
  pose proof (InLeapYear_range (YearFromDay n)) as Hl.
  set (d := DayWithinYear n) in *. set (leap := InLeapYear (YearFromDay n)) in *.
  repeat match goal with
         | |- context [?a <? ?b] => destruct (Z.ltb_spec a b)
         end; simpl; lia.
Qed.

Lemma MonthFromDay_range n : 0 <= MonthFromDay n <= 11.
Proof. apply (MonthFromDay_spec n). Qed.

(** [setDate] moves within the month grid: the day number shifts by the
    difference of the dates. *)
Lemma MakeDay_fields n d :
  MakeDay (YearFromDay n) (MonthFromDay n) d = n - DateFromDay n + d.
Proof.
  pose proof (MonthFromDay_range n) as Hm.
  unfold MakeDay, DateFromDay, DayWithinYear.
  rewrite Z.div_small, Z.mod_small by lia. rewrite Z.add_0_r. lia.
Qed.

Lemma MakeDay_roundtrip n :
  MakeDay (YearFromDay n) (MonthFromDay n) (DateFromDay n) = n.
Proof. rewrite MakeDay_fields. lia. Qed.

Lemma MonthStart_bounds m leap :
  0 <= m <= 11 -> 0 <= leap <= 1 ->
  0 <= MonthStart m leap <= 334 + leap /\
  (m < 11 -> MonthStart m leap + 28 <= MonthStart (m + 1) leap <= MonthStart m leap + 31).
Proof.
  intros Hm Hl.
  assert (Hc : m = 0 \/ m = 1 \/ m = 2 \/ m = 3 \/ m = 4 \/ m = 5 \/ m = 6 \/
               m = 7 \/ m = 8 \/ m = 9 \/ m = 10 \/ m = 11) by lia.
  repeat (destruct Hc as [-> | Hc]); try subst m; simpl; lia.
Qed.

Lemma DateFromDay_range n : 1 <= DateFromDay n <= 31.
Proof.
  pose proof (MonthFromDay_spec n) as (Hm & Hlo & Hhi).
  pose proof (InLeapYear_range (YearFromDay n)) as Hl.
  pose proof (DayWithinYear_range n) as Hr. rewrite DaysInYear_leap in Hr.
  pose proof (MonthStart_bounds _ _ Hm Hl) as (Hb & Hn).
  unfold DateFromDay.
  destruct (Z.eq_dec (MonthFromDay n) 11) as [E | E].
  - rewrite E in *. simpl in *. lia.
  - lia.
Qed.

(** The fields of a day built from a year, a month and a date within the
    first 28 days. *)
Lemma fields_MakeDay y m d :
  1 <= d <= 28 ->
  YearFromDay (MakeDay y m d) = y + m / 12 /\
  MonthFromDay (MakeDay y m d) = m mod 12 /\
  DateFromDay (MakeDay y m d) = d.
Proof.
  intros Hd.
  set (ym := y + m / 12). set (mn := m mod 12).
  assert (Hmn : 0 <= mn <= 11) by (subst mn; pose proof (Z.mod_pos_bound m 12); lia).
  pose proof (InLeapYear_range ym) as Hl.
  pose proof (MonthStart_bounds _ _ Hmn Hl) as (Hb & Hn).
  assert (Hy : YearFromDay (MakeDay y m d) = ym).
  { apply YearFromDay_unique. rewrite DayFromYear_succ, DaysInYear_leap.
    unfold MakeDay. fold ym mn.
    destruct (Z.eq_dec mn 11) as [E | E]; [rewrite E in *; simpl in *; lia | lia]. }
  assert (Hdiy : DayWithinYear (MakeDay y m d) = MonthStart mn (InLeapYear ym) + d - 1).
  { unfold DayWithinYear. rewrite Hy. unfold MakeDay. fold ym mn. lia. }
  assert (Hmo : MonthFromDay (MakeDay y m d) = mn).
  { pose proof (MonthFromDay_spec (MakeDay y m d)) as (Hr & Hlo & Hhi).
    rewrite Hy, Hdiy in *.
    set (m' := MonthFromDay (MakeDay y m d)) in *.
    assert (Hc : mn = 0 \/ mn = 1 \/ mn = 2 \/ mn = 3 \/ mn = 4 \/ mn = 5 \/ mn = 6 \/
                 mn = 7 \/ mn = 8 \/ mn = 9 \/ mn = 10 \/ mn = 11) by lia.
    assert (Hc' : m' = 0 \/ m' = 1 \/ m' = 2 \/ m' = 3 \/ m' = 4 \/ m' = 5 \/ m' = 6 \/
                  m' = 7 \/ m' = 8 \/ m' = 9 \/ m' = 10 \/ m' = 11) by lia.
    clear Hn Hb.
    repeat (destruct Hc as [Hc | Hc]); rewrite Hc in *;
      repeat (destruct Hc' as [Hc' | Hc']); rewrite Hc' in *; simpl in *; lia. }
  split; [done |]. split; [done |].
  unfold DateFromDay. rewrite Hy, Hmo, Hdiy. lia.
Qed.

Lemma getDay_range d : 0 <= getDay d <= 6.
Proof. unfold getDay, WeekDay. pose proof (Z.mod_pos_bound (d + 4) 7). lia. Qed.

Lemma setDate_shift d k : setDate d (getDate d + k) = d + k.
Proof. unfold setDate, getFullYear, getMonth, getDate. rewrite MakeDay_fields. lia. Qed.

End DateFacts.



(** ** Rounding to a double *)

Module DoubleFacts.
Import Double.

Lemma pow2_pos e : (0 < pow2 e)%Q.
Proof. apply Qpower_0_lt. reflexivity. Qed.

Lemma pow2_add a b : (pow2 (a + b) == pow2 a * pow2 b)%Q.
Proof. apply Qpower_plus. discriminate. Qed.

Lemma pow2_le a b : a <= b -> (pow2 a <= pow2 b)%Q.
Proof. intros H. apply Qpower_le_compat_l; [exact H | discriminate]. Qed.

Lemma pow2_lt a b : a < b -> (pow2 a < pow2 b)%Q.
Proof. intros H. apply Qpower_lt_compat_l; [exact H | reflexivity]. Qed.

Lemma pow2_lt_inv a b : (pow2 a < pow2 b)%Q -> a < b.
Proof. intros H. apply (Qpower_lt_compat_l_inv 2); [exact H | reflexivity]. Qed.

Lemma pow2_Z e : 0 <= e -> (pow2 e == inject_Z (2 ^ e))%Q.
Proof. intros H. unfold pow2. rewrite Zpower_Qpower by exact H. reflexivity. Qed.

Lemma pow2_sub a b : (pow2 (a - b) == pow2 a / pow2 b)%Q.
Proof.
  pose proof (pow2_pos b) as Hb.
  assert (E : (pow2 a == pow2 (a - b) * pow2 b)%Q).
  { rewrite <- pow2_add. replace (a - b + b) with a by lia. reflexivity. }
  rewrite E. field. intros X. rewrite X in Hb. discriminate Hb.
Qed.

Lemma Qlog2_spec q :
  (0 < q)%Q -> (pow2 (Qlog2 q) <= q)%Q /\ (q < pow2 (Qlog2 q + 1))%Q.
Proof.
  intros Hq. unfold Qlog2.
  destruct q as [n d]. cbn [Qnum Qden].
  assert (Hn : 0 < n) by (unfold Qlt in Hq; simpl in Hq; lia).
  pose proof (Z.log2_spec n Hn) as [Hn1 Hn2].
  pose proof (Z.log2_spec (Zpos d) (Pos2Z.is_pos d)) as [Hd1 Hd2].
  pose proof (Z.log2_nonneg n) as Ha. pose proof (Z.log2_nonneg (Zpos d)) as Hb.
  set (a := Z.log2 n) in *. set (b := Z.log2 (Zpos d)) in *.
  assert (Hq' : (n # d == inject_Z n / inject_Z (Zpos d))%Q).
  { unfold Qeq, Qdiv, Qmult, Qinv, inject_Z. simpl. lia. }
  assert (Hdq : (0 < inject_Z (Zpos d))%Q) by reflexivity.
  assert (Hlo : (pow2 (a - b - 1) <= n # d)%Q).
  { replace (a - b - 1) with (a - (b + 1)) by lia. rewrite pow2_sub, Hq'.
    rewrite !pow2_Z by lia. rewrite Z.pow_succ_r in Hd2 by lia.
    replace (b + 1) with (Z.succ b) by lia. rewrite Z.pow_succ_r by lia.
    assert (P : (0 < inject_Z (2 * 2 ^ b))%Q).
    { rewrite <- (Zlt_Qlt 0). lia. }
    apply Qle_shift_div_l; [exact Hdq |].
    unfold Qdiv. rewrite <- Qmult_assoc, (Qmult_comm (/ _)), Qmult_assoc.
    apply Qle_shift_div_r; [exact P |].
    rewrite <- !inject_Z_mult, <- Zle_Qle. nia. }
  assert (Hhi : (n # d < pow2 (a - b + 1))%Q).
  { replace (a - b + 1) with (a + 1 - b) by lia. rewrite pow2_sub, Hq'.
    rewrite !pow2_Z by lia.
    replace (a + 1) with (Z.succ a) by lia.
    assert (P : (0 < inject_Z (2 ^ b))%Q).
    { rewrite <- (Zlt_Qlt 0). lia. }
    apply Qlt_shift_div_r; [exact Hdq |].
    unfold Qdiv. rewrite <- Qmult_assoc, (Qmult_comm (/ _)), Qmult_assoc.
    apply Qlt_shift_div_l; [exact P |].
    rewrite <- !inject_Z_mult, <- Zlt_Qlt. nia. }
  destruct (Qle_bool (pow2 (a - b)) (n # d)) eqn:E.
  - apply Qle_bool_iff in E. split; [exact E | exact Hhi].
  - split; [exact Hlo |]. replace (a - b - 1 + 1) with (a - b) by lia.
    apply Qnot_le_lt. intros X. apply Qle_bool_iff in X. congruence.
Qed.

(** *** The nearest integer *)

Lemma RNE_cases q :
  let f := Qfloor q in
  ((q - inject_Z f < 1 # 2)%Q /\ RNE q = f) \/
  ((1 # 2 < q - inject_Z f)%Q /\ RNE q = f + 1) \/
  ((q - inject_Z f == 1 # 2)%Q /\ RNE q = (if Z.even f then f else f + 1)).
Proof.
  cbv zeta. unfold RNE.
  destruct (q - inject_Z (Qfloor q) ?= 1 # 2)%Q eqn:E.
  - right. right. split; [by apply Qeq_alt | done].
  - left. split; [by apply Qlt_alt | done].
  - right. left. split; [by apply Qgt_alt | done].
Qed.

Lemma Qfloor_spec q : (inject_Z (Qfloor q) <= q)%Q /\ (q < inject_Z (Qfloor q) + 1)%Q.
Proof.
  split; [apply Qfloor_le |].
  pose proof (Qlt_floor q) as H. rewrite inject_Z_plus in H. exact H.
Qed.

Lemma RNE_error q : (Qabs (inject_Z (RNE q) - q) <= 1 # 2)%Q.
Proof.
  pose proof (Qfloor_spec q) as [H1 H2].
  apply Qabs_Qle_condition.
  destruct (RNE_cases q) as [[H ->] | [[H ->] | [H E]]].
  - split; lra.
  - rewrite inject_Z_plus. change (inject_Z 1) with 1%Q. split; lra.
  - rewrite E. destruct (Z.even (Qfloor q)).
    + split; lra.
    + rewrite inject_Z_plus. change (inject_Z 1) with 1%Q. split; lra.
Qed.

Lemma RNE_Z z : RNE (inject_Z z) = z.
Proof.
  destruct (RNE_cases (inject_Z z)) as [[H E] | [[H E] | [H E]]];
    rewrite Qfloor_Z in *.
  - exact E.
  - exfalso. lra.
  - exfalso. lra.
Qed.

Lemma RNE_mono p q : (p <= q)%Q -> RNE p <= RNE q.
Proof.
  intros Hpq.
  pose proof (Qfloor_resp_le p q Hpq) as Hf.
  pose proof (Qfloor_spec p) as [P1 P2]. pose proof (Qfloor_spec q) as [Q1 Q2].
  destruct (Z.eq_dec (Qfloor p) (Qfloor q)) as [Ef | Nf].
  - destruct (RNE_cases p) as [[Hp ->] | [[Hp ->] | [Hp ->]]];
      destruct (RNE_cases q) as [[Hq ->] | [[Hq ->] | [Hq ->]]];
      rewrite Ef in *; try lia;
      try (destruct (Z.even (Qfloor q)); lia);
      exfalso; lra.
  - assert (Hlt : Qfloor p + 1 <= Qfloor q) by lia.
    assert (Hp : RNE p <= Qfloor p + 1).
    { destruct (RNE_cases p) as [[_ ->] | [[_ ->] | [_ ->]]]; try lia.
      destruct (Z.even (Qfloor p)); lia. }
    assert (Hq : Qfloor q <= RNE q).
    { destruct (RNE_cases q) as [[_ ->] | [[_ ->] | [_ ->]]]; try lia.
      destruct (Z.even (Qfloor q)); lia. }
    lia.
Qed.

Lemma Qfloor_unique q z : (inject_Z z <= q)%Q -> (q < inject_Z z + 1)%Q -> Qfloor q = z.
Proof.
  intros H1 H2. pose proof (Qfloor_spec q) as [F1 F2].
  assert (A : (inject_Z z < inject_Z (Qfloor q) + 1)%Q) by lra.
  assert (B : (inject_Z (Qfloor q) < inject_Z z + 1)%Q) by lra.
  change 1%Q with (inject_Z 1) in A, B. rewrite <- inject_Z_plus in A, B.
  rewrite <- Zlt_Qlt in A, B. lia.
Qed.

Lemma RNE_opp q : RNE (- q) = - RNE q.
Proof.
  pose proof (Qfloor_spec q) as [F1 F2].
  destruct (Qeq_dec q (inject_Z (Qfloor q))) as [Ei | Ni].
  - assert (E1 : RNE q = Qfloor q).
    { destruct (RNE_cases q) as [[H E] | [[H E] | [H E]]]; [exact E | exfalso; lra ..]. }
    assert (Ef : Qfloor (- q) = - Qfloor q).
    { apply Qfloor_unique; rewrite inject_Z_opp; lra. }
    destruct (RNE_cases (- q)) as [[H E] | [[H E] | [H E]]]; rewrite Ef in *.
    + lia.
    + exfalso. rewrite inject_Z_opp in H. lra.
    + exfalso. rewrite inject_Z_opp in H. lra.
  - assert (Hlt : (inject_Z (Qfloor q) < q)%Q).
    { apply Qle_lteq in F1 as [F1 | F1]; [exact F1 |]. exfalso. apply Ni. by symmetry. }
    assert (Ef : Qfloor (- q) = - Qfloor q - 1).
    { apply Qfloor_unique; unfold Z.sub;
        rewrite inject_Z_plus, !inject_Z_opp; change (inject_Z 1) with 1%Q; lra. }
    assert (Ei : (inject_Z (- Qfloor q - 1) == - inject_Z (Qfloor q) - 1)%Q).
    { unfold Z.sub. rewrite inject_Z_plus, !inject_Z_opp. reflexivity. }
    assert (Ev : Z.even (- Qfloor q - 1) = negb (Z.even (Qfloor q))).
    { replace (- Qfloor q - 1) with (- (Qfloor q + 1)) by lia.
      rewrite Z.even_opp. replace (Qfloor q + 1) with (Z.succ (Qfloor q)) by lia.
      rewrite Z.even_succ, <- Z.negb_even. done. }
    destruct (RNE_cases q) as [[Hq ->] | [[Hq ->] | [Hq ->]]];
      destruct (RNE_cases (- q)) as [[Ho ->] | [[Ho ->] | [Ho ->]]];
      rewrite Ef in *; rewrite ?Ei in Ho; try lia; try (exfalso; lra).
    rewrite Ev. destruct (Z.even (Qfloor q)); simpl; lia.
Qed.

Lemma RNE_proper p q : (p == q)%Q -> RNE p = RNE q.
Proof.
  intros E. apply Z.le_antisymm; apply RNE_mono; rewrite E; apply Qle_refl.
Qed.

(** *** Rounding at the exponent of the last bit *)

Lemma Qabs_opp_eq q : Qabs (- q) = Qabs q.
Proof. destruct q as [n d]. unfold Qabs, Qopp. simpl. by rewrite Z.abs_opp. Qed.

Lemma Qabs_pos_eq q : (0 <= q)%Q -> Qabs q = q.
Proof.
  destruct q as [n d]. unfold Qle, Qabs. simpl. intros H.
  rewrite Z.abs_eq by lia. reflexivity.
Qed.

Lemma ulp_exp_opp q : ulp_exp (- q) = ulp_exp q.
Proof. unfold ulp_exp. by rewrite Qabs_opp_eq. Qed.

Lemma ulp_exp_min q : EMIN <= ulp_exp q.
Proof. unfold ulp_exp. lia. Qed.

Lemma Qlog2_mono p q : (0 < p)%Q -> (p <= q)%Q -> Qlog2 p <= Qlog2 q.
Proof.
  intros Hp Hpq.
  pose proof (Qlog2_spec p Hp) as [P1 _].
  pose proof (Qlog2_spec q ltac:(lra)) as [_ Q2].
  assert (H : (pow2 (Qlog2 p) < pow2 (Qlog2 q + 1))%Q) by lra.
  apply pow2_lt_inv in H. lia.
Qed.

Lemma Qlog2_unique q k :
  (pow2 k <= q)%Q -> (q < pow2 (k + 1))%Q -> Qlog2 q = k.
Proof.
  intros H1 H2. pose proof (pow2_pos k) as Hk.
  pose proof (Qlog2_spec q ltac:(lra)) as [P1 P2].
  assert (A : (pow2 k < pow2 (Qlog2 q + 1))%Q) by lra.
  assert (B : (pow2 (Qlog2 q) < pow2 (k + 1))%Q) by lra.
  apply pow2_lt_inv in A, B. lia.
Qed.

Lemma round_unbounded_opp q : (round_unbounded (- q) == - round_unbounded q)%Q.
Proof.
  unfold round_unbounded. rewrite ulp_exp_opp.
  pose proof (pow2_pos (ulp_exp q)) as HP.
  assert (E : (- q / pow2 (ulp_exp q) == - (q / pow2 (ulp_exp q)))%Q).
  { field. intros X. rewrite X in HP. discriminate HP. }
  rewrite (RNE_proper _ _ E), RNE_opp, inject_Z_opp. ring.
Qed.

Lemma round_unbounded_nonneg q : (0 <= q)%Q -> (0 <= round_unbounded q)%Q.
Proof.
  intros Hq. unfold round_unbounded. pose proof (pow2_pos (ulp_exp q)) as HP.
  assert (Hs : (inject_Z 0 <= q / pow2 (ulp_exp q))%Q).
  { apply Qle_shift_div_l; [exact HP |]. change (inject_Z 0) with 0%Q. lra. }
  apply RNE_mono in Hs. rewrite RNE_Z in Hs.
  apply Qmult_le_0_compat; [| lra].
  change 0%Q with (inject_Z 0). by rewrite <- Zle_Qle.
Qed.

Lemma round_unbounded_mono_pos p q :
  (0 < p)%Q -> (p <= q)%Q -> (round_unbounded p <= round_unbounded q)%Q.
Proof.
  intros Hp Hpq. assert (Hq : (0 < q)%Q) by lra.
  unfold round_unbounded, ulp_exp.
  rewrite (Qabs_pos_eq p), (Qabs_pos_eq q) by lra.
  pose proof (Qlog2_mono p q Hp Hpq) as Hl.
  pose proof (Qlog2_spec p Hp) as [P1 P2]. pose proof (Qlog2_spec q Hq) as [Q1 Q2].
  set (lp := Qlog2 p) in *. set (lq := Qlog2 q) in *.
  set (ep := Z.max (lp - (PREC - 1)) EMIN). set (eq := Z.max (lq - (PREC - 1)) EMIN).
  pose proof (pow2_pos ep) as HPp. pose proof (pow2_pos eq) as HPq.
  assert (Hpne : ~ (pow2 ep == 0)%Q) by (intros X; rewrite X in HPp; discriminate HPp).
  assert (Hqne : ~ (pow2 eq == 0)%Q) by (intros X; rewrite X in HPq; discriminate HPq).
  destruct (Z.eq_dec ep eq) as [Ee | Ne].
  - rewrite <- Ee.
    assert (Hs : (p / pow2 ep <= q / pow2 ep)%Q).
    { apply Qle_shift_div_l; [exact HPp |].
      assert (X : (p / pow2 ep * pow2 ep == p)%Q) by (field; exact Hpne).
      rewrite X. exact Hpq. }
    apply RNE_mono in Hs. rewrite Zle_Qle in Hs.
    apply Qmult_le_compat_r; [exact Hs | lra].
  - assert (Hlt : ep < eq) by (unfold ep, eq in *; lia).
    assert (Heq : eq = lq - (PREC - 1)) by (unfold ep, eq in *; lia).
    assert (Hep : lp - (PREC - 1) <= ep) by (unfold ep; lia).
    unfold PREC in *.
    (* the boundary between the two binades *)
    set (n := eq + 52 - ep).
    assert (Hn : 0 <= n) by (unfold n; lia).
    assert (Hb1 : (p / pow2 ep <= inject_Z (2 ^ n))%Q).
    { rewrite <- pow2_Z by exact Hn. unfold n. rewrite pow2_sub.
      apply Qle_shift_div_l; [exact HPp |].
      assert (X : (p / pow2 ep * pow2 ep == p)%Q) by (field; exact Hpne).
      rewrite X.
      assert (Y : (pow2 (lp + 1) <= pow2 (eq + 52))%Q) by (apply pow2_le; lia).
      lra. }
    apply RNE_mono in Hb1. rewrite RNE_Z in Hb1. rewrite Zle_Qle in Hb1.
    assert (Hb2 : (inject_Z (2 ^ 52) <= q / pow2 eq)%Q).
    { rewrite <- pow2_Z by lia.
      apply Qle_shift_div_l; [exact HPq |].
      rewrite <- pow2_add. replace (52 + eq) with lq by lia. exact Q1. }
    apply RNE_mono in Hb2. rewrite RNE_Z in Hb2. rewrite Zle_Qle in Hb2.
    apply Qle_trans with (pow2 (eq + 52)).
    + assert (X : (pow2 (eq + 52) == inject_Z (2 ^ n) * pow2 ep)%Q).
      { rewrite <- pow2_Z by exact Hn. rewrite <- pow2_add. unfold n.
        replace (eq + 52 - ep + ep) with (eq + 52) by lia. reflexivity. }
      rewrite X. apply Qmult_le_compat_r; [exact Hb1 | lra].
    + assert (X : (pow2 (eq + 52) == inject_Z (2 ^ 52) * pow2 eq)%Q).
      { rewrite <- pow2_Z by lia. rewrite <- pow2_add.
        replace (52 + eq) with (eq + 52) by lia. reflexivity. }
      rewrite X. apply Qmult_le_compat_r; [exact Hb2 | lra].
Qed.

Lemma round_unbounded_proper p q :
  (p == q)%Q -> (round_unbounded p == round_unbounded q)%Q.
Proof.
  intros E.
  destruct (Qlt_le_dec 0 p) as [Hp | Hp].
  - apply Qle_antisym; apply round_unbounded_mono_pos; lra.
  - assert (Hq : (q <= 0)%Q) by lra.
    destruct (Qeq_dec p 0) as [Z0 | N0].
    + (* both are zero *)
      assert (Zq : (q == 0)%Q) by lra.
      assert (A : forall x, (x == 0)%Q -> (round_unbounded x == 0)%Q).
      { intros x Hx. unfold round_unbounded.
        generalize (pow2_pos (ulp_exp x)). generalize (pow2 (ulp_exp x)). intros P HP.
        assert (Es : (x / P == inject_Z 0)%Q).
        { rewrite Hx. change (inject_Z 0) with 0%Q. field.
          intros X. rewrite X in HP. discriminate HP. }
        rewrite (RNE_proper _ _ Es), RNE_Z. change (inject_Z 0) with 0%Q. ring. }
      rewrite (A p Z0), (A q Zq). reflexivity.
    + assert (Hp' : (0 < - p)%Q).
      { apply Qle_lteq in Hp as [Hp | Hp]; [lra | contradiction]. }
      assert (X : (round_unbounded (- p) == round_unbounded (- q))%Q).
      { apply Qle_antisym; apply round_unbounded_mono_pos; lra. }
      rewrite !round_unbounded_opp in X. lra.
Qed.

Lemma round_unbounded_mono p q :
  (p <= q)%Q -> (round_unbounded p <= round_unbounded q)%Q.
Proof.
  intros Hpq.
  destruct (Qlt_le_dec 0 p) as [Hp | Hp].
  - by apply round_unbounded_mono_pos.
  - destruct (Qlt_le_dec q 0) as [Hq | Hq].
    + assert (X : (round_unbounded (- q) <= round_unbounded (- p))%Q)
        by (apply round_unbounded_mono_pos; lra).
      rewrite !round_unbounded_opp in X. lra.
    + pose proof (round_unbounded_nonneg q Hq) as A.
      pose proof (round_unbounded_nonneg (- p) ltac:(lra)) as B.
      rewrite round_unbounded_opp in B. lra.
Qed.

Lemma round_unbounded_zero q : (q == 0)%Q -> (round_unbounded q == 0)%Q.
Proof.
  intros Hq. unfold round_unbounded.
  generalize (pow2_pos (ulp_exp q)). generalize (pow2 (ulp_exp q)). intros P HP.
  assert (Es : (q / P == inject_Z 0)%Q).
  { rewrite Hq. change (inject_Z 0) with 0%Q. field.
    intros X. rewrite X in HP. discriminate HP. }
  rewrite (RNE_proper _ _ Es), RNE_Z. change (inject_Z 0) with 0%Q. ring.
Qed.

Lemma pow2_half e : (pow2 (e - 1) == pow2 e * (1 # 2))%Q.
Proof. rewrite pow2_sub. reflexivity. Qed.

(** The result is within half a unit of the last place. *)
Lemma round_unbounded_ulp q :
  (Qabs (round_unbounded q - q) <= pow2 (ulp_exp q - 1))%Q.
Proof.
  unfold round_unbounded. rewrite pow2_half.
  generalize (pow2_pos (ulp_exp q)). generalize (pow2 (ulp_exp q)). intros P HP.
  assert (HPne : ~ (P == 0)%Q) by (intros X; rewrite X in HP; discriminate HP).
  pose proof (RNE_error (q / P)) as Hm. apply Qabs_Qle_condition in Hm as [Hm1 Hm2].
  assert (X : ((inject_Z (RNE (q / P)) - q / P) * P == inject_Z (RNE (q / P)) * P - q)%Q)
    by (field; exact HPne).
  apply Qabs_Qle_condition. rewrite <- X.
  split.
  - apply Qle_trans with (- (1 # 2) * P)%Q; [lra |].
    apply Qmult_le_compat_r; [exact Hm1 | lra].
  - apply Qle_trans with ((1 # 2) * P)%Q; [| lra].
    apply Qmult_le_compat_r; [exact Hm2 | lra].
Qed.

Lemma Qabs_pos_lt q : ~ (q == 0)%Q -> (0 < Qabs q)%Q.
Proof.
  intros N. pose proof (Qabs_nonneg q) as H.
  apply Qle_lteq in H as [H | H]; [exact H |].
  exfalso. apply N. symmetry in H.
  destruct (Qlt_le_dec q 0) as [Hq | Hq].
  - rewrite (Qabs_neg q) in H by lra. lra.
  - rewrite (Qabs_pos q Hq) in H. exact H.
Qed.

(** Half a unit of the last place against the rounded number. *)
Lemma EPS_pos : (0 < EPS)%Q.
Proof. apply pow2_pos. Qed.

Lemma ETA_pos : (0 < ETA)%Q.
Proof. apply pow2_pos. Qed.

Lemma pow2_EPS l : (pow2 (l - PREC) == pow2 l * EPS)%Q.
Proof. unfold EPS. rewrite <- pow2_add. reflexivity. Qed.

Lemma ulp_exp_bound q :
  ~ (q == 0)%Q -> (pow2 (ulp_exp q - 1) <= Qabs q * EPS + ETA)%Q.
Proof.
  intros N. pose proof (Qlog2_spec (Qabs q) (Qabs_pos_lt q N)) as [L1 _].
  pose proof EPS_pos as Hu. pose proof ETA_pos as He.
  pose proof (Qabs_nonneg q) as Ha.
  unfold ulp_exp. set (l := Qlog2 (Qabs q)) in *.
  destruct (Z.max_spec (l - (PREC - 1)) EMIN) as [[_ ->] | [_ ->]].
  - fold ETA. assert (0 <= Qabs q * EPS)%Q by (apply Qmult_le_0_compat; lra). lra.
  - replace (l - (PREC - 1) - 1) with (l - PREC) by lia. rewrite pow2_EPS.
    assert (pow2 l * EPS <= Qabs q * EPS)%Q by (apply Qmult_le_compat_r; lra).
    lra.
Qed.

Lemma round_unbounded_error q :
  (Qabs (round_unbounded q - q) <= Qabs q * EPS + ETA)%Q.
Proof.
  destruct (Qeq_dec q 0) as [Z0 | N0].
  - rewrite (round_unbounded_zero q Z0), Z0. vm_compute. discriminate.
  - eapply Qle_trans; [apply round_unbounded_ulp | by apply ulp_exp_bound].
Qed.

(** In the normal range the error is relative. *)
Lemma round_unbounded_error_normal q :
  (pow2 (EMIN + PREC - 1) <= Qabs q)%Q ->
  (Qabs (round_unbounded q - q) <= Qabs q * EPS)%Q.
Proof.
  intros Hn. pose proof (pow2_pos (EMIN + PREC - 1)) as Hp.
  assert (N : ~ (q == 0)%Q).
  { intros Z0. rewrite Z0 in Hn. change (Qabs 0) with 0%Q in Hn. lra. }
  pose proof (Qlog2_spec (Qabs q) (Qabs_pos_lt q N)) as [L1 L2].
  eapply Qle_trans; [apply round_unbounded_ulp |].
  assert (Hl : EMIN + PREC - 1 <= Qlog2 (Qabs q)).
  { assert (X : (pow2 (EMIN + PREC - 1) < pow2 (Qlog2 (Qabs q) + 1))%Q) by lra.
    apply pow2_lt_inv in X. lia. }
  unfold ulp_exp. set (l := Qlog2 (Qabs q)) in *.
  rewrite Z.max_l by lia.
  replace (l - (PREC - 1) - 1) with (l - PREC) by lia. rewrite pow2_EPS.
  pose proof EPS_pos. apply Qmult_le_compat_r; lra.
Qed.

(** *** Representable numbers *)

Lemma representable_proper p q : (p == q)%Q -> representable p -> representable q.
Proof. intros E (m & e & H & Hm & He). exists m, e. rewrite <- E. done. Qed.

Lemma representable_opp q : representable q -> representable (- q).
Proof.
  intros (m & e & H & Hm & He). exists (- m), e.
  split; [| lia]. rewrite H, inject_Z_opp. ring.
Qed.

Lemma representable_Z z : Z.abs z < 2 ^ PREC -> representable (inject_Z z).
Proof.
  intros H. exists z, 0. split; [| unfold EMIN; lia].
  change (pow2 0) with 1%Q. ring.
Qed.

Lemma representable_pow2 e : EMIN <= e -> representable (pow2 e).
Proof.
  intros H. exists 1, e. split; [| unfold PREC; lia].
  change (inject_Z 1) with 1%Q. ring.
Qed.

Lemma round_unbounded_representable q : representable (round_unbounded q).
Proof.
  assert (Hpos : forall x, (0 < x)%Q -> representable (round_unbounded x)).
  { intros x Hx. unfold round_unbounded, ulp_exp.
    rewrite (Qabs_pos_eq x) by lra.
    pose proof (Qlog2_spec x Hx) as [L1 L2].
    set (l := Qlog2 x) in *. set (e := Z.max (l - (PREC - 1)) EMIN).
    pose proof (pow2_pos e) as HP.
    assert (HPne : ~ (pow2 e == 0)%Q) by (intros X; rewrite X in HP; discriminate HP).
    assert (Hlo : (inject_Z 0 <= x / pow2 e)%Q).
    { apply Qle_shift_div_l; [exact HP |]. change (inject_Z 0) with 0%Q. lra. }
    assert (Hhi : (x / pow2 e <= inject_Z (2 ^ PREC))%Q).
    { rewrite <- pow2_Z by (unfold PREC; lia).
      apply Qle_shift_div_r; [exact HP |]. rewrite <- pow2_add.
      assert (pow2 (l + 1) <= pow2 (PREC + e))%Q by (apply pow2_le; unfold e, PREC; lia).
      lra. }
    apply RNE_mono in Hlo, Hhi. rewrite RNE_Z in Hlo, Hhi.
    set (m := RNE (x / pow2 e)) in *.
    destruct (Z.eq_dec m (2 ^ PREC)) as [E | N].
    - exists (2 ^ (PREC - 1)), (e + 1). split; [| unfold e, PREC, EMIN; lia].
      rewrite E, pow2_add. change (pow2 1) with 2%Q.
      rewrite <- !pow2_Z by (unfold PREC; lia).
      replace PREC with ((PREC - 1) + 1) at 1 by lia. rewrite pow2_add.
      change (pow2 1) with 2%Q. ring.
    - exists m, e. split; [reflexivity |]. unfold e. lia. }
  destruct (Qlt_le_dec 0 q) as [Hq | Hq]; [by apply Hpos |].
  destruct (Qeq_dec q 0) as [Z0 | N0].
  - apply (representable_proper 0); [symmetry; by apply round_unbounded_zero |].
    exists 0, 0. split; [reflexivity | unfold PREC, EMIN; lia].
  - assert (Hq' : (0 < - q)%Q).
    { apply Qle_lteq in Hq as [Hq | Hq]; [lra | contradiction]. }
    apply (representable_proper (- round_unbounded (- q))).
    + rewrite round_unbounded_opp. ring.
    + apply representable_opp, Hpos, Hq'.
Qed.

Lemma Qabs_mult_pow2 m e : (Qabs (inject_Z m * pow2 e) == inject_Z (Z.abs m) * pow2 e)%Q.
Proof.
  pose proof (pow2_pos e). rewrite Qabs_Qmult, (Qabs_pos (pow2 e)) by lra.
  assert (E : (Qabs (inject_Z m) == inject_Z (Z.abs m))%Q).
  { unfold inject_Z, Qabs. simpl. reflexivity. }
  rewrite E. reflexivity.
Qed.

(** A representable number is rounded to itself. *)
Lemma round_unbounded_exact q : representable q -> (round_unbounded q == q)%Q.
Proof.
  intros (m & e0 & Hq & Hm & He0).
  destruct (Qeq_dec q 0) as [Z0 | N0].
  { rewrite (round_unbounded_zero q Z0). by symmetry. }
  pose proof (Qlog2_spec (Qabs q) (Qabs_pos_lt q N0)) as [L1 _].
  assert (Hl : Qlog2 (Qabs q) - (PREC - 1) <= e0).
  { assert (X : (Qabs q < pow2 (PREC + e0))%Q).
    { rewrite Hq, Qabs_mult_pow2, pow2_add, (pow2_Z PREC) by (unfold PREC; lia).
      pose proof (pow2_pos e0).
      apply Qmult_lt_compat_r; [lra |]. by rewrite <- Zlt_Qlt. }
    assert (Y : (pow2 (Qlog2 (Qabs q)) < pow2 (PREC + e0))%Q) by lra.
    apply pow2_lt_inv in Y. lia. }
  unfold round_unbounded.
  assert (Hu : ulp_exp q <= e0) by (unfold ulp_exp; lia).
  set (u := ulp_exp q) in *.
  pose proof (pow2_pos u) as HP.
  assert (HPne : ~ (pow2 u == 0)%Q) by (intros X; rewrite X in HP; discriminate HP).
  assert (Es : (q / pow2 u == inject_Z (m * 2 ^ (e0 - u)))%Q).
  { rewrite inject_Z_mult, <- pow2_Z by lia. rewrite pow2_sub, Hq. field. exact HPne. }
  rewrite (RNE_proper _ _ Es), RNE_Z, <- Es. field. exact HPne.
Qed.

(** *** Rounding to a double *)

Lemma Qle_bool_false a b : Qle_bool a b = false <-> (b < a)%Q.
Proof.
  split.
  - intros E. apply Qnot_le_lt. intros X. apply Qle_bool_iff in X. congruence.
  - intros L. destruct (Qle_bool a b) eqn:E; [| done].
    apply Qle_bool_iff in E. lra.
Qed.

Lemma round_cases q :
  (round q = Fin (Qred (round_unbounded q)) /\ (Qabs (round_unbounded q) < pow2 EMAX)%Q) \/
  (round q = PInf /\ (pow2 EMAX <= round_unbounded q)%Q) \/
  (round q = NInf /\ (round_unbounded q <= - pow2 EMAX)%Q).
Proof.
  unfold round. cbv zeta. pose proof (pow2_pos EMAX) as HM.
  pose proof (Qred_correct (round_unbounded q)) as Er.
  set (r := Qred (round_unbounded q)) in *.
  destruct (Qle_bool (pow2 EMAX) (Qabs r)) eqn:E1.
  - apply Qle_bool_iff in E1. rewrite Er in E1.
    destruct (Qle_bool 0 r) eqn:E2.
    + apply Qle_bool_iff in E2. rewrite Er in E2. right. left. split; [done |].
      by rewrite (Qabs_pos _ E2) in E1.
    + apply Qle_bool_false in E2. rewrite Er in E2. right. right. split; [done |].
      rewrite (Qabs_neg (round_unbounded q)) in E1 by lra. lra.
  - apply Qle_bool_false in E1. rewrite Er in E1. left. split; [done | exact E1].
Qed.

Lemma round_proper p q : (p == q)%Q -> round p = round q.
Proof.
  intros E. unfold round.
  by rewrite (Qred_complete _ _ (round_unbounded_proper p q E)).
Qed.

Lemma round_zero q : (q == 0)%Q -> round q = Fin 0.
Proof. intros E. by rewrite (round_proper q 0 E). Qed.

Lemma dle_Fin a b : dle (Fin a) (Fin b) <-> (a <= b)%Q.
Proof. unfold dle. simpl. apply Qle_bool_iff. Qed.

Lemma dlt_Fin a b : dlt (Fin a) (Fin b) <-> (a < b)%Q.
Proof.
  unfold dlt. simpl. rewrite negb_true_iff. apply Qle_bool_false.
Qed.

Lemma round_mono p q : (p <= q)%Q -> dle (round p) (round q).
Proof.
  intros H. apply round_unbounded_mono in H.
  pose proof (pow2_pos EMAX) as HM.
  destruct (round_cases p) as [[-> Hp] | [[-> Hp] | [-> Hp]]];
    destruct (round_cases q) as [[-> Hq] | [[-> Hq] | [-> Hq]]];
    try reflexivity.
  - apply dle_Fin. rewrite !Qred_correct. exact H.
  - exfalso. apply Qabs_Qlt_condition in Hp. lra.
  - exfalso. apply Qabs_Qlt_condition in Hq. lra.
  - exfalso. lra.
Qed.

Lemma Qred_idem q : Qred (Qred q) = Qred q.
Proof. apply Qred_complete, Qred_correct. Qed.

Lemma round_valid q : valid (round q).
Proof.
  destruct (round_cases q) as [[-> Hq] | [[-> Hq] | [-> Hq]]]; simpl; try done.
  split; [| split].
  - apply (representable_proper (round_unbounded q)); [symmetry; apply Qred_correct |].
    apply round_unbounded_representable.
  - by rewrite Qred_correct.
  - apply Qred_idem.
Qed.

Lemma round_exact q :
  representable q -> (Qabs q < pow2 EMAX)%Q -> round q = Fin (Qred q).
Proof.
  intros Hr Hq. pose proof (round_unbounded_exact q Hr) as E.
  destruct (round_cases q) as [[-> _] | [[_ H] | [_ H]]].
  - f_equal. by apply Qred_complete.
  - exfalso. rewrite E in H. apply Qabs_Qlt_condition in Hq. lra.
  - exfalso. rewrite E in H. apply Qabs_Qlt_condition in Hq. lra.
Qed.


Lemma round_error q r :
  round q = Fin r -> (Qabs (r - q) <= Qabs q * EPS + ETA)%Q.
Proof.
  intros H. destruct (round_cases q) as [[E _] | [[E _] | [E _]]]; rewrite H in E;
    [| discriminate ..].
  inversion E as [Er]. rewrite Qred_correct. apply round_unbounded_error.
Qed.

Lemma round_error_normal q r :
  (pow2 (EMIN + PREC - 1) <= Qabs q)%Q ->
  round q = Fin r -> (Qabs (r - q) <= Qabs q * EPS)%Q.
Proof.
  intros Hn H. destruct (round_cases q) as [[E _] | [[E _] | [E _]]]; rewrite H in E;
    [| discriminate ..].
  inversion E as [Er]. rewrite Qred_correct. by apply round_unbounded_error_normal.
Qed.

(** No overflow below [2^(EMAX - 1)]. *)
Lemma round_finite q :
  (Qabs q <= pow2 (EMAX - 1))%Q -> exists r, round q = Fin r.
Proof.
  intros Hq. pose proof (round_unbounded_error q) as He.
  assert (Hb : (Qabs (round_unbounded q) < pow2 EMAX)%Q).
  { apply Qabs_diff_Qle_condition in He as [He1 He2].
    apply Qabs_Qle_condition in Hq as [Hq1 Hq2].
    assert (Hm : (pow2 EMAX == 2 * pow2 (EMAX - 1))%Q).
    { replace EMAX with (1 + (EMAX - 1)) at 1 by lia. rewrite pow2_add. reflexivity. }
    pose proof (pow2_pos (EMAX - 1)) as HP.
    assert (Hs : (Qabs q * EPS + ETA < pow2 (EMAX - 1))%Q).
    { assert (A : (Qabs q * EPS <= pow2 (EMAX - 1) * EPS)%Q).
      { apply Qmult_le_compat_r; [| pose proof EPS_pos; lra].
        apply Qabs_Qle_condition. split; lra. }
      assert (B : (pow2 (EMAX - 1) * EPS + ETA < pow2 (EMAX - 1))%Q).
      { vm_compute. reflexivity. }
      lra. }
    apply Qabs_Qlt_condition. rewrite Hm. split; lra. }
  destruct (round_cases q) as [[E _] | [[_ H] | [_ H]]].
  - eexists. exact E.
  - exfalso. apply Qabs_Qlt_condition in Hb. lra.
  - exfalso. apply Qabs_Qlt_condition in Hb. lra.
Qed.

Lemma Qred_inject_Z z : Qred (inject_Z z) = inject_Z z.
Proof. apply Qcanon.Qred_identity. simpl. apply Z.gcd_1_r. Qed.

(** Integers of up to 53 bits are doubles. *)
Lemma of_Z_exact z : Z.abs z < 2 ^ PREC -> of_Z z = Fin (inject_Z z).
Proof.
  intros H. unfold of_Z. rewrite round_exact.
  - by rewrite Qred_inject_Z.
  - by apply representable_Z.
  - apply Qlt_trans with (inject_Z (2 ^ PREC)).
    + assert (E : (Qabs (inject_Z z) == inject_Z (Z.abs z))%Q) by reflexivity.
      rewrite E. by rewrite <- Zlt_Qlt.
    + vm_compute. reflexivity.
Qed.

Lemma valid_of_Z z : valid (of_Z z).
Proof. apply round_valid. Qed.

(** *** The order of doubles *)

Lemma dle_refl x : x <> NaN -> dle x x.
Proof. destruct x; try done. intros _. apply dle_Fin. apply Qle_refl. Qed.


Lemma dlt_dle x y : dlt x y -> dle x y.
Proof. destruct x, y; try done. rewrite dlt_Fin, dle_Fin. apply Qlt_le_weak. Qed.

Lemma dle_lt_trans x y z : dle x y -> dlt y z -> dlt x z.
Proof.
  destruct x, y, z; try done. rewrite dle_Fin, !dlt_Fin. apply Qle_lt_trans.
Qed.

Lemma dlt_le_trans x y z : dlt x y -> dle y z -> dlt x z.
Proof.
  destruct x, y, z; try done. rewrite dle_Fin, !dlt_Fin. apply Qlt_le_trans.
Qed.

Lemma dle_not_nan x y : dle x y -> x <> NaN /\ y <> NaN.
Proof. destruct x, y; done. Qed.

Lemma fleb_false x y : x <> NaN -> y <> NaN -> fleb x y = false -> dlt y x.
Proof.
  destruct x, y; try done. intros _ _ H. apply dlt_Fin. by apply Qle_bool_false.
Qed.

Lemma fmax_spec x y :
  x <> NaN -> y <> NaN ->
  dle x (fmax x y) /\ dle y (fmax x y) /\
  (dle x y -> fmax x y = y) /\ (dlt y x -> fmax x y = x).
Proof.
  intros Hx Hy.
  assert (E : fmax x y = if fleb x y then y else x) by (destruct x, y; done).
  rewrite E. destruct (fleb x y) eqn:L.
  - split; [exact L |]. split; [by apply dle_refl |]. split; [done |].
    intros H. exfalso. destruct x, y; try done.
    apply dlt_Fin in H. apply Qle_bool_iff in L. lra.
  - pose proof (fleb_false x y Hx Hy L) as H.
    split; [by apply dle_refl |]. split; [by apply dlt_dle |]. split; [| done].
    intros H'. unfold dle in H'. congruence.
Qed.

Lemma fmax_nan x y : fmax x y = NaN <-> x = NaN \/ y = NaN.
Proof.
  split.
  - destruct x, y; simpl; try (by auto); try (destruct (Qle_bool _ _); done).
  - intros [-> | ->]; [done | by destruct x].
Qed.

(** *** The operations *)

Lemma valid_signed_inf s : valid (signed_inf s).
Proof. by destruct s. Qed.

Lemma valid_zero : valid (Fin 0).
Proof.
  split; [| split; reflexivity].
  exists 0, 0. split; [reflexivity | unfold PREC, EMIN; lia].
Qed.


Lemma fsub_valid x y : valid (fsub x y).
Proof.
  destruct x as [a | | |], y as [b | | |]; cbn [fsub]; try exact I. apply round_valid.
Qed.

Lemma fmul_valid x y : valid (fmul x y).
Proof.
  destruct x as [a | | |], y as [b | | |]; cbn [fmul]; try exact I;
    try apply valid_signed_inf.
  apply round_valid.
Qed.

Lemma fdiv_valid x y : valid (fdiv x y).
Proof.
  destruct x as [a | | |], y as [b | | |]; cbn [fdiv]; try exact I;
    try apply valid_zero.
  - destruct (Qeq_bool b 0); [apply valid_signed_inf | apply round_valid].
  - by destruct (Qle_bool 0 b).
  - by destruct (Qle_bool 0 b).
Qed.

Lemma fmax_valid x y : valid x -> valid y -> valid (fmax x y).
Proof.
  intros Hx Hy.
  destruct x as [a | | |], y as [b | | |]; cbn [fmax fleb]; try exact I;
    try assumption.
  by destruct (Qle_bool a b).
Qed.

Lemma valid_Fin_Z z : Z.abs z < 2 ^ PREC -> valid (Fin (inject_Z z)).
Proof. intros H. rewrite <- (of_Z_exact z H). apply valid_of_Z. Qed.

(** The numbers behind [EPS] and [ETA]. *)
Lemma EPS_value : (EPS == 1 # 9007199254740992)%Q.
Proof. reflexivity. Qed.

Lemma ETA_small : (ETA <= 1 # 1267650600228229401496703205376)%Q.
Proof. vm_compute. discriminate. Qed.

(** A rounded number of magnitude at most [B] is finite and within
    [B * EPS + ETA] of the exact one. *)
Lemma round_near q B :
  (Qabs q <= B)%Q -> (B <= pow2 (EMAX - 1))%Q ->
  exists r, round q = Fin r /\ valid (Fin r) /\
            (q - (B * EPS + ETA) <= r)%Q /\ (r <= q + (B * EPS + ETA))%Q.
Proof.
  intros Hq HB.
  destruct (round_finite q) as [r Hr]; [lra |].
  exists r. split; [exact Hr |]. split; [rewrite <- Hr; apply round_valid |].
  pose proof (round_error q r Hr) as He.
  apply Qabs_diff_Qle_condition in He as [He1 He2].
  assert (A : (Qabs q * EPS <= B * EPS)%Q).
  { apply Qmult_le_compat_r; [exact Hq | pose proof EPS_pos; lra]. }
  split; lra.
Qed.



Lemma round_nonneg q : (0 <= q)%Q -> dle (Fin 0) (round q).
Proof.
  intros H. assert (E : round 0 = Fin 0) by reflexivity.
  rewrite <- E. by apply round_mono.
Qed.

Lemma round_nonpos q : (q <= 0)%Q -> dle (round q) (Fin 0).
Proof.
  intros H. assert (E : round 0 = Fin 0) by reflexivity.
  rewrite <- E. by apply round_mono.
Qed.

Lemma Qabs_mult_le a b A B :
  (Qabs a <= A)%Q -> (Qabs b <= B)%Q -> (Qabs (a * b) <= A * B)%Q.
Proof.
  intros Ha Hb. rewrite Qabs_Qmult.
  pose proof (Qabs_nonneg a). pose proof (Qabs_nonneg b).
  apply Qle_trans with (A * Qabs b)%Q.
  - apply Qmult_le_compat_r; lra.
  - rewrite !(Qmult_comm A). apply Qmult_le_compat_r; lra.
Qed.

Lemma Qabs_inject_Z_le z n : Z.abs z <= n -> (Qabs (inject_Z z) <= inject_Z n)%Q.
Proof.
  intros H. assert (E : (Qabs (inject_Z z) == inject_Z (Z.abs z))%Q) by reflexivity.
  rewrite E. by rewrite <- Zle_Qle.
Qed.

(** A positive number of the normal range is rounded with a relative error
    of at most [EPS]. *)
Lemma round_rel q :
  (pow2 (EMIN + PREC - 1) <= q)%Q -> (q <= pow2 (EMAX - 1))%Q ->
  exists r, round q = Fin r /\ valid (Fin r) /\
            ((1 - EPS) * q <= r)%Q /\ (r <= (1 + EPS) * q)%Q.
Proof.
  intros Hlo Hhi. pose proof (pow2_pos (EMIN + PREC - 1)) as Hp.
  assert (Hq : (0 <= q)%Q) by lra.
  destruct (round_finite q) as [r Hr]; [by rewrite (Qabs_pos q Hq) |].
  exists r. split; [exact Hr |]. split; [rewrite <- Hr; apply round_valid |].
  pose proof (round_error_normal q r) as He.
  rewrite (Qabs_pos q Hq) in He. specialize (He Hlo Hr).
  apply Qabs_diff_Qle_condition in He as [He1 He2]. split; lra.
Qed.

Lemma normal_low : (pow2 (EMIN + PREC - 1) <= 1 # 1000000000)%Q.
Proof. vm_compute. discriminate. Qed.

Lemma normal_high : (36028797018963968 <= pow2 (EMAX - 1))%Q.
Proof. vm_compute. discriminate. Qed.

End DoubleFacts.

(** ** Time zones and day counts *)

Module ZoneFacts.
Import Calendar CalendarFacts JsDate DateFacts Gantt.

Lemma tz_summer_drift : dst_drift_small tz_summer.
Proof.
  intros d1 d2. unfold tz_summer, MS_PER_DAY.
  destruct ((80 <=? d1 mod 365) && (d1 mod 365 <? 300)),
           ((80 <=? d2 mod 365) && (d2 mod 365 <? 300)); simpl; lia.
Defined.

(** Rounding is to a nearest integer, whatever the zone. *)
Lemma MathRound_div_nearest n d :
  0 < d -> Z.abs (2 * n - 2 * d * MathRound_div n d) <= d.
Proof.
  intros Hd. unfold MathRound_div.
  pose proof (Z.div_mod (2 * n + d) (2 * d)) as E.
  pose proof (Z.mod_pos_bound (2 * n + d) (2 * d)) as B. lia.
Qed.

Lemma daysBetween_nonneg tz a b :
  valueOf tz a <= valueOf tz b -> 0 <= daysBetween tz a b.
Proof.
  intros H. unfold daysBetween, MathRound_div, MS_PER_DAY.
  apply Z.div_pos; lia.
Qed.

Section Drift.
Variable tz : Z -> Z.
Hypothesis tz_drift : dst_drift_small tz.

Lemma daysBetween_days a b : daysBetween tz a b = b - a.
Proof.
  unfold daysBetween, MathRound_div, valueOf.
  pose proof (tz_drift a b) as D. unfold MS_PER_DAY in *.
  symmetry. apply Z.div_unique with (r := 2 * (tz a - tz b) + 86400000); lia.
Qed.

Lemma valueOf_le a b : valueOf tz a <= valueOf tz b <-> a <= b.
Proof.
  destruct (Z.eq_dec a b) as [-> | N]; [lia |].
  unfold valueOf. pose proof (tz_drift a b) as D. unfold MS_PER_DAY in *. lia.
Qed.

Lemma valueOf_lt a b : valueOf tz a < valueOf tz b <-> a < b.
Proof.
  pose proof (valueOf_le b a). lia.
Qed.

Lemma date_leb_true a b : date_leb tz a b = true <-> a <= b.
Proof. unfold date_leb. rewrite Z.leb_le. apply valueOf_le. Qed.

Lemma date_leb_false a b : date_leb tz a b = false <-> b < a.
Proof. unfold date_leb. rewrite Z.leb_gt. apply valueOf_lt. Qed.

End Drift.
End ZoneFacts.


(** ** The bars loop *)

Module LayoutFacts.
Import Calendar JsDate Gantt Geometry ZoneFacts.




End LayoutFacts.

(** ** Day counts *)

Module DayCount.
Import Calendar JsDate Gantt ZoneFacts.

(** C6. For local-midnight dates [a] and [b] of a zone whose daylight-saving
    drift stays under half a day: [daysBetween a b] is the millisecond
    difference divided by 86,400,000 and rounded to a nearest integer, it is
    the calendar-day difference [b - a], it is non-negative when [a <= b],
    and [daysBetween a b = - daysBetween b a]. *)
Theorem daysBetween_antisymmetric (tz : Z -> Z) :
  dst_drift_small tz ->
  forall a b : Date,
    daysBetween tz a b = MathRound_div (valueOf tz b - valueOf tz a) 86400000 /\
    Z.abs (2 * (valueOf tz b - valueOf tz a) - 2 * 86400000 * daysBetween tz a b)
      <= 86400000 /\
    daysBetween tz a b = b - a /\
    (valueOf tz a <= valueOf tz b -> 0 <= daysBetween tz a b) /\
    daysBetween tz a b = - daysBetween tz b a.
Proof.
  intros D a b. split; [done |]. split.
  { unfold daysBetween, MS_PER_DAY. apply MathRound_div_nearest. lia. }
  split; [by apply daysBetween_days |].
  split; [apply daysBetween_nonneg |].
  rewrite !daysBetween_days by done. lia.
Qed.

(** The claim at 2024-01-01 and 2024-06-26 in a zone with summer time. *)
Lemma daysBetween_antisymmetric_witness :
  dst_drift_small tz_summer /\
  valueOf tz_summer 19723 <= valueOf tz_summer 19900 /\
  daysBetween tz_summer 19723 19900 = 177 /\
  0 <= daysBetween tz_summer 19723 19900 /\
  daysBetween tz_summer 19723 19900 = - daysBetween tz_summer 19900 19723.
Proof.
  pose proof (daysBetween_antisymmetric tz_summer tz_summer_drift 19723 19900)
    as (_ & _ & Hd & Hn & Ha).
  split; [exact tz_summer_drift |].
  assert (Hle : valueOf tz_summer 19723 <= valueOf tz_summer 19900)
    by (vm_compute; discriminate).
  split; [exact Hle |]. split; [exact Hd |]. split; [exact (Hn Hle) | exact Ha].
Defined.

End DayCount.

(** ** Bars *)

Module Bars.
Import Calendar JsDate Double Gantt Geometry DoubleFacts ZoneFacts.

(** A bar whose exact extent, [(e + 1 - s) * dw] for the day counts [s] of
    its start and [e] of its end, is zero or less: with day counts of valid
    dates and a day of at most [2^22] pixels, the extent computed in doubles
    stays under 4 pixels and the bar is drawn 4 pixels wide. *)
Lemma bar_width_minimal (s e : Z) (dw : Q) :
  Z.abs s <= 200000000 -> Z.abs e <= 200000000 ->
  (Qabs dw <= 4194304)%Q ->
  (inject_Z (e + 1 - s) * dw <= 0)%Q ->
  let x := fmul (of_Z s) (Fin dw) in
  let endX := fadd (fmul (of_Z e) (Fin dw)) (Fin dw) in
  fmax (fsub endX x) (Fin 4) = Fin 4.
Proof.
  intros Hs He Hdw Hext x endX. subst x endX.
  rewrite !of_Z_exact by (unfold PREC; lia). cbn [fmul].
  assert (HB : (838860800000000 <= pow2 (EMAX - 1))%Q) by (vm_compute; discriminate).
  assert (HB1 : (1677721600000000 <= pow2 (EMAX - 1))%Q) by (vm_compute; discriminate).
  pose proof EPS_value as Eeps. pose proof ETA_small as Eeta. pose proof ETA_pos as Peta.
  destruct (round_near (inject_Z s * dw) 838860800000000) as (a & -> & _ & A1 & A2);
    [| exact HB |].
  { change 838860800000000%Q with (inject_Z 200000000 * 4194304)%Q.
    apply Qabs_mult_le; [by apply Qabs_inject_Z_le | exact Hdw]. }
  assert (Hpe : (Qabs (inject_Z e * dw) <= 838860800000000)%Q).
  { change 838860800000000%Q with (inject_Z 200000000 * 4194304)%Q.
    apply Qabs_mult_le; [by apply Qabs_inject_Z_le | exact Hdw]. }
  destruct (round_near (inject_Z e * dw) 838860800000000) as (b & -> & _ & B1 & B2);
    [exact Hpe | exact HB |].
  cbn [fadd].
  apply Qabs_Qle_condition in Hpe as [Hpe1 Hpe2].
  apply Qabs_Qle_condition in Hdw as [Hdw1 Hdw2].
  destruct (round_near (b + dw) 1677721600000000) as (c & -> & _ & C1 & C2);
    [| exact HB1 |].
  { apply Qabs_Qle_condition. rewrite Eeps in B1, B2. split; lra. }
  cbn [fsub].
  assert (Hd : (c - a <= 4)%Q).
  { unfold Z.sub in Hext. rewrite !inject_Z_plus, inject_Z_opp in Hext.
    change (inject_Z 1) with 1%Q in Hext.
    rewrite Eeps in A1, A2, B1, B2, C1, C2. lra. }
  pose proof (round_mono _ _ Hd) as Hm.
  assert (E4 : round 4 = Fin 4) by reflexivity. rewrite E4 in Hm.
  destruct (dle_not_nan _ _ Hm) as [Hn _].
  destruct (fmax_spec (round (c - a)) (Fin 4) Hn ltac:(done)) as (_ & _ & Hle & _).
  exact (Hle Hm).
Qed.

(** A bar that starts and ends on the day with count [s]: its extent is the
    width of a day up to the rounding of the two operations. *)
Lemma bar_extent_same_day (s : Z) (dw : Q) :
  Z.abs s <= 200000000 -> (Qabs dw <= 4194304)%Q ->
  let x := fmul (of_Z s) (Fin dw) in
  exists a n,
    x = Fin a /\ fsub (fadd x (Fin dw)) x = Fin n /\
    (Qabs (n - dw) <= 3 * (Qabs a + Qabs dw) * EPS + 3 * ETA)%Q.
Proof.
  intros Hs Hdw x. subst x.
  rewrite !of_Z_exact by (unfold PREC; lia). cbn [fmul].
  assert (HB : (838860800000000 <= pow2 (EMAX - 1))%Q) by (vm_compute; discriminate).
  assert (HB1 : (1677721600000000 <= pow2 (EMAX - 1))%Q) by (vm_compute; discriminate).
  pose proof EPS_value as Eeps. pose proof ETA_small as Eeta. pose proof ETA_pos as Peta.
  destruct (round_near (inject_Z s * dw) 838860800000000) as (a & Ea & _ & A1 & A2);
    [| exact HB |].
  { change 838860800000000%Q with (inject_Z 200000000 * 4194304)%Q.
    apply Qabs_mult_le; [by apply Qabs_inject_Z_le | exact Hdw]. }
  rewrite Ea. cbn [fadd].
  assert (Ha : (Qabs a <= 1677721600000000)%Q).
  { assert (Hp : (Qabs (inject_Z s * dw) <= 838860800000000)%Q).
    { change 838860800000000%Q with (inject_Z 200000000 * 4194304)%Q.
      apply Qabs_mult_le; [by apply Qabs_inject_Z_le | exact Hdw]. }
    apply Qabs_Qle_condition in Hp as [Hp1 Hp2].
    apply Qabs_Qle_condition. rewrite Eeps in A1, A2. split; lra. }
  pose proof (Qabs_triangle a dw) as Tr.
  pose proof (Qabs_nonneg a) as Na. pose proof (Qabs_nonneg dw) as Nd.
  assert (HB2 : (3355443200000000 <= pow2 (EMAX - 1))%Q) by (vm_compute; discriminate).
  destruct (round_finite (a + dw)) as [c Ec]; [lra |].
  rewrite Ec. cbn [fsub].
  pose proof (round_error _ _ Ec) as Hc.
  apply Qabs_diff_Qle_condition in Hc as [Hc1 Hc2].
  assert (Hca : (Qabs (c - a) <= Qabs dw + (Qabs (a + dw) * EPS + ETA))%Q).
  { apply Qabs_Qle_condition. destruct (Qabs_Qle_condition dw (Qabs dw)) as [X _].
    destruct (X (Qle_refl _)) as [X1 X2]. split; lra. }
  assert (Hm : (Qabs (a + dw) * EPS <= (Qabs a + Qabs dw) * EPS)%Q).
  { apply Qmult_le_compat_r; [exact Tr | pose proof EPS_pos; lra]. }
  destruct (round_finite (c - a)) as [n En].
  { rewrite Eeps in Hca, Hm. lra. }
  exists a, n. split; [reflexivity |]. split; [exact En |].
  pose proof (round_error _ _ En) as Hn.
  apply Qabs_diff_Qle_condition in Hn as [Hn1 Hn2].
  assert (Hm2 : (Qabs (c - a) * EPS <= (Qabs dw + (Qabs (a + dw) * EPS + ETA)) * EPS)%Q).
  { apply Qmult_le_compat_r; [exact Hca | pose proof EPS_pos; lra]. }
  apply Qabs_diff_Qle_condition.
  set (A := Qabs a) in *. set (D := Qabs dw) in *. set (S := Qabs (a + dw)) in *.
  set (C := Qabs (c - a)) in *.
  rewrite Eeps in *. split; lra.
Qed.

(** A task whose start and end dates coincide: its bar covers the cell of
    that day, here 10 pixels, not 4. *)
Lemma same_day_task_is_a_day_wide :
  exists c dom row x w,
    render tz_summer 100 Examples.viewport_310
      (constructor tz_summer Examples.sameday_schedule) = Some (c, dom) /\
    rows c !! 1%nat = Some row /\
    data row = TaskData Examples.sameday_task /\
    data_start (data row) = data_end (data row) /\
    svg_bars (dom_svg dom) !! 4%nat =
      Some (SvgG [SvgRect x (44 + 10) w (ROW_HEIGHT - 20)]) /\
    buildTaskBar tz_summer c row 44 =
      SvgG [SvgRect x (44 + 10) w (ROW_HEIGHT - 20)] /\
    dayWidth c = Fin 10 /\ x = Fin 40 /\ w = Fin 10 /\ w <> Fin 4.
Proof.
  eexists _, _, _, _, _.
  split; [vm_compute; reflexivity |].
  split; [vm_compute; reflexivity |].
  split; [reflexivity |]. split; [reflexivity |].
  split; [vm_compute; reflexivity |].
  split; [vm_compute; reflexivity |].
  split; [reflexivity |]. split; [reflexivity |].
  split; [reflexivity |].
  discriminate.
Defined.

(** A bar has no width at all when its extent is NaN: in a project whose end
    date is the day before its start date [totalDays] is 0, the day width is
    [310 / 0], infinite, and the bar of a phase that starts on the project's
    first day is at [0 * Infinity]. *)
Lemma bar_width_can_be_nan :
  exists c dom x w,
    render tz_summer 100 Examples.viewport_310
      (constructor tz_summer Examples.void_schedule) = Some (c, dom) /\
    totalDays c = 0 /\ dayWidth c = PInf /\
    svg_bars (dom_svg dom) = [SvgLine (Fin 0) 44 (Fin 310) 44; SvgG [SvgRect x 8 w 28]] /\
    x = NaN /\ w = NaN.
Proof.
  eexists _, _, _, _.
  split; [vm_compute; reflexivity |].
  split; [reflexivity |]. split; [reflexivity |].
  split; [reflexivity |]. split; reflexivity.
Qed.

(** C10, as stated, fails in two ways: a task whose start and end dates
    coincide is as wide as the cell of its day, 10 pixels here, not 4; and
    in a project that ends the day before it starts a bar has no width at
    all, its width is NaN. *)
Lemma bar_width_exceptions :
  (exists c dom row x w,
       render tz_summer 100 Examples.viewport_310
         (constructor tz_summer Examples.sameday_schedule) = Some (c, dom) /\
       rows c !! 1%nat = Some row /\
       data row = TaskData Examples.sameday_task /\
       data_start (data row) = data_end (data row) /\
       svg_bars (dom_svg dom) !! 4%nat =
         Some (SvgG [SvgRect x (44 + 10) w (ROW_HEIGHT - 20)]) /\
       buildTaskBar tz_summer c row 44 =
         SvgG [SvgRect x (44 + 10) w (ROW_HEIGHT - 20)] /\
       dayWidth c = Fin 10 /\ x = Fin 40 /\ w = Fin 10 /\ w <> Fin 4) /\
  (exists c dom x w,
       render tz_summer 100 Examples.viewport_310
         (constructor tz_summer Examples.void_schedule) = Some (c, dom) /\
       totalDays c = 0 /\ dayWidth c = PInf /\
       svg_bars (dom_svg dom) = [SvgLine (Fin 0) 44 (Fin 310) 44; SvgG [SvgRect x 8 w 28]] /\
       x = NaN /\ w = NaN).
Proof. split; [exact same_day_task_is_a_day_wide | exact bar_width_can_be_nan]. Defined.

(** C10, amended. Every bar, phase or task, is the rectangle at [x] of width
    [max(endX - x, 4)], computed in doubles.  The width is NaN exactly when
    the extent [endX - x] is; otherwise it is at least 4 pixels, never
    negative and never less than the extent, and an extent of 4 or less is
    drawn 4 pixels wide.  With valid dates, a zone of small daylight-saving
    drift and a day of 0 to [2^22] pixels: a bar whose end date precedes its
    start date is 4 pixels wide; a bar whose start and end dates coincide has
    the extent of one day, up to rounding, and is that wide unless 4 pixels
    is more. *)
Theorem bar_width_at_least_4 (tz : Z -> Z) (c : GanttChart) (row : Row) (y : Z) :
  let x := bar_x tz c row in
  let endX := bar_endX tz c row in
  let w := fmax (fsub endX x) (Fin 4) in
  buildPhaseBar tz c row y = SvgG [SvgRect x (y + 8) w (ROW_HEIGHT - 16)] /\
  buildTaskBar tz c row y = SvgG [SvgRect x (y + 10) w (ROW_HEIGHT - 20)] /\
  (w = NaN <-> fsub endX x = NaN) /\
  (w <> NaN -> dle (Fin 4) w /\ dlt (Fin 0) w /\ dle (fsub endX x) w) /\
  (dle (fsub endX x) (Fin 4) -> w = Fin 4) /\
  (forall dw : Q,
     dst_drift_small tz ->
     date_in_range (projectStart c) ->
     date_in_range (parseDate (data_start (data row))) ->
     date_in_range (parseDate (data_end (data row))) ->
     dayWidth c = Fin dw -> (0 <= dw)%Q -> (dw <= 4194304)%Q ->
     (valueOf tz (parseDate (data_end (data row)))
        < valueOf tz (parseDate (data_start (data row))) ->
      w = Fin 4) /\
     (data_end (data row) = data_start (data row) ->
      exists a n,
        x = Fin a /\ fsub endX x = Fin n /\
        (Qabs (n - dw) <= 3 * (Qabs a + dw) * EPS + 3 * ETA)%Q /\
        w = fmax (Fin n) (Fin 4))).
Proof.
  intros x endX w.
  split; [unfold buildPhaseBar, w, endX, x, bar_endX, bar_x; reflexivity |].
  split; [unfold buildTaskBar, w, endX, x, bar_endX, bar_x; reflexivity |].
  assert (H4 : Fin 4 <> NaN) by discriminate.
  split.
  { unfold w. rewrite fmax_nan. split; [intros [E | E]; [exact E | done] | by left]. }
  split.
  { intros Hw.
    assert (Hn : fsub endX x <> NaN).
    { intros E. apply Hw. unfold w. by rewrite E. }
    destruct (fmax_spec (fsub endX x) (Fin 4) Hn H4) as (Ha & Hb & _ & _).
    split; [exact Hb |]. split; [| exact Ha].
    apply dlt_le_trans with (Fin 4); [reflexivity | exact Hb]. }
  split.
  { intros Hle. destruct (dle_not_nan _ _ Hle) as [Hn _].
    destruct (fmax_spec (fsub endX x) (Fin 4) Hn H4) as (_ & _ & Hm & _).
    exact (Hm Hle). }
  intros dw D Rp Rs Re Edw Hdw0 Hdw1.
  assert (Habs : (Qabs dw <= 4194304)%Q) by (apply Qabs_Qle_condition; split; lra).
  unfold w, endX, x, bar_endX, bar_x, dateToX. rewrite Edw.
  rewrite !daysBetween_days by exact D.
  unfold date_in_range in *.
  split.
  - intros Hlt. apply (proj1 (valueOf_lt tz D _ _)) in Hlt.
    apply bar_width_minimal; [lia | lia | exact Habs |].
    assert (Hk : (inject_Z (parseDate (data_end (data row)) - projectStart c + 1
                            - (parseDate (data_start (data row)) - projectStart c))
                  <= inject_Z 0)%Q) by (rewrite <- Zle_Qle; lia).
    change (inject_Z 0) with 0%Q in Hk.
    set (k := inject_Z _) in *.
    assert (Hp : (k * dw <= 0 * dw)%Q) by (apply Qmult_le_compat_r; assumption).
    lra.
  - intros E. rewrite E.
    destruct (bar_extent_same_day (parseDate (data_start (data row)) - projectStart c) dw)
      as (a & n & Ea & En & Hb); [lia | exact Habs |].
    cbv zeta in Ea, En. exists a, n.
    split; [exact Ea |]. split; [exact En |].
    split; [by rewrite (Qabs_pos dw Hdw0) in Hb |].
    by rewrite En.
Qed.

(** The claim at a task that ends two days before it starts, at 10 pixels a
    day: the bar is 4 pixels wide. *)
Lemma bar_width_at_least_4_witness :
  dst_drift_small tz_summer /\
  dayWidth Examples.scenario_chart = Fin 10 /\
  fmax (fsub (bar_endX tz_summer Examples.scenario_chart Examples.inverted_row)
             (bar_x tz_summer Examples.scenario_chart Examples.inverted_row))
       (Fin 4) = Fin 4.
Proof.
  split; [exact tz_summer_drift |]. split; [reflexivity |].
  refine (proj1 (proj2 (proj2 (proj2 (proj2 (proj2
            (bar_width_at_least_4 tz_summer Examples.scenario_chart
               Examples.inverted_row 0))))) 10%Q
            tz_summer_drift _ _ _ eq_refl _ _) _).
  - unfold date_in_range. vm_compute. split; reflexivity.
  - unfold date_in_range. vm_compute. split; reflexivity.
  - unfold date_in_range. vm_compute. split; reflexivity.
  - discriminate.
  - discriminate.
  - vm_compute. reflexivity.
Defined.

End Bars.


(** ** The dependency arrow router *)

Module Routing.
Import Calendar JsDate Double Gantt Geometry DoubleFacts ZoneFacts LayoutFacts.

(** The router on two rows laid out at [vyF] and [vyT]. *)
Lemma buildDependencyArrow_laid tz c fromRow toRow vyF vyT :
  visibleY fromRow = Some vyF -> visibleY toRow = Some vyT ->
  let fromX := arrow_fromX tz c fromRow in
  let fromY := row_centerY vyF in
  let toX := arrow_toX tz c toRow in
  let toY := row_centerY vyT in
  buildDependencyArrow tz c fromRow toRow =
  Some (SvgPath
    (if fleb (fadd fromX (fmul ELBOW (Fin 2))) toX then
       [M fromX fromY; H (fadd fromX ELBOW); V toY; H toX]
     else
       [M fromX fromY; H (fadd fromX ELBOW);
        V (if fromY <? toY then vyF + ROW_HEIGHT + 4 else vyF - 4);
        H (fmax ELBOW (fsub toX ELBOW)); V toY; H toX])).
Proof.
  intros HF HT. unfold buildDependencyArrow. rewrite HF, HT. reflexivity.
Qed.











(** C1. The router at a successor that starts within [ELBOW] pixels of the
    left edge while its predecessor is running (the overlap case): the
    approach column of the detour is clamped to x = [ELBOW], to the right of
    the successor's start, and the last segment, which the claim and the
    comments of the source have running rightward to the bar, runs leftward,
    here from (10, 110) to (0, 110). *)
Theorem detour_ends_leftward :
  exists c dom pred succ path s,
    render tz_summer 100 Examples.viewport_310
      (constructor tz_summer Examples.early_schedule) = Some (c, dom) /\
    rows c !! 1%nat = Some pred /\ rows c !! 2%nat = Some succ /\
    visible pred = true /\ visible succ = true /\
    data pred = TaskData Examples.early_pred /\
    data succ = TaskData Examples.early_succ /\
    svg_dependencies (dom_svg dom) = [SvgPath path] /\
    buildDependencyArrow tz_summer c pred succ = Some (SvgPath path) /\
    fleb (fadd (arrow_fromX tz_summer c pred) (fmul ELBOW (Fin 2)))
         (arrow_toX tz_summer c succ) = false /\
    arrow_fromX tz_summer c pred = Fin 30 /\
    arrow_toX tz_summer c succ = Fin 0 /\
    path = [M (Fin 30) 66; H (Fin 40); V 92; H (Fin 10); V 110; H (Fin 0)] /\
    last (segments path) = Some s /\
    seg_x1 s = Fin 10 /\ seg_x2 s = Fin 0 /\
    seg_y1 s = 110 /\ seg_y2 s = 110 /\
    dlt (seg_x2 s) (seg_x1 s) /\
    ~ ends_rightward path.
Proof.
  eexists _, _, _, _, _, _.
  split; [vm_compute; reflexivity |].
  split; [vm_compute; reflexivity |]. split; [vm_compute; reflexivity |].
  split; [reflexivity |]. split; [reflexivity |].
  split; [reflexivity |]. split; [reflexivity |].
  split; [reflexivity |]. split; [vm_compute; reflexivity |].
  split; [vm_compute; reflexivity |].
  split; [vm_compute; reflexivity |].
  split; [vm_compute; reflexivity |].
  split; [reflexivity |].
  split; [vm_compute; reflexivity |].
  split; [reflexivity |]. split; [reflexivity |].
  split; [reflexivity |]. split; [reflexivity |].
  split; [vm_compute; reflexivity |].
  intros (s & Hs & _ & Hlt). vm_compute in Hs. inversion Hs; subst s.
  vm_compute in Hlt. discriminate Hlt.
Qed.










End Routing.

(** ** The row flattener *)

Module Flatten.
Import Calendar JsDate Gantt Flattener Geometry LayoutFacts.

Lemma pushTasks_flatten collapsed gi tasks : forall ti rs n,
  pushTasks collapsed gi ti tasks (rs, n) =
  (rs ++ flattenTasks collapsed gi ti n tasks, (n + length tasks)%nat).
Proof.
  induction tasks as [| t rest IH]; intros ti rs n; simpl.
  - by rewrite app_nil_r, Nat.add_0_r.
  - rewrite IH. rewrite <- app_assoc. simpl. f_equal. lia.
Qed.

Lemma pushGroups_flatten cs gs : forall gi rs n,
  (pushGroups cs gi gs (rs, n)).1 = rs ++ flattenGroups cs gi n gs.
Proof.
  induction gs as [| g rest IH]; intros gi rs n; simpl.
  - by rewrite app_nil_r.
  - rewrite pushTasks_flatten, IH. rewrite <- !app_assoc. simpl. done.
Qed.

Lemma buildRows_flatten c :
  rows (buildRows c) = flatten (chart_data c) (collapsedGroups c).
Proof. unfold buildRows, flatten. simpl. by rewrite pushGroups_flatten. Qed.

Lemma flattenTasks_length collapsed gi tasks : forall ti n,
  length (flattenTasks collapsed gi ti n tasks) = length tasks.
Proof. induction tasks; intros; simpl; [done | by rewrite IHtasks]. Qed.

Lemma flattenTasks_lookup collapsed gi tasks : forall ti n i r,
  flattenTasks collapsed gi ti n tasks !! i = Some r ->
  exists t, tasks !! i = Some t /\
    r = mkRow task gi (Some (ti + i)%nat) (TaskData t) (n + i) (negb collapsed) None.
Proof.
  induction tasks as [| t rest IH]; intros ti n i r H; [done |].
  destruct i as [| i]; simpl in H.
  - inversion H; subst. exists t. by rewrite !Nat.add_0_r.
  - destruct (IH _ _ _ _ H) as (t' & Ht & ->). exists t'. split; [done |].
    f_equal; [f_equal |]; lia.
Qed.

Lemma flattenTasks_data collapsed gi tasks : forall ti n,
  map data (flattenTasks collapsed gi ti n tasks) = map TaskData tasks.
Proof. induction tasks; intros; simpl; [done | by rewrite IHtasks]. Qed.

Lemma flattenGroups_data cs gs : forall gi n,
  map data (flattenGroups cs gi n gs) =
  flat_map (fun g => GroupData g :: map TaskData (g_tasks g)) gs.
Proof.
  induction gs as [| g rest IH]; intros gi n; simpl; [done |].
  by rewrite map_app, flattenTasks_data, IH.
Qed.

Lemma flattenGroups_rowIndex cs gs : forall gi n i r,
  flattenGroups cs gi n gs !! i = Some r -> rowIndex r = (n + i)%nat.
Proof.
  induction gs as [| g rest IH]; intros gi n i r H; [done |].
  simpl in H. destruct i as [| i]; simpl in H.
  - inversion H; subst. simpl. lia.
  - destruct (decide (i < length (g_tasks g))%nat) as [Hlt | Hge].
    + rewrite lookup_app_l in H by (by rewrite flattenTasks_length).
      destruct (flattenTasks_lookup _ _ _ _ _ _ _ H) as (t & _ & ->). simpl. lia.
    + rewrite lookup_app_r in H by (rewrite flattenTasks_length; lia).
      rewrite flattenTasks_length in H. apply IH in H. lia.
Qed.

Lemma flattenGroups_rows cs gs : forall gi n r,
  r ∈ flattenGroups cs gi n gs -> row_of_schedule cs gs gi r.
Proof.
  induction gs as [| g rest IH]; intros gi n r H; simpl in H.
  - by apply elem_of_nil in H.
  - apply elem_of_cons in H as [-> | H].
    + unfold row_of_schedule. simpl. rewrite Nat.sub_diag. done.
    + apply elem_of_app in H as [H | H].
      * apply list_elem_of_lookup in H as [i Hi].
        destruct (flattenTasks_lookup _ _ _ _ _ _ _ Hi) as (t & Ht & ->).
        unfold row_of_schedule. simpl. split; [done |].
        exists g, i. rewrite Nat.sub_diag. done.
      * specialize (IH _ _ _ H). unfold row_of_schedule in *.
        destruct (data r) as [g' | t'].
        -- destruct IH as (? & ? & ? & Hle & Hg). repeat split; try done; [lia |].
           replace (groupIdx r - gi)%nat with (S (groupIdx r - S gi)) by lia. done.
        -- destruct IH as (? & g' & ti & Hle & Hg & ? & ? & ?). split; [done |].
           exists g', ti. repeat split; try done; [lia |].
           replace (groupIdx r - gi)%nat with (S (groupIdx r - S gi)) by lia. done.
Qed.

(** C3. [buildRows] emits the rows in document order: for each group in
    schedule order one phase row, then one task row for each of its tasks in
    group order; [rowIndex] counts the rows from 0; every phase row is
    visible; a task row is invisible iff the id of its group is in the
    collapsed set. *)
Theorem buildRows_document_order (c : GanttChart) :
  let rs := rows (buildRows c) in
  let gs := groups (chart_data c) in
  rs = flatten (chart_data c) (collapsedGroups c) /\
  map data rs = document_order (chart_data c) /\
  (forall i r, rs !! i = Some r -> rowIndex r = i) /\
  (forall r, r ∈ rs ->
     (type r = phase <-> exists g, data r = GroupData g) /\
     (type r = task <-> exists t, data r = TaskData t)) /\
  (forall r, r ∈ rs -> type r = phase ->
     visible r = true /\ exists g, data r = GroupData g /\ gs !! groupIdx r = Some g) /\
  (forall r, r ∈ rs -> type r = task ->
     exists g t ti,
       gs !! groupIdx r = Some g /\ taskIdx r = Some ti /\ g_tasks g !! ti = Some t /\
       data r = TaskData t /\
       (visible r = false <-> g_id g ∈ collapsedGroups c) /\
       (visible r = true <-> g_id g ∉ collapsedGroups c)).
Proof.
  intros rs gs. subst rs gs. rewrite buildRows_flatten. unfold flatten.
  set (cs := collapsedGroups c). set (gs := groups (chart_data c)).
  assert (Hrow : forall r, r ∈ flattenGroups cs 0 0 gs -> row_of_schedule cs gs 0 r)
    by apply flattenGroups_rows.
  split; [done |]. split; [apply flattenGroups_data |]. split.
  { intros i r H. by apply flattenGroups_rowIndex in H. }
  split.
  { intros r Hr. specialize (Hrow r Hr). unfold row_of_schedule in Hrow.
    destruct (data r) as [g | t].
    - destruct Hrow as (Ht & _). rewrite Ht. split; split; try done.
      + intros _. by exists g.
      + intros (t & ?). done.
    - destruct Hrow as (Ht & _). rewrite Ht. split; split; try done.
      + intros (g & ?). done.
      + intros _. by exists t. }
  split.
  - intros r Hr Ht. specialize (Hrow r Hr). unfold row_of_schedule in Hrow.
    destruct (data r) as [g | t].
    + destruct Hrow as (_ & _ & Hv & _ & Hg). rewrite Nat.sub_0_r in Hg.
      split; [done |]. by exists g.
    + destruct Hrow as (Ht' & _). congruence.
  - intros r Hr Ht. specialize (Hrow r Hr). unfold row_of_schedule in Hrow.
    destruct (data r) as [g | t].
    + destruct Hrow as (Ht' & _). congruence.
    + destruct Hrow as (_ & g & ti & _ & Hg & Hti & Htask & Hv).
      rewrite Nat.sub_0_r in Hg. exists g, t, ti.
      repeat split; try done; rewrite Hv; case_bool_decide; simpl; try done.
Qed.

End Flatten.


(** ** Months *)

Module MonthFacts.
Import Calendar CalendarFacts JsDate DateFacts Gantt TickSpec.

Lemma MakeDay_firstOfMonth y m : MakeDay y m 1 = firstOfMonth (12 * y + m).
Proof.
  unfold firstOfMonth, MakeDay.
  replace (12 * y + m) with (m + y * 12) by lia.
  rewrite Z.div_add, Z.mod_add by lia.
  replace (0 + (m / 12 + y)) with (y + m / 12) by lia. reflexivity.
Qed.

Lemma firstOfMonth_fields k :
  getFullYear (firstOfMonth k) = k / 12 /\
  getMonth (firstOfMonth k) = k mod 12 /\
  getDate (firstOfMonth k) = 1.
Proof.
  unfold firstOfMonth, getFullYear, getMonth, getDate.
  destruct (fields_MakeDay 0 k 1) as (Hy & Hm & Hd); [lia |].
  rewrite Hy, Hm, Hd. done.
Qed.

Lemma firstOfMonth_step k :
  firstOfMonth k + 28 <= firstOfMonth (k + 1) <= firstOfMonth k + 31.
Proof.
  unfold firstOfMonth, MakeDay. rewrite !Z.add_0_l.
  pose proof (Z.mod_pos_bound k 12) as Hm.
  pose proof (Z.div_mod k 12) as Hk. pose proof (Z.div_mod (k + 1) 12) as Hk1.
  pose proof (Z.mod_pos_bound (k + 1) 12) as Hm1.
  destruct (Z.eq_dec (k mod 12) 11) as [E | E].
  - assert (E1 : (k + 1) mod 12 = 0) by lia.
    assert (E2 : (k + 1) / 12 = k / 12 + 1) by lia.
    rewrite E, E1, E2. simpl. rewrite DayFromYear_succ, DaysInYear_leap. lia.
  - assert (E1 : (k + 1) mod 12 = k mod 12 + 1) by lia.
    assert (E2 : (k + 1) / 12 = k / 12) by lia.
    rewrite E1, E2.
    pose proof (InLeapYear_range (k / 12)) as Hl.
    assert (Hr : 0 <= k mod 12 <= 11) by lia.
    pose proof (MonthStart_bounds _ _ Hr Hl) as (_ & Hn). lia.
Qed.

Lemma firstOfMonth_lt k k' : k < k' -> firstOfMonth k < firstOfMonth k'.
Proof.
  intros H. replace k' with (k + 1 + Z.of_nat (Z.to_nat (k' - k - 1))) by lia.
  induction (Z.to_nat (k' - k - 1)) as [| n IH].
  - pose proof (firstOfMonth_step k). replace (k + 1 + Z.of_nat 0) with (k + 1) by lia. lia.
  - pose proof (firstOfMonth_step (k + 1 + Z.of_nat n)).
    replace (k + 1 + Z.of_nat (S n)) with (k + 1 + Z.of_nat n + 1) by lia. lia.
Qed.

Lemma firstOfMonth_le k k' : firstOfMonth k <= firstOfMonth k' <-> k <= k'.
Proof.
  split; intros H.
  - destruct (Z.le_gt_cases k k') as [| Hgt]; [done |].
    pose proof (firstOfMonth_lt k' k Hgt). lia.
  - destruct (Z.eq_dec k k') as [-> | N]; [lia |].
    pose proof (firstOfMonth_lt k k'). lia.
Qed.

(** A day lies in its month. *)
Lemma firstOfMonth_monthIndex d :
  firstOfMonth (monthIndex d) = d - getDate d + 1.
Proof.
  unfold monthIndex. rewrite <- MakeDay_firstOfMonth.
  unfold getFullYear, getMonth, getDate. rewrite MakeDay_fields. lia.
Qed.

Lemma month_interval d :
  firstOfMonth (monthIndex d) <= d < firstOfMonth (monthIndex d + 1).
Proof.
  split.
  - rewrite firstOfMonth_monthIndex. pose proof (DateFromDay_range d). unfold getDate. lia.
  - unfold monthIndex. replace (12 * getFullYear d + getMonth d + 1)
      with (12 * getFullYear d + (getMonth d + 1)) by lia.
    rewrite <- MakeDay_firstOfMonth. unfold getFullYear, getMonth, MakeDay.
    pose proof (MonthFromDay_spec d) as (Hr & Hlo & Hhi).
    pose proof (DayWithinYear_range d) as Hd. rewrite DaysInYear_leap in Hd.
    unfold DayWithinYear in *.
    destruct (Z.eq_dec (MonthFromDay d) 11) as [E | E].
    + rewrite E. change ((11 + 1) / 12) with 1. change ((11 + 1) mod 12) with 0.
      simpl. rewrite DayFromYear_succ, DaysInYear_leap. lia.
    + rewrite Z.div_small, Z.mod_small by lia. rewrite Z.add_0_r. lia.
Qed.

Lemma monthIndex_mono d d' : d <= d' -> monthIndex d <= monthIndex d'.
Proof.
  intros H. destruct (Z.le_gt_cases (monthIndex d) (monthIndex d')) as [| Hgt]; [done |].
  pose proof (month_interval d) as [Hlo _]. pose proof (month_interval d') as [_ Hhi].
  assert (firstOfMonth (monthIndex d' + 1) <= firstOfMonth (monthIndex d))
    by (apply firstOfMonth_le; lia). lia.
Qed.

(** The first days of months are the days whose date is 1. *)
Lemma getDate_1_firstOfMonth d : getDate d = 1 <-> exists k, d = firstOfMonth k.
Proof.
  split.
  - intros H. exists (monthIndex d). rewrite firstOfMonth_monthIndex. lia.
  - intros [k ->]. apply firstOfMonth_fields.
Qed.

Lemma setMonth_next k :
  setMonth (firstOfMonth k) (getMonth (firstOfMonth k) + 1) = firstOfMonth (k + 1).
Proof.
  unfold setMonth. destruct (firstOfMonth_fields k) as (-> & -> & ->).
  rewrite MakeDay_firstOfMonth. f_equal. pose proof (Z.div_mod k 12). lia.
Qed.

(** Dates that [parseDate] returns for calendar dates are of year 100 or
    later: [new Date] reads the years 0..99 as 1900..1999. *)
Lemma parseDate_year f : calendar_date f -> 100 <= getFullYear (parseDate f).
Proof.
  intros (Hy & Hm & Hd). unfold parseDate, newDate, getFullYear.
  set (y := if (0 <=? df_year f) && (df_year f <=? 99) then 1900 + df_year f else df_year f).
  assert (Hy' : 100 <= y).
  { subst y. destruct (Z.leb_spec 0 (df_year f)), (Z.leb_spec (df_year f) 99); simpl; lia. }
  assert (Hge : DayFromYear y <= MakeDay y (df_month f - 1) (df_day f)).
  { unfold MakeDay. rewrite Z.div_small, Z.mod_small by lia. rewrite Z.add_0_r.
    pose proof (InLeapYear_range y) as Hl.
    assert (Hr : 0 <= df_month f - 1 <= 11) by lia.
    pose proof (MonthStart_bounds _ _ Hr Hl). lia. }
  pose proof (YearFromDay_spec (DayFromYear y)) as Hs.
  assert (YearFromDay (DayFromYear y) = y)
    by (apply YearFromDay_unique; pose proof (DayFromYear_lt y); lia).
  pose proof (YearFromDay_mono _ _ Hge). lia.
Qed.

Lemma newDate_modern y m d : 100 <= y -> newDate y m d = MakeDay y m d.
Proof.
  intros H. unfold newDate.
  destruct (Z.leb_spec 0 y), (Z.leb_spec y 99); simpl; try done; lia.
Qed.

End MonthFacts.

(** ** The tick loops *)

Module TickFacts.
Import Calendar CalendarFacts JsDate DateFacts Double Gantt TickSpec ZoneFacts MonthFacts.

Lemma increasing_app l1 l2 :
  increasing (l1 ++ l2) <->
  increasing l1 /\ increasing l2 /\ (forall a b, a ∈ l1 -> b ∈ l2 -> a < b).
Proof.
  induction l1 as [| x l1 IH]; simpl.
  - split; [intros H; repeat split; [done |]; intros a b Ha; by apply elem_of_nil in Ha
           | by intros (_ & H & _)].
  - rewrite IH, Forall_app, !Forall_forall. split.
    + intros ((H1 & H2) & H3 & H4 & H5). repeat split; try done.
      intros a b Ha Hb. apply elem_of_cons in Ha as [-> | Ha]; [by apply H2 | by apply H5].
    + intros ((H1 & H2) & H3 & H4). repeat split; try done.
      * intros b Hb. apply H4; [apply list_elem_of_here | done].
      * intros a b Ha Hb. apply H4; [by apply list_elem_of_further | done].
Qed.

Lemma increasing_map (f : Z -> Z) l :
  (forall a b, a < b -> f a < f b) -> increasing l -> increasing (map f l).
Proof.
  intros Hf. induction l as [| x l IH]; simpl; [done |].
  intros [H1 H2]. split; [| by apply IH].
  apply Forall_map. eapply Forall_impl; [exact H1 |]. intros b Hb. by apply Hf.
Qed.

Section Loops.
Variable tz : Z -> Z.
Hypothesis tz_drift : dst_drift_small tz.

Lemma weeklyLoop_step f cur pe :
  weeklyLoop tz (S f) cur pe =
  if decide (cur <= pe)
  then rest ← weeklyLoop tz f (cur + 7) pe; Some (weekTick cur :: rest)
  else Some [].
Proof.
  simpl. rewrite setDate_shift. destruct (decide (cur <= pe)) as [H | H].
  - by rewrite (proj2 (date_leb_true tz tz_drift cur pe) H).
  - by rewrite (proj2 (date_leb_false tz tz_drift cur pe)) by lia.
Qed.

Lemma weeklyLoop_terminates f : forall cur pe,
  (Z.to_nat (pe - cur + 1) < f)%nat -> is_Some (weeklyLoop tz f cur pe).
Proof.
  induction f as [| f IH]; intros cur pe Hf; [lia |].
  rewrite weeklyLoop_step. destruct (decide (cur <= pe)) as [H | H]; [| done].
  destruct (IH (cur + 7) pe) as [rest Hr]; [lia |]. rewrite Hr. done.
Qed.


Lemma weeklyLoop_dates f : forall cur pe l,
  weeklyLoop tz f cur pe = Some l ->
  (forall d, d ∈ map tick_date l <-> cur <= d <= pe /\ (d - cur) mod 7 = 0) /\
  increasing (map tick_date l) /\
  Forall (fun t => t = weekTick (tick_date t)) l.
Proof.
  induction f as [| f IH]; intros cur pe l Hl; [done |].
  rewrite weeklyLoop_step in Hl. destruct (decide (cur <= pe)) as [H | H].
  - destruct (weeklyLoop tz f (cur + 7) pe) as [rest |] eqn:E; [| done].
    inversion Hl; subst l. destruct (IH _ _ _ E) as (Hin & Hinc & Hlab).
    simpl. split; [| split].
    + intros d. rewrite elem_of_cons, Hin. split.
      * intros [-> | [Hr Hm]]; [rewrite Z.sub_diag; split; [lia | done] |].
        split; [lia |]. revert Hm. Z.to_euclidean_division_equations. lia.
      * intros [Hr Hm]. destruct (Z.eq_dec d cur) as [-> | N]; [by left | right].
        revert Hm. Z.to_euclidean_division_equations. lia.
    + split; [| done]. apply Forall_forall. intros b Hb. apply Hin in Hb. lia.
    + by constructor.
  - inversion Hl; subst l. simpl. split; [| done].
    intros d. split; [intros Hd; by apply elem_of_nil in Hd | lia].
Qed.

Lemma monthlyLoop_step f k pe :
  monthlyLoop tz (S f) (firstOfMonth k) pe =
  if decide (firstOfMonth k <= pe)
  then rest ← monthlyLoop tz f (firstOfMonth (k + 1)) pe;
       Some (monthTick (firstOfMonth k) :: rest)
  else Some [].
Proof.
  simpl. rewrite setMonth_next. destruct (decide (firstOfMonth k <= pe)) as [H | H].
  - by rewrite (proj2 (date_leb_true tz tz_drift _ pe) H).
  - by rewrite (proj2 (date_leb_false tz tz_drift _ pe)) by lia.
Qed.

Lemma monthlyLoop_terminates f : forall k pe,
  (Z.to_nat (pe - firstOfMonth k + 1) < f)%nat ->
  is_Some (monthlyLoop tz f (firstOfMonth k) pe).
Proof.
  induction f as [| f IH]; intros k pe Hf; [lia |].
  rewrite monthlyLoop_step. destruct (decide (firstOfMonth k <= pe)) as [H | H]; [| done].
  pose proof (firstOfMonth_step k).
  destruct (IH (k + 1) pe) as [rest Hr]; [lia |]. rewrite Hr. done.
Qed.


Lemma monthlyLoop_dates f : forall k pe l,
  monthlyLoop tz f (firstOfMonth k) pe = Some l ->
  (forall d, d ∈ map tick_date l <-> exists k', k <= k' /\ d = firstOfMonth k' /\ d <= pe) /\
  increasing (map tick_date l) /\
  Forall (fun t => t = monthTick (tick_date t)) l.
Proof.
  induction f as [| f IH]; intros k pe l Hl; [done |].
  rewrite monthlyLoop_step in Hl. destruct (decide (firstOfMonth k <= pe)) as [H | H].
  - destruct (monthlyLoop tz f (firstOfMonth (k + 1)) pe) as [rest |] eqn:E; [| done].
    inversion Hl; subst l. destruct (IH _ _ _ E) as (Hin & Hinc & Hlab).
    simpl. split; [| split].
    + intros d. rewrite elem_of_cons, Hin. split.
      * intros [-> | (k' & Hk & -> & Hle)]; [exists k; repeat split; [lia | done] |].
        exists k'. repeat split; [lia | done].
      * intros (k' & Hk & -> & Hle).
        destruct (Z.eq_dec k' k) as [-> | N]; [by left | right].
        exists k'. repeat split; [lia | done].
    + split; [| done]. apply Forall_forall. intros b Hb.
      apply Hin in Hb as (k' & Hk & -> & _). apply firstOfMonth_lt. lia.
    + by constructor.
  - inversion Hl; subst l. simpl. split; [| done].
    intros d. split; [intros Hd; by apply elem_of_nil in Hd |].
    intros (k' & Hk & -> & Hle).
    assert (firstOfMonth k <= firstOfMonth k') by (apply firstOfMonth_le; lia). lia.
Qed.

(** *** The quarterly ticks *)

Lemma quarter_tick_one ps pe yr qm :
  100 <= yr -> 0 <= qm <= 11 ->
  (if date_leb tz ps (newDate yr qm 1) && date_leb tz (newDate yr qm 1) pe
   then [mkTick (newDate yr qm 1) (QuarterYear (qm / 3 + 1) yr)] else []) =
  map quarterTick (filter (in_range ps pe) [firstOfMonth (12 * yr + qm)]).
Proof.
  intros Hy Hq. rewrite newDate_modern, MakeDay_firstOfMonth by done.
  set (d := firstOfMonth (12 * yr + qm)).
  assert (Hf : quarterTick d = mkTick d (QuarterYear (qm / 3 + 1) yr)).
  { unfold quarterTick. subst d. destruct (firstOfMonth_fields (12 * yr + qm)) as (-> & -> & _).
    replace (12 * yr + qm) with (qm + yr * 12) by lia.
    rewrite Z.div_add, Z.mod_add by lia.
    rewrite (Z.div_small qm 12), (Z.mod_small qm 12) by lia. done. }
  rewrite filter_cons, filter_nil. unfold in_range at 1.
  destruct (decide (ps <= d <= pe)) as [[H1 H2] | N].
  - rewrite (proj2 (date_leb_true tz tz_drift ps d) H1),
            (proj2 (date_leb_true tz tz_drift d pe) H2). simpl. by rewrite Hf.
  - destruct (date_leb tz ps d) eqn:E1, (date_leb tz d pe) eqn:E2; simpl; try done.
    apply (date_leb_true tz tz_drift) in E1, E2. lia.
Qed.

Lemma quarterTicks_filter ps pe yr :
  100 <= yr ->
  quarterTicks tz ps pe yr =
  map quarterTick (filter (in_range ps pe) (map firstOfMonth (quarterIndices yr))).
Proof.
  intros Hy. unfold quarterTicks, qMonths, quarterIndices. simpl.
  rewrite !quarter_tick_one by lia. rewrite app_nil_r.
  replace (12 * yr + 0) with (12 * yr) by lia.
  rewrite <- !map_app, <- !filter_app. done.
Qed.

Lemma quarterlyTicks_filter ps pe (years : list Z) :
  Forall (fun yr => 100 <= yr) years ->
  flat_map (quarterTicks tz ps pe) years =
  map quarterTick
      (filter (in_range ps pe) (map firstOfMonth (flat_map quarterIndices years))).
Proof.
  induction 1 as [| yr years Hy _ IH]; [done |].
  cbn [flat_map]. rewrite IH, quarterTicks_filter by done.
  by rewrite map_app, filter_app, map_app.
Qed.

End Loops.

Lemma increasing_filter (P : Z -> Prop) `{!forall x, Decision (P x)} l :
  increasing l -> increasing (filter P l).
Proof.
  induction l as [| x l IH]; simpl; [done |]. intros [H1 H2].
  rewrite filter_cons. destruct (decide (P x)); [| by apply IH].
  simpl. split; [| by apply IH].
  apply Forall_forall. intros b Hb. apply list_elem_of_filter in Hb as [_ Hb].
  rewrite Forall_forall in H1. by apply H1.
Qed.

Lemma increasing_seqZ len : forall m, increasing (seqZ m len).
Proof.
  intros m. destruct (Z.le_gt_cases len 0) as [Hle | Hgt].
  { by rewrite seqZ_nil. }
  replace len with (Z.of_nat (Z.to_nat len)) by lia.
  generalize (Z.to_nat len). clear. intros n. revert m.
  induction n as [| n IH]; intros m; [done |].
  rewrite seqZ_cons by lia. simpl. split.
  - apply Forall_forall. intros b Hb. apply elem_of_seqZ in Hb. lia.
  - replace (Z.pred (Z.of_nat (S n))) with (Z.of_nat n) by lia. apply IH.
Qed.

Lemma increasing_quarterIndices years :
  increasing years -> increasing (flat_map quarterIndices years).
Proof.
  induction years as [| yr years IH]; [done |].
  intros [H1 H2]. cbn [flat_map]. apply increasing_app.
  split; [| split; [by apply IH |]].
  - unfold quarterIndices. simpl. repeat split; repeat constructor; lia.
  - intros a b Ha Hb. apply list_elem_of_In, in_flat_map in Hb as (yr' & Hy & Hb).
    apply list_elem_of_In in Hy. rewrite Forall_forall in H1. specialize (H1 _ Hy).
    apply list_elem_of_In in Hb. unfold quarterIndices in *.
    repeat (apply elem_of_cons in Ha as [-> | Ha]); try (by apply elem_of_nil in Ha);
      repeat (apply elem_of_cons in Hb as [-> | Hb]); try (by apply elem_of_nil in Hb); lia.
Qed.

Section Quarterly.
Variable tz : Z -> Z.
Hypothesis tz_drift : dst_drift_small tz.

Lemma quarterlyTicks_dates ps pe :
  100 <= getFullYear ps ->
  let l := quarterlyTicks tz ps pe in
  (forall d, d ∈ map tick_date l <-> quarter_start_in ps pe d) /\
  increasing (map tick_date l) /\
  Forall (fun t => t = quarterTick (tick_date t)) l.
Proof.
  intros Hy l. subst l. unfold quarterlyTicks.
  set (years := seqZ (getFullYear ps) (getFullYear pe - getFullYear ps + 1)).
  assert (Hyears : Forall (fun yr => 100 <= yr) years).
  { apply Forall_forall. intros yr Hin. apply elem_of_seqZ in Hin. lia. }
  rewrite (quarterlyTicks_filter tz tz_drift ps pe years Hyears).
  set (L := filter (in_range ps pe) (map firstOfMonth (flat_map quarterIndices years))).
  assert (Hd : map tick_date (map quarterTick L) = L).
  { rewrite map_map. simpl. apply map_id. }
  rewrite Hd. split; [| split].
  - intros d. subst L. rewrite list_elem_of_filter. unfold in_range, quarter_start_in.
    rewrite list_elem_of_In, in_map_iff. split.
    + intros (Hr & k & <- & Hk). apply in_flat_map in Hk as (yr & Hyr & Hk).
      destruct (firstOfMonth_fields k) as (_ & Hm & Hdt).
      split; [done |]. split; [| done]. rewrite Hm.
      unfold quarterIndices, qMonths in *. simpl in Hk.
      destruct Hk as [<- | [<- | [<- | [<- | []]]]].
      * replace (12 * yr) with (0 + yr * 12) by lia. rewrite Z.mod_add by lia.
        change (0 mod 12) with 0. apply list_elem_of_In; simpl; tauto.
      * replace (12 * yr + 3) with (3 + yr * 12) by lia. rewrite Z.mod_add by lia.
        change (3 mod 12) with 3. apply list_elem_of_In; simpl; tauto.
      * replace (12 * yr + 6) with (6 + yr * 12) by lia. rewrite Z.mod_add by lia.
        change (6 mod 12) with 6. apply list_elem_of_In; simpl; tauto.
      * replace (12 * yr + 9) with (9 + yr * 12) by lia. rewrite Z.mod_add by lia.
        change (9 mod 12) with 9. apply list_elem_of_In; simpl; tauto.
    + intros (Hdt & Hm & Hr). split; [done |].
      exists (monthIndex d). split; [rewrite firstOfMonth_monthIndex; lia |].
      apply in_flat_map. exists (getFullYear d). split.
      * apply list_elem_of_In, elem_of_seqZ.
        pose proof (YearFromDay_mono ps d). pose proof (YearFromDay_mono d pe).
        unfold getFullYear in *. lia.
      * unfold monthIndex, quarterIndices, qMonths in *. simpl.
        repeat (apply elem_of_cons in Hm as [-> | Hm]); try (by apply elem_of_nil in Hm);
          rewrite ?Z.add_0_r; tauto.
  - subst L. apply increasing_filter.
    apply increasing_map; [apply firstOfMonth_lt |].
    apply increasing_quarterIndices, increasing_seqZ.
  - apply Forall_forall. intros t Ht. apply list_elem_of_In, in_map_iff in Ht as (d & <- & _).
    done.
Qed.

End Quarterly.

Lemma monday_spec d :
  getDay (mondayOnOrBefore d) = 1 /\
  mondayOnOrBefore d <= d < mondayOnOrBefore d + 7.
Proof.
  unfold mondayOnOrBefore, getDay, WeekDay.
  Z.to_euclidean_division_equations. lia.
Qed.


Lemma getTickDates_weekly tz fuel ps pe dw :
  fleb (Fin 40) (fmul dw (Fin 7)) = true ->
  getTickDates tz fuel ps pe dw = weeklyLoop tz fuel (mondayOnOrBefore ps) pe.
Proof.
  intros H. unfold getTickDates. cbv zeta. rewrite H.
  replace (getDate ps - (getDay ps + 6) mod 7)
    with (getDate ps + - ((getDay ps + 6) mod 7)) by lia.
  rewrite setDate_shift. unfold mondayOnOrBefore. f_equal.
Qed.

Lemma getTickDates_monthly tz fuel ps pe dw :
  100 <= getFullYear ps ->
  fleb (Fin 40) (fmul dw (Fin 7)) = false ->
  fleb (Fin 40) (fmul dw (Fin 30)) = true ->
  getTickDates tz fuel ps pe dw =
  monthlyLoop tz fuel (firstOfMonth (monthIndex ps)) pe.
Proof.
  intros Hy H7 H30. unfold getTickDates. cbv zeta.
  rewrite H7, H30.
  rewrite newDate_modern, MakeDay_firstOfMonth by done. done.
Qed.

Lemma getTickDates_quarterly tz fuel ps pe dw :
  fleb (Fin 40) (fmul dw (Fin 7)) = false ->
  fleb (Fin 40) (fmul dw (Fin 30)) = false ->
  getTickDates tz fuel ps pe dw =
  Some (if (length (quarterlyTicks tz ps pe) =? 0)%nat
        then [monthTick ps] else quarterlyTicks tz ps pe).
Proof.
  intros H7 H30. unfold getTickDates. cbv zeta.
  rewrite H7, H30.
  by destruct (length (quarterlyTicks tz ps pe) =? 0)%nat.
Qed.


End TickFacts.

(** ** Tick generation *)

Module Ticks.
Import Calendar CalendarFacts JsDate DateFacts Double Gantt TickSpec ZoneFacts MonthFacts TickFacts.



End Ticks.

(** ** Render passes *)

Module RenderFacts.
Import Calendar CalendarFacts JsDate DateFacts Double Gantt Flattener Geometry RenderSpec TickSpec.
Import ZoneFacts LayoutFacts MonthFacts TickFacts Flatten.

Lemma barsLoop_rows tz c rs : forall k, (barsLoop tz c k rs).1 = layoutRows k rs.
Proof.
  induction rs as [| r rs IH]; intros k; [done |].
  simpl. destruct (visible r); simpl.
  - specialize (IH (S k)). destruct (barsLoop tz c (S k) rs). simpl in *. by rewrite IH.
  - specialize (IH k). destruct (barsLoop tz c k rs). simpl in *. by rewrite IH.
Qed.

(** The bars do not depend on the state the loop writes. *)
Lemma render_prepared tz fuel vp c :
  render tz fuel vp c =
  (header ← renderTimelineHeader tz fuel (prepared vp c);
   '(c', svg) ← renderSVG tz fuel (prepared vp c);
   Some (c', mkDom (renderLeftPanel (prepared vp c)) header svg
                (p_name (project (chart_data c')))
                (p_start (project (chart_data c')), p_end (project (chart_data c'))))).
Proof. reflexivity. Qed.

Lemma prepared_same_inputs vp1 vp2 c1 c2 :
  same_inputs c1 c2 -> availableWidth vp1 = availableWidth vp2 ->
  prepared vp1 c1 = prepared vp2 c2.
Proof.
  intros (H1 & H2 & H3 & H4 & H5) Hw. unfold prepared. rewrite Hw.
  destruct c1, c2. simpl in *. subst. reflexivity.
Qed.

Lemma prepared_fields vp c :
  same_inputs c (prepared vp c) /\
  dayWidth (prepared vp c) = fdiv (of_Z (availableWidth vp)) (of_Z (totalDays c)) /\
  svgWidth (prepared vp c) = availableWidth vp /\
  rows (prepared vp c) = flatten (chart_data c) (collapsedGroups c).
Proof.
  unfold prepared. split; [by destruct c |]. split; [done |]. split; [done |].
  change (rows (buildTaskMap ?x)) with (rows x). by rewrite buildRows_flatten.
Qed.

Lemma getTickDates_terminates tz ps pe dw :
  dst_drift_small tz ->
  exists N, forall fuel, (N <= fuel)%nat -> is_Some (getTickDates tz fuel ps pe dw).
Proof.
  intros D. unfold getTickDates.
  cbv zeta.
  destruct (fleb (Fin 40) (fmul dw (Fin 7))); [| destruct (fleb (Fin 40) (fmul dw (Fin 30)))].
  - set (cur := setDate ps _).
    exists (S (Z.to_nat (pe - cur + 1))). intros fuel Hf.
    apply (weeklyLoop_terminates tz D). lia.
  - set (cur := newDate _ _ 1).
    assert (Hc : exists k, cur = firstOfMonth k).
    { subst cur. unfold newDate. eexists. apply MakeDay_firstOfMonth. }
    destruct Hc as [k ->].
    exists (S (Z.to_nat (pe - firstOfMonth k + 1))). intros fuel Hf.
    apply (monthlyLoop_terminates tz D). lia.
  - exists 0%nat. intros fuel _.
    by destruct (length (quarterlyTicks tz ps pe) =? 0)%nat.
Qed.

(** [renderSVG] without the loop: the rows are [layoutRows], the bars the
    second component of the bars loop. *)
Lemma renderSVG_closed tz fuel c :
  renderSVG tz fuel c =
  (ticks ← getTickDates tz fuel (projectStart c) (projectEnd c) (dayWidth c);
   let laid := layoutRows 0 (rows c) in
   let svgHeight := Z.of_nat (length (visibleRows (rows c))) * ROW_HEIGHT in
   Some (with_rows laid c,
         mkSvgBody (svgWidth c) svgHeight
           (map (fun t => SvgLine (tickX tz c t) 0 (tickX tz c t) svgHeight) ticks)
           (barsLoop tz c 0 (rows c)).2
           (flat_map (rowArrows tz (with_rows laid c)) laid))).
Proof.
  unfold renderSVG.
  destruct (getTickDates tz fuel (projectStart c) (projectEnd c) (dayWidth c)) as [ticks |];
    [| reflexivity].
  cbn [mbind option_bind]. rewrite <- (barsLoop_rows tz c (rows c) 0).
  destruct (barsLoop tz c 0 (rows c)) as [rs bars]. reflexivity.
Qed.

(** The whole pass in closed form. *)
Lemma render_closed tz fuel vp c :
  render tz fuel vp c =
  let p := prepared vp c in
  ticks ← getTickDates tz fuel (projectStart c) (projectEnd c) (dayWidth p);
  let laid := layoutRows 0 (rows p) in
  let svgHeight := Z.of_nat (length (visibleRows (rows p))) * ROW_HEIGHT in
  Some (with_rows laid p,
        mkDom (renderLeftPanel p)
          (mkTimelineHeader (availableWidth vp) TIMELINE_HEADER_H
             (SvgRect (Fin 0) 0 (of_Z (availableWidth vp)) TIMELINE_HEADER_H)
             (map (fun t => mkHeaderTick
                     (SvgLine (tickX tz p t) 0 (tickX tz p t) TIMELINE_HEADER_H)
                     (fadd (tickX tz p t) (Fin 6)) (tick_label t)) ticks)
             (SvgLine (Fin 0) (TIMELINE_HEADER_H - 1) (of_Z (availableWidth vp))
                (TIMELINE_HEADER_H - 1)))
          (mkSvgBody (availableWidth vp) svgHeight
             (map (fun t => SvgLine (tickX tz p t) 0 (tickX tz p t) svgHeight) ticks)
             (barsLoop tz p 0 (rows p)).2
             (flat_map (rowArrows tz (with_rows laid p)) laid))
          (p_name (project (chart_data c)))
          (p_start (project (chart_data c)), p_end (project (chart_data c)))).
Proof.
  rewrite render_prepared, renderSVG_closed. unfold renderTimelineHeader.
  change (projectStart (prepared vp c)) with (projectStart c).
  change (projectEnd (prepared vp c)) with (projectEnd c).
  cbv zeta.
  destruct (getTickDates tz fuel (projectStart c) (projectEnd c) (dayWidth (prepared vp c)))
    as [ticks |]; reflexivity.
Qed.

Lemma render_terminates tz vp c :
  dst_drift_small tz ->
  exists N, forall fuel, (N <= fuel)%nat -> is_Some (render tz fuel vp c).
Proof.
  intros D.
  destruct (getTickDates_terminates tz (projectStart c) (projectEnd c)
              (dayWidth (prepared vp c)) D) as [N HN].
  exists N. intros fuel Hf. destruct (HN fuel Hf) as [ticks Ht].
  rewrite render_closed. cbv zeta. rewrite Ht. eexists. reflexivity.
Qed.

(** A pass returns once the fuel suffices, and what holds of whatever a pass
    returns holds of what it does return. *)
Lemma render_total tz vp c (P : GanttChart -> Dom -> Prop) :
  dst_drift_small tz ->
  (forall fuel c' dom, render tz fuel vp c = Some (c', dom) -> P c' dom) ->
  exists N, forall fuel, (N <= fuel)%nat ->
    exists c' dom, render tz fuel vp c = Some (c', dom) /\ P c' dom.
Proof.
  intros D HP. destruct (render_terminates tz vp c D) as [N HN].
  exists N. intros fuel Hf. destruct (HN fuel Hf) as [[c' dom] H].
  exists c', dom. split; [exact H |]. by apply (HP fuel).
Qed.

(** The chart a pass leaves behind. *)
Lemma render_result tz fuel vp c c' dom :
  render tz fuel vp c = Some (c', dom) ->
  c' = with_rows (layoutRows 0 (rows (prepared vp c))) (prepared vp c) /\
  is_Some (getTickDates tz fuel (projectStart c) (projectEnd c) (dayWidth (prepared vp c))).
Proof.
  rewrite render_closed. cbv zeta.
  destruct (getTickDates tz fuel _ _ _) as [ticks |]; [| done].
  cbn [mbind option_bind]. intros H. inversion H; subst. split; [done | by eexists].
Qed.

Lemma render_preserves_inputs tz fuel vp c c' dom :
  render tz fuel vp c = Some (c', dom) -> same_inputs c c'.
Proof.
  intros H. apply render_result in H as [-> _].
  destruct (prepared_fields vp c) as (Hs & _). exact Hs.
Qed.

Lemma render_same_inputs tz fuel vp1 vp2 c1 c2 :
  same_inputs c1 c2 -> availableWidth vp1 = availableWidth vp2 ->
  render tz fuel vp1 c1 = render tz fuel vp2 c2.
Proof.
  intros Hs Hw. rewrite !render_prepared.
  by rewrite (prepared_same_inputs vp1 vp2 c1 c2 Hs Hw).
Qed.

Lemma constructed_same_inputs tz c1 c2 :
  constructed tz c1 -> constructed tz c2 ->
  chart_data c1 = chart_data c2 -> collapsedGroups c1 = collapsedGroups c2 ->
  same_inputs c1 c2.
Proof.
  intros (A1 & A2 & A3) (B1 & B2 & B3) Hd Hc.
  assert (projectStart c1 = projectStart c2) as Hs by congruence.
  assert (projectEnd c1 = projectEnd c2) as He by congruence.
  repeat split; try done. rewrite A3, B3, Hs, He. done.
Qed.

Lemma constructed_preserved tz c c' :
  same_inputs c c' -> constructed tz c -> constructed tz c'.
Proof.
  intros (H1 & H2 & H3 & H4 & _) (A1 & A2 & A3).
  unfold constructed. rewrite <- H1, <- H2, <- H3, <- H4. done.
Qed.

Lemma constructor_constructed tz sched : constructed tz (constructor tz sched).
Proof. done. Qed.

End RenderFacts.

(** ** The scale of a pass *)

Module Scale.
Import Double DoubleFacts.

(** The right edge of the last day of a project of [T] days at a width of
    [W] pixels: [W], up to three roundings. *)
Lemma right_edge_bound (W T : Z) :
  0 < W < 2 ^ 53 -> 1 <= T <= 200000000 ->
  let dw := fdiv (of_Z W) (of_Z T) in
  exists w r,
    dw = Fin w /\ (0 < w)%Q /\
    ((1 - EPS) * (inject_Z W / inject_Z T) <= w)%Q /\
    (w <= (1 + EPS) * (inject_Z W / inject_Z T))%Q /\
    fadd (fmul (of_Z (T - 1)) dw) dw = Fin r /\
    (Qabs (r - inject_Z W) <= 4 * EPS * inject_Z W)%Q.
Proof.
  intros HW HT dw. subst dw.
  rewrite !of_Z_exact by (unfold PREC; lia). cbn [fdiv].
  pose proof EPS_value as Eeps. pose proof normal_low as Nlo. pose proof normal_high as Nhi.
  assert (HTq : (1 <= inject_Z T)%Q) by (change 1%Q with (inject_Z 1); rewrite <- Zle_Qle; lia).
  assert (HTq2 : (inject_Z T <= 200000000)%Q)
    by (change 200000000%Q with (inject_Z 200000000); rewrite <- Zle_Qle; lia).
  assert (HWq : (1 <= inject_Z W)%Q) by (change 1%Q with (inject_Z 1); rewrite <- Zle_Qle; lia).
  assert (HWq2 : (inject_Z W <= 9007199254740992)%Q)
    by (change 9007199254740992%Q with (inject_Z (2 ^ 53)); rewrite <- Zle_Qle; lia).
  assert (HTne : ~ (inject_Z T == 0)%Q) by lra.
  assert (E0 : Qeq_bool (inject_Z T) 0 = false).
  { destruct (Qeq_bool (inject_Z T) 0) eqn:E; [| done]. apply Qeq_bool_iff in E. lra. }
  rewrite E0.
  set (q0 := (inject_Z W / inject_Z T)%Q).
  assert (Hq0T : (q0 * inject_Z T == inject_Z W)%Q) by (unfold q0; field; exact HTne).
  assert (Hq0lo : (1 # 200000000 <= q0)%Q).
  { unfold q0. apply Qle_shift_div_l; [lra |]. lra. }
  assert (Hq0hi : (q0 <= inject_Z W)%Q).
  { unfold q0. apply Qle_shift_div_r; [lra |].
    assert (inject_Z W * 1 <= inject_Z W * inject_Z T)%Q; [| lra].
    rewrite !(Qmult_comm (inject_Z W)). apply Qmult_le_compat_r; lra. }
  assert (Eq0 : q0 = (inject_Z W / inject_Z T)%Q) by reflexivity.
  clearbody q0.
  destruct (round_rel q0) as (w & -> & _ & W1 & W2); [lra | lra |].
  rewrite Eeps in W1, W2.
  assert (Hw : (0 < w)%Q) by lra.
  (* the product for the last day *)
  cbn [fmul].
  set (P := (inject_Z (T - 1) * w)%Q).
  assert (HP0 : (0 <= inject_Z (T - 1))%Q)
    by (change 0%Q with (inject_Z 0); rewrite <- Zle_Qle; lia).
  assert (HPw : (P + w == inject_Z T * w)%Q).
  { unfold P, Z.sub. rewrite inject_Z_plus, inject_Z_opp. change (inject_Z 1) with 1%Q. ring. }
  assert (HTw1 : ((1 - (1 # 9007199254740992)) * inject_Z W <= inject_Z T * w)%Q).
  { rewrite <- Hq0T.
    assert (X : ((1 - (1 # 9007199254740992)) * q0 * inject_Z T <= w * inject_Z T)%Q)
      by (apply Qmult_le_compat_r; lra).
    lra. }
  assert (HTw2 : (inject_Z T * w <= (1 + (1 # 9007199254740992)) * inject_Z W)%Q).
  { rewrite <- Hq0T.
    assert (X : (w * inject_Z T <= (1 + (1 # 9007199254740992)) * q0 * inject_Z T)%Q)
      by (apply Qmult_le_compat_r; lra).
    lra. }
  assert (HPn : (0 <= P)%Q) by (unfold P; apply Qmult_le_0_compat; lra).
  assert (HP1 : T <> 1 -> (w <= P)%Q).
  { intros NT. unfold P. assert (1 <= inject_Z (T - 1))%Q
      by (change 1%Q with (inject_Z 1); rewrite <- Zle_Qle; lia).
    assert (1 * w <= inject_Z (T - 1) * w)%Q by (apply Qmult_le_compat_r; lra). lra. }
  assert (HP1' : T = 1 -> P = (0 * w)%Q) by (intros ->; reflexivity).
  clearbody P.
  assert (Hxe : exists xe, round P = Fin xe /\
            ((1 - (1 # 9007199254740992)) * P <= xe)%Q /\
            (xe <= (1 + (1 # 9007199254740992)) * P)%Q).
  { destruct (Z.eq_dec T 1) as [E1 | NT].
    - rewrite (HP1' E1). exists 0%Q.
      assert (E : round (0 * w) = Fin 0) by (apply round_zero; ring).
      split; [exact E |]. split; lra.
    - specialize (HP1 NT).
      destruct (round_rel P) as (xe & Exe & _ & X1 & X2); [lra | lra |].
      exists xe. rewrite Eeps in X1, X2. split; [exact Exe |]. split; lra. }
  destruct Hxe as (xe & -> & X1 & X2). cbn [fadd].
  destruct (round_rel (xe + w)) as (r & -> & _ & R1 & R2); [lra | lra |].
  exists w, r. rewrite Eeps in R1, R2.
  split; [reflexivity |]. split; [exact Hw |].
  split; [rewrite Eeps; lra |]. split; [rewrite Eeps; lra |].
  split; [reflexivity |].
  apply Qabs_diff_Qle_condition. rewrite Eeps. split; lra.
Qed.

(** The width of a day of a project of [T] days at a width of [W] pixels. *)
Lemma day_width (W T : Z) :
  0 < W < 2 ^ 53 -> 1 <= T <= 200000000 ->
  exists w, fdiv (of_Z W) (of_Z T) = Fin w /\ valid (Fin w) /\
    ((1 - EPS) * inject_Z W <= inject_Z T * w)%Q /\
    (inject_Z T * w <= (1 + EPS) * inject_Z W)%Q /\
    (1 # 400000000 <= w)%Q /\ (w <= 9007199254740993)%Q.
Proof.
  intros HW HT.
  rewrite !of_Z_exact by (unfold PREC; lia). cbn [fdiv].
  pose proof EPS_value as Eeps. pose proof normal_low as Nlo. pose proof normal_high as Nhi.
  assert (HTq : (1 <= inject_Z T)%Q) by (change 1%Q with (inject_Z 1); rewrite <- Zle_Qle; lia).
  assert (HTq2 : (inject_Z T <= 200000000)%Q)
    by (change 200000000%Q with (inject_Z 200000000); rewrite <- Zle_Qle; lia).
  assert (HWq : (1 <= inject_Z W)%Q) by (change 1%Q with (inject_Z 1); rewrite <- Zle_Qle; lia).
  assert (HWq2 : (inject_Z W <= 9007199254740992)%Q)
    by (change 9007199254740992%Q with (inject_Z (2 ^ 53)); rewrite <- Zle_Qle; lia).
  assert (HTne : ~ (inject_Z T == 0)%Q) by lra.
  assert (E0 : Qeq_bool (inject_Z T) 0 = false).
  { destruct (Qeq_bool (inject_Z T) 0) eqn:E; [| done]. apply Qeq_bool_iff in E. lra. }
  rewrite E0.
  set (q0 := (inject_Z W / inject_Z T)%Q).
  assert (Hq0T : (q0 * inject_Z T == inject_Z W)%Q) by (unfold q0; field; exact HTne).
  assert (Hq0lo : (1 # 200000000 <= q0)%Q).
  { unfold q0. apply Qle_shift_div_l; [lra |]. lra. }
  assert (Hq0hi : (q0 <= inject_Z W)%Q).
  { unfold q0. apply Qle_shift_div_r; [lra |].
    assert (inject_Z W * 1 <= inject_Z W * inject_Z T)%Q; [| lra].
    rewrite !(Qmult_comm (inject_Z W)). apply Qmult_le_compat_r; lra. }
  clearbody q0.
  destruct (round_rel q0) as (w & -> & Hv & W1 & W2); [lra | lra |].
  exists w. split; [reflexivity |]. split; [exact Hv |].
  rewrite Eeps in *.
  assert (X1 : ((1 - (1 # 9007199254740992)) * q0 * inject_Z T <= w * inject_Z T)%Q)
    by (apply Qmult_le_compat_r; lra).
  assert (X2 : (w * inject_Z T <= (1 + (1 # 9007199254740992)) * q0 * inject_Z T)%Q)
    by (apply Qmult_le_compat_r; lra).
  split; [lra |]. split; [lra |]. split; lra.
Qed.

(** The x of day [k] of the project: inside the width, and to the right of
    the left edge from the second day on. *)
Lemma x_inside (W T k : Z) (w : Q) :
  0 < W < 2 ^ 53 -> 1 <= T <= 200000000 ->
  fdiv (of_Z W) (of_Z T) = Fin w ->
  0 <= k <= T - 1 ->
  exists x, fmul (of_Z k) (Fin w) = Fin x /\ valid (Fin x) /\
    (0 <= x)%Q /\ (x < inject_Z W)%Q /\ (k = 0 -> x = 0%Q) /\ (0 < k -> (0 < x)%Q) /\
    ((1 - EPS) * (inject_Z k * w) <= x)%Q /\ (x <= (1 + EPS) * (inject_Z k * w))%Q.
Proof.
  intros HW HT Hdw Hk.
  destruct (day_width W T HW HT) as (w' & E & Hv & W1 & W2 & W3 & W4).
  rewrite Hdw in E. inversion E; subst w'. clear E.
  rewrite of_Z_exact by (unfold PREC; lia). cbn [fmul].
  pose proof EPS_value as Eeps. pose proof normal_low as Nlo. pose proof normal_high as Nhi.
  rewrite Eeps in *.
  assert (HTq2 : (inject_Z T <= 200000000)%Q)
    by (change 200000000%Q with (inject_Z 200000000); rewrite <- Zle_Qle; lia).
  assert (HWq : (1 <= inject_Z W)%Q) by (change 1%Q with (inject_Z 1); rewrite <- Zle_Qle; lia).
  assert (HWq2 : (inject_Z W <= 9007199254740992)%Q)
    by (change 9007199254740992%Q with (inject_Z (2 ^ 53)); rewrite <- Zle_Qle; lia).
  destruct (Z.eq_dec k 0) as [-> | Hk0].
  - exists 0%Q. split; [apply round_zero; ring |]. split; [apply valid_zero |].
    split; [lra |]. split; [lra |]. split; [done |]. split; [lia |].
    change (inject_Z 0) with 0%Q. split; rewrite Eeps; lra.
  - assert (Hk1 : (1 <= inject_Z k)%Q)
      by (change 1%Q with (inject_Z 1); rewrite <- Zle_Qle; lia).
    assert (Hk2 : (inject_Z k + 1 <= inject_Z T)%Q).
    { change 1%Q with (inject_Z 1). rewrite <- inject_Z_plus, <- Zle_Qle. lia. }
    set (q := (inject_Z k * w)%Q).
    assert (Q1 : (w <= q)%Q).
    { unfold q. assert (1 * w <= inject_Z k * w)%Q by (apply Qmult_le_compat_r; lra). lra. }
    assert (Q2 : (q + w <= inject_Z T * w)%Q).
    { unfold q. assert ((inject_Z k + 1) * w <= inject_Z T * w)%Q
        by (apply Qmult_le_compat_r; lra). lra. }
    assert (Q3 : (inject_Z T * w <= 200000000 * w)%Q)
      by (apply Qmult_le_compat_r; lra).
    clearbody q.
    destruct (round_rel q) as (x & -> & Hvx & X1 & X2); [lra | lra |].
    rewrite Eeps in *.
    exists x. split; [reflexivity |]. split; [exact Hvx |].
    split; [lra |]. split; [lra |]. split; [lia |]. split; [intros _; lra |]. split; rewrite Eeps; lra.
Qed.

(** A day on or before the project start is not to the right of the left
    edge. *)
Lemma x_left (k : Z) (w : Q) :
  - 2 ^ 53 < k <= 0 -> (0 <= w)%Q -> (w <= 9007199254740993)%Q ->
  exists x, fmul (of_Z k) (Fin w) = Fin x /\ valid (Fin x) /\ (x <= 0)%Q.
Proof.
  intros Hk Hw0 Hw1.
  rewrite of_Z_exact by (unfold PREC; lia). cbn [fmul].
  pose proof normal_high as Nhi.
  assert (Hk1 : (inject_Z k <= 0)%Q)
    by (change 0%Q with (inject_Z 0); rewrite <- Zle_Qle; lia).
  assert (Hk2 : (- (9007199254740992) <= inject_Z k)%Q).
  { change (- (9007199254740992))%Q with (inject_Z (- 2 ^ 53)). rewrite <- Zle_Qle. lia. }
  assert (Hq : (Qabs (inject_Z k * w) <= 9007199254740992 * 9007199254740993)%Q).
  { apply Qabs_mult_le; apply Qabs_Qle_condition; split; lra. }
  assert (Hq0 : (inject_Z k * w <= 0)%Q).
  { assert (inject_Z k * w <= 0 * w)%Q by (apply Qmult_le_compat_r; lra). lra. }
  assert (HB : (9007199254740992 * 9007199254740993 <= pow2 (EMAX - 1))%Q)
    by (vm_compute; discriminate).
  destruct (round_finite (inject_Z k * w)) as [x Hx]; [lra |].
  exists x. split; [exact Hx |]. split; [rewrite <- Hx; apply round_valid |].
  pose proof (round_nonpos _ Hq0) as H. rewrite Hx in H. by apply dle_Fin in H.
Qed.

(** The right edge of day [k] of the project, [W] up to rounding at most. *)
Lemma end_inside (W T k : Z) (w : Q) :
  0 < W < 2 ^ 53 -> 1 <= T <= 200000000 ->
  fdiv (of_Z W) (of_Z T) = Fin w ->
  0 <= k <= T - 1 ->
  exists x e, fmul (of_Z k) (Fin w) = Fin x /\ fadd (Fin x) (Fin w) = Fin e /\
    valid (Fin e) /\ (x < e)%Q /\ (e <= (1 + 4 * EPS) * inject_Z W)%Q /\
    ((1 - EPS) * (x + w) <= e)%Q /\ (e <= (1 + EPS) * (x + w))%Q.
Proof.
  intros HW HT Hdw Hk.
  destruct (x_inside W T k w HW HT Hdw Hk) as (x & Ex & Hvx & X0 & XW & _ & _ & X1 & X2).
  destruct (day_width W T HW HT) as (w' & E & Hv & W1 & W2 & W3 & W4).
  rewrite Hdw in E. inversion E; subst w'. clear E.
  exists x. rewrite Ex. cbn [fadd].
  pose proof EPS_value as Eeps. pose proof normal_low as Nlo. pose proof normal_high as Nhi.
  rewrite Eeps in *.
  assert (HWq2 : (inject_Z W <= 9007199254740992)%Q)
    by (change 9007199254740992%Q with (inject_Z (2 ^ 53)); rewrite <- Zle_Qle; lia).
  assert (HWq : (1 <= inject_Z W)%Q) by (change 1%Q with (inject_Z 1); rewrite <- Zle_Qle; lia).
  assert (Hk2 : (inject_Z k + 1 <= inject_Z T)%Q).
  { change 1%Q with (inject_Z 1). rewrite <- inject_Z_plus, <- Zle_Qle. lia. }
  assert (Q2 : (inject_Z k * w + w <= inject_Z T * w)%Q).
  { assert ((inject_Z k + 1) * w <= inject_Z T * w)%Q
      by (apply Qmult_le_compat_r; lra). lra. }
  assert (HTq2 : (inject_Z T <= 200000000)%Q)
    by (change 200000000%Q with (inject_Z 200000000); rewrite <- Zle_Qle; lia).
  assert (Q3 : (inject_Z T * w <= 200000000 * w)%Q)
    by (apply Qmult_le_compat_r; lra).
  set (q := (inject_Z k * w)%Q) in *. clearbody q.
  destruct (round_rel (x + w)) as (e & -> & Hve & E1 & E2); [lra | lra |].
  rewrite Eeps in *.
  exists e. split; [reflexivity |]. split; [reflexivity |]. split; [exact Hve |].
  split; [| split; [| split]]; rewrite ?Eeps; lra.
Qed.

End Scale.

(** ** Claims on render passes *)

Module Render.
Import Calendar CalendarFacts JsDate DateFacts Double Gantt Flattener Geometry RenderSpec.
Import TickSpec DoubleFacts ZoneFacts LayoutFacts MonthFacts TickFacts Flatten RenderFacts Scale.

(** C9. Two passes on charts of the same schedule with the same collapsed
    set and the same available width return the same chart state and the
    same rendered tree (rows, offsets, bars, arrows, ticks); a second pass
    right after a pass returns exactly what the first returned, so no state
    builds up; the rows a pass leaves are the laid-out flattening of the
    schedule; and, in a zone with small daylight-saving drift, the pass
    returns once the fuel suffices. *)
Theorem render_deterministic
    (tz : Z -> Z) (fuel : nat) (vp1 vp2 : Viewport) (c1 c2 : GanttChart) :
  constructed tz c1 -> constructed tz c2 ->
  chart_data c1 = chart_data c2 ->
  collapsedGroups c1 = collapsedGroups c2 ->
  availableWidth vp1 = availableWidth vp2 ->
  render tz fuel vp1 c1 = render tz fuel vp2 c2 /\
  (forall c' dom,
     render tz fuel vp1 c1 = Some (c', dom) ->
     render tz fuel vp1 c' = Some (c', dom) /\
     rows c' = layoutRows 0 (flatten (chart_data c1) (collapsedGroups c1)) /\
     svg_bars (dom_svg dom) =
       (barsLoop tz (prepared vp1 c1) 0
          (flatten (chart_data c1) (collapsedGroups c1))).2) /\
  (dst_drift_small tz ->
   exists N, forall fuel', (N <= fuel')%nat -> is_Some (render tz fuel' vp1 c1)).
Proof.
  intros K1 K2 Hd Hc Hw.
  split; [apply render_same_inputs; [by eapply constructed_same_inputs | done] |].
  split; [| by apply render_terminates].
  intros c' dom H. split; [| split].
  - rewrite <- H. apply render_same_inputs; [| done].
    destruct (render_preserves_inputs _ _ _ _ _ _ H) as (E1 & E2 & E3 & E4 & E5).
    repeat split; congruence.
  - destruct (render_result _ _ _ _ _ _ H) as [-> _].
    destruct (prepared_fields vp1 c1) as (_ & _ & _ & Hr).
    change (rows (with_rows ?rs ?c)) with rs. by rewrite Hr.
  - destruct (prepared_fields vp1 c1) as (_ & _ & _ & Hr).
    rewrite render_closed in H. cbv zeta in H. rewrite Hr in H.
    destruct (getTickDates tz fuel _ _ _) as [ticks |]; [| done].
    cbn [mbind option_bind] in H. by inversion H.
Qed.

Lemma render_deterministic_witness :
  render tz_summer 100 Examples.viewport_310 (constructor tz_summer Examples.plan_schedule) =
  render tz_summer 100 (mkViewport 0 870) Examples.plan_chart.
Proof.
  refine (proj1 (render_deterministic tz_summer 100 Examples.viewport_310
                   (mkViewport 0 870)
                   (constructor tz_summer Examples.plan_schedule) Examples.plan_chart
                   _ _ _ _ _)).
  - apply constructor_constructed.
  - repeat split; vm_compute; reflexivity.
  - vm_compute; reflexivity.
  - vm_compute; reflexivity.
  - vm_compute; reflexivity.
Defined.

(** C7, as stated, fails where the division is not exact: for a project of
    6 days at 100 pixels the day width is the double nearest to 100/6 and the
    right edge of the last day comes out one unit in the last place above
    100. *)
Lemma right_edge_misses_width :
  exists c' dom r,
    render tz_summer 100 (mkViewport 100 1280)
      (constructor tz_summer Examples.sixday_schedule) = Some (c', dom) /\
    totalDays c' = 6 /\ svg_width (dom_svg dom) = 100 /\
    dayWidth c' = fdiv (of_Z 100) (of_Z 6) /\
    dayWidth c' = Fin (4691249611844267 # 281474976710656) /\
    fadd (dateToX tz_summer (projectEnd c') (projectStart c') (dayWidth c')) (dayWidth c')
      = Fin r /\
    r = (7036874417766401 # 70368744177664)%Q /\
    (r == 100 + (1 # 70368744177664))%Q /\ ~ (r == 100)%Q.
Proof.
  eexists _, _, _.
  split; [vm_compute; reflexivity |].
  split; [reflexivity |]. split; [reflexivity |].
  split; [reflexivity |]. split; [reflexivity |].
  split; [vm_compute; reflexivity |].
  split; [reflexivity |]. split; [reflexivity |]. discriminate.
Defined.

(** C7, amended. A pass on the chart of a schedule sets [dayWidth] to the
    available width divided by the total number of project days, in doubles:
    the double nearest to the quotient; the total is
    [daysBetween projectStart projectEnd + 1], and the widths of the SVG
    body and of the header are the available width itself.  For valid
    project dates, the end not before the start, in a zone of small
    daylight-saving drift and at a width that is a positive integer below
    [2^53], the pass returns once the fuel suffices, and the right edge of
    the last day, [dateToX projectEnd + dayWidth], is the available width up
    to rounding: a relative error of at most [4 * EPS = 2^-51].  For a
    project from 2024-01-01 to 2024-01-31 and an available width of 310 the
    division is exact: the day width is 10, the right edge is 310 and the
    bar of a task that starts on 2024-01-05 is at x = 40. *)
Theorem render_fits_viewport
    (tz : Z -> Z) (vp : Viewport) (sched : Schedule) (cs : gset string) :
  let c := with_collapsed cs (constructor tz sched) in
  let ps := parseDate (p_start (project sched)) in
  let pe := parseDate (p_end (project sched)) in
  let W := availableWidth vp in
  dst_drift_small tz ->
  date_in_range ps -> date_in_range pe ->
  valueOf tz ps <= valueOf tz pe ->
  0 < W < 2 ^ 53 ->
  exists N, forall fuel, (N <= fuel)%nat ->
    exists c' dom w r,
      render tz fuel vp c = Some (c', dom) /\
      projectStart c' = ps /\ projectEnd c' = pe /\
      totalDays c' = daysBetween tz ps pe + 1 /\
      dayWidth c' = fdiv (of_Z W) (of_Z (totalDays c')) /\
      dayWidth c' = Fin w /\ (0 < w)%Q /\
      ((1 - EPS) * (inject_Z W / inject_Z (totalDays c')) <= w)%Q /\
      (w <= (1 + EPS) * (inject_Z W / inject_Z (totalDays c')))%Q /\
      svg_width (dom_svg dom) = W /\ th_width (dom_header dom) = W /\
      fadd (dateToX tz pe ps (dayWidth c')) (dayWidth c') = Fin r /\
      (Qabs (r - inject_Z W) <= 4 * EPS * inject_Z W)%Q /\
      (p_start (project sched) = mkDateFields 2024 1 1 ->
       p_end (project sched) = mkDateFields 2024 1 31 ->
       W = 310 ->
       totalDays c' = 31 /\ dayWidth c' = Fin 10 /\ Fin r = Fin 310 /\
       forall row y,
         data_start (data row) = mkDateFields 2024 1 5 ->
         exists wd,
           buildTaskBar tz c' row y =
           SvgG [SvgRect (Fin 40) (y + 10) wd (ROW_HEIGHT - 20)]).
Proof.
  intros c ps pe W D Rs Re Hle HW.
  destruct (render_terminates tz vp c D) as [N HN]. exists N. intros fuel Hf.
  destruct (HN fuel Hf) as [[c' dom] H].
  pose proof (render_preserves_inputs _ _ _ _ _ _ H) as (E1 & E2 & E3 & E4 & E5).
  assert (Hps : projectStart c' = ps) by (rewrite <- E2; reflexivity).
  assert (Hpe : projectEnd c' = pe) by (rewrite <- E3; reflexivity).
  assert (Ht : totalDays c' = daysBetween tz ps pe + 1) by (rewrite <- E4; reflexivity).
  assert (Hdw : dayWidth c' = fdiv (of_Z W) (of_Z (totalDays c'))).
  { destruct (render_result _ _ _ _ _ _ H) as [-> _].
    change (dayWidth (with_rows ?rs ?p)) with (dayWidth p).
    change (totalDays (with_rows ?rs ?p)) with (totalDays p).
    destruct (prepared_fields vp c) as ((_ & _ & _ & Ht' & _) & Hd & _).
    by rewrite Hd, Ht'. }
  assert (Hsvg : svg_width (dom_svg dom) = W /\ th_width (dom_header dom) = W).
  { rewrite render_closed in H. cbv zeta in H.
    destruct (getTickDates tz fuel _ _ _) as [ticks |]; [| done].
    cbn [mbind option_bind] in H. by inversion H. }
  destruct Hsvg as [Hsvg Hth].
  apply (proj1 (valueOf_le tz D _ _)) in Hle.
  assert (HT : totalDays c' = pe - ps + 1) by (rewrite Ht; by rewrite (daysBetween_days tz D)).
  unfold date_in_range in Rs, Re.
  destruct (right_edge_bound W (totalDays c') HW ltac:(lia))
    as (w & r & Ew & Hw & W1 & W2 & Er & Hr).
  cbv zeta in Ew, Er. rewrite <- Hdw in Ew, Er.
  assert (Hr' : fadd (dateToX tz pe ps (dayWidth c')) (dayWidth c') = Fin r).
  { unfold dateToX. rewrite (daysBetween_days tz D).
    replace (pe - ps) with (totalDays c' - 1) by lia. exact Er. }
  exists c', dom, w, r.
  split; [exact H |]. split; [exact Hps |]. split; [exact Hpe |]. split; [exact Ht |].
  split; [exact Hdw |]. split; [exact Ew |]. split; [exact Hw |].
  split; [exact W1 |]. split; [exact W2 |].
  split; [exact Hsvg |]. split; [exact Hth |]. split; [exact Hr' |]. split; [exact Hr |].
  intros Hs1 He1 HW310.
  assert (Hps' : ps = 19723) by (unfold ps; rewrite Hs1; reflexivity).
  assert (Hpe' : pe = 19753) by (unfold pe; rewrite He1; reflexivity).
  assert (Ht31 : totalDays c' = 31) by (rewrite HT, Hps', Hpe'; reflexivity).
  assert (Hd10 : dayWidth c' = Fin 10).
  { rewrite Hdw, Ht31. unfold W in *. rewrite HW310. reflexivity. }
  split; [exact Ht31 |]. split; [exact Hd10 |].
  split.
  { rewrite <- Hr'. rewrite Hd10, Hps', Hpe'. unfold dateToX.
    rewrite (daysBetween_days tz D). reflexivity. }
  intros row y Hrow. eexists.
  unfold buildTaskBar. cbv zeta. f_equal. f_equal. f_equal.
  unfold dateToX. rewrite Hrow, (daysBetween_days tz D), Hps, Hps', Hd10. reflexivity.
Qed.

(** The scenario of the claim: January 2024 at 310 pixels. *)
Lemma render_fits_viewport_witness :
  exists N, forall fuel, (N <= fuel)%nat ->
    exists c' dom,
      render tz_summer fuel Examples.viewport_310
        (with_collapsed ∅ (constructor tz_summer Examples.scenario_schedule))
        = Some (c', dom) /\
      dayWidth c' = Fin 10 /\
      fadd (dateToX tz_summer 19753 19723 (dayWidth c')) (dayWidth c') = Fin 310 /\
      forall y, exists wd,
        buildTaskBar tz_summer c' Examples.plan_row_1 y =
        SvgG [SvgRect (Fin 40) (y + 10) wd (ROW_HEIGHT - 20)].
Proof.
  destruct (render_fits_viewport tz_summer Examples.viewport_310
              Examples.scenario_schedule ∅ tz_summer_drift) as [N HN].
  - unfold date_in_range. vm_compute. split; reflexivity.
  - unfold date_in_range. vm_compute. split; reflexivity.
  - vm_compute. discriminate.
  - vm_compute. split; reflexivity.
  - exists N. intros fuel Hf.
    destruct (HN fuel Hf)
      as (c' & dom & w & r & H & _ & _ & _ & _ & _ & _ & _ & _ & _ & _ & Hr & _ & Hsc).
    destruct (Hsc eq_refl eq_refl eq_refl) as (_ & Hd & Hr310 & Hbar).
    exists c', dom. split; [exact H |]. split; [exact Hd |].
    split; [rewrite <- Hr310; exact Hr |].
    intros y. exact (Hbar Examples.plan_row_1 y eq_refl).
Defined.

End Render.

(** ** Collapsing and expanding *)

Module Collapse.
Import Calendar JsDate Gantt Flattener Geometry RenderSpec.
Import ZoneFacts LayoutFacts Flatten RenderFacts.

Lemma toggleSet_involutive g (s : gset string) : toggleSet g (toggleSet g s) = s.
Proof.
  unfold toggleSet. destruct (decide (g ∈ s)) as [Hin | Hout].
  - rewrite (bool_decide_eq_true_2 _ Hin).
    rewrite bool_decide_eq_false_2 by set_solver.
    apply set_eq. intros x. rewrite elem_of_union, elem_of_difference, elem_of_singleton.
    destruct (decide (x = g)) as [-> | N]; naive_solver.
  - rewrite (bool_decide_eq_false_2 _ Hout).
    rewrite bool_decide_eq_true_2 by set_solver. set_solver.
Qed.

Lemma toggleSet_flips g (s : gset string) : g ∈ toggleSet g s <-> g ∉ s.
Proof.
  unfold toggleSet. destruct (decide (g ∈ s)) as [Hin | Hout].
  - rewrite (bool_decide_eq_true_2 _ Hin). set_solver.
  - rewrite (bool_decide_eq_false_2 _ Hout). set_solver.
Qed.

Lemma visibleRows_app l1 l2 : visibleRows (l1 ++ l2) = visibleRows l1 ++ visibleRows l2.
Proof. unfold visibleRows. apply filter_app. Qed.

Lemma visibleRows_cons r l :
  visibleRows (r :: l) = if visible r then r :: visibleRows l else visibleRows l.
Proof.
  unfold visibleRows. rewrite filter_cons.
  destruct (decide (visible r = true)) as [E | E].
  - by rewrite E.
  - by destruct (visible r).
Qed.

(** The offsets of the visible rows after the bars loop. *)
Lemma layoutRows_offsets rs : forall k0 k r,
  visibleRows (layoutRows k0 rs) !! k = Some r ->
  visibleY r = Some (Z.of_nat (k0 + k) * ROW_HEIGHT).
Proof.
  induction rs as [| r0 rs IH]; intros k0 k r H; [done |].
  simpl in H. destruct (visible r0) eqn:Ev.
  - rewrite visibleRows_cons in H. cbn [visible set_visibleY] in H. rewrite Ev in H.
    destruct k as [| k]; simpl in H.
    + inversion H; subst. simpl. by rewrite Nat.add_0_r.
    + apply IH in H. rewrite H. do 2 f_equal. lia.
  - rewrite visibleRows_cons, Ev in H. by apply IH in H.
Qed.

Lemma layoutRows_unlaid rs : forall k, map unlaid (layoutRows k rs) = map unlaid rs.
Proof.
  induction rs as [| r rs IH]; intros k; [done |].
  simpl. destruct (visible r); simpl; by rewrite IH.
Qed.

Lemma visibleRows_unlaid rs : visibleRows (map unlaid rs) = map unlaid (visibleRows rs).
Proof.
  induction rs as [| r rs IH]; [done |].
  simpl. rewrite !visibleRows_cons. change (visible (unlaid r)) with (visible r).
  destruct (visible r); simpl; by rewrite IH.
Qed.

Lemma flattenTasks_unlaid collapsed gi tasks : forall ti n,
  map unlaid (flattenTasks collapsed gi ti n tasks) = flattenTasks collapsed gi ti n tasks.
Proof. induction tasks; intros; simpl; [done | by rewrite IHtasks]. Qed.

Lemma flattenGroups_unlaid cs gs : forall gi n,
  map unlaid (flattenGroups cs gi n gs) = flattenGroups cs gi n gs.
Proof.
  induction gs as [| g gs IH]; intros gi n; [done |].
  simpl. rewrite map_app, flattenTasks_unlaid, IH. done.
Qed.

(** The visible rows of a pass, without their layout, are the visible rows
    of the flattening. *)
Lemma visibleRows_layout cs gs k :
  map unlaid (visibleRows (layoutRows k (flattenGroups cs 0 0 gs))) =
  visibleRows (flattenGroups cs 0 0 gs).
Proof.
  rewrite <- visibleRows_unlaid, layoutRows_unlaid, flattenGroups_unlaid. done.
Qed.

Lemma flattenTasks_visible collapsed gi tasks : forall ti n,
  visibleRows (flattenTasks collapsed gi ti n tasks) =
  if collapsed then [] else flattenTasks collapsed gi ti n tasks.
Proof.
  induction tasks as [| t tasks IH]; intros ti n; simpl; [by destruct collapsed |].
  rewrite visibleRows_cons, IH. by destruct collapsed.
Qed.

Lemma filter_task_rows (P : Row -> Prop) `{!forall r, Decision (P r)} collapsed gi tasks :
  forall ti n,
  (forall r, r ∈ flattenTasks collapsed gi ti n tasks -> P r) ->
  filter P (flattenTasks collapsed gi ti n tasks) = flattenTasks collapsed gi ti n tasks.
Proof.
  induction tasks as [| t tasks IH]; intros ti n HP; [done |].
  simpl. rewrite filter_cons.
  destruct (decide (P _)) as [Y | N].
  - f_equal. apply IH. intros r Hr. apply HP. simpl. by apply list_elem_of_further.
  - exfalso. apply N, HP. simpl. apply list_elem_of_here.
Qed.

Lemma filter_none (P : Row -> Prop) `{!forall r, Decision (P r)} (l : list Row) :
  (forall r, r ∈ l -> ~ P r) -> filter P l = [].
Proof.
  induction l as [| x l IH]; intros HP; [done |].
  rewrite filter_cons. destruct (decide (P x)) as [Y | N].
  - exfalso. by apply (HP x); [apply list_elem_of_here |].
  - apply IH. intros r Hr. apply HP. by apply list_elem_of_further.
Qed.

Lemma flattenTasks_rows collapsed gi tasks : forall ti n r,
  r ∈ flattenTasks collapsed gi ti n tasks -> is_task r = true /\ groupIdx r = gi.
Proof.
  induction tasks as [| t tasks IH]; intros ti n r H; simpl in H.
  - by apply elem_of_nil in H.
  - apply elem_of_cons in H as [-> | H]; [done | by eapply IH].
Qed.

(** Collapsing [g] removes from the visible rows exactly the task rows of
    the groups with id [g]. *)
Lemma flattenGroups_collapse p g (cs : gset string) gs : forall pre n,
  g ∉ cs ->
  visibleRows (flattenGroups (cs ∪ {[g]}) (length pre) n gs) =
  filter (fun r => ~ task_row_of (mkSchedule p (pre ++ gs)) g r)
         (visibleRows (flattenGroups cs (length pre) n gs)).
Proof.
  induction gs as [| g0 gs IH]; intros pre n Hg; [done |].
  cbn [flattenGroups].
  rewrite !visibleRows_cons. cbn [visible].
  rewrite !visibleRows_app, !flattenTasks_visible.
  rewrite filter_cons.
  destruct (decide (~ task_row_of _ g _)) as [_ | N];
    [| exfalso; apply N; intros [Ht _]; done].
  f_equal. rewrite filter_app. f_equal.
  - assert (Hgid : forall r ti n' b,
      r ∈ flattenTasks b (length pre) ti n' (g_tasks g0) ->
      task_row_of (mkSchedule p (pre ++ g0 :: gs)) g r <-> g_id g0 = g).
    { intros r ti n' b Hr. apply flattenTasks_rows in Hr as [Ht Hi].
      unfold task_row_of, row_group_id. rewrite Hi. cbn [groups].
      rewrite lookup_app_r by lia. rewrite Nat.sub_diag. simpl. naive_solver. }
    destruct (decide (g_id g0 = g)) as [E | E].
    + rewrite bool_decide_eq_true_2 by set_solver.
      rewrite bool_decide_eq_false_2 by (rewrite E; done).
      symmetry. apply filter_none. intros r Hr HP. apply HP. by eapply Hgid.
    + assert (Hb : bool_decide (g_id g0 ∈ cs ∪ {[g]}) = bool_decide (g_id g0 ∈ cs)).
      { apply bool_decide_ext. set_solver. }
      rewrite Hb. destruct (bool_decide (g_id g0 ∈ cs)); [done |].
      symmetry. apply filter_task_rows. intros r Hr HP. apply E. by eapply Hgid.
  - specialize (IH (pre ++ [g0]) (S n + length (g_tasks g0))%nat Hg).
    rewrite length_app in IH. simpl in IH.
    replace (length pre + 1)%nat with (S (length pre)) in IH by lia.
    rewrite <- app_assoc in IH. exact IH.
Qed.

Lemma toggleGroup_render tz fuel vp g c :
  toggleGroup tz fuel vp g c =
  render tz fuel vp (with_collapsed (toggleSet g (collapsedGroups c)) c).
Proof. reflexivity. Qed.

Lemma rows_after_render tz fuel vp c c' dom :
  render tz fuel vp c = Some (c', dom) ->
  rows c' = layoutRows 0 (flattenGroups (collapsedGroups c) 0 0 (groups (chart_data c))).
Proof.
  intros H. destruct (render_result _ _ _ _ _ _ H) as [-> _].
  destruct (prepared_fields vp c) as (_ & _ & _ & Hr).
  change (rows (with_rows ?rs ?p)) with rs. by rewrite Hr.
Qed.

Lemma layoutRows_phase_visible cs gs k r :
  r ∈ layoutRows k (flattenGroups cs 0 0 gs) -> type r = phase -> visible r = true.
Proof.
  intros Hr Ht.
  assert (Hu : unlaid r ∈ map unlaid (layoutRows k (flattenGroups cs 0 0 gs))).
  { apply list_elem_of_In, in_map, list_elem_of_In, Hr. }
  rewrite layoutRows_unlaid, flattenGroups_unlaid in Hu.
  apply flattenGroups_rows in Hu. unfold row_of_schedule in Hu.
  change (data (unlaid r)) with (data r) in Hu.
  change (type (unlaid r)) with (type r) in Hu.
  change (visible (unlaid r)) with (visible r) in Hu.
  destruct (data r); [tauto | destruct Hu as [Hu _]; congruence].
Qed.

End Collapse.

(** ** The collapse toggle *)

Module Toggle.
Import Calendar JsDate Gantt Flattener Geometry RenderSpec.
Import ZoneFacts LayoutFacts Flatten RenderFacts Collapse.

(** C4. After a pass, toggling a group re-renders with the group's id
    flipped in the collapsed set: every visible row sits at its visible index
    times the row height, every phase row is visible, and, when the toggle
    collapses [g], the visible rows are the former visible rows without the
    task rows of the groups with id [g].  Toggling [g] a second time returns
    the chart (collapsed set, rows, offsets) and the rendered tree of the
    first pass.  In a zone with small daylight-saving drift the passes return
    once the fuel suffices. *)
Theorem collapse_expand_roundtrip
    (tz : Z -> Z) (vp : Viewport) (c : GanttChart) (g : string) :
  (dst_drift_small tz ->
   exists N, forall fuel, (N <= fuel)%nat ->
     exists c0 d0 c1 d1,
       render tz fuel vp c = Some (c0, d0) /\
       toggleGroup tz fuel vp g c0 = Some (c1, d1)) /\
  (forall fuel c0 d0 c1 d1,
     render tz fuel vp c = Some (c0, d0) ->
     toggleGroup tz fuel vp g c0 = Some (c1, d1) ->
     collapsedGroups c1 = toggleSet g (collapsedGroups c0) /\
     (g ∈ collapsedGroups c1 <-> g ∉ collapsedGroups c0) /\
     toggleSet g (collapsedGroups c1) = collapsedGroups c0 /\
     (forall k r, visibleRows (rows c1) !! k = Some r ->
                  visibleY r = Some (Z.of_nat k * ROW_HEIGHT)) /\
     (forall r, r ∈ rows c1 -> type r = phase -> visible r = true) /\
     (g ∉ collapsedGroups c0 ->
      map unlaid (visibleRows (rows c1)) =
      filter (fun r => ~ task_row_of (chart_data c) g r)
             (map unlaid (visibleRows (rows c0)))) /\
     toggleGroup tz fuel vp g c1 = Some (c0, d0)).
Proof.
  split.
  - intros D. destruct (render_terminates tz vp c D) as [N HN].
    exists N. intros fuel Hf. destruct (HN fuel Hf) as [[c0 d0] H0].
    pose proof (render_result _ _ _ _ _ _ H0) as [_ [ticks Ht]].
    exists c0, d0.
    set (ct := with_collapsed (toggleSet g (collapsedGroups c0)) c0).
    assert (Hs : same_inputs c c0) by (by eapply render_preserves_inputs).
    destruct Hs as (E1 & E2 & E3 & E4 & E5).
    assert (Hdw : dayWidth (prepared vp ct) = dayWidth (prepared vp c)).
    { destruct (prepared_fields vp ct) as (_ & -> & _).
      destruct (prepared_fields vp c) as (_ & -> & _).
      change (totalDays ct) with (totalDays c0). by rewrite E4. }
    rewrite toggleGroup_render. fold ct. rewrite (render_closed tz fuel vp ct). cbv zeta.
    change (projectStart ct) with (projectStart c0).
    change (projectEnd ct) with (projectEnd c0).
    rewrite Hdw, <- E2, <- E3, Ht. cbn [mbind option_bind].
    eexists _, _. split; [exact H0 | reflexivity].
  - intros fuel c0 d0 c1 d1 H0 H1.
    set (ct := with_collapsed (toggleSet g (collapsedGroups c0)) c0) in *.
    rewrite toggleGroup_render in H1. fold ct in H1.
    pose proof (render_preserves_inputs _ _ _ _ _ _ H0) as (E1 & E2 & E3 & E4 & E5).
    pose proof (render_preserves_inputs _ _ _ _ _ _ H1) as (F1 & F2 & F3 & F4 & F5).
    change (collapsedGroups ct) with (toggleSet g (collapsedGroups c0)) in F5.
    change (chart_data ct) with (chart_data c0) in F1.
    pose proof (rows_after_render _ _ _ _ _ _ H0) as R0.
    pose proof (rows_after_render _ _ _ _ _ _ H1) as R1.
    change (collapsedGroups ct) with (toggleSet g (collapsedGroups c0)) in R1.
    change (chart_data ct) with (chart_data c0) in R1.
    split; [done |]. split; [rewrite <- F5; apply toggleSet_flips |].
    split; [rewrite <- F5; apply toggleSet_involutive |].
    split; [intros k r Hk; rewrite R1 in Hk; by apply layoutRows_offsets in Hk |].
    split; [intros r Hr; rewrite R1 in Hr; by eapply layoutRows_phase_visible |].
    split.
    + intros Hg. rewrite R0, R1, !visibleRows_layout.
      unfold toggleSet. rewrite bool_decide_eq_false_2 by done.
      rewrite <- E5 in *. rewrite <- E1.
      pose proof (flattenGroups_collapse (project (chart_data c)) g (collapsedGroups c)
                    (groups (chart_data c)) [] 0%nat Hg) as Hc.
      simpl in Hc. destruct (chart_data c). exact Hc.
    + rewrite toggleGroup_render, <- H0. apply render_same_inputs; [| done].
      change (same_inputs (with_collapsed (toggleSet g (collapsedGroups c1)) c1) c).
      unfold same_inputs. cbn [chart_data projectStart projectEnd totalDays
                                collapsedGroups with_collapsed].
      rewrite <- F5, toggleSet_involutive.
      change (projectStart ct) with (projectStart c0) in F2.
      change (projectEnd ct) with (projectEnd c0) in F3.
      change (totalDays ct) with (totalDays c0) in F4.
      repeat split; congruence.
Qed.

End Toggle.


(** ** Dependencies that draw no arrow *)

Module EdgeFacts.
Import Calendar JsDate Gantt Flattener Geometry RenderSpec.
Import ZoneFacts LayoutFacts Flatten RenderFacts Collapse.

Lemma rowArrows_edges tz c row :
  rowArrows tz c row = flat_map (edgeArrow tz c row) (data_dependsOn (data row)).
Proof.
  unfold rowArrows, edgeArrow.
  destruct (negb (is_task row) || negb (visible row)); [| done].
  induction (data_dependsOn (data row)); [done | simpl; done].
Qed.

(** *** Similar schedules flatten to similar rows *)

Lemma flattenTasks_rel depId special b gi ts ts0 :
  Forall2 (task_rel depId special) ts ts0 ->
  forall ti n,
    Forall2 (fun r r0 =>
               row_sim r r0 /\
               (data_dependsOn (data r) = data_dependsOn (data r0) \/
                (special /\ visible r = negb b /\
                 deps_rel depId (data_dependsOn (data r)) (data_dependsOn (data r0)))))
            (flattenTasks b gi ti n ts) (flattenTasks b gi ti n ts0).
Proof.
  induction 1 as [| t t0 ts ts0 (H1 & H2 & H3 & H4 & H5 & H6) _ IH]; intros ti n; simpl.
  - constructor.
  - constructor; [| apply IH].
    split; [unfold row_sim, data_sim; simpl; done |].
    simpl. destruct H6 as [E | [Hs Hd]]; [by left | right; done].
Qed.

Lemma flattenGroups_rel depId gid (cs : gset string) gs gs0 :
  Forall2 (group_rel depId gid) gs gs0 ->
  forall gi n,
    Forall2 (row_rel depId (negb (bool_decide (gid ∈ cs))))
            (flattenGroups cs gi n gs) (flattenGroups cs gi n gs0).
Proof.
  induction 1 as [| g g0 gs gs0 (H1 & H2 & H3 & H4 & H5 & H6) _ IH]; intros gi n; simpl.
  - constructor.
  - constructor.
    + split; [unfold row_sim, data_sim; simpl; done | by left].
    + rewrite <- H1, (Forall2_length _ _ _ H6). apply Forall2_app; [| apply IH].
      eapply Forall2_impl; [apply (flattenTasks_rel _ _ _ _ _ _ H6) |].
      intros r r0 [Hs Hd]. split; [done |].
      destruct Hd as [E | (Hg & Hv & Hd)]; [by left | right].
      split; [by rewrite Hv, Hg | done].
Qed.

Lemma row_rel_sim depId vis rs rs0 :
  Forall2 (row_rel depId vis) rs rs0 -> Forall2 row_sim rs rs0.
Proof. intros H. eapply Forall2_impl; [exact H |]. by intros r r0 [Hs _]. Qed.

(** *** Similar rows give the same panels, bars and layout *)

Lemma row_sim_is_task r r0 : row_sim r r0 -> is_task r = is_task r0.
Proof. intros (H & _). unfold is_task. by rewrite H. Qed.

Lemma taskMapLoop_sim rs rs0 :
  Forall2 row_sim rs rs0 -> forall i m, taskMapLoop i rs m = taskMapLoop i rs0 m.
Proof.
  induction 1 as [| r r0 rs rs0 Hs _ IH]; intros i m; [done |].
  simpl. rewrite (row_sim_is_task _ _ Hs).
  destruct Hs as (_ & _ & _ & _ & _ & _ & (Hid & _)). rewrite Hid. apply IH.
Qed.

Lemma renderLeftPanel_sim c c0 :
  chart_sim c c0 -> renderLeftPanel c = renderLeftPanel c0.
Proof.
  intros (_ & _ & _ & _ & _ & Hc & _ & Hr). unfold renderLeftPanel.
  induction Hr as [| r r0 rs rs0 Hs _ IH]; [done |].
  simpl. f_equal; [| exact IH].
  unfold buildLeftRow. rewrite (row_sim_is_task _ _ Hs), Hc.
  destruct Hs as (_ & _ & _ & _ & Hv & _ & (E1 & E2 & E3 & E4 & E5)).
  by rewrite Hv, E1, E2, E3, E4, E5.
Qed.

Lemma visibleRows_length_sim rs rs0 :
  Forall2 row_sim rs rs0 -> length (visibleRows rs) = length (visibleRows rs0).
Proof.
  induction 1 as [| r r0 rs rs0 Hs _ IH]; [done |].
  rewrite !visibleRows_cons. destruct Hs as (_ & _ & _ & _ & Hv & _). rewrite Hv.
  destruct (visible r0); simpl; by rewrite IH.
Qed.

Lemma bar_sim tz c c0 r r0 y :
  projectStart c = projectStart c0 -> dayWidth c = dayWidth c0 -> row_sim r r0 ->
  buildPhaseBar tz c r y = buildPhaseBar tz c0 r0 y /\
  buildTaskBar tz c r y = buildTaskBar tz c0 r0 y.
Proof.
  intros Hp Hd (_ & _ & _ & _ & _ & _ & (_ & _ & E3 & E4 & _)).
  unfold buildPhaseBar, buildTaskBar. by rewrite Hp, Hd, E3, E4.
Qed.

Lemma barsLoop_sim tz c c0 rs rs0 :
  projectStart c = projectStart c0 -> dayWidth c = dayWidth c0 ->
  svgWidth c = svgWidth c0 ->
  Forall2 row_sim rs rs0 ->
  forall k, (barsLoop tz c k rs).2 = (barsLoop tz c0 k rs0).2.
Proof.
  intros Hp Hd Hw. induction 1 as [| r r0 rs rs0 Hs _ IH]; intros k; [done |].
  simpl. pose proof (row_sim_is_task _ _ Hs) as Ht.
  destruct (bar_sim tz c c0 r r0 (Z.of_nat k * ROW_HEIGHT) Hp Hd Hs) as [B1 B2].
  destruct Hs as (Hty & _ & _ & _ & Hv & _). rewrite Hv.
  destruct (visible r0); simpl.
  - specialize (IH (S k)).
    destruct (barsLoop tz c (S k) rs), (barsLoop tz c0 (S k) rs0). simpl in *.
    rewrite Ht, Hw, IH, Hty, B1, B2. reflexivity.
  - specialize (IH k).
    destruct (barsLoop tz c k rs), (barsLoop tz c0 k rs0). simpl in *. exact IH.
Qed.

Lemma layoutRows_rel depId vis rs rs0 :
  Forall2 (row_rel depId vis) rs rs0 ->
  forall k, Forall2 (row_rel depId vis) (layoutRows k rs) (layoutRows k rs0).
Proof.
  induction 1 as [| r r0 rs rs0 [Hs Hd] _ IH]; intros k; [constructor |].
  simpl. pose proof Hs as (H1 & H2 & H3 & H4 & Hv & H6 & H7). rewrite Hv.
  destruct (visible r0) eqn:E; constructor; try apply IH; try done.
  split; [| exact Hd].
  unfold row_sim. simpl. destruct H7 as (? & ? & ? & ? & ?).
  repeat split; try assumption; congruence.
Qed.

(** *** Similar charts route the same arrows *)

Lemma taskMap_get_sim q q0 id :
  taskMap q = taskMap q0 -> Forall2 row_sim (rows q) (rows q0) ->
  (taskMap_get q id = None /\ taskMap_get q0 id = None) \/
  (exists r r0, taskMap_get q id = Some r /\ taskMap_get q0 id = Some r0 /\ row_sim r r0).
Proof.
  intros Hm Hr. unfold taskMap_get. rewrite Hm.
  destruct (taskMap q0 !! id) as [i |]; simpl; [| by left].
  destruct (rows q !! i) as [r |] eqn:E.
  - destruct (Forall2_lookup_l _ _ _ _ _ Hr E) as (r0 & E0 & Hs).
    right. exists r, r0. by rewrite E0.
  - left. split; [done |]. apply lookup_ge_None. apply lookup_ge_None in E.
    by rewrite <- (Forall2_length _ _ _ Hr).
Qed.

Lemma buildDependencyArrow_sim tz q q0 d d0 r r0 :
  projectStart q = projectStart q0 -> dayWidth q = dayWidth q0 ->
  row_sim d d0 -> row_sim r r0 ->
  buildDependencyArrow tz q d r = buildDependencyArrow tz q0 d0 r0.
Proof.
  intros Hp Hw (_ & _ & _ & _ & _ & Hy & (_ & _ & _ & He & _))
               (_ & _ & _ & _ & _ & Hy' & (_ & _ & Hs & _ & _)).
  unfold buildDependencyArrow. by rewrite Hy, Hy', Hp, Hw, He, Hs.
Qed.

Lemma dependencyArrow_sim tz q q0 r r0 id :
  chart_sim q q0 -> row_sim r r0 ->
  dependencyArrow tz q r id = dependencyArrow tz q0 r0 id.
Proof.
  intros (Hp & _ & _ & Hw & _ & _ & Hm & Hr) Hs. unfold dependencyArrow.
  destruct (taskMap_get_sim q q0 id Hm Hr) as [[-> ->] | (d & d0 & -> & -> & Hd)]; [done |].
  rewrite (buildDependencyArrow_sim tz q q0 d d0 r r0 Hp Hw Hd Hs).
  destruct Hd as (_ & _ & _ & _ & -> & _). done.
Qed.

Lemma flat_map_ext_sim {A B} (f g : A -> list B) l :
  (forall x, f x = g x) -> flat_map f l = flat_map g l.
Proof. intros H. induction l; simpl; [done | by rewrite H, IHl]. Qed.

Lemma rowArrows_rel tz q q0 depId vis r r0 :
  chart_sim q q0 -> row_rel depId vis r r0 ->
  (vis = true -> forall row, dependencyArrow tz q row depId = []) ->
  rowArrows tz q r = rowArrows tz q0 r0.
Proof.
  intros Hq [Hs Hd] Hdang. unfold rowArrows.
  rewrite (row_sim_is_task _ _ Hs).
  pose proof Hs as (_ & _ & _ & _ & Hv & _). rewrite <- Hv.
  destruct (negb (is_task r0) || negb (visible r)) eqn:E; [done |].
  destruct Hd as [-> | (Hvis & l1 & l2 & -> & ->)].
  - apply flat_map_ext_sim. intros id. by apply dependencyArrow_sim.
  - rewrite !flat_map_app. cbn [flat_map].
    rewrite Hdang; [| destruct (visible r), vis; simpl in *;
                      try done; rewrite orb_true_r in E; done].
    cbn [app]. f_equal; apply flat_map_ext_sim; intros id; by apply dependencyArrow_sim.
Qed.

Lemma arrows_rel tz q q0 depId vis rs rs0 :
  chart_sim q q0 -> Forall2 (row_rel depId vis) rs rs0 ->
  (vis = true -> forall row, dependencyArrow tz q row depId = []) ->
  flat_map (rowArrows tz q) rs = flat_map (rowArrows tz q0) rs0.
Proof.
  intros Hq Hr Hd. induction Hr as [| r r0 rs rs0 H _ IH]; [done |].
  simpl. by rewrite (rowArrows_rel tz q q0 depId vis r r0 Hq H Hd), IH.
Qed.

(** *** The task map knows the ids of the schedule only *)

Lemma taskMapLoop_lookup rs : forall i m id j,
  taskMapLoop i rs m !! id = Some j ->
  m !! id = Some j \/ exists r, r ∈ rs /\ is_task r = true /\ data_id (data r) = id.
Proof.
  induction rs as [| r rs IH]; intros i m id j H; [by left |].
  simpl in H. apply IH in H as [H | (r' & Hin & Ht & Hid)].
  - destruct (is_task r) eqn:E; [| by left].
    destruct (decide (data_id (data r) = id)) as [Heq | Hne].
    + right. exists r. split; [apply list_elem_of_here | done].
    + left. by rewrite lookup_insert_ne in H.
  - right. exists r'. split; [by apply list_elem_of_further | done].
Qed.

Lemma flatten_task_ids sched cs r :
  r ∈ flatten sched cs -> is_task r = true -> data_id (data r) ∈ task_ids sched.
Proof.
  intros Hr Ht. apply flattenGroups_rows in Hr. unfold row_of_schedule in Hr.
  unfold is_task in Ht. destruct (data r) as [g | t].
  - destruct Hr as (Hty & _). rewrite Hty in Ht. done.
  - destruct Hr as (_ & g & ti & _ & Hg & _ & Htask & _).
    rewrite Nat.sub_0_r in Hg. cbn [data_id]. unfold task_ids. apply list_elem_of_In, in_flat_map. exists g. split.
    + apply list_elem_of_In, list_elem_of_lookup. eauto.
    + apply in_map, list_elem_of_In, list_elem_of_lookup. eauto.
Qed.

Lemma taskMap_unknown_id vp c id :
  id ∉ task_ids (chart_data c) -> taskMap (prepared vp c) !! id = None.
Proof.
  intros Hid. destruct (taskMap (prepared vp c) !! id) as [j |] eqn:E; [| done].
  exfalso. unfold prepared, buildTaskMap in E. cbn [taskMap with_taskMap] in E.
  apply taskMapLoop_lookup in E as [E | (r & Hr & Ht & <-)]; [done |].
  rewrite buildRows_flatten in Hr. apply Hid. by eapply flatten_task_ids.
Qed.

Lemma task_rel_refl depId special t : task_rel depId special t t.
Proof. unfold task_rel. repeat split; try done. by left. Qed.

Lemma group_rel_refl depId gid g : group_rel depId gid g g.
Proof.
  unfold group_rel. repeat split; try done.
  apply Forall2_same_length_lookup. split; [done |].
  intros i x y Hx Hy. rewrite Hx in Hy. inversion Hy; subst. apply task_rel_refl.
Qed.

Lemma Forall2_refl_list {A} (R : A -> A -> Prop) (l : list A) :
  (forall x, R x x) -> Forall2 R l l.
Proof. intros H. induction l; constructor; done. Qed.

Lemma schedule_with_deps_rel p gs1 g0 ts1 t0 ts2 gs2 l1 depId l2 :
  Forall2 (group_rel depId (g_id g0))
    (groups (schedule_with_deps p gs1 g0 ts1 t0 ts2 gs2 (l1 ++ depId :: l2)))
    (groups (schedule_with_deps p gs1 g0 ts1 t0 ts2 gs2 (l1 ++ l2))).
Proof.
  unfold schedule_with_deps. cbn [groups].
  apply Forall2_app; [apply Forall2_refl_list, group_rel_refl |].
  constructor; [| apply Forall2_refl_list, group_rel_refl].
  unfold group_rel, with_tasks. cbn [g_id g_name g_start g_end g_effort g_tasks].
  repeat split; try done.
  apply Forall2_app; [apply Forall2_refl_list, task_rel_refl |].
  constructor; [| apply Forall2_refl_list, task_rel_refl].
  unfold task_rel, with_dependsOn. cbn. repeat split; try done.
  right. split; [done |]. by exists l1, l2.
Qed.

Lemma prepared_with_data_sim vp c p gs1 g0 ts1 t0 ts2 gs2 l1 depId l2 :
  chart_data c = schedule_with_deps p gs1 g0 ts1 t0 ts2 gs2 (l1 ++ depId :: l2) ->
  let c0 := with_data (schedule_with_deps p gs1 g0 ts1 t0 ts2 gs2 (l1 ++ l2)) c in
  let vis := negb (bool_decide (g_id g0 ∈ collapsedGroups c)) in
  chart_sim (prepared vp c) (prepared vp c0) /\
  Forall2 (row_rel depId vis) (rows (prepared vp c)) (rows (prepared vp c0)).
Proof.
  intros Hdata c0 vis.
  assert (Hrel : Forall2 (row_rel depId vis) (rows (prepared vp c)) (rows (prepared vp c0))).
  { destruct (prepared_fields vp c) as (_ & _ & _ & ->).
    destruct (prepared_fields vp c0) as (_ & _ & _ & ->).
    unfold flatten. change (collapsedGroups c0) with (collapsedGroups c).
    change (chart_data c0)
      with (schedule_with_deps p gs1 g0 ts1 t0 ts2 gs2 (l1 ++ l2)).
    rewrite Hdata. apply flattenGroups_rel, schedule_with_deps_rel. }
  split; [| exact Hrel].
  pose proof (row_rel_sim _ _ _ _ Hrel) as Hsim.
  unfold chart_sim. repeat split; try done.
  unfold prepared, buildTaskMap. cbn [taskMap with_taskMap].
  apply taskMapLoop_sim. exact Hsim.
Qed.

End EdgeFacts.

(** ** Skipped arrows *)

Module Skipped.
Import Calendar JsDate Gantt Flattener Geometry RenderSpec.
Import ZoneFacts LayoutFacts Flatten RenderFacts Collapse EdgeFacts.

(** C8. Take a pass on a schedule in which the task [t0] of the group [g0]
    lists the dependency [depId].  If [depId] is the id of no task, or the
    row it resolves to is not visible, or the row of [t0] is not visible
    (its group is collapsed), then the arrows loop appends no arrow for that
    dependency, and the pass returns the very tree it returns on the
    schedule without that dependency: every row of the left panel, every
    tick, every bar and every other arrow is the same.  The pass returns
    once the fuel suffices, in a zone with small daylight-saving drift. *)
Theorem dangling_dependency_skipped
    (tz : Z -> Z) (fuel : nat) (vp : Viewport) (c : GanttChart)
    (p : Project) (gs1 : list Group) (g0 : Group) (ts1 : list Task) (t0 : Task)
    (ts2 : list Task) (gs2 : list Group) (l1 : list string) (depId : string)
    (l2 : list string) (cr : GanttChart) (dom : Dom) :
  let sched_with := schedule_with_deps p gs1 g0 ts1 t0 ts2 gs2 (l1 ++ depId :: l2) in
  let sched_without := schedule_with_deps p gs1 g0 ts1 t0 ts2 gs2 (l1 ++ l2) in
  chart_data c = sched_with ->
  render tz fuel vp c = Some (cr, dom) ->
  depId ∉ task_ids sched_with \/
  (exists depRow, taskMap_get cr depId = Some depRow /\ visible depRow = false) \/
  g_id g0 ∈ collapsedGroups c ->
  (forall row, row ∈ rows cr ->
     groupIdx row = length gs1 -> taskIdx row = Some (length ts1) ->
     edgeArrow tz cr row depId = []) /\
  (exists cr0,
     render tz fuel vp (with_data sched_without c) = Some (cr0, dom) /\
     Forall2 row_sim (rows cr) (rows cr0)) /\
  (dst_drift_small tz ->
   exists N, forall fuel', (N <= fuel')%nat -> is_Some (render tz fuel' vp c)).
Proof.
  intros sched_with sched_without Hdata Hrender Hprem.
  set (c0 := with_data sched_without c).
  set (vis := negb (bool_decide (g_id g0 ∈ collapsedGroups c))).
  destruct (prepared_with_data_sim vp c p gs1 g0 ts1 t0 ts2 gs2 l1 depId l2 Hdata)
    as [Hsim Hrel]. fold sched_without c0 vis in Hsim, Hrel.
  pose proof (render_result _ _ _ _ _ _ Hrender) as [Hcr _].
  set (pc := prepared vp c) in *. set (pc0 := prepared vp c0) in *.
  set (laid := layoutRows 0 (rows pc)) in *.
  set (laid0 := layoutRows 0 (rows pc0)).
  (* the dependency draws nothing whenever the row of [t0] is visible *)
  assert (Hdang : vis = true -> forall row, dependencyArrow tz cr row depId = []).
  { intros Hvis row. unfold dependencyArrow.
    destruct Hprem as [Hid | [(depRow & Hget & Hinv) | Hcol]].
    - assert (Hnone : taskMap_get cr depId = None).
      { unfold taskMap_get. rewrite Hcr. cbn [taskMap with_rows].
        fold sched_with in Hid. rewrite <- Hdata in Hid.
        pose proof (taskMap_unknown_id vp c depId Hid) as Hn. fold pc in Hn.
        by rewrite Hn. }
      by rewrite Hnone.
    - by rewrite Hget, Hinv.
    - subst vis. by rewrite bool_decide_eq_true_2 in Hvis. }
  split; [| split].
  - intros row Hrow Hgi Hti. unfold edgeArrow.
    destruct (negb (is_task row) || negb (visible row)) eqn:E; [done |].
    apply Hdang. apply orb_false_elim in E as [E1 E2].
    apply negb_false_iff in E1, E2.
    rewrite Hcr in Hrow. cbn [rows with_rows] in Hrow.
    assert (Hu : unlaid row ∈ map unlaid laid)
      by (apply list_elem_of_In, in_map, list_elem_of_In, Hrow).
    subst laid. rewrite layoutRows_unlaid in Hu.
    destruct (prepared_fields vp c) as (_ & _ & _ & Hrows). fold pc in Hrows.
    rewrite Hrows in Hu. unfold flatten in Hu. rewrite flattenGroups_unlaid in Hu.
    apply flattenGroups_rows in Hu. unfold row_of_schedule in Hu.
    change (data (unlaid row)) with (data row) in Hu.
    change (type (unlaid row)) with (type row) in Hu.
    change (visible (unlaid row)) with (visible row) in Hu.
    change (groupIdx (unlaid row)) with (groupIdx row) in Hu.
    unfold is_task in E1. destruct (data row) as [g | t].
    + destruct Hu as (Hty & _). rewrite Hty in E1. done.
    + destruct Hu as (_ & g & ti & _ & Hg & _ & _ & Hv).
      rewrite Nat.sub_0_r, Hgi, Hdata in Hg. unfold sched_with, schedule_with_deps in Hg.
      cbn [groups] in Hg. rewrite lookup_app_r, Nat.sub_diag in Hg by lia.
      simpl in Hg. inversion Hg; subst g. cbn [g_id with_tasks] in Hv.
      subst vis. by rewrite <- Hv.
  - exists (with_rows laid0 pc0).
    assert (Hlaid : Forall2 (row_rel depId vis) laid laid0) by (by apply layoutRows_rel).
    split; [| rewrite Hcr; cbn [rows with_rows]; by eapply row_rel_sim].
    assert (Hq : chart_sim cr (with_rows laid0 pc0)).
    { rewrite Hcr. destruct Hsim as (S1 & S2 & S3 & S4 & S5 & S6 & S7 & S8).
      unfold chart_sim. cbn [projectStart projectEnd totalDays dayWidth svgWidth
                               collapsedGroups taskMap rows with_rows].
      repeat split; try done. by eapply row_rel_sim. }
    pose proof (arrows_rel tz cr (with_rows laid0 pc0) depId vis laid laid0 Hq Hlaid Hdang)
      as Harrows.
    destruct Hsim as (S1 & S2 & S3 & S4 & S5 & S6 & S7 & S8).
    assert (E_left : renderLeftPanel pc0 = renderLeftPanel pc).
    { symmetry. apply renderLeftPanel_sim. unfold chart_sim. repeat split; done. }
    assert (E_len : length (visibleRows (rows pc0)) = length (visibleRows (rows pc)))
      by (by rewrite (visibleRows_length_sim _ _ S8)).
    assert (E_bars : (barsLoop tz pc0 0 (rows pc0)).2 = (barsLoop tz pc 0 (rows pc)).2)
      by (symmetry; by apply barsLoop_sim).
    assert (E_tick : forall t, tickX tz pc0 t = tickX tz pc t)
      by (intros t; unfold tickX; by rewrite S1, S4).
    assert (E_proj : project (chart_data c0) = project (chart_data c))
      by (by rewrite Hdata).
    rewrite Hcr in Harrows.
    rewrite render_closed in Hrender. rewrite render_closed. cbv zeta in Hrender |- *.
    fold pc pc0 in Hrender |- *. fold laid laid0 in Hrender |- *.
    change (projectStart c0) with (projectStart c).
    change (projectEnd c0) with (projectEnd c).
    rewrite <- S4, E_left, E_len, E_bars, <- Harrows, E_proj.
    clear Hcr Hdang Hq Hlaid Hrel vis Hprem S8 S7 E_left E_len E_bars Harrows.
    clearbody laid laid0. clearbody pc pc0.
    destruct (getTickDates tz fuel (projectStart c) (projectEnd c) (dayWidth pc))
      as [ticks |]; [| done].
    cbn [mbind option_bind] in Hrender |- *.
    inversion Hrender as [[Hc Hdom]]. clear Hrender Hdom.
    rewrite (map_ext _ _ (fun t => f_equal
               (fun x => mkHeaderTick (SvgLine x 0 x TIMELINE_HEADER_H) (Double.fadd x (Double.Fin 6))
                           (tick_label t)) (E_tick t))).
    rewrite (map_ext _ _ (fun t => f_equal
               (fun x => SvgLine x 0 x
                  (Z.of_nat (length (visibleRows (rows pc))) * ROW_HEIGHT)) (E_tick t))).
    reflexivity.
  - by apply render_terminates.
Qed.

(** The claim on the plan of the examples, whose task-1-3 lists the unknown
    id task-9-9. *)
Lemma dangling_dependency_skipped_witness :
  exists cr dom cr0,
    render tz_summer 100 Examples.viewport_310
      (constructor tz_summer Examples.plan_schedule) = Some (cr, dom) /\
    render tz_summer 100 Examples.viewport_310
      (with_data
         (schedule_with_deps (project Examples.plan_schedule) []
            (mkGroup "phase-1" "Phase 1" (Examples.d_2024_01 1) (Examples.d_2024_01 25)
               "25d" [])
            [Examples.task_1_1; Examples.task_1_2] Examples.task_1_3 []
            [mkGroup "phase-2" "Phase 2" (Examples.d_2024_01 28) (Examples.d_2024_01 31)
               "4d" [Examples.task_2_1]]
            (["task-1-1"] ++ []))
         (constructor tz_summer Examples.plan_schedule)) = Some (cr0, dom).
Proof.
  assert (exists cr dom,
            render tz_summer 100 Examples.viewport_310
              (constructor tz_summer Examples.plan_schedule) = Some (cr, dom))
    as (cr & dom & H) by (eexists _, _; vm_compute; reflexivity).
  destruct (dangling_dependency_skipped tz_summer 100 Examples.viewport_310
              (constructor tz_summer Examples.plan_schedule)
              (project Examples.plan_schedule) []
              (mkGroup "phase-1" "Phase 1" (Examples.d_2024_01 1) (Examples.d_2024_01 25)
                 "25d" [])
              [Examples.task_1_1; Examples.task_1_2] Examples.task_1_3 []
              [mkGroup "phase-2" "Phase 2" (Examples.d_2024_01 28) (Examples.d_2024_01 31)
                 "4d" [Examples.task_2_1]]
              ["task-1-1"] "task-9-9" [] cr dom eq_refl H)
    as (_ & (cr0 & H0 & _) & _).
  - left. rewrite list_elem_of_In. simpl.
    intros [E | [E | [E | [E | []]]]]; discriminate E.
  - exists cr, dom, cr0. split; [exact H | exact H0].
Defined.

End Skipped.

(** * Further facts of the renderer *)

(** ** The task map *)

Module TaskMapFacts.
Import Calendar JsDate Gantt TaskMapSpec.

Lemma taskMapLoop_snoc rs r : forall i m,
  taskMapLoop i (rs ++ [r]) m =
  let m' := taskMapLoop i rs m in
  if is_task r then <[data_id (data r) := (i + length rs)%nat]> m' else m'.
Proof.
  induction rs as [| r0 rs IH]; intros i m; simpl.
  - by rewrite Nat.add_0_r.
  - rewrite IH. cbv zeta. by replace (S i + length rs)%nat with (i + S (length rs))%nat by lia.
Qed.

(** The map built from a prefix of the rows, read through the rows. *)
Lemma taskMapLoop_prefix id : forall pre suf,
  (i ← taskMapLoop 0 pre ∅ !! id; (pre ++ suf) !! i) =
  last (filter (task_with_id id) pre).
Proof.
  induction pre as [| r pre IH] using rev_ind; intros suf.
  - simpl. by rewrite lookup_empty.
  - rewrite taskMapLoop_snoc. cbv zeta. rewrite filter_app, filter_cons, filter_nil.
    rewrite <- app_assoc. simpl app at 1. simpl Nat.add.
    destruct (decide (task_with_id id r)) as [[Ht Hid] | N].
    + rewrite Ht, Hid, lookup_insert_eq. simpl.
      rewrite last_snoc. apply list_lookup_middle. done.
    + rewrite app_nil_r. rewrite <- (IH (r :: suf)).
      destruct (is_task r) eqn:Ht; [| done].
      rewrite lookup_insert_ne; [done |]. intros E. apply N. by split.
Qed.

(** Looking up, after [buildTaskMap], an id that some task row carries: the
    answer is the last task row of [rows] with that id, whatever rows follow
    it, so of two tasks with one id the later one is the one the arrows are
    routed from, and a phase with the same id never takes its place.  (An id
    that no task carries is not a key of the map: the lookup of the source
    then reads [undefined] or a member inherited from [Object.prototype].) *)
Theorem taskMap_last_wins (c : GanttChart) (id : string) :
  let found := taskMap_get (buildTaskMap c) id in
  (forall pre r suf,
     rows c = pre ++ r :: suf -> task_with_id id r ->
     (forall r', r' ∈ suf -> ~ task_with_id id r') ->
     found = Some r) /\
  (forall r, r ∈ rows c -> is_task r = true -> data_id (data r) = id ->
     exists r', found = Some r' /\ r' ∈ rows c /\
                is_task r' = true /\ data_id (data r') = id).
Proof.
  intros found.
  assert (H : found = last (filter (task_with_id id) (rows c))).
  { subst found. unfold taskMap_get, buildTaskMap. cbn [taskMap rows with_taskMap].
    rewrite <- (taskMapLoop_prefix id (rows c) []). by rewrite app_nil_r. }
  split.
  - intros pre r suf Hrows Hr Hsuf. rewrite H, Hrows.
    rewrite filter_app, filter_cons. destruct (decide (task_with_id id r)); [| done].
    assert (Hnil : filter (task_with_id id) suf = []).
    { apply last_None. destruct (last (filter (task_with_id id) suf)) as [r' |] eqn:E; [| done].
      apply last_Some in E as [l' Hl].
      assert (Hin : r' ∈ filter (task_with_id id) suf).
      { rewrite Hl. apply elem_of_app. right. apply list_elem_of_here. }
      apply list_elem_of_filter in Hin as [Hp Hin]. by destruct (Hsuf r' Hin). }
    rewrite Hnil. apply last_snoc.
  - intros r Hr Ht Hid.
    assert (Hin : r ∈ filter (task_with_id id) (rows c)).
    { apply list_elem_of_filter. by repeat split. }
    destruct (last (filter (task_with_id id) (rows c))) as [r' |] eqn:E.
    + exists r'. split; [by rewrite H |].
      apply last_Some in E as [l' Hl].
      assert (Hin' : r' ∈ filter (task_with_id id) (rows c)).
      { rewrite Hl. apply elem_of_app. right. apply list_elem_of_here. }
      apply list_elem_of_filter in Hin' as [[Ht' Hid'] Hin']. done.
    + apply last_None in E. rewrite E in Hin. by apply elem_of_nil in Hin.
Qed.

End TaskMapFacts.

(** ** Where the ticks are drawn *)

Module TickGeometry.
Import Calendar CalendarFacts JsDate DateFacts Double Gantt Flattener Geometry RenderSpec TickSpec.
Import Drawing DoubleFacts ZoneFacts LayoutFacts MonthFacts TickFacts Flatten RenderFacts Scale.

(** [Math.max(0, x)] for a product that is not positive, and for a double
    that is not negative. *)
Lemma clamp_left (k : Z) (w : Q) :
  k <= 0 -> (0 < w)%Q -> fmax (Fin 0) (fmul (of_Z k) (Fin w)) = Fin 0.
Proof.
  intros Hk Hw.
  assert (H0 : dle (of_Z k) (Fin 0)).
  { unfold of_Z. apply round_nonpos. change 0%Q with (inject_Z 0). by rewrite <- Zle_Qle. }
  destruct (of_Z k) as [r | | |] eqn:E; try done.
  - apply dle_Fin in H0. cbn [fmul].
    assert (Hq : (r * w <= 0)%Q).
    { assert (r * w <= 0 * w)%Q by (apply Qmult_le_compat_r; lra). lra. }
    pose proof (round_nonpos _ Hq) as H1. pose proof (round_valid (r * w)) as Hv1.
    destruct (round (r * w)) as [x | | |] eqn:E1; try done.
    apply dle_Fin in H1. unfold fmax, fleb. destruct (Qle_bool 0 x) eqn:L; [| done].
    apply Qle_bool_iff in L. f_equal. destruct Hv1 as (_ & _ & Hred).
    rewrite <- Hred. change 0%Q with (Qred 0). apply Qred_complete. lra.
  - cbn [fmul]. unfold Qsign. rewrite (proj1 (Qgt_alt w 0) Hw). reflexivity.
Qed.

Lemma clamp_inside (x : Q) : (0 <= x)%Q -> fmax (Fin 0) (Fin x) = Fin x.
Proof.
  intros Hx. unfold fmax, fleb. by rewrite (proj2 (Qle_bool_iff 0 x) Hx).
Qed.

Lemma clamp_nonpos (x : Q) : valid (Fin x) -> (x <= 0)%Q -> fmax (Fin 0) (Fin x) = Fin 0.
Proof.
  intros (_ & _ & Hred) Hx. unfold fmax, fleb. destruct (Qle_bool 0 x) eqn:L; [| done].
  apply Qle_bool_iff in L. f_equal.
  rewrite <- Hred. change 0%Q with (Qred 0). apply Qred_complete. lra.
Qed.

Section Zone.
Variable tz : Z -> Z.
Hypothesis tz_drift : dst_drift_small tz.

(** No tick is later than the end of the project. *)
Lemma getTickDates_le_end fuel ps pe dw l :
  ps <= pe -> getTickDates tz fuel ps pe dw = Some l ->
  Forall (fun t => tick_date t <= pe) l.
Proof.
  intros Hle Hl. apply Forall_forall. intros t Ht.
  assert (Hd : tick_date t ∈ map tick_date l) by (apply list_elem_of_In, in_map, list_elem_of_In, Ht).
  unfold getTickDates in Hl. cbv zeta in Hl.
  destruct (fleb (Fin 40) (fmul dw (Fin 7))); [| destruct (fleb (Fin 40) (fmul dw (Fin 30)))].
  - apply (weeklyLoop_dates tz tz_drift) in Hl as (Hin & _). apply Hin in Hd. lia.
  - unfold newDate in Hl. rewrite MakeDay_firstOfMonth in Hl.
    apply (monthlyLoop_dates tz tz_drift) in Hl as (Hin & _).
    apply Hin in Hd as (k' & _ & _ & Hk). done.
  - destruct (length (quarterlyTicks tz ps pe) =? 0)%nat.
    + inversion Hl; subst l. apply list_elem_of_singleton in Ht as ->. done.
    + inversion Hl; subst l. clear Hd Hl.
      apply list_elem_of_In in Ht. unfold quarterlyTicks in Ht.
      apply in_flat_map in Ht as (yr & _ & Ht). unfold quarterTicks in Ht.
      apply in_flat_map in Ht as (qm & _ & Ht).
      destruct (date_leb tz ps (newDate yr qm 1)); [| done].
      destruct (date_leb tz (newDate yr qm 1) pe) eqn:E; [| done].
      simpl in Ht. destruct Ht as [<- | []]. simpl.
      by apply (date_leb_true tz tz_drift).
Qed.

(** The x of a tick on or before the project start is clamped to the left
    edge; the x of a later tick is the rounded product, left of the right
    edge. *)
Lemma tickX_clamped (c : GanttChart) (w : Q) (t : Tick) :
  dayWidth c = Fin w -> (0 < w)%Q -> tick_date t <= projectStart c ->
  tickX tz c t = Fin 0.
Proof.
  intros Hdw Hw Hd. unfold tickX, dateToX. rewrite (daysBetween_days tz tz_drift), Hdw.
  apply clamp_left; [lia | exact Hw].
Qed.

Lemma tickX_inside (c : GanttChart) (W : Z) (w : Q) (t : Tick) :
  0 < W < 2 ^ 53 -> 1 <= totalDays c <= 200000000 ->
  dayWidth c = fdiv (of_Z W) (of_Z (totalDays c)) -> dayWidth c = Fin w ->
  0 <= tick_date t - projectStart c <= totalDays c - 1 ->
  exists x, tickX tz c t = Fin x /\ (0 <= x)%Q /\ (x < inject_Z W)%Q /\
    ((1 - EPS) * (inject_Z (tick_date t - projectStart c) * w) <= x)%Q /\
    (x <= (1 + EPS) * (inject_Z (tick_date t - projectStart c) * w))%Q.
Proof.
  intros HW HT Hdw Hw Hd. unfold tickX, dateToX.
  rewrite (daysBetween_days tz tz_drift), Hw. rewrite Hw in Hdw. symmetry in Hdw.
  destruct (x_inside W (totalDays c) _ w HW HT Hdw Hd) as (x & -> & _ & X0 & XW & _ & _ & X1 & X2).
  exists x. rewrite (clamp_inside x X0). done.
Qed.

Lemma tickX_range (c : GanttChart) (W : Z) (t : Tick) :
  0 < W < 2 ^ 53 -> 1 <= totalDays c <= 200000000 ->
  dayWidth c = fdiv (of_Z W) (of_Z (totalDays c)) ->
  tick_date t - projectStart c <= totalDays c - 1 ->
  exists x, tickX tz c t = Fin x /\ (0 <= x)%Q /\ (x < inject_Z W)%Q.
Proof.
  intros HW HT Hdw Hd.
  destruct (day_width W (totalDays c) HW HT) as (w & Ew & _ & _ & _ & W3 & _).
  rewrite <- Hdw in Ew.
  assert (HWq : (0 < inject_Z W)%Q) by (change 0%Q with (inject_Z 0); rewrite <- Zlt_Qlt; lia).
  destruct (Z_le_gt_dec (tick_date t) (projectStart c)) as [Hl | Hg].
  - exists 0%Q. rewrite (tickX_clamped c w t Ew) by (lra || lia). split; [done |]. split; lra.
  - destruct (tickX_inside c W w t HW HT Hdw Ew) as (x & Ex & X0 & XW & _); [lia |].
    exists x. done.
Qed.

(** The dates of the weekly and of the monthly ticks, in order. *)
Lemma weeklyLoop_nth f : forall cur pe l i t,
  weeklyLoop tz f cur pe = Some l -> l !! i = Some t ->
  tick_date t = cur + 7 * Z.of_nat i.
Proof.
  induction f as [| f IH]; intros cur pe l i t Hl Hi; [done |].
  rewrite (weeklyLoop_step tz tz_drift) in Hl.
  destruct (decide (cur <= pe)); [| by inversion Hl; subst l].
  destruct (weeklyLoop tz f (cur + 7) pe) as [rest |] eqn:E; [| done].
  inversion Hl; subst l. destruct i as [| i]; simpl in Hi.
  - inversion Hi; subst t. simpl. lia.
  - rewrite (IH _ _ _ _ _ E Hi). lia.
Qed.

Lemma monthlyLoop_nth f : forall k pe l i t,
  monthlyLoop tz f (firstOfMonth k) pe = Some l -> l !! i = Some t ->
  tick_date t = firstOfMonth (k + Z.of_nat i).
Proof.
  induction f as [| f IH]; intros k pe l i t Hl Hi; [done |].
  rewrite (monthlyLoop_step tz tz_drift) in Hl.
  destruct (decide (firstOfMonth k <= pe)); [| by inversion Hl; subst l].
  destruct (monthlyLoop tz f (firstOfMonth (k + 1)) pe) as [rest |] eqn:E; [| done].
  inversion Hl; subst l. destruct i as [| i]; simpl in Hi.
  - inversion Hi; subst t. simpl. by rewrite Z.add_0_r.
  - rewrite (IH _ _ _ _ _ E Hi). f_equal. lia.
Qed.

End Zone.

(** What a pass needs for the day width to be a positive number: a project
    of valid dates that does not end before it starts, and a positive
    available width. *)
Lemma project_days tz c :
  dst_drift_small tz -> constructed tz c ->
  date_in_range (projectStart c) -> date_in_range (projectEnd c) ->
  valueOf tz (projectStart c) <= valueOf tz (projectEnd c) ->
  projectStart c <= projectEnd c /\
  totalDays c = projectEnd c - projectStart c + 1 /\
  1 <= totalDays c <= 200000000.
Proof.
  intros D (K1 & K2 & K3) R1 R2 Hle.
  apply (proj1 (valueOf_le tz D _ _)) in Hle.
  rewrite (daysBetween_days tz D) in K3. unfold date_in_range in *. lia.
Qed.

(** The gridlines of the body and the ticks of the header are drawn at the
    same x, tick by tick, from top to bottom of their panels, with the label
    6 pixels right of its tick; when the project, of valid dates, does not
    end before it starts and the viewport has a positive width, a pass
    returns and every tick lies inside the viewport, [0 <= x < width]: a
    tick before the project start is drawn at the left edge. *)
Theorem gridlines_match_header (tz : Z -> Z) (vp : Viewport) (c : GanttChart) :
  dst_drift_small tz ->
  constructed tz c ->
  date_in_range (projectStart c) -> date_in_range (projectEnd c) ->
  valueOf tz (projectStart c) <= valueOf tz (projectEnd c) ->
  0 < availableWidth vp < 2 ^ 53 ->
  exists N, forall fuel, (N <= fuel)%nat ->
    exists c' dom,
      render tz fuel vp c = Some (c', dom) /\
      Forall2 (fun line ht =>
                 exists x : Q,
                   line = SvgLine (Fin x) 0 (Fin x) (svg_height (dom_svg dom)) /\
                   ht_line ht = SvgLine (Fin x) 0 (Fin x) TIMELINE_HEADER_H /\
                   ht_textX ht = fadd (Fin x) (Fin 6) /\
                   (0 <= x)%Q /\ (x < inject_Z (availableWidth vp))%Q)
              (svg_grid (dom_svg dom)) (th_ticks (dom_header dom)).
Proof.
  intros D K R1 R2 Hle HW. apply (render_total tz vp c); [exact D |].
  intros fuel c' dom H.
  destruct (project_days tz c D K R1 R2 Hle) as (Hle' & HT & HT').
  rewrite render_closed in H. cbv zeta in H.
  destruct (getTickDates tz fuel _ _ _) as [ticks |] eqn:Et; [| done].
  cbn [mbind option_bind] in H. inversion H; subst c' dom. clear H.
  cbn [dom_svg dom_header svg_grid th_ticks svg_height].
  pose proof (getTickDates_le_end tz D _ _ _ _ _ Hle' Et) as Hend.
  destruct (prepared_fields vp c) as ((_ & E2 & E3 & E4 & _) & Hdw & _).
  apply Forall2_fmap, Forall_Forall2_diag.
  eapply Forall_impl; [exact Hend |]. intros t Ht. cbv beta in Ht |- *.
  destruct (tickX_range tz D (prepared vp c) (availableWidth vp) t) as (x & Ex & X0 & XW).
  - exact HW.
  - rewrite <- E4. exact HT'.
  - rewrite Hdw. by rewrite E4.
  - rewrite <- E2, <- E4. lia.
  - exists x. rewrite Ex. done.
Qed.

Lemma gridlines_match_header_witness :
  exists N, forall fuel, (N <= fuel)%nat ->
    exists c' dom,
      render tz_summer fuel Examples.viewport_310
        (constructor tz_summer Examples.scenario_schedule) = Some (c', dom) /\
      Forall2 (fun line ht =>
                 exists x : Q,
                   line = SvgLine (Fin x) 0 (Fin x) (svg_height (dom_svg dom)) /\
                   ht_line ht = SvgLine (Fin x) 0 (Fin x) TIMELINE_HEADER_H /\
                   ht_textX ht = fadd (Fin x) (Fin 6) /\
                   (0 <= x)%Q /\ (x < inject_Z (availableWidth Examples.viewport_310))%Q)
              (svg_grid (dom_svg dom)) (th_ticks (dom_header dom)).
Proof.
  apply (gridlines_match_header tz_summer Examples.viewport_310
           (constructor tz_summer Examples.scenario_schedule)).
  - exact tz_summer_drift.
  - apply constructor_constructed.
  - vm_compute. split; reflexivity.
  - vm_compute. split; reflexivity.
  - vm_compute. discriminate.
  - vm_compute. split; reflexivity.
Defined.

Lemma grid_xs_closed tz fuel vp c c' dom :
  render tz fuel vp c = Some (c', dom) ->
  exists ticks,
    getTickDates tz fuel (projectStart c) (projectEnd c) (dayWidth c') = Some ticks /\
    grid_xs dom = map (tickX tz c') ticks /\
    projectStart c' = projectStart c /\
    totalDays c' = totalDays c /\
    dayWidth c' = fdiv (of_Z (availableWidth vp)) (of_Z (totalDays c)).
Proof.
  intros H. rewrite render_closed in H. cbv zeta in H.
  destruct (getTickDates tz fuel _ _ _) as [ticks |] eqn:Et; [| done].
  cbn [mbind option_bind] in H. inversion H; subst c' dom. clear H.
  exists ticks. split; [exact Et |]. split; [| done].
  unfold grid_xs. cbn [dom_svg svg_grid]. rewrite map_map. done.
Qed.

(** The gap between two ticks [m] days apart, both after the project start:
    [m] day widths, up to rounding. *)
Lemma tick_gap (W T ka m : Z) (w a b : Q) :
  0 < W < 2 ^ 53 -> 1 <= T <= 200000000 ->
  fdiv (of_Z W) (of_Z T) = Fin w ->
  1 <= ka -> 1 <= m -> ka + m <= T - 1 ->
  fmul (of_Z ka) (Fin w) = Fin a -> fmul (of_Z (ka + m)) (Fin w) = Fin b ->
  (a < b)%Q /\
  (inject_Z m * w - 3 * EPS * inject_Z W <= b - a)%Q /\
  (b - a <= inject_Z m * w + 3 * EPS * inject_Z W)%Q.
Proof.
  intros HW HT Hdw Hka Hm Hkb Ea Eb.
  destruct (day_width W T HW HT) as (w' & E & Hv & W1 & W2 & W3 & W4).
  rewrite Hdw in E. inversion E; subst w'. clear E.
  destruct (x_inside W T ka w HW HT Hdw) as (a' & Ea' & _ & _ & _ & _ & _ & A1 & A2); [lia |].
  destruct (x_inside W T (ka + m) w HW HT Hdw) as (b' & Eb' & _ & _ & _ & _ & _ & B1 & B2); [lia |].
  rewrite Ea in Ea'. rewrite Eb in Eb'. inversion Ea'; subst a'. inversion Eb'; subst b'.
  clear Ea' Eb'.
  pose proof EPS_value as Eeps. rewrite Eeps in *.
  assert (HTq2 : (inject_Z T <= 200000000)%Q)
    by (change 200000000%Q with (inject_Z 200000000); rewrite <- Zle_Qle; lia).
  assert (HWq : (1 <= inject_Z W)%Q) by (change 1%Q with (inject_Z 1); rewrite <- Zle_Qle; lia).
  assert (Hm1 : (1 <= inject_Z m)%Q) by (change 1%Q with (inject_Z 1); rewrite <- Zle_Qle; lia).
  assert (Hk1 : (1 <= inject_Z ka)%Q) by (change 1%Q with (inject_Z 1); rewrite <- Zle_Qle; lia).
  assert (Hk2 : (inject_Z (ka + m) + 1 <= inject_Z T)%Q).
  { change 1%Q with (inject_Z 1). rewrite <- inject_Z_plus, <- Zle_Qle. lia. }
  assert (Q3 : (inject_Z T * w <= 200000000 * w)%Q) by (apply Qmult_le_compat_r; lra).
  assert (Q2 : ((inject_Z (ka + m) + 1) * w <= inject_Z T * w)%Q)
    by (apply Qmult_le_compat_r; lra).
  assert (Q1 : (1 * w <= inject_Z m * w)%Q) by (apply Qmult_le_compat_r; lra).
  assert (Q0 : (1 * w <= inject_Z ka * w)%Q) by (apply Qmult_le_compat_r; lra).
  assert (Eq : (inject_Z (ka + m) * w == inject_Z ka * w + inject_Z m * w)%Q)
    by (rewrite inject_Z_plus; ring).
  rewrite Eq in *.
  set (qa := (inject_Z ka * w)%Q) in *. set (qm := (inject_Z m * w)%Q) in *.
  set (tw := (inject_Z T * w)%Q) in *. clearbody qa qm tw.
  split; [lra |]. split; lra.
Qed.

(** Weekly ticks.  For a project of valid dates that does not end before it
    starts, rendered at a positive width with at least 40 pixels to the
    week: the first tick, the Monday on or before the project start, is
    drawn at the left edge; the second is at most 7 day widths, rounded,
    from it; and from the second tick on two neighbouring ticks are 7 day
    widths apart up to rounding (3 * 2^-53 of the width), which is 40 pixels
    up to rounding. *)
Theorem weekly_ticks_spacing (tz : Z -> Z) (vp : Viewport) (c : GanttChart) :
  dst_drift_small tz ->
  constructed tz c ->
  date_in_range (projectStart c) -> date_in_range (projectEnd c) ->
  valueOf tz (projectStart c) <= valueOf tz (projectEnd c) ->
  0 < availableWidth vp < 2 ^ 53 ->
  fleb (Fin 40) (fmul (fdiv (of_Z (availableWidth vp)) (of_Z (totalDays c))) (Fin 7)) = true ->
  exists N, forall fuel, (N <= fuel)%nat ->
    exists c' dom w,
      render tz fuel vp c = Some (c', dom) /\
      dayWidth c' = Fin w /\
      grid_xs dom !! 0%nat = Some (Fin 0) /\
      (forall x1, grid_xs dom !! 1%nat = Some x1 ->
         exists q, x1 = Fin q /\ (0 < q)%Q /\ (q <= (1 + EPS) * (7 * w))%Q) /\
      (forall i a b, (1 <= i)%nat ->
         grid_xs dom !! i = Some a -> grid_xs dom !! S i = Some b ->
         exists qa qb, a = Fin qa /\ b = Fin qb /\ (qa < qb)%Q /\
           (Qabs (qb - qa - 7 * w) <= 3 * EPS * inject_Z (availableWidth vp))%Q /\
           (40 - (40 + 3 * inject_Z (availableWidth vp)) * EPS <= qb - qa)%Q).
Proof.
  intros D K R1 R2 Hle HW H40.
  destruct (project_days tz c D K R1 R2 Hle) as (Hle' & HT & HT').
  destruct (day_width _ _ HW HT') as (w & Ew & Hv & W1 & W2 & W3 & W4).
  destruct (render_terminates tz vp c D) as [N HN].
  exists N. intros fuel Hf. destruct (HN fuel Hf) as [[c' dom] H].
  exists c', dom, w. split; [exact H |].
  destruct (grid_xs_closed tz fuel vp c c' dom H) as (ticks & Et & Hxs & Hps & HTc & Hdw).
  assert (Hdw' : dayWidth c' = Fin w) by (by rewrite Hdw).
  split; [exact Hdw' |].
  rewrite Hdw in Et. rewrite getTickDates_weekly in Et by done.
  pose proof (monday_spec (projectStart c)) as (_ & Hmon).
  pose proof (weeklyLoop_dates tz D _ _ _ _ Et) as (Hin & _).
  assert (Hnth : forall i x, grid_xs dom !! i = Some x ->
            exists t, x = tickX tz c' t /\
                      tick_date t = mondayOnOrBefore (projectStart c) + 7 * Z.of_nat i /\
                      tick_date t <= projectEnd c).
  { intros i x Hx. rewrite Hxs, list_lookup_fmap in Hx.
    destruct (ticks !! i) as [t |] eqn:Ei; [| done]. inversion Hx; subst x.
    exists t. split; [done |]. split; [by apply (weeklyLoop_nth tz D _ _ _ _ _ _ Et) |].
    assert (Hd : tick_date t ∈ map tick_date ticks).
    { apply list_elem_of_In, in_map, list_elem_of_In. by eapply list_elem_of_lookup_2. }
    apply Hin in Hd. lia. }
  pose proof EPS_value as Eeps. pose proof normal_low as Nlo. pose proof normal_high as Nhi.
  assert (HWq : (1 <= inject_Z (availableWidth vp))%Q)
    by (change 1%Q with (inject_Z 1); rewrite <- Zle_Qle; lia).
  assert (H7 : (40 <= (1 + EPS) * (7 * w))%Q).
  { rewrite Ew in H40. cbn [fmul] in H40.
    assert (HB : (1000000000000000000 <= pow2 (EMAX - 1))%Q) by (vm_compute; discriminate).
    destruct (round_rel (w * 7)) as (r & Er & _ & _ & R2'); [lra | lra |].
    rewrite Er in H40. apply Qle_bool_iff in H40. lra. }
  split; [| split].
  - assert (Hm0 : mondayOnOrBefore (projectStart c) ∈ map tick_date ticks).
    { apply Hin. rewrite Z.sub_diag. split; [lia | done]. }
    apply list_elem_of_In, in_map_iff in Hm0 as (t0 & Ht0 & Hm0).
    destruct ticks as [| t ticks']; [done |].
    pose proof (weeklyLoop_nth tz D _ _ _ _ 0%nat t Et eq_refl) as Ht.
    rewrite Hxs. cbn [map lookup list_lookup]. f_equal.
    apply (tickX_clamped tz D c' w t Hdw'); [lra |]. rewrite Hps, Ht. lia.
  - intros x1 Hx. destruct (Hnth _ _ Hx) as (t & -> & Ht & Hpe).
    destruct (tickX_inside tz D c' (availableWidth vp) w t HW) as (q & Eq & Q0 & QW & Q1 & Q2).
    + by rewrite HTc.
    + by rewrite HTc.
    + exact Hdw'.
    + rewrite Hps, HTc, Ht. lia.
    + exists q. split; [exact Eq |]. rewrite Hps, Ht in Q1, Q2.
      set (k := mondayOnOrBefore (projectStart c) + 7 * Z.of_nat 1 - projectStart c) in *.
      assert (Hk1 : (1 <= inject_Z k)%Q)
        by (change 1%Q with (inject_Z 1); rewrite <- Zle_Qle; lia).
      assert (Hk2 : (inject_Z k <= 7)%Q)
        by (change 7%Q with (inject_Z 7); rewrite <- Zle_Qle; lia).
      assert (A1 : (1 * w <= inject_Z k * w)%Q) by (apply Qmult_le_compat_r; lra).
      assert (A2 : (inject_Z k * w <= 7 * w)%Q) by (apply Qmult_le_compat_r; lra).
      rewrite Eeps in *. split; lra.
  - intros i a b Hi Ha Hb.
    destruct (Hnth _ _ Ha) as (t & -> & Ht & Hpe).
    destruct (Hnth _ _ Hb) as (t' & -> & Ht' & Hpe').
    unfold tickX, dateToX. rewrite !(daysBetween_days tz D), Hdw', Hps, Ht, Ht'.
    set (ka := mondayOnOrBefore (projectStart c) + 7 * Z.of_nat i - projectStart c).
    replace (mondayOnOrBefore (projectStart c) + 7 * Z.of_nat (S i) - projectStart c)
      with (ka + 7) by lia.
    assert (Hka : 1 <= ka) by lia.
    assert (Hkb : ka + 7 <= totalDays c - 1) by lia.
    symmetry in Ew.
    destruct (x_inside _ _ ka w HW HT' (eq_sym Ew)) as (qa & Ea & _ & A0 & _); [lia |].
    destruct (x_inside _ _ (ka + 7) w HW HT' (eq_sym Ew)) as (qb & Eb & _ & B0 & _); [lia |].
    destruct (tick_gap _ _ ka 7 w qa qb HW HT' (eq_sym Ew)) as (G1 & G2 & G3);
      [lia | lia | lia | exact Ea | exact Eb |].
    exists qa, qb. rewrite Ea, Eb, !clamp_inside by done.
    split; [done |]. split; [done |]. split; [exact G1 |].
    change (inject_Z 7) with 7%Q in *.
    split; [apply Qabs_diff_Qle_condition; split; lra |].
    rewrite Eeps in *. lra.
Qed.

Lemma weekly_ticks_spacing_witness :
  exists N, forall fuel, (N <= fuel)%nat ->
    exists c' dom w,
      render tz_summer fuel Examples.viewport_310
        (constructor tz_summer Examples.scenario_schedule) = Some (c', dom) /\
      dayWidth c' = Fin w /\
      grid_xs dom !! 0%nat = Some (Fin 0).
Proof.
  destruct (weekly_ticks_spacing tz_summer Examples.viewport_310
              (constructor tz_summer Examples.scenario_schedule)) as [N HN].
  - exact tz_summer_drift.
  - apply constructor_constructed.
  - vm_compute. split; reflexivity.
  - vm_compute. split; reflexivity.
  - vm_compute. discriminate.
  - vm_compute. split; reflexivity.
  - vm_compute. reflexivity.
  - exists N. intros fuel Hf. destruct (HN fuel Hf) as (c' & dom & w & H & Hw & H0 & _).
    exists c', dom, w. split; [exact H |]. split; [exact Hw | exact H0].
Defined.

(** Monthly ticks.  For a project of valid dates that starts on a calendar
    date and does not end before it starts, rendered at a positive width
    below 40 pixels to the week and with at least 40 pixels to 30 days: the
    first tick, the first day of the month of the project start, is drawn
    at the left edge, and from the second tick on two neighbouring ticks
    are a month apart, between 28 and 31 day widths up to rounding, which
    is at least 37 1/3 pixels up to rounding and can be less than 40. *)
Theorem monthly_ticks_spacing (tz : Z -> Z) (vp : Viewport) (c : GanttChart) :
  dst_drift_small tz ->
  constructed tz c ->
  calendar_date (p_start (project (chart_data c))) ->
  date_in_range (projectStart c) -> date_in_range (projectEnd c) ->
  valueOf tz (projectStart c) <= valueOf tz (projectEnd c) ->
  0 < availableWidth vp < 2 ^ 53 ->
  fleb (Fin 40) (fmul (fdiv (of_Z (availableWidth vp)) (of_Z (totalDays c))) (Fin 7)) = false ->
  fleb (Fin 40) (fmul (fdiv (of_Z (availableWidth vp)) (of_Z (totalDays c))) (Fin 30)) = true ->
  exists N, forall fuel, (N <= fuel)%nat ->
    exists c' dom w,
      render tz fuel vp c = Some (c', dom) /\
      dayWidth c' = Fin w /\
      grid_xs dom !! 0%nat = Some (Fin 0) /\
      (forall i a b, (1 <= i)%nat ->
         grid_xs dom !! i = Some a -> grid_xs dom !! S i = Some b ->
         exists qa qb, a = Fin qa /\ b = Fin qb /\ (qa < qb)%Q /\
           (28 * w - 3 * EPS * inject_Z (availableWidth vp) <= qb - qa)%Q /\
           (qb - qa <= 31 * w + 3 * EPS * inject_Z (availableWidth vp))%Q /\
           ((112 # 3) - ((112 # 3) + 3 * inject_Z (availableWidth vp)) * EPS <= qb - qa)%Q).
Proof.
  intros D K Hcal R1 R2 Hle HW H7 H30.
  destruct (project_days tz c D K R1 R2 Hle) as (Hle' & HT & HT').
  destruct (day_width _ _ HW HT') as (w & Ew & Hv & W1 & W2 & W3 & W4).
  destruct (render_terminates tz vp c D) as [N HN].
  exists N. intros fuel Hf. destruct (HN fuel Hf) as [[c' dom] H].
  exists c', dom, w. split; [exact H |].
  destruct (grid_xs_closed tz fuel vp c c' dom H) as (ticks & Et & Hxs & Hps & HTc & Hdw).
  assert (Hdw' : dayWidth c' = Fin w) by (by rewrite Hdw).
  split; [exact Hdw' |].
  pose proof (parseDate_year _ Hcal) as Hyr. destruct K as (K1 & _). rewrite <- K1 in Hyr.
  rewrite Hdw in Et. rewrite getTickDates_monthly in Et by done.
  pose proof (month_interval (projectStart c)) as [Hlo Hhi].
  set (k := monthIndex (projectStart c)) in *.
  pose proof (monthlyLoop_dates tz D _ _ _ _ Et) as (Hin & _).
  assert (Hnth : forall i x, grid_xs dom !! i = Some x ->
            exists t, x = tickX tz c' t /\ tick_date t = firstOfMonth (k + Z.of_nat i) /\
                      tick_date t <= projectEnd c).
  { intros i x Hx. rewrite Hxs, list_lookup_fmap in Hx.
    destruct (ticks !! i) as [t |] eqn:Ei; [| done]. inversion Hx; subst x.
    exists t. split; [done |]. split; [by apply (monthlyLoop_nth tz D _ _ _ _ _ _ Et) |].
    assert (Hd : tick_date t ∈ map tick_date ticks).
    { apply list_elem_of_In, in_map, list_elem_of_In. by eapply list_elem_of_lookup_2. }
    apply Hin in Hd as (k' & _ & _ & Hd). exact Hd. }
  pose proof EPS_value as Eeps. pose proof normal_low as Nlo.
  assert (HWq : (1 <= inject_Z (availableWidth vp))%Q)
    by (change 1%Q with (inject_Z 1); rewrite <- Zle_Qle; lia).
  assert (H30' : (40 <= (1 + EPS) * (30 * w))%Q).
  { rewrite Ew in H30. cbn [fmul] in H30.
    assert (HB : (1000000000000000000 <= pow2 (EMAX - 1))%Q) by (vm_compute; discriminate).
    destruct (round_rel (w * 30)) as (r & Er & _ & _ & R2'); [lra | lra |].
    rewrite Er in H30. apply Qle_bool_iff in H30. lra. }
  split.
  - assert (Hm0 : firstOfMonth k ∈ map tick_date ticks).
    { apply Hin. exists k. split; [lia |]. split; [done | lia]. }
    apply list_elem_of_In, in_map_iff in Hm0 as (t0 & Ht0 & Hm0).
    destruct ticks as [| t ticks']; [done |].
    pose proof (monthlyLoop_nth tz D _ _ _ _ 0%nat t Et eq_refl) as Ht.
    rewrite Z.add_0_r in Ht.
    rewrite Hxs. cbn [map lookup list_lookup]. f_equal.
    apply (tickX_clamped tz D c' w t Hdw'); [lra |]. rewrite Hps, Ht. lia.
  - intros i a b Hi Ha Hb.
    destruct (Hnth _ _ Ha) as (t & -> & Ht & Hpe).
    destruct (Hnth _ _ Hb) as (t' & -> & Ht' & Hpe').
    assert (Hafter : forall j, (1 <= j)%nat -> projectStart c < firstOfMonth (k + Z.of_nat j)).
    { intros j Hj. assert (firstOfMonth (k + 1) <= firstOfMonth (k + Z.of_nat j))
        by (apply firstOfMonth_le; lia). lia. }
    pose proof (firstOfMonth_step (k + Z.of_nat i)) as Hstep.
    replace (k + Z.of_nat i + 1) with (k + Z.of_nat (S i)) in Hstep by lia.
    pose proof (Hafter i Hi) as Hai.
    unfold tickX, dateToX. rewrite !(daysBetween_days tz D), Hdw', Hps, Ht, Ht'.
    rewrite Ht in Hpe. rewrite Ht' in Hpe'.
    set (d1 := firstOfMonth (k + Z.of_nat i)) in *.
    set (d2 := firstOfMonth (k + Z.of_nat (S i))) in *.
    set (ka := d1 - projectStart c).
    set (m := d2 - d1).
    replace (d2 - projectStart c) with (ka + m) by (unfold ka, m; lia).
    assert (Hka : 1 <= ka) by (unfold ka; lia).
    assert (Hm : 28 <= m <= 31) by (unfold m; lia).
    assert (Hkb : ka + m <= totalDays c - 1) by (unfold ka, m; lia).
    destruct (x_inside _ _ ka w HW HT' Ew) as (qa & Ea & _ & A0 & _); [lia |].
    destruct (x_inside _ _ (ka + m) w HW HT' Ew) as (qb & Eb & _ & B0 & _); [lia |].
    destruct (tick_gap _ _ ka m w qa qb HW HT' Ew) as (G1 & G2 & G3);
      [lia | lia | lia | exact Ea | exact Eb |].
    exists qa, qb. rewrite Ea, Eb, !clamp_inside by done.
    split; [done |]. split; [done |]. split; [exact G1 |].
    assert (M1 : (28 <= inject_Z m)%Q) by (change 28%Q with (inject_Z 28); rewrite <- Zle_Qle; lia).
    assert (M2 : (inject_Z m <= 31)%Q) by (change 31%Q with (inject_Z 31); rewrite <- Zle_Qle; lia).
    assert (A1 : (28 * w <= inject_Z m * w)%Q) by (apply Qmult_le_compat_r; lra).
    assert (A2 : (inject_Z m * w <= 31 * w)%Q) by (apply Qmult_le_compat_r; lra).
    rewrite Eeps in *. split; [lra |]. split; lra.
Qed.

Lemma monthly_ticks_spacing_witness :
  exists N, forall fuel, (N <= fuel)%nat ->
    exists c' dom w,
      render tz_summer fuel MoreExamples.viewport_732
        (constructor tz_summer MoreExamples.year_schedule) = Some (c', dom) /\
      dayWidth c' = Fin w /\
      grid_xs dom !! 0%nat = Some (Fin 0).
Proof.
  destruct (monthly_ticks_spacing tz_summer MoreExamples.viewport_732
              (constructor tz_summer MoreExamples.year_schedule)) as [N HN].
  - exact tz_summer_drift.
  - apply constructor_constructed.
  - unfold calendar_date. simpl. lia.
  - vm_compute. split; reflexivity.
  - vm_compute. split; reflexivity.
  - vm_compute. discriminate.
  - vm_compute. split; reflexivity.
  - vm_compute. reflexivity.
  - vm_compute. reflexivity.
  - exists N. intros fuel Hf. destruct (HN fuel Hf) as (c' & dom & w & H & Hw & H0 & _).
    exists c', dom, w. split; [exact H |]. split; [exact Hw | exact H0].
Defined.

(** Weekly and monthly ticks cover the project.  The tick generator returns
    once the fuel suffices; in the weekly tier every day of the project lies
    in the week of a tick, the Monday on or before it; in the monthly tier
    every day of the project lies in the month of a tick, the first of its
    month.  (The quarterly tier gives no such cover: its first tick is the
    first quarter start on or after the project start.) *)
Theorem ticks_cover_project (tz : Z -> Z) (ps pe : Z) (dw : double) :
  dst_drift_small tz ->
  100 <= getFullYear ps ->
  exists N, forall fuel, (N <= fuel)%nat ->
    exists ticks,
      getTickDates tz fuel ps pe dw = Some ticks /\
      (fleb (Fin 40) (fmul dw (Fin 7)) = true ->
       forall d, ps <= d <= pe ->
         exists t, t ∈ ticks /\ tick_date t = mondayOnOrBefore d /\
                   getDay (tick_date t) = 1 /\ tick_date t <= d < tick_date t + 7) /\
      (fleb (Fin 40) (fmul dw (Fin 7)) = false ->
       fleb (Fin 40) (fmul dw (Fin 30)) = true ->
       forall d, ps <= d <= pe ->
         exists t, t ∈ ticks /\ tick_date t <= d /\ getDate (tick_date t) = 1 /\
                   getMonth (tick_date t) = getMonth d /\
                   getFullYear (tick_date t) = getFullYear d).
Proof.
  intros D Hyr. destruct (getTickDates_terminates tz ps pe dw D) as [N HN].
  exists N. intros fuel Hf. destruct (HN fuel Hf) as [ticks Et].
  exists ticks. split; [exact Et |]. split.
  - intros H7 d Hd. rewrite getTickDates_weekly in Et by done.
    destruct (weeklyLoop_dates tz D _ _ _ _ Et) as (Hin & _).
    pose proof (monday_spec d) as (Hday & Hrange).
    assert (Hm : mondayOnOrBefore d ∈ map tick_date ticks).
    { apply Hin. unfold mondayOnOrBefore, getDay, WeekDay in *.
      Z.to_euclidean_division_equations. lia. }
    apply list_elem_of_In, in_map_iff in Hm as (t & Ht & Hm). apply list_elem_of_In in Hm.
    exists t. rewrite Ht. done.
  - intros H7 H30 d Hd. rewrite getTickDates_monthly in Et by done.
    destruct (monthlyLoop_dates tz D _ _ _ _ Et) as (Hin & _).
    pose proof (month_interval d) as [Hlo Hhi].
    assert (Hm : firstOfMonth (monthIndex d) ∈ map tick_date ticks).
    { apply Hin. exists (monthIndex d). split; [apply monthIndex_mono; lia |].
      split; [done | lia]. }
    apply list_elem_of_In, in_map_iff in Hm as (t & Ht & Hm). apply list_elem_of_In in Hm.
    exists t. rewrite Ht. split; [done |]. split; [done |].
    destruct (firstOfMonth_fields (monthIndex d)) as (Ey & Em & Ed).
    pose proof (MonthFromDay_range d) as Hr.
    split; [done |]. rewrite Ey, Em. unfold monthIndex, getMonth, getFullYear in *.
    split; Z.to_euclidean_division_equations; lia.
Qed.

Lemma ticks_cover_project_witness :
  exists N, forall fuel, (N <= fuel)%nat ->
    exists ticks,
      getTickDates tz_summer fuel 19723 19753 (Fin 10) = Some ticks /\
      forall d, 19723 <= d <= 19753 ->
        exists t, t ∈ ticks /\ tick_date t = mondayOnOrBefore d /\
                  getDay (tick_date t) = 1 /\ tick_date t <= d < tick_date t + 7.
Proof.
  destruct (ticks_cover_project tz_summer 19723 19753 (Fin 10) tz_summer_drift) as [N HN].
  - vm_compute. discriminate.
  - exists N. intros fuel Hf. destruct (HN fuel Hf) as (ticks & H & Hw & _).
    exists ticks. split; [exact H |]. apply Hw. vm_compute. reflexivity.
Defined.

End TickGeometry.

(** ** The two panels of a pass *)

Module Panels.
Import Calendar CalendarFacts JsDate DateFacts Double Gantt Flattener Geometry RenderSpec TickSpec.
Import Drawing Page DoubleFacts ZoneFacts LayoutFacts MonthFacts TickFacts Flatten RenderFacts Collapse.

(** What a pass returns besides the ticks. *)
Lemma render_panels tz fuel vp c c' dom :
  render tz fuel vp c = Some (c', dom) ->
  let rs := flatten (chart_data c) (collapsedGroups c) in
  rows c' = layoutRows 0 rs /\
  collapsedGroups c' = collapsedGroups c /\
  dom_left dom = map (buildLeftRow c') rs /\
  svg_height (dom_svg dom) = Z.of_nat (length (visibleRows rs)) * ROW_HEIGHT /\
  svg_bars (dom_svg dom) = (barsLoop tz (prepared vp c) 0 rs).2 /\
  svg_dependencies (dom_svg dom) = flat_map (rowArrows tz c') (rows c').
Proof.
  intros H rs. destruct (prepared_fields vp c) as ((_ & _ & _ & _ & Hc) & _ & _ & Hr).
  rewrite render_closed in H. cbv zeta in H. unfold renderLeftPanel in H.
  rewrite Hr in H. fold rs in H.
  destruct (getTickDates tz fuel _ _ _) as [ticks |]; [| done].
  cbn [mbind option_bind] in H. inversion H; subst c' dom. clear H.
  cbn [dom_left dom_svg svg_height svg_bars svg_dependencies rows with_rows collapsedGroups].
  split; [done |]. split; [by rewrite Hc |]. repeat split; done.
Qed.

Lemma shown_rows_count c rs :
  length (filter (fun lr => lr_isCollapsed lr = false) (map (buildLeftRow c) rs)) =
  length (visibleRows rs).
Proof.
  induction rs as [| r rs IH]; [done |].
  simpl. rewrite filter_cons, visibleRows_cons. cbn [buildLeftRow lr_isCollapsed].
  destruct (visible r); simpl.
  - destruct (decide (false = false)); [| done]. simpl. by rewrite IH.
  - destruct (decide (true = false)); [done |]. exact IH.
Qed.

(** The left panel of whatever a pass returns. *)
Lemma left_panel_of_pass
    (tz : Z -> Z) (fuel : nat) (vp : Viewport) (c c' : GanttChart) (dom : Dom) :
  render tz fuel vp c = Some (c', dom) ->
  map lr_rowId (dom_left dom) = map data_id (document_order (chart_data c)) /\
  Forall2 (fun lr r =>
             lr_rowId lr = data_id (data r) /\
             lr_isPhase lr = negb (is_task r) /\
             lr_isCollapsed lr = negb (visible r) /\
             (lr_isCollapsed lr = true -> lr_isPhase lr = false) /\
             (lr_isPhase lr = true ->
              lr_toggle lr = Some (bool_decide (lr_rowId lr ∈ collapsedGroups c))) /\
             (lr_isPhase lr = false -> lr_toggle lr = None))
          (dom_left dom) (rows c') /\
  svg_height (dom_svg dom) = Z.of_nat (length (shown_left_rows dom)) * ROW_HEIGHT.
Proof.
  intros H. destruct (render_panels _ _ _ _ _ _ H) as (Hrows & Hcs & Hleft & Hh & _).
  set (rs := flatten (chart_data c) (collapsedGroups c)) in *.
  split; [| split].
  - rewrite Hleft, map_map. cbn [buildLeftRow lr_rowId].
    rewrite <- (map_map data data_id). unfold rs, flatten.
    by rewrite flattenGroups_data.
  - rewrite Hleft, Hrows.
    assert (Hphase : forall r, r ∈ rs -> is_task r = false -> visible r = true).
    { intros r Hr Ht. apply flattenGroups_rows in Hr. unfold row_of_schedule in Hr.
      unfold is_task in Ht. destruct (data r).
      - tauto.
      - destruct Hr as [Hr _]. by rewrite Hr in Ht. }
    clearbody rs. clear Hrows Hleft Hh H. generalize 0%nat.
    induction rs as [| r rs IH]; intros k; [constructor |].
    assert (IH' := fun k => IH (fun r Hr => Hphase r (list_elem_of_further _ _ _ Hr)) k).
    assert (Hr : is_task r = false -> visible r = true)
      by (apply Hphase, list_elem_of_here).
    assert (Hhead : forall r' : Row,
              data r' = data r -> type r' = type r -> visible r' = visible r ->
              lr_rowId (buildLeftRow c' r) = data_id (data r') /\
              lr_isPhase (buildLeftRow c' r) = negb (is_task r') /\
              lr_isCollapsed (buildLeftRow c' r) = negb (visible r') /\
              (lr_isCollapsed (buildLeftRow c' r) = true ->
               lr_isPhase (buildLeftRow c' r) = false) /\
              (lr_isPhase (buildLeftRow c' r) = true ->
               lr_toggle (buildLeftRow c' r) =
               Some (bool_decide (lr_rowId (buildLeftRow c' r) ∈ collapsedGroups c))) /\
              (lr_isPhase (buildLeftRow c' r) = false -> lr_toggle (buildLeftRow c' r) = None)).
    { intros r' Hd Ht Hv. cbn [buildLeftRow lr_rowId lr_isPhase lr_isCollapsed lr_toggle].
      unfold is_task in *. rewrite Hd, Ht, Hv, Hcs.
      destruct (type r), (visible r); simpl; repeat split; try done.
      by specialize (Hr eq_refl). }
    simpl. destruct (visible r) eqn:Ev; constructor; try apply IH'.
    + apply Hhead; done.
    + apply Hhead; done.
  - rewrite Hh. unfold shown_left_rows. rewrite Hleft. by rewrite shown_rows_count.
Qed.

(** The left panel and the timeline stay aligned.  In a zone with small
    daylight-saving drift a pass returns once the fuel suffices, and in what
    it returns: the left panel has one
    row for every group and task of the schedule, in document order, also
    for the hidden ones, which carry [is-collapsed]; only task rows are ever
    hidden; the toggle of a phase row is drawn collapsed exactly when the
    phase is in the collapsed set; and the height of the timeline body is
    [ROW_HEIGHT] times the number of left rows that are not hidden. *)
Theorem left_panel_aligned (tz : Z -> Z) (vp : Viewport) (c : GanttChart) :
  dst_drift_small tz ->
  exists N, forall fuel, (N <= fuel)%nat ->
    exists c' dom,
      render tz fuel vp c = Some (c', dom) /\
      map lr_rowId (dom_left dom) = map data_id (document_order (chart_data c)) /\
      Forall2 (fun lr r =>
                 lr_rowId lr = data_id (data r) /\
                 lr_isPhase lr = negb (is_task r) /\
                 lr_isCollapsed lr = negb (visible r) /\
                 (lr_isCollapsed lr = true -> lr_isPhase lr = false) /\
                 (lr_isPhase lr = true ->
                  lr_toggle lr = Some (bool_decide (lr_rowId lr ∈ collapsedGroups c))) /\
                 (lr_isPhase lr = false -> lr_toggle lr = None))
              (dom_left dom) (rows c') /\
      svg_height (dom_svg dom) = Z.of_nat (length (shown_left_rows dom)) * ROW_HEIGHT.
Proof.
  intros D. apply (render_total tz vp c); [exact D |].
  intros fuel c' dom H. exact (left_panel_of_pass tz fuel vp c c' dom H).
Qed.

Lemma left_panel_aligned_witness :
  exists N, forall fuel, (N <= fuel)%nat ->
    exists c' dom,
      render tz_summer fuel Examples.viewport_310
        (constructor tz_summer Examples.plan_schedule) = Some (c', dom) /\
      svg_height (dom_svg dom) = Z.of_nat (length (shown_left_rows dom)) * ROW_HEIGHT.
Proof.
  destruct (left_panel_aligned tz_summer Examples.viewport_310
              (constructor tz_summer Examples.plan_schedule) tz_summer_drift) as [N HN].
  exists N. intros fuel Hf. destruct (HN fuel Hf) as (c' & dom & H & _ & _ & Hh).
  exists c', dom. split; [exact H | exact Hh].
Defined.

(** One step of the bars loop, seen through its bar groups. *)
Lemma barsLoop_groups_cons tz c k r rs :
  filter is_group (barsLoop tz c k (r :: rs)).2 =
  if visible r
  then match type r with
       | phase => buildPhaseBar tz c r (Z.of_nat k * ROW_HEIGHT)
       | task => buildTaskBar tz c r (Z.of_nat k * ROW_HEIGHT)
       end :: filter is_group (barsLoop tz c (S k) rs).2
  else filter is_group (barsLoop tz c k rs).2.
Proof.
  cbn [barsLoop]. destruct (visible r); cbn [negb].
  - destruct (barsLoop tz c (S k) rs) as [rs' els]. cbn [snd].
    rewrite filter_app.
    destruct (is_task r && (k mod 2 =? 1)%nat); destruct (type r); reflexivity.
  - destruct (barsLoop tz c k rs) as [rs' els]. reflexivity.
Qed.

(** The bars loop: the [k]-th bar group is the bar of the [k]-th visible
    row, strictly inside the band of that row. *)
Lemma barsLoop_groups tz c rs : forall k0,
  length (filter is_group (barsLoop tz c k0 rs).2) = length (visibleRows rs) /\
  forall k e,
    filter is_group (barsLoop tz c k0 rs).2 !! k = Some e ->
    exists r x y w h,
      visibleRows rs !! k = Some r /\
      e = SvgG [SvgRect x y w h] /\
      x = bar_x tz c r /\ w = bar_width tz c r /\
      Z.of_nat (k0 + k) * ROW_HEIGHT < y /\
      y + h < Z.of_nat (k0 + k + 1) * ROW_HEIGHT /\ 0 < h.
Proof.
  induction rs as [| r rs IH]; intros k0; [done |].
  rewrite barsLoop_groups_cons, visibleRows_cons. destruct (visible r) eqn:Ev.
  - destruct (IH (S k0)) as [IH1 IH2]. split; [simpl; by rewrite IH1 |].
    intros k e Hk. destruct k as [| k]; simpl in Hk.
    + inversion Hk; subst e. exists r. destruct (type r).
      * exists (bar_x tz c r), (Z.of_nat k0 * ROW_HEIGHT + 8), (bar_width tz c r),
          (ROW_HEIGHT - 16).
        split; [done |].
        split; [unfold buildPhaseBar, bar_width, bar_endX, bar_x; reflexivity |].
        split; [done |]. split; [done |]. unfold ROW_HEIGHT. lia.
      * exists (bar_x tz c r), (Z.of_nat k0 * ROW_HEIGHT + 10), (bar_width tz c r),
          (ROW_HEIGHT - 20).
        split; [done |].
        split; [unfold buildTaskBar, bar_width, bar_endX, bar_x; reflexivity |].
        split; [done |]. split; [done |]. unfold ROW_HEIGHT. lia.
    + destruct (IH2 k e Hk) as (r' & x & y & w & h & H1 & H2 & H3 & H4 & H5 & H6 & H7).
      exists r', x, y, w, h. repeat split; try done.
      * by replace (k0 + S k)%nat with (S k0 + k)%nat by lia.
      * by replace (k0 + S k + 1)%nat with (S k0 + k + 1)%nat by lia.
  - apply IH.
Qed.

Lemma bar_with_rows tz c rs r r' :
  data r' = data r ->
  bar_x tz (with_rows rs c) r' = bar_x tz c r /\
  bar_width tz (with_rows rs c) r' = bar_width tz c r.
Proof. intros Hd. unfold bar_width, bar_endX, bar_x. rewrite Hd. split; reflexivity. Qed.

(** The bar groups of a pass against the rows the pass leaves. *)
Lemma bar_group_row tz fuel vp c c' dom k e :
  render tz fuel vp c = Some (c', dom) ->
  bar_groups dom !! k = Some e ->
  exists r x y w h,
    visibleRows (rows c') !! k = Some r /\
    visibleY r = Some (Z.of_nat k * ROW_HEIGHT) /\
    e = SvgG [SvgRect x y w h] /\
    x = bar_x tz c' r /\ w = bar_width tz c' r /\
    Z.of_nat k * ROW_HEIGHT < y /\ y + h < Z.of_nat (k + 1) * ROW_HEIGHT /\ 0 < h /\
    (k < length (visibleRows (rows c')))%nat.
Proof.
  intros H He. destruct (render_panels _ _ _ _ _ _ H) as (Hrows & _ & _ & Hh & Hbars & _).
  pose proof (render_result _ _ _ _ _ _ H) as [Hc' _].
  set (rs := flatten (chart_data c) (collapsedGroups c)) in *.
  destruct (barsLoop_groups tz (prepared vp c) rs 0) as [Hlen Hk].
  assert (Hvis : length (visibleRows (rows c')) = length (visibleRows rs)).
  { rewrite Hrows. rewrite <- (length_map unlaid (visibleRows (layoutRows 0 rs))).
    rewrite <- visibleRows_unlaid, layoutRows_unlaid, visibleRows_unlaid. by rewrite length_map. }
  unfold bar_groups in He. rewrite Hbars in He.
  destruct (Hk k e He) as (r & x & y & w & h & H1 & H2 & H3 & H4 & H5 & H6 & H7).
  assert (Hlt : (k < length (visibleRows (rows c')))%nat).
  { rewrite Hvis. by apply lookup_lt_Some in H1. }
  destruct (lookup_lt_is_Some_2 _ _ Hlt) as [r' Hr'].
  assert (Hu : unlaid r' = unlaid r).
  { assert (E : map unlaid (visibleRows (rows c')) !! k = Some (unlaid r'))
      by (rewrite list_lookup_fmap, Hr'; done).
    rewrite Hrows, <- visibleRows_unlaid, layoutRows_unlaid, visibleRows_unlaid in E.
    rewrite list_lookup_fmap, H1 in E. simpl in E. congruence. }
  assert (Hd : data r' = data r) by (apply (f_equal data) in Hu; exact Hu).
  destruct (bar_with_rows tz (prepared vp c) (layoutRows 0 (rows (prepared vp c))) r r' Hd)
    as [Hx Hw].
  rewrite <- Hc' in Hx, Hw.
  exists r', x, y, w, h. split; [done |].
  split.
  { rewrite Hrows in Hr'. apply layoutRows_offsets in Hr'. by rewrite Hr'. }
  split; [done |]. rewrite Hx, Hw. repeat split; done.
Qed.

(** The bar groups of whatever a pass returns. *)
Lemma bars_of_pass
    (tz : Z -> Z) (fuel : nat) (vp : Viewport) (c c' : GanttChart) (dom : Dom) :
  render tz fuel vp c = Some (c', dom) ->
  length (bar_groups dom) = length (visibleRows (rows c')) /\
  Z.of_nat (length (bar_groups dom)) * ROW_HEIGHT = svg_height (dom_svg dom) /\
  forall k e,
    bar_groups dom !! k = Some e ->
    exists r x y w h,
      visibleRows (rows c') !! k = Some r /\
      visibleY r = Some (Z.of_nat k * ROW_HEIGHT) /\
      e = SvgG [SvgRect x y w h] /\
      x = bar_x tz c' r /\ w = bar_width tz c' r /\
      Z.of_nat k * ROW_HEIGHT < y /\ y + h < Z.of_nat (k + 1) * ROW_HEIGHT /\
      0 < h /\ y + h < svg_height (dom_svg dom).
Proof.
  intros H. destruct (render_panels _ _ _ _ _ _ H) as (Hrows & _ & _ & Hh & Hbars & _).
  set (rs := flatten (chart_data c) (collapsedGroups c)) in *.
  destruct (barsLoop_groups tz (prepared vp c) rs 0) as [Hlen _].
  assert (Hvis : length (visibleRows (rows c')) = length (visibleRows rs)).
  { rewrite Hrows. rewrite <- (length_map unlaid (visibleRows (layoutRows 0 rs))).
    rewrite <- visibleRows_unlaid, layoutRows_unlaid, visibleRows_unlaid. by rewrite length_map. }
  assert (Hcount : length (bar_groups dom) = length (visibleRows rs))
    by (unfold bar_groups; by rewrite Hbars).
  split; [by rewrite Hvis |]. split; [by rewrite Hcount, Hh |].
  intros k e He.
  destruct (bar_group_row _ _ _ _ _ _ _ _ H He)
    as (r & x & y & w & h & H1 & H2 & H3 & H4 & H5 & H6 & H7 & H8 & H9).
  exists r, x, y, w, h. repeat split; try done.
  rewrite Hh, <- Hvis.
  assert (Z.of_nat (k + 1) * ROW_HEIGHT <= Z.of_nat (length (visibleRows (rows c'))) * ROW_HEIGHT)
    by (unfold ROW_HEIGHT; lia).
  lia.
Qed.

(** Bars stay in their rows.  In a zone with small daylight-saving drift a
    pass returns once the fuel suffices, and in what it returns: the
    timeline body holds one bar group for
    every visible row, in order; the rectangle of the [k]-th one is that
    row's bar, of positive height, strictly inside the band
    [k * ROW_HEIGHT .. (k + 1) * ROW_HEIGHT] of its row, hence inside the
    height of the body and clear of the bars of all other rows. *)
Theorem bars_stay_in_rows (tz : Z -> Z) (vp : Viewport) (c : GanttChart) :
  dst_drift_small tz ->
  exists N, forall fuel, (N <= fuel)%nat ->
    exists c' dom,
      render tz fuel vp c = Some (c', dom) /\
      length (bar_groups dom) = length (visibleRows (rows c')) /\
      Z.of_nat (length (bar_groups dom)) * ROW_HEIGHT = svg_height (dom_svg dom) /\
      forall k e,
        bar_groups dom !! k = Some e ->
        exists r x y w h,
          visibleRows (rows c') !! k = Some r /\
          visibleY r = Some (Z.of_nat k * ROW_HEIGHT) /\
          e = SvgG [SvgRect x y w h] /\
          x = bar_x tz c' r /\ w = bar_width tz c' r /\
          Z.of_nat k * ROW_HEIGHT < y /\ y + h < Z.of_nat (k + 1) * ROW_HEIGHT /\
          0 < h /\ y + h < svg_height (dom_svg dom).
Proof.
  intros D. apply (render_total tz vp c); [exact D |].
  intros fuel c' dom H. exact (bars_of_pass tz fuel vp c c' dom H).
Qed.

Lemma bars_stay_in_rows_witness :
  exists N, forall fuel, (N <= fuel)%nat ->
    exists c' dom,
      render tz_summer fuel Examples.viewport_310
        (constructor tz_summer Examples.plan_schedule) = Some (c', dom) /\
      length (bar_groups dom) = length (visibleRows (rows c')).
Proof.
  destruct (bars_stay_in_rows tz_summer Examples.viewport_310
              (constructor tz_summer Examples.plan_schedule) tz_summer_drift) as [N HN].
  exists N. intros fuel Hf. destruct (HN fuel Hf) as (c' & dom & H & Hl & _).
  exists c', dom. split; [exact H | exact Hl].
Defined.

End Panels.

(** ** The arrows of a pass *)

Module Arrows.
Import Calendar CalendarFacts JsDate DateFacts Double Gantt Flattener Geometry RenderSpec TickSpec.
Import Drawing Page TaskMapSpec DoubleFacts ZoneFacts LayoutFacts Flatten RenderFacts Collapse.
Import TaskMapFacts Panels Routing.

Lemma layoutRows_lookup rs : forall k i r',
  layoutRows k rs !! i = Some r' ->
  exists r, rs !! i = Some r /\ unlaid r' = unlaid r /\
            (visible r' = true -> is_Some (visibleY r')).
Proof.
  induction rs as [| r0 rs IH]; intros k i r' H; [done |].
  simpl in H. destruct (visible r0) eqn:Ev.
  - destruct i as [| i]; simpl in H.
    + inversion H; subst r'. exists r0. split; [done |]. split; [done |]. by eexists.
    + apply IH in H as (r & H1 & H2 & H3). by exists r.
  - destruct i as [| i]; simpl in H.
    + inversion H; subst r'. exists r0. split; [done |]. split; [done |].
      intros Hv. congruence.
    + apply IH in H as (r & H1 & H2 & H3). by exists r.
Qed.

(** What the task map of a finished pass answers. *)
Lemma taskMap_get_rendered tz fuel vp c c' dom id depRow :
  render tz fuel vp c = Some (c', dom) ->
  taskMap_get c' id = Some depRow ->
  depRow ∈ rows c' /\ is_task depRow = true /\ data_id (data depRow) = id /\
  (visible depRow = true -> is_Some (visibleY depRow)).
Proof.
  intros H Hget. destruct (render_result _ _ _ _ _ _ H) as [Hc' _].
  set (p0 := buildRows (with_width (fdiv (of_Z (availableWidth vp)) (of_Z (totalDays c)))
                          (availableWidth vp) c)).
  assert (Hp : prepared vp c = buildTaskMap p0) by reflexivity.
  assert (Hrows : rows c' = layoutRows 0 (rows p0)) by (rewrite Hc', Hp; reflexivity).
  assert (Hmap : taskMap c' = taskMapLoop 0 (rows p0) ∅) by (rewrite Hc', Hp; reflexivity).
  unfold taskMap_get in Hget. rewrite Hmap, Hrows in Hget.
  destruct (taskMapLoop 0 (rows p0) ∅ !! id) as [i |] eqn:Ei; [| done].
  cbn [mbind option_bind] in Hget.
  assert (Hin' : depRow ∈ rows c').
  { rewrite Hrows. apply list_elem_of_lookup. by exists i. }
  apply layoutRows_lookup in Hget as (r & Hr & Hu & Hy).
  pose proof (taskMapLoop_prefix id (rows p0) []) as Hlast.
  rewrite Ei, app_nil_r in Hlast. cbn [mbind option_bind] in Hlast. rewrite Hr in Hlast.
  symmetry in Hlast. apply last_Some in Hlast as [l' Hl].
  assert (Hin : r ∈ filter (task_with_id id) (rows p0)).
  { rewrite Hl. apply elem_of_app. right. apply list_elem_of_here. }
  apply list_elem_of_filter in Hin as [[Ht Hid] _].
  assert (Hty : type depRow = type r) by (apply (f_equal type) in Hu; exact Hu).
  assert (Hd : data depRow = data r) by (apply (f_equal data) in Hu; exact Hu).
  split; [done |]. split; [unfold is_task in *; by rewrite Hty |].
  split; [by rewrite Hd | done].
Qed.

Lemma rendered_row_laid tz fuel vp c c' dom row :
  render tz fuel vp c = Some (c', dom) ->
  row ∈ rows c' -> visible row = true -> is_Some (visibleY row).
Proof.
  intros H Hin Hv. destruct (render_panels _ _ _ _ _ _ H) as (Hrows & _).
  rewrite Hrows in Hin. apply list_elem_of_lookup in Hin as [i Hi].
  apply layoutRows_lookup in Hi as (_ & _ & _ & Hy). by apply Hy.
Qed.

Lemma buildDependencyArrow_defined tz c fromRow toRow :
  is_Some (visibleY fromRow) -> is_Some (visibleY toRow) ->
  exists path, buildDependencyArrow tz c fromRow toRow = Some (SvgPath path).
Proof.
  intros [vf Hf] [vt Ht]. unfold buildDependencyArrow. rewrite Hf, Ht.
  cbn [mbind option_bind]. by eexists.
Qed.

Lemma dependencyArrow_length tz c row depId :
  (length (dependencyArrow tz c row depId) <= 1)%nat.
Proof.
  unfold dependencyArrow. destruct (taskMap_get c depId) as [depRow |]; [| simpl; lia].
  destruct (negb (visible depRow)); [simpl; lia |].
  destruct (buildDependencyArrow tz c depRow row); simpl; lia.
Qed.

Lemma rowArrows_length tz c row :
  (length (rowArrows tz c row) <= length (data_dependsOn (data row)))%nat.
Proof.
  unfold rowArrows. destruct (negb (is_task row) || negb (visible row)); [simpl; lia |].
  induction (data_dependsOn (data row)) as [| d l IH]; [done |].
  cbn [flat_map]. rewrite length_app. pose proof (dependencyArrow_length tz c row d).
  simpl. lia.
Qed.

Lemma arrows_length tz c rs :
  (length (flat_map (rowArrows tz c) rs) <=
   length (flat_map (fun r => data_dependsOn (data r)) rs))%nat.
Proof.
  induction rs as [| r rs IH]; [done |].
  cbn [flat_map]. rewrite !length_app. pose proof (rowArrows_length tz c r). lia.
Qed.

(** Where an arrow of a pass comes from. *)
Lemma arrow_origin tz fuel vp c c' dom e :
  render tz fuel vp c = Some (c', dom) ->
  e ∈ svg_dependencies (dom_svg dom) ->
  exists row depId depRow vyF vyT,
    row ∈ rows c' /\ depRow ∈ rows c' /\
    is_task row = true /\ is_task depRow = true /\
    visible row = true /\ visible depRow = true /\
    visibleY depRow = Some vyF /\ visibleY row = Some vyT /\
    depId ∈ data_dependsOn (data row) /\ data_id (data depRow) = depId /\
    buildDependencyArrow tz c' depRow row = Some e.
Proof.
  intros H He. destruct (render_panels _ _ _ _ _ _ H) as (_ & _ & _ & _ & _ & Hdeps).
  rewrite Hdeps in He.
  apply list_elem_of_In, in_flat_map in He as (row & Hrow & He).
  apply list_elem_of_In in Hrow. unfold rowArrows in He.
  destruct (is_task row) eqn:Ht; [| done]. destruct (visible row) eqn:Hv; [| done].
  cbn [negb orb] in He. apply in_flat_map in He as (depId & Hdep & He).
  apply list_elem_of_In in Hdep. unfold dependencyArrow in He.
  destruct (taskMap_get c' depId) as [depRow |] eqn:Hget; [| done].
  destruct (visible depRow) eqn:Hdv; [| done]. cbn [negb] in He.
  destruct (taskMap_get_rendered _ _ _ _ _ _ _ _ H Hget) as (Hin & Hdt & Hid & Hy).
  destruct (Hy Hdv) as [vyF HF].
  destruct (rendered_row_laid _ _ _ _ _ _ _ H Hrow Hv) as [vyT HT].
  destruct (buildDependencyArrow tz c' depRow row) as [a |] eqn:Ea.
  - destruct He as [<- | []]. exists row, depId, depRow, vyF, vyT.
    repeat split; done.
  - exfalso. unfold buildDependencyArrow in Ea. rewrite HF, HT in Ea. done.
Qed.

(** The arrows of whatever a pass returns. *)
Lemma arrows_of_pass
    (tz : Z -> Z) (fuel : nat) (vp : Viewport) (c c' : GanttChart) (dom : Dom) :
  render tz fuel vp c = Some (c', dom) ->
  (forall row depId depRow,
     row ∈ rows c' -> is_task row = true -> visible row = true ->
     depId ∈ data_dependsOn (data row) ->
     taskMap_get c' depId = Some depRow -> visible depRow = true ->
     exists path,
       buildDependencyArrow tz c' depRow row = Some (SvgPath path) /\
       SvgPath path ∈ svg_dependencies (dom_svg dom)) /\
  (forall e, e ∈ svg_dependencies (dom_svg dom) ->
     exists row depId depRow path,
       e = SvgPath path /\
       buildDependencyArrow tz c' depRow row = Some (SvgPath path) /\
       row ∈ rows c' /\ depRow ∈ rows c' /\
       is_task row = true /\ is_task depRow = true /\
       visible row = true /\ visible depRow = true /\
       is_Some (visibleY row) /\ is_Some (visibleY depRow) /\
       depId ∈ data_dependsOn (data row) /\ data_id (data depRow) = depId) /\
  (length (svg_dependencies (dom_svg dom)) <=
   length (flat_map (fun r => data_dependsOn (data r)) (rows c')))%nat.
Proof.
  intros H. destruct (render_panels _ _ _ _ _ _ H) as (_ & _ & _ & _ & _ & Hdeps).
  split; [| split].
  - intros row depId depRow Hrow Ht Hv Hdep Hget Hdv.
    destruct (taskMap_get_rendered _ _ _ _ _ _ _ _ H Hget) as (_ & _ & _ & Hy).
    destruct (buildDependencyArrow_defined tz c' depRow row (Hy Hdv)
                (rendered_row_laid _ _ _ _ _ _ _ H Hrow Hv)) as [path Hpath].
    exists path. split; [done |].
    rewrite Hdeps. apply list_elem_of_In, in_flat_map. exists row.
    split; [by apply list_elem_of_In |].
    unfold rowArrows. rewrite Ht, Hv. cbn [negb orb].
    apply in_flat_map. exists depId. split; [by apply list_elem_of_In |].
    unfold dependencyArrow. rewrite Hget, Hdv, Hpath. simpl. by left.
  - intros e He.
    destruct (arrow_origin _ _ _ _ _ _ _ H He)
      as (row & depId & depRow & vyF & vyT & A1 & A2 & A3 & A4 & A5 & A6 & A7 & A8 & A9 & A10 & A11).
    destruct (buildDependencyArrow_defined tz c' depRow row) as [path Hpath];
      [by eexists | by eexists |].
    assert (e = SvgPath path) as -> by congruence.
    exists row, depId, depRow, path.
    split; [done |]. split; [done |]. split; [done |]. split; [done |].
    split; [done |]. split; [done |]. split; [done |]. split; [done |].
    split; [by eexists |]. split; [by eexists |]. split; done.
  - rewrite Hdeps. apply arrows_length.
Qed.

(** The arrows of a pass are the dependencies between visible tasks.  In a
    zone with small daylight-saving drift a pass returns once the fuel
    suffices, and in what it returns: for
    every visible task row and every id of its [dependsOn] that the task map
    resolves to a visible row, the pass draws the arrow between the two rows,
    which both have their offset (no coordinate of the path is undefined);
    every arrow drawn arises so, between two visible task rows of the pass;
    and there are never more arrows than [dependsOn] entries. *)
Theorem arrows_between_visible_tasks (tz : Z -> Z) (vp : Viewport) (c : GanttChart) :
  dst_drift_small tz ->
  exists N, forall fuel, (N <= fuel)%nat ->
    exists c' dom,
      render tz fuel vp c = Some (c', dom) /\
      (forall row depId depRow,
         row ∈ rows c' -> is_task row = true -> visible row = true ->
         depId ∈ data_dependsOn (data row) ->
         taskMap_get c' depId = Some depRow -> visible depRow = true ->
         exists path,
           buildDependencyArrow tz c' depRow row = Some (SvgPath path) /\
           SvgPath path ∈ svg_dependencies (dom_svg dom)) /\
      (forall e, e ∈ svg_dependencies (dom_svg dom) ->
         exists row depId depRow path,
           e = SvgPath path /\
           buildDependencyArrow tz c' depRow row = Some (SvgPath path) /\
           row ∈ rows c' /\ depRow ∈ rows c' /\
           is_task row = true /\ is_task depRow = true /\
           visible row = true /\ visible depRow = true /\
           is_Some (visibleY row) /\ is_Some (visibleY depRow) /\
           depId ∈ data_dependsOn (data row) /\ data_id (data depRow) = depId) /\
      (length (svg_dependencies (dom_svg dom)) <=
       length (flat_map (fun r => data_dependsOn (data r)) (rows c')))%nat.
Proof.
  intros D. apply (render_total tz vp c); [exact D |].
  intros fuel c' dom H. exact (arrows_of_pass tz fuel vp c c' dom H).
Qed.

Lemma arrows_between_visible_tasks_witness :
  exists N, forall fuel, (N <= fuel)%nat ->
    exists c' dom,
      render tz_summer fuel Examples.viewport_310
        (constructor tz_summer Examples.plan_schedule) = Some (c', dom) /\
      (length (svg_dependencies (dom_svg dom)) <=
       length (flat_map (fun r => data_dependsOn (data r)) (rows c')))%nat.
Proof.
  destruct (arrows_between_visible_tasks tz_summer Examples.viewport_310
              (constructor tz_summer Examples.plan_schedule) tz_summer_drift) as [N HN].
  exists N. intros fuel Hf. destruct (HN fuel Hf) as (c' & dom & H & _ & _ & Hl).
  exists c', dom. split; [exact H | exact Hl].
Defined.

End Arrows.

(** ** Passes one after the other *)

Module Passes.
Import Calendar CalendarFacts JsDate DateFacts Double Gantt Flattener Geometry RenderSpec TickSpec.
Import Drawing Page DoubleFacts ZoneFacts LayoutFacts Flatten RenderFacts Collapse Panels.

Lemma toggleSet_elem g x (s : gset string) :
  x ∈ toggleSet g s <-> (x ≠ g /\ x ∈ s) \/ (x = g /\ x ∉ s).
Proof.
  unfold toggleSet. case_bool_decide as Hg.
  - rewrite elem_of_difference, elem_of_singleton.
    destruct (decide (x = g)) as [-> | N]; naive_solver.
  - rewrite elem_of_union, elem_of_singleton.
    destruct (decide (x = g)) as [-> | N]; naive_solver.
Qed.

Lemma toggleSet_comm g1 g2 (s : gset string) :
  toggleSet g1 (toggleSet g2 s) = toggleSet g2 (toggleSet g1 s).
Proof.
  apply set_eq. intros x. rewrite !toggleSet_elem.
  destruct (decide (x = g1)), (decide (x = g2)), (decide (x ∈ s)); naive_solver.
Qed.

(** Two toggles whose passes return. *)
Lemma toggles_commute_pass
    (tz : Z -> Z) (fuel : nat) (vp : Viewport) (g1 g2 : string)
    (c c1 c2 : GanttChart) (d1 d2 : Dom) :
  toggleGroup tz fuel vp g1 c = Some (c1, d1) ->
  toggleGroup tz fuel vp g2 c = Some (c2, d2) ->
  toggleGroup tz fuel vp g2 c1 = toggleGroup tz fuel vp g1 c2 /\
  collapsedGroups c1 = toggleSet g1 (collapsedGroups c) /\
  forall c12 d12, toggleGroup tz fuel vp g2 c1 = Some (c12, d12) ->
    collapsedGroups c12 = toggleSet g2 (toggleSet g1 (collapsedGroups c)).
Proof.
  intros H1 H2. rewrite toggleGroup_render in H1, H2.
  apply render_preserves_inputs in H1 as (A1 & A2 & A3 & A4 & A5).
  apply render_preserves_inputs in H2 as (B1 & B2 & B3 & B4 & B5).
  cbn [with_collapsed chart_data projectStart projectEnd totalDays collapsedGroups] in *.
  split; [| split; [done |]].
  - rewrite !toggleGroup_render. apply render_same_inputs; [| done].
    unfold same_inputs.
    cbn [with_collapsed chart_data projectStart projectEnd totalDays collapsedGroups].
    rewrite <- A1, <- A2, <- A3, <- A4, <- A5, <- B1, <- B2, <- B3, <- B4, <- B5.
    repeat split; try done. apply toggleSet_comm.
  - intros c12 d12 H12. rewrite toggleGroup_render in H12.
    apply render_preserves_inputs in H12 as (_ & _ & _ & _ & C5).
    cbn [with_collapsed collapsedGroups] in C5. by rewrite <- C5, <- A5.
Qed.

(** Toggles commute.  In a zone with small daylight-saving drift the
    passes return once the fuel suffices, and clicking two phases in either
    order then leaves the same collapsed set and the same chart, and draws
    the same tree. *)
Theorem toggles_commute (tz : Z -> Z) (vp : Viewport) (g1 g2 : string) (c : GanttChart) :
  dst_drift_small tz ->
  exists N, forall fuel, (N <= fuel)%nat ->
    exists c1 d1 c2 d2 c12 d12,
      toggleGroup tz fuel vp g1 c = Some (c1, d1) /\
      toggleGroup tz fuel vp g2 c = Some (c2, d2) /\
      toggleGroup tz fuel vp g2 c1 = Some (c12, d12) /\
      toggleGroup tz fuel vp g1 c2 = Some (c12, d12) /\
      collapsedGroups c1 = toggleSet g1 (collapsedGroups c) /\
      collapsedGroups c2 = toggleSet g2 (collapsedGroups c) /\
      collapsedGroups c12 = toggleSet g2 (toggleSet g1 (collapsedGroups c)).
Proof.
  intros D.
  set (cs := collapsedGroups c).
  destruct (render_terminates tz vp (with_collapsed (toggleSet g1 cs) c) D) as [N1 HN1].
  destruct (render_terminates tz vp (with_collapsed (toggleSet g2 cs) c) D) as [N2 HN2].
  destruct (render_terminates tz vp (with_collapsed (toggleSet g2 (toggleSet g1 cs)) c) D)
    as [N3 HN3].
  exists (Nat.max (Nat.max N1 N2) N3). intros fuel Hf.
  destruct (HN1 fuel ltac:(lia)) as [[c1 d1] H1].
  destruct (HN2 fuel ltac:(lia)) as [[c2 d2] H2].
  destruct (HN3 fuel ltac:(lia)) as [[c12 d12] H3].
  change (toggleGroup tz fuel vp g1 c = Some (c1, d1)) in H1.
  change (toggleGroup tz fuel vp g2 c = Some (c2, d2)) in H2.
  destruct (toggles_commute_pass tz fuel vp g1 g2 c c1 c2 d1 d2 H1 H2) as (E & C1 & C12).
  assert (C2 : collapsedGroups c2 = toggleSet g2 (collapsedGroups c)).
  { rewrite toggleGroup_render in H2.
    apply render_preserves_inputs in H2 as (_ & _ & _ & _ & B5). by rewrite <- B5. }
  assert (H12 : toggleGroup tz fuel vp g2 c1 = Some (c12, d12)).
  { rewrite <- H3, toggleGroup_render. apply render_same_inputs; [| done].
    rewrite toggleGroup_render in H1.
    apply render_preserves_inputs in H1 as (A1 & A2 & A3 & A4 & A5).
    unfold same_inputs.
    cbn [with_collapsed chart_data projectStart projectEnd totalDays collapsedGroups] in *.
    rewrite <- A1, <- A2, <- A3, <- A4, <- A5. done. }
  exists c1, d1, c2, d2, c12, d12.
  split; [exact H1 |]. split; [exact H2 |]. split; [exact H12 |].
  split; [by rewrite <- E |]. split; [exact C1 |]. split; [exact C2 |].
  exact (C12 c12 d12 H12).
Qed.

Lemma toggles_commute_witness :
  exists N, forall fuel, (N <= fuel)%nat ->
    exists c1 d1 c2 d2 c12 d12,
      toggleGroup tz_summer fuel Examples.viewport_310 "phase-1"
        (constructor tz_summer Examples.plan_schedule) = Some (c1, d1) /\
      toggleGroup tz_summer fuel Examples.viewport_310 "phase-2"
        (constructor tz_summer Examples.plan_schedule) = Some (c2, d2) /\
      toggleGroup tz_summer fuel Examples.viewport_310 "phase-2" c1 = Some (c12, d12) /\
      toggleGroup tz_summer fuel Examples.viewport_310 "phase-1" c2 = Some (c12, d12).
Proof.
  destruct (toggles_commute tz_summer Examples.viewport_310 "phase-1" "phase-2"
              (constructor tz_summer Examples.plan_schedule) tz_summer_drift) as [N HN].
  exists N. intros fuel Hf.
  destruct (HN fuel Hf) as (c1 & d1 & c2 & d2 & c12 & d12 & H1 & H2 & H3 & H4 & _).
  exists c1, d1, c2, d2, c12, d12.
  split; [exact H1 |]. split; [exact H2 |]. split; [exact H3 | exact H4].
Defined.

(** A pass at another width.  The resize listener renders the chart again:
    in a zone with small daylight-saving drift both passes return once the
    fuel suffices, and the second returns exactly what a first pass at the
    new width would have returned; the rows, their visibility and offsets,
    the collapsed set, the left panel and the height of the body stay as
    they were, the body takes the new width, and the day width is the new
    width divided by the number of days. *)
Theorem resize_renders_anew (tz : Z -> Z) (vp1 vp2 : Viewport) (c : GanttChart) :
  dst_drift_small tz ->
  exists N, forall fuel, (N <= fuel)%nat ->
    exists c1 d1 c2 d2,
      render tz fuel vp1 c = Some (c1, d1) /\
      render tz fuel vp2 c1 = Some (c2, d2) /\
      render tz fuel vp2 c = Some (c2, d2) /\
      rows c2 = rows c1 /\
      collapsedGroups c2 = collapsedGroups c1 /\
      dom_left d2 = dom_left d1 /\
      svg_height (dom_svg d2) = svg_height (dom_svg d1) /\
      svg_width (dom_svg d2) = availableWidth vp2 /\
      dayWidth c1 = fdiv (of_Z (availableWidth vp1)) (of_Z (totalDays c)) /\
      dayWidth c2 = fdiv (of_Z (availableWidth vp2)) (of_Z (totalDays c)).
Proof.
  intros D.
  destruct (render_terminates tz vp1 c D) as [N1 HN1].
  destruct (render_terminates tz vp2 c D) as [N2 HN2].
  exists (Nat.max N1 N2). intros fuel Hf.
  destruct (HN1 fuel ltac:(lia)) as [[c1 d1] H1].
  destruct (HN2 fuel ltac:(lia)) as [[c2 d2] H2'].
  pose proof (render_preserves_inputs _ _ _ _ _ _ H1) as Hs.
  assert (H2 : render tz fuel vp2 c1 = Some (c2, d2)).
  { rewrite <- H2'. symmetry. by apply render_same_inputs. }
  destruct Hs as (A1 & A2 & A3 & A4 & A5).
  destruct (render_panels _ _ _ _ _ _ H1) as (R1 & C1 & L1 & S1 & _).
  destruct (render_panels _ _ _ _ _ _ H2) as (R2 & C2 & L2 & S2 & _).
  destruct (render_result _ _ _ _ _ _ H1) as [E1 _].
  destruct (render_result _ _ _ _ _ _ H2) as [E2 _].
  assert (D1 : dayWidth c1 = fdiv (of_Z (availableWidth vp1)) (of_Z (totalDays c))).
  { rewrite E1. change (dayWidth (with_rows ?rs ?p)) with (dayWidth p).
    by destruct (prepared_fields vp1 c) as (_ & -> & _). }
  assert (D2 : dayWidth c2 = fdiv (of_Z (availableWidth vp2)) (of_Z (totalDays c))).
  { rewrite E2. change (dayWidth (with_rows ?rs ?p)) with (dayWidth p).
    destruct (prepared_fields vp2 c1) as (_ & -> & _). by rewrite <- A4. }
  assert (Hw : svg_width (dom_svg d2) = availableWidth vp2).
  { rewrite render_closed in H2. cbv zeta in H2.
    destruct (getTickDates tz fuel _ _ _) as [ticks |]; [| done].
    cbn [mbind option_bind] in H2. by inversion H2. }
  rewrite <- A1, <- A5 in R2, L2, S2.
  exists c1, d1, c2, d2.
  split; [exact H1 |]. split; [exact H2 |]. split; [exact H2' |].
  split; [by rewrite R1, R2 |]. split; [done |].
  split.
  { rewrite L1, L2. apply map_ext. intros r. unfold buildLeftRow. by rewrite C2. }
  split; [by rewrite S1, S2 |]. split; [done |]. split; done.
Qed.

Lemma resize_renders_anew_witness :
  exists N, forall fuel, (N <= fuel)%nat ->
    exists c1 d1 c2 d2,
      render tz_summer fuel Examples.viewport_310
        (constructor tz_summer Examples.scenario_schedule) = Some (c1, d1) /\
      render tz_summer fuel (mkViewport 620 1280) c1 = Some (c2, d2) /\
      rows c2 = rows c1.
Proof.
  destruct (resize_renders_anew tz_summer Examples.viewport_310 (mkViewport 620 1280)
              (constructor tz_summer Examples.scenario_schedule) tz_summer_drift) as [N HN].
  exists N. intros fuel Hf.
  destruct (HN fuel Hf) as (c1 & d1 & c2 & d2 & H1 & H2 & _ & R & _).
  exists c1, d1, c2, d2. split; [exact H1 |]. split; [exact H2 | exact R].
Defined.

(** *** Loading a project *)

Lemma flattenTasks_all_visible gi tasks : forall ti n,
  Forall (fun r => visible r = true) (flattenTasks false gi ti n tasks).
Proof. induction tasks as [| t ts IH]; intros ti n; simpl; constructor; [done | apply IH]. Qed.

Lemma flatten_all_visible gs : forall gi n,
  Forall (fun r => visible r = true) (flattenGroups ∅ gi n gs).
Proof.
  induction gs as [| g gs IH]; intros gi n; simpl; [constructor |].
  constructor; [done |]. apply Forall_app. split; [| apply IH].
  rewrite bool_decide_eq_false_2 by set_solver. apply flattenTasks_all_visible.
Qed.

Lemma visibleRows_all rs :
  Forall (fun r => visible r = true) rs -> visibleRows rs = rs.
Proof.
  induction 1 as [| r rs Hr _ IH]; [done |]. by rewrite visibleRows_cons, Hr, IH.
Qed.

Lemma layoutRows_visible rs : forall k,
  Forall (fun r => visible r = true) rs ->
  Forall (fun r => visible r = true) (layoutRows k rs).
Proof.
  induction rs as [| r rs IH]; intros k H; [constructor |].
  inversion H as [| ? ? Hr Hrs]; subst. simpl. rewrite Hr.
  constructor; [done | by apply IH].
Qed.

(** What a load that returns shows. *)
Lemma load_of_pass
    (tz : Z -> Z) (fuel : nat) (vp : Viewport) (data : Schedule)
    (c' : GanttChart) (dom : Dom) :
  loadGanttProject tz fuel vp data = Some (c', dom) ->
  chart_data c' = data /\
  collapsedGroups c' = ∅ /\
  Forall (fun r => visible r = true) (rows c') /\
  map Gantt.data (rows c') = document_order data /\
  Forall (fun lr => lr_isCollapsed lr = false) (dom_left dom) /\
  svg_height (dom_svg dom) = Z.of_nat (length (document_order data)) * ROW_HEIGHT.
Proof.
  unfold loadGanttProject. intros H.
  destruct (render_panels _ _ _ _ _ _ H) as (R & C & L & S & _).
  pose proof (render_preserves_inputs _ _ _ _ _ _ H) as (A1 & _).
  cbn [constructor chart_data collapsedGroups] in *.
  pose proof (flatten_all_visible (groups data) 0 0) as Hall.
  fold (flatten data ∅) in Hall.
  split; [done |]. split; [done |]. split; [rewrite R; by apply layoutRows_visible |].
  split.
  { rewrite R. unfold document_order.
    rewrite <- (flattenGroups_data ∅ (groups data) 0 0).
    fold (flatten data ∅).
    assert (E : map unlaid (layoutRows 0 (flatten data ∅)) = map unlaid (flatten data ∅))
      by apply layoutRows_unlaid.
    apply (f_equal (map Gantt.data)) in E. rewrite !map_map in E. exact E. }
  split.
  { rewrite L. apply Forall_forall. intros lr Hlr.
    apply list_elem_of_In, in_map_iff in Hlr as (r & <- & Hr).
    rewrite Forall_forall in Hall. cbn [buildLeftRow lr_isCollapsed].
    by rewrite (Hall r) by (by apply list_elem_of_In). }
  rewrite S, (visibleRows_all _ Hall). unfold document_order.
  rewrite <- (flattenGroups_data ∅ (groups data) 0 0), length_map. done.
Qed.

(** A loaded project shows every row.  In a zone with small daylight-saving
    drift [loadGanttProject] returns once the fuel suffices.  It starts
    from an empty collapsed set, whatever was collapsed in the chart shown
    before: every row of the schedule is visible, no left row is hidden, and
    the body is as high as [ROW_HEIGHT] times the number of groups and
    tasks. *)
Theorem load_shows_every_row (tz : Z -> Z) (vp : Viewport) (data : Schedule) :
  dst_drift_small tz ->
  exists N, forall fuel, (N <= fuel)%nat ->
    exists c' dom,
      loadGanttProject tz fuel vp data = Some (c', dom) /\
      chart_data c' = data /\
      collapsedGroups c' = ∅ /\
      Forall (fun r => visible r = true) (rows c') /\
      map Gantt.data (rows c') = document_order data /\
      Forall (fun lr => lr_isCollapsed lr = false) (dom_left dom) /\
      svg_height (dom_svg dom) = Z.of_nat (length (document_order data)) * ROW_HEIGHT.
Proof.
  intros D. unfold loadGanttProject.
  apply (render_total tz vp (constructor tz data)); [exact D |].
  intros fuel c' dom H. exact (load_of_pass tz fuel vp data c' dom H).
Qed.

Lemma load_shows_every_row_witness :
  exists N, forall fuel, (N <= fuel)%nat ->
    exists c' dom,
      loadGanttProject tz_summer fuel Examples.viewport_310 Examples.plan_schedule
        = Some (c', dom) /\
      svg_height (dom_svg dom) =
        Z.of_nat (length (document_order Examples.plan_schedule)) * ROW_HEIGHT.
Proof.
  destruct (load_shows_every_row tz_summer Examples.viewport_310 Examples.plan_schedule
              tz_summer_drift) as [N HN].
  exists N. intros fuel Hf.
  destruct (HN fuel Hf) as (c' & dom & H & _ & _ & _ & _ & _ & Hh).
  exists c', dom. split; [exact H | exact Hh].
Defined.

End Passes.

(** ** Edges of the input *)

Module Edges.
Import Calendar CalendarFacts JsDate DateFacts Double Gantt Flattener Geometry RenderSpec TickSpec.
Import Drawing Page DoubleFacts ZoneFacts LayoutFacts MonthFacts TickFacts Flatten RenderFacts Collapse.
Import Panels TickGeometry Scale Bars.

(** The product of a day count and a day width of the normal range: the
    exact product up to a relative error of [EPS]. *)
Lemma product_error (k : Z) (w : Q) :
  Z.abs k <= 200000000 -> (pow2 (-1022) <= w)%Q -> (w <= pow2 990)%Q ->
  exists x, fmul (of_Z k) (Fin w) = Fin x /\
    (Qabs (x - inject_Z k * w) <= Qabs (inject_Z k * w) * EPS)%Q /\
    (Qabs (inject_Z k * w) <= 200000000 * w)%Q /\
    (k < 0 -> (inject_Z k * w <= - w)%Q) /\ (k = 0 -> (inject_Z k * w == 0)%Q) /\
    (0 < k -> (w <= inject_Z k * w)%Q).
Proof.
  intros Hk Hlo Hhi. rewrite of_Z_exact by (unfold PREC; lia). cbn [fmul].
  pose proof (pow2_pos (-1022)) as Hp. pose proof EPS_pos as He.
  assert (Hw : (0 < w)%Q) by lra.
  assert (HB : (200000000 * pow2 990 <= pow2 (EMAX - 1))%Q) by (vm_compute; discriminate).
  assert (Hq : (Qabs (inject_Z k * w) <= 200000000 * w)%Q).
  { rewrite Qabs_Qmult, (Qabs_pos w) by lra.
    apply Qmult_le_compat_r; [| lra].
    change 200000000%Q with (inject_Z 200000000). by apply Qabs_inject_Z_le. }
  assert (Hneg : k < 0 -> (inject_Z k * w <= - w)%Q).
  { intros Hk0. assert (inject_Z k <= - (1))%Q
      by (change (- (1))%Q with (inject_Z (-1)); rewrite <- Zle_Qle; lia).
    assert (inject_Z k * w <= - (1) * w)%Q by (apply Qmult_le_compat_r; lra). lra. }
  assert (Hpos : 0 < k -> (w <= inject_Z k * w)%Q).
  { intros Hk0. assert (1 <= inject_Z k)%Q
      by (change 1%Q with (inject_Z 1); rewrite <- Zle_Qle; lia).
    assert (1 * w <= inject_Z k * w)%Q by (apply Qmult_le_compat_r; lra). lra. }
  assert (Hzero : k = 0 -> (inject_Z k * w == 0)%Q) by (intros ->; ring).
  destruct (round_finite (inject_Z k * w)) as [x Hx]; [lra |].
  exists x. split; [exact Hx |]. split; [| done].
  destruct (Z.eq_dec k 0) as [E0 | N0].
  - rewrite (round_zero _ (Hzero E0)) in Hx. inversion Hx; subst x.
    pose proof (Qabs_nonneg (inject_Z k * w)) as Hn. specialize (Hzero E0).
    assert (Hm : (0 <= Qabs (inject_Z k * w) * EPS)%Q) by (apply Qmult_le_0_compat; lra).
    apply Qabs_Qle_condition. split; lra.
  - apply round_error_normal; [| exact Hx].
    change (EMIN + PREC - 1) with (-1022).
    destruct (Z_lt_le_dec k 0) as [Hk0 | Hk0].
    + specialize (Hneg Hk0). rewrite Qabs_neg by lra. lra.
    + assert (Hk1 : 0 < k) by lia. specialize (Hpos Hk1). rewrite Qabs_pos by lra. lra.
Qed.

(** Pixel positions are not clamped.  In a zone with small daylight-saving
    drift, for valid dates and a day width of the normal range below
    [2^990], [dateToX] is the day difference times the day width, rounded,
    with a relative error of at most [2^-53]: 0 at the project start,
    negative exactly before it, positive exactly after it, and strictly
    increasing with the date. *)
Theorem dateToX_not_clamped (tz : Z -> Z) (ps : Z) (w : Q) :
  dst_drift_small tz -> date_in_range ps ->
  (pow2 (-1022) <= w)%Q -> (w <= pow2 990)%Q ->
  dateToX tz ps ps (Fin w) = Fin 0 /\
  (forall d, date_in_range d ->
     exists x, dateToX tz d ps (Fin w) = Fin x /\
       (d < ps <-> (x < 0)%Q) /\ (ps < d <-> (0 < x)%Q) /\
       (Qabs (x - inject_Z (d - ps) * w) <= Qabs (inject_Z (d - ps) * w) * EPS)%Q) /\
  (forall d1 d2, date_in_range d1 -> date_in_range d2 ->
     (d1 < d2 <-> dlt (dateToX tz d1 ps (Fin w)) (dateToX tz d2 ps (Fin w)))).
Proof.
  intros D Rps Hlo Hhi. unfold dateToX.
  pose proof (pow2_pos (-1022)) as Hp. pose proof EPS_value as Eeps.
  assert (Hw : (0 < w)%Q) by lra.
  assert (Hsign : forall k x,
            (Qabs (x - inject_Z k * w) <= Qabs (inject_Z k * w) * EPS)%Q ->
            (k < 0 -> (inject_Z k * w <= - w)%Q) -> (k = 0 -> (inject_Z k * w == 0)%Q) ->
            (0 < k -> (w <= inject_Z k * w)%Q) ->
            (k < 0 <-> (x < 0)%Q) /\ (0 < k <-> (0 < x)%Q)).
  { intros k x Hx Hn Hz Hpz. apply Qabs_diff_Qle_condition in Hx as [X1 X2].
    rewrite Eeps in X1, X2.
    destruct (Z.lt_trichotomy k 0) as [Hk | [Hk | Hk]].
    - specialize (Hn Hk). rewrite Qabs_neg in X1, X2 by lra.
      split; (split; intros Hc); first [lra | lia | (exfalso; lia) | (exfalso; lra)].
    - specialize (Hz Hk). rewrite Hz in X1, X2. change (Qabs 0) with 0%Q in X1, X2.
      split; (split; intros Hc); first [lra | lia | (exfalso; lia) | (exfalso; lra)].
    - specialize (Hpz Hk). rewrite Qabs_pos in X1, X2 by lra.
      split; (split; intros Hc); first [lra | lia | (exfalso; lia) | (exfalso; lra)]. }
  split; [| split].
  - rewrite (daysBetween_days tz D), Z.sub_diag.
    rewrite of_Z_exact by (unfold PREC; lia). cbn [fmul].
    change (inject_Z 0) with 0%Q. apply round_zero. ring.
  - intros d Rd. rewrite (daysBetween_days tz D).
    destruct (product_error (d - ps) w) as (x & Ex & Hx & _ & Hn & Hz & Hpz);
      [unfold date_in_range in *; lia | done | done |].
    exists x. split; [exact Ex |].
    destruct (Hsign _ _ Hx Hn Hz Hpz) as [S1 S2].
    split; [rewrite <- S1; lia |]. split; [rewrite <- S2; lia | exact Hx].
  - intros d1 d2 R1 R2. rewrite !(daysBetween_days tz D).
    destruct (product_error (d1 - ps) w) as (x1 & Ex1 & Hx1 & B1 & _);
      [unfold date_in_range in *; lia | done | done |].
    destruct (product_error (d2 - ps) w) as (x2 & Ex2 & Hx2 & B2 & _);
      [unfold date_in_range in *; lia | done | done |].
    rewrite Ex1, Ex2. rewrite dlt_Fin. split.
    + intros Hd.
      assert (Hq : (inject_Z (d1 - ps) * w + w <= inject_Z (d2 - ps) * w)%Q).
      { assert (inject_Z (d1 - ps) + 1 <= inject_Z (d2 - ps))%Q.
        { change 1%Q with (inject_Z 1). rewrite <- inject_Z_plus, <- Zle_Qle. lia. }
        assert ((inject_Z (d1 - ps) + 1) * w <= inject_Z (d2 - ps) * w)%Q
          by (apply Qmult_le_compat_r; lra). lra. }
      apply Qabs_diff_Qle_condition in Hx1 as [X1 X1'].
      apply Qabs_diff_Qle_condition in Hx2 as [X2 X2'].
      set (q1 := (inject_Z (d1 - ps) * w)%Q) in *. set (q2 := (inject_Z (d2 - ps) * w)%Q) in *.
      set (a1 := Qabs q1) in *. set (a2 := Qabs q2) in *. clearbody a1 a2 q1 q2.
      rewrite Eeps in *. lra.
    + intros Hx. destruct (Z_lt_le_dec d1 d2) as [| Hge]; [done |]. exfalso.
      assert (Hq : (inject_Z (d2 - ps) * w <= inject_Z (d1 - ps) * w)%Q).
      { apply Qmult_le_compat_r; [rewrite <- Zle_Qle; lia | lra]. }
      pose proof (round_mono _ _ Hq) as Hm.
      rewrite !of_Z_exact in Ex1, Ex2 by (unfold PREC, date_in_range in *; lia).
      cbn [fmul] in Ex1, Ex2. rewrite Ex1, Ex2 in Hm. apply dle_Fin in Hm. lra.
Qed.

Lemma dateToX_not_clamped_witness :
  exists x, dateToX tz_summer 19722 19723 (Fin 10) = Fin x /\
    (19722 < 19723 <-> (x < 0)%Q).
Proof.
  destruct (dateToX_not_clamped tz_summer 19723 10 tz_summer_drift) as (_ & H & _).
  - vm_compute. split; reflexivity.
  - vm_compute. discriminate.
  - vm_compute. discriminate.
  - destruct (H 19722) as (x & Ex & Hx & _).
    + vm_compute. split; reflexivity.
    + exists x. split; [exact Ex | exact Hx].
Defined.

(** The day width of a project of [T] days at a width of zero or less,
    down to -560. *)
Lemma day_width_nonpos (W T : Z) :
  - 560 <= W <= 0 -> 1 <= T <= 200000000 ->
  exists w, fdiv (of_Z W) (of_Z T) = Fin w /\ valid (Fin w) /\
            (- (560) <= w)%Q /\ (w <= 0)%Q.
Proof.
  intros HW HT. rewrite !of_Z_exact by (unfold PREC; lia). cbn [fdiv].
  assert (HTq : (1 <= inject_Z T)%Q) by (change 1%Q with (inject_Z 1); rewrite <- Zle_Qle; lia).
  assert (HWq : (- (560) <= inject_Z W)%Q)
    by (change (- (560))%Q with (inject_Z (-560)); rewrite <- Zle_Qle; lia).
  assert (HWq2 : (inject_Z W <= 0)%Q)
    by (change 0%Q with (inject_Z 0); rewrite <- Zle_Qle; lia).
  assert (E0 : Qeq_bool (inject_Z T) 0 = false).
  { destruct (Qeq_bool (inject_Z T) 0) eqn:E; [| done]. apply Qeq_bool_iff in E. lra. }
  rewrite E0.
  set (q0 := (inject_Z W / inject_Z T)%Q).
  assert (Hq0T : (q0 * inject_Z T == inject_Z W)%Q) by (unfold q0; field; lra).
  assert (Hq0hi : (q0 <= 0)%Q).
  { destruct (Qlt_le_dec 0 q0) as [Hpos | Hnp]; [| done]. exfalso.
    assert (0 * inject_Z T < q0 * inject_Z T)%Q by (apply Qmult_lt_compat_r; lra). lra. }
  assert (Hq0lo : (- (560) <= q0)%Q).
  { assert (1 * (- q0) <= inject_Z T * (- q0))%Q by (apply Qmult_le_compat_r; lra). lra. }
  clearbody q0.
  pose proof normal_high as Nhi.
  destruct (round_finite q0) as [w Hw]; [apply Qabs_Qle_condition; split; lra |].
  exists w. split; [exact Hw |]. split; [rewrite <- Hw; apply round_valid |].
  pose proof (round_nonpos _ Hq0hi) as H1. rewrite Hw in H1. apply dle_Fin in H1.
  pose proof (round_mono _ _ Hq0lo) as H2. rewrite Hw in H2.
  assert (E : round (- (560)) = Fin (- (560))) by reflexivity.
  rewrite E in H2. apply dle_Fin in H2. done.
Qed.

(** A viewport without width.  When the container reports no width in a
    window of at most 560 pixels, the available width is zero or negative
    and so is the day width; the pass still returns, and every bar of valid
    dates in order is drawn at the minimal width of 4 pixels, at or left of
    the left edge when it starts on or after the project start. *)
Theorem bars_in_narrow_viewport (tz : Z -> Z) (vp : Viewport) (c : GanttChart) :
  dst_drift_small tz ->
  constructed tz c ->
  date_in_range (projectStart c) -> date_in_range (projectEnd c) ->
  valueOf tz (projectStart c) <= valueOf tz (projectEnd c) ->
  clientWidth vp = 0 -> 0 <= innerWidth vp <= 560 ->
  exists N, forall fuel, (N <= fuel)%nat ->
    exists c' dom w,
      render tz fuel vp c = Some (c', dom) /\
      availableWidth vp = innerWidth vp - 560 /\
      svg_width (dom_svg dom) = innerWidth vp - 560 /\
      dayWidth c' = Fin w /\ (w <= 0)%Q /\
      forall row,
        date_in_range (parseDate (data_start (data row))) ->
        date_in_range (parseDate (data_end (data row))) ->
        valueOf tz (parseDate (data_start (data row)))
          <= valueOf tz (parseDate (data_end (data row))) ->
        bar_width tz c' row = Fin 4 /\
        (projectStart c' <= parseDate (data_start (data row)) ->
         dle (bar_x tz c' row) (Fin 0)).
Proof.
  intros D K R1 R2 Hle Hcw Hiw.
  destruct (project_days tz c D K R1 R2 Hle) as (Hle' & HT & HT').
  assert (HW : availableWidth vp = innerWidth vp - 560)
    by (unfold availableWidth; by rewrite Hcw).
  destruct (day_width_nonpos (availableWidth vp) (totalDays c)) as (w & Ew & Hv & W1 & W2);
    [lia | lia |].
  destruct (render_terminates tz vp c D) as [N HN].
  exists N. intros fuel Hf. destruct (HN fuel Hf) as [[c' dom] H].
  exists c', dom, w. split; [exact H |].
  destruct (render_result _ _ _ _ _ _ H) as [E _].
  pose proof (render_preserves_inputs _ _ _ _ _ _ H) as (A1 & A2 & A3 & A4 & A5).
  assert (Hdw : dayWidth c' = Fin w).
  { rewrite E. change (dayWidth (with_rows ?rs ?p)) with (dayWidth p).
    destruct (prepared_fields vp c) as (_ & -> & _). exact Ew. }
  assert (Hw : svg_width (dom_svg dom) = availableWidth vp).
  { rewrite render_closed in H. cbv zeta in H.
    destruct (getTickDates tz fuel _ _ _) as [ticks |]; [| done].
    cbn [mbind option_bind] in H. by inversion H. }
  split; [done |]. split; [by rewrite Hw |]. split; [done |]. split; [done |].
  intros row Rs Re Hrow. apply (proj1 (valueOf_le tz D _ _)) in Hrow.
  set (s := parseDate (data_start (data row))) in *.
  set (e := parseDate (data_end (data row))) in *.
  split.
  - unfold bar_width, bar_endX, bar_x, dateToX. rewrite !(daysBetween_days tz D), Hdw.
    fold s e. rewrite <- A2.
    apply (bar_width_minimal (s - projectStart c) (e - projectStart c) w).
    + unfold date_in_range in *. lia.
    + unfold date_in_range in *. lia.
    + apply Qabs_Qle_condition. split; lra.
    + assert (Hq : (0 <= inject_Z (e - projectStart c + 1 - (s - projectStart c)))%Q)
        by (change 0%Q with (inject_Z 0); rewrite <- Zle_Qle; lia).
      set (n := inject_Z (e - projectStart c + 1 - (s - projectStart c))) in *. clearbody n.
      assert (n * w <= n * 0)%Q; [| lra].
      rewrite !(Qmult_comm n). apply Qmult_le_compat_r; lra.
  - intros Hs. unfold bar_x, dateToX. rewrite (daysBetween_days tz D), Hdw. fold s.
    rewrite of_Z_exact by (unfold PREC, date_in_range in *; lia). cbn [fmul].
    apply round_nonpos.
    assert (Hq : (0 <= inject_Z (s - projectStart c'))%Q)
      by (change 0%Q with (inject_Z 0); rewrite <- Zle_Qle; lia).
    set (n := inject_Z (s - projectStart c')) in *. clearbody n.
    assert (n * w <= n * 0)%Q; [| lra].
    rewrite !(Qmult_comm n). apply Qmult_le_compat_r; lra.
Qed.

Lemma bars_in_narrow_viewport_witness :
  exists N, forall fuel, (N <= fuel)%nat ->
    exists c' dom w,
      render tz_summer fuel MoreExamples.viewport_hidden
        (constructor tz_summer Examples.scenario_schedule) = Some (c', dom) /\
      svg_width (dom_svg dom) = -60 /\ dayWidth c' = Fin w /\ (w <= 0)%Q.
Proof.
  destruct (bars_in_narrow_viewport tz_summer MoreExamples.viewport_hidden
              (constructor tz_summer Examples.scenario_schedule)) as [N HN].
  - exact tz_summer_drift.
  - apply constructor_constructed.
  - vm_compute. split; reflexivity.
  - vm_compute. split; reflexivity.
  - vm_compute. discriminate.
  - reflexivity.
  - vm_compute. split; discriminate.
  - exists N. intros fuel Hf.
    destruct (HN fuel Hf) as (c' & dom & w & H & _ & Hw & Hd & Hn & _).
    exists c', dom, w. split; [exact H |]. split; [exact Hw |]. split; [exact Hd | exact Hn].
Defined.

(** A schedule without groups.  The pass returns once the fuel suffices,
    with no rows, an empty left panel, no bars, no arrows, an empty task map
    and a body of height 0; the header and the gridlines are drawn as for
    any project. *)
Theorem empty_schedule_renders (tz : Z -> Z) (vp : Viewport) (c : GanttChart) :
  dst_drift_small tz ->
  groups (chart_data c) = [] ->
  (exists N, forall fuel, (N <= fuel)%nat -> is_Some (render tz fuel vp c)) /\
  forall fuel c' dom,
    render tz fuel vp c = Some (c', dom) ->
    rows c' = [] /\ taskMap c' = ∅ /\ dom_left dom = [] /\
    svg_bars (dom_svg dom) = [] /\ svg_dependencies (dom_svg dom) = [] /\
    svg_height (dom_svg dom) = 0 /\
    length (svg_grid (dom_svg dom)) = length (th_ticks (dom_header dom)).
Proof.
  intros D Hg. split; [by apply render_terminates |].
  intros fuel c' dom H.
  destruct (render_panels _ _ _ _ _ _ H) as (R & _ & L & S & B & A).
  assert (Hf : flatten (chart_data c) (collapsedGroups c) = [])
    by (unfold flatten; by rewrite Hg).
  rewrite Hf in *. simpl in R, L, S, B. rewrite R in A. simpl in A.
  split; [done |]. split.
  { destruct (render_result _ _ _ _ _ _ H) as [-> _].
    destruct (prepared_fields vp c) as (_ & _ & _ & Hr). rewrite Hf in Hr.
    change (taskMap (with_rows ?rs ?p)) with (taskMap p).
    unfold prepared in *. unfold buildTaskMap in *. cbn [taskMap with_taskMap rows] in *.
    by rewrite Hr. }
  split; [done |]. split; [done |]. split; [done |]. split; [done |].
  rewrite render_closed in H. cbv zeta in H.
  destruct (getTickDates tz fuel _ _ _) as [ticks |]; [| done].
  cbn [mbind option_bind] in H. inversion H; subst c' dom.
  cbn [dom_svg dom_header svg_grid th_ticks]. by rewrite !length_map.
Qed.

Lemma empty_schedule_renders_witness :
  exists N, forall fuel, (N <= fuel)%nat ->
    is_Some (render tz_summer fuel Examples.viewport_310
               (constructor tz_summer MoreExamples.empty_schedule)).
Proof.
  exact (proj1 (empty_schedule_renders tz_summer Examples.viewport_310
                  (constructor tz_summer MoreExamples.empty_schedule)
                  tz_summer_drift eq_refl)).
Defined.

(** A list with an element at 0 and none at 1 is a singleton. *)
Lemma singleton_lookup {A} (l : list A) (a : A) :
  l !! 0%nat = Some a -> l !! 1%nat = None -> l = [a].
Proof. destruct l as [| x [| y l]]; simpl; intros H0 H1; congruence. Qed.

(** A project of one day.  When the project ends on the day it starts (a
    calendar date, valid) and the width is not negative: the project counts
    one day, the day width is the whole available width, exactly; one
    tick is drawn, at the left edge, whatever the tier; and a bar of that
    day spans the viewport from 0 to the available width. *)
Theorem one_day_project (tz : Z -> Z) (vp : Viewport) (c : GanttChart) :
  dst_drift_small tz ->
  constructed tz c ->
  calendar_date (p_start (project (chart_data c))) ->
  p_end (project (chart_data c)) = p_start (project (chart_data c)) ->
  date_in_range (projectStart c) ->
  0 <= availableWidth vp < 2 ^ 53 ->
  exists N, forall fuel, (N <= fuel)%nat ->
    exists c' dom,
      render tz fuel vp c = Some (c', dom) /\
      totalDays c' = 1 /\ dayWidth c' = Fin (inject_Z (availableWidth vp)) /\
      grid_xs dom = [Fin 0] /\
      forall row,
        data_start (data row) = p_start (project (chart_data c)) ->
        data_end (data row) = p_start (project (chart_data c)) ->
        bar_x tz c' row = Fin 0 /\
        bar_endX tz c' row = Fin (inject_Z (availableWidth vp)) /\
        (4 <= availableWidth vp -> bar_width tz c' row = Fin (inject_Z (availableWidth vp))).
Proof.
  intros D (K1 & K2 & K3) Hcal Hend Rps HW.
  apply (render_total tz vp c); [exact D |]. intros fuel c' dom H.
  pose proof (parseDate_year _ Hcal) as Hyr. rewrite <- K1 in Hyr.
  assert (Hpe : projectEnd c = projectStart c) by (rewrite K1, K2, Hend; done).
  assert (HT : totalDays c = 1) by (rewrite K3, (daysBetween_days tz D), Hpe; lia).
  destruct (render_result _ _ _ _ _ _ H) as [E _].
  pose proof (render_preserves_inputs _ _ _ _ _ _ H) as (A1 & A2 & A3 & A4 & A5).
  set (W := availableWidth vp) in *.
  assert (HWq : (0 <= inject_Z W)%Q)
    by (change 0%Q with (inject_Z 0); rewrite <- Zle_Qle; lia).
  assert (HWq2 : (inject_Z W <= 9007199254740992)%Q)
    by (change 9007199254740992%Q with (inject_Z (2 ^ 53)); rewrite <- Zle_Qle; lia).
  assert (Hid : forall q, (q == inject_Z W)%Q -> round q = Fin (inject_Z W)).
  { intros q Hq. rewrite (round_proper _ _ Hq). apply (of_Z_exact W). unfold PREC. lia. }
  assert (Hdw : dayWidth c' = Fin (inject_Z W)).
  { rewrite E. change (dayWidth (with_rows ?rs ?p)) with (dayWidth p).
    destruct (prepared_fields vp c) as (_ & -> & _). rewrite HT. fold W.
    rewrite !of_Z_exact by (unfold PREC; lia). cbn [fdiv].
    change (Qeq_bool (inject_Z 1) 0) with false. cbv iota. apply Hid.
    change (inject_Z 1) with 1%Q. field. }
  split; [by rewrite <- A4 |]. split; [done |]. split.
  - destruct (grid_xs_closed tz fuel vp c c' dom H) as (ticks & Et & Hxs & Hps & _).
    rewrite Hpe in Et. set (ps := projectStart c) in *.
    assert (Hone : exists t, ticks = [t] /\ ps - 31 <= tick_date t <= ps).
    { destruct (fleb (Fin 40) (fmul (dayWidth c') (Fin 7))) eqn:H7;
        [| destruct (fleb (Fin 40) (fmul (dayWidth c') (Fin 30))) eqn:H30]; revgoals.
      - rewrite getTickDates_quarterly in Et by done.
        destruct (quarterlyTicks_dates tz D ps ps Hyr) as (Hin & Hinc & _).
        destruct (quarterlyTicks tz ps ps) as [| t1 q] eqn:Eq; simpl in Et.
        + inversion Et; subst ticks. exists (monthTick ps). split; [done |]. simpl. lia.
        + inversion Et; subst ticks. exists t1.
          assert (H1 : tick_date t1 = ps).
          { assert (Hm : tick_date t1 ∈ map tick_date (t1 :: q)) by (simpl; apply list_elem_of_here).
            apply Hin in Hm as (_ & _ & Hr). lia. }
          split; [| lia]. destruct q as [| t2 q]; [done |]. exfalso.
          assert (H2 : tick_date t2 = ps).
          { assert (Hm : tick_date t2 ∈ map tick_date (t1 :: t2 :: q))
              by (simpl; apply list_elem_of_further, list_elem_of_here).
            apply Hin in Hm as (_ & _ & Hr). lia. }
          simpl in Hinc. destruct Hinc as [Hf _]. inversion Hf; subst. lia.
      - rewrite getTickDates_monthly in Et by done.
        pose proof (month_interval ps) as [Hlo Hhi].
        destruct (monthlyLoop_dates tz D _ _ _ _ Et) as (Hin & _).
        assert (H0 : exists t, ticks !! 0%nat = Some t).
        { assert (Hm : firstOfMonth (monthIndex ps) ∈ map tick_date ticks).
          { apply Hin. exists (monthIndex ps). repeat split; [lia | done]. }
          destruct ticks as [| t l]; [by apply elem_of_nil in Hm | by exists t]. }
        destruct H0 as [t Ht]. exists t. split.
        + apply singleton_lookup; [done |].
          destruct (ticks !! 1%nat) as [t' |] eqn:E1; [| done]. exfalso.
          pose proof (monthlyLoop_nth tz D _ _ _ _ _ _ Et E1) as Hd.
          assert (Hm : tick_date t' ∈ map tick_date ticks).
          { apply list_elem_of_In, in_map, list_elem_of_In, list_elem_of_lookup. eauto. }
          apply Hin in Hm as (_ & _ & _ & Hle). rewrite Hd in Hle.
          change (Z.of_nat 1) with 1 in Hle. lia.
        + rewrite (monthlyLoop_nth tz D _ _ _ _ _ _ Et Ht).
          change (Z.of_nat 0) with 0. rewrite Z.add_0_r.
          pose proof (firstOfMonth_step (monthIndex ps)). lia.
      - rewrite getTickDates_weekly in Et by done.
        pose proof (monday_spec ps) as (_ & Hmon).
        destruct (weeklyLoop_dates tz D _ _ _ _ Et) as (Hin & _).
        assert (H0 : exists t, ticks !! 0%nat = Some t).
        { assert (Hm : mondayOnOrBefore ps ∈ map tick_date ticks).
          { apply Hin. rewrite Z.sub_diag. split; [lia | done]. }
          destruct ticks as [| t l]; [by apply elem_of_nil in Hm | by exists t]. }
        destruct H0 as [t Ht]. exists t. split.
        + apply singleton_lookup; [done |].
          destruct (ticks !! 1%nat) as [t' |] eqn:E1; [| done]. exfalso.
          pose proof (weeklyLoop_nth tz D _ _ _ _ _ _ Et E1) as Hd.
          assert (Hm : tick_date t' ∈ map tick_date ticks).
          { apply list_elem_of_In, in_map, list_elem_of_In, list_elem_of_lookup. eauto. }
          apply Hin in Hm as ((_ & Hle) & _). rewrite Hd in Hle.
          change (Z.of_nat 1) with 1 in Hle. lia.
        + rewrite (weeklyLoop_nth tz D _ _ _ _ _ _ Et Ht).
          change (Z.of_nat 0) with 0. lia. }
    destruct Hone as (t & -> & Ht). rewrite Hxs. cbn [map]. f_equal.
    unfold tickX, dateToX. rewrite (daysBetween_days tz D), Hdw, Hps.
    destruct (x_left (tick_date t - ps) (inject_Z W)) as (x & -> & Hv & Hx);
      [lia | lra | lra |].
    by apply clamp_nonpos.
  - intros row Hs He.
    assert (Hx : bar_x tz c' row = Fin 0).
    { unfold bar_x, dateToX. rewrite (daysBetween_days tz D), Hs, <- A2, K1, Z.sub_diag, Hdw.
      rewrite of_Z_exact by (unfold PREC; lia). cbn [fmul].
      change (inject_Z 0) with 0%Q. apply round_zero. ring. }
    assert (Hex : bar_endX tz c' row = Fin (inject_Z W)).
    { unfold bar_endX, dateToX. rewrite (daysBetween_days tz D), He, <- A2, K1, Z.sub_diag, Hdw.
      rewrite of_Z_exact by (unfold PREC; lia). cbn [fmul].
      change (inject_Z 0) with 0%Q.
      assert (E0 : round (0 * inject_Z W) = Fin 0) by (apply round_zero; ring).
      rewrite E0. cbn [fadd]. apply Hid. ring. }
    split; [done |]. split; [done |]. intros H4.
    unfold bar_width. rewrite Hex, Hx. cbn [fsub].
    rewrite (Hid (inject_Z W - 0)%Q) by ring.
    assert (H4q : (4 <= inject_Z W)%Q)
      by (change 4%Q with (inject_Z 4); rewrite <- Zle_Qle; lia).
    destruct (Z.eq_dec W 4) as [-> | N4]; [reflexivity |].
    assert (H4q' : (4 < inject_Z W)%Q)
      by (change 4%Q with (inject_Z 4); rewrite <- Zlt_Qlt; lia).
    destruct (fmax_spec (Fin (inject_Z W)) (Fin 4)) as (_ & _ & _ & Hgt); [done | done |].
    apply Hgt. by apply dlt_Fin.
Qed.

Lemma one_day_project_witness :
  exists N, forall fuel, (N <= fuel)%nat ->
    exists c' dom,
      render tz_summer fuel Examples.viewport_310
        (constructor tz_summer MoreExamples.oneday_schedule) = Some (c', dom) /\
      totalDays c' = 1 /\ dayWidth c' = Fin 310 /\ grid_xs dom = [Fin 0].
Proof.
  destruct (one_day_project tz_summer Examples.viewport_310
              (constructor tz_summer MoreExamples.oneday_schedule)) as [N HN].
  - exact tz_summer_drift.
  - apply constructor_constructed.
  - unfold calendar_date. simpl. lia.
  - reflexivity.
  - vm_compute. split; reflexivity.
  - vm_compute. split; [discriminate | reflexivity].
  - exists N. intros fuel Hf. destruct (HN fuel Hf) as (c' & dom & H & H1 & H2 & H3 & _).
    exists c', dom. split; [exact H |]. split; [exact H1 |]. split; [exact H2 | exact H3].
Defined.

End Edges.

(** ** The id cell of the left panel *)

Module IdText.
Import Gantt Text.

Lemma replace_first_unfold pat rep s :
  replace_first pat rep s =
  if String.prefix pat s then (rep ++ string_skip (String.length pat) s)%string
  else match s with
       | EmptyString => EmptyString
       | String c s' => String c (replace_first pat rep s')
       end.
Proof. by destruct s. Qed.

Lemma append_cons a (x t : string) : (String a x ++ t)%string = String a (x ++ t)%string.
Proof. reflexivity. Qed.

Lemma append_nil (t : string) : (EmptyString ++ t)%string = t.
Proof. reflexivity. Qed.

Lemma prefix_cons c pat a s :
  String.prefix (String c pat) (String a s) =
  if ascii_dec c a then String.prefix pat s else false.
Proof. reflexivity. Qed.

Lemma prefix_nil s : String.prefix EmptyString s = true.
Proof. by destruct s. Qed.

(** A pattern that starts with a character the string does not hold is not
    found, and the string stays as it is. *)
Lemma replace_first_absent c pat rep s :
  ~ In c (list_ascii_of_string s) ->
  replace_first (String c pat) rep s = s.
Proof.
  induction s as [| a s IH]; intros Hno; [done |].
  rewrite replace_first_unfold, prefix_cons. cbn [list_ascii_of_string In] in Hno.
  destruct (ascii_dec c a) as [-> | N]; [tauto |].
  rewrite IH by tauto. done.
Qed.

(** The first dash becomes a dot. *)
Lemma replace_first_dash x y :
  ~ In "-"%char (list_ascii_of_string x) ->
  replace_first "-" "." (x ++ "-" ++ y) = (x ++ "." ++ y)%string.
Proof.
  induction x as [| a x IH]; intros Hno.
  - rewrite !append_nil, !append_cons, !append_nil.
    rewrite replace_first_unfold, prefix_cons, prefix_nil.
    destruct (ascii_dec "-" "-"); done.
  - rewrite !(append_cons a x). rewrite replace_first_unfold, prefix_cons.
    cbn [list_ascii_of_string In] in Hno.
    destruct (ascii_dec "-" a) as [<- | N]; [tauto |].
    rewrite IH by tauto. done.
Qed.

Lemma prefix_task_dash s :
  String.prefix "task-" s = true -> In "-"%char (list_ascii_of_string s).
Proof.
  intros H.
  do 5 (destruct s as [| ? s]; [done |]; rewrite prefix_cons in H;
        match type of H with
        | (if ascii_dec ?a ?b then _ else _) = true =>
            destruct (ascii_dec a b) as [<- | ?]; [| done]
        end).
  cbn [list_ascii_of_string In]. tauto.
Qed.

Lemma replace_first_task_absent s :
  ~ In "-"%char (list_ascii_of_string s) -> replace_first "task-" "" s = s.
Proof.
  induction s as [| a s IH]; intros Hno; [done |].
  rewrite replace_first_unfold.
  destruct (String.prefix "task-" (String a s)) eqn:E.
  - apply prefix_task_dash in E. done.
  - rewrite IH; [done |]. cbn [list_ascii_of_string In] in Hno. tauto.
Qed.

Lemma replace_first_task_prefix s : replace_first "task-" "" ("task-" ++ s) = s.
Proof.
  rewrite !append_cons, append_nil, replace_first_unfold.
  rewrite !prefix_cons, prefix_nil.
  repeat match goal with
         | |- context [ascii_dec ?a ?a] => destruct (ascii_dec a a); [| done]
         end.
  reflexivity.
Qed.

(** The text of the id cell.  A phase row shows no id.  A task row whose id
    is [task-X-Y], with no dash in [X], shows [X.Y]; only the first dash
    after the prefix becomes a dot, so an id [task-X-Y-Z] shows [X.Y-Z]; an
    id without any dash is shown as it is. *)
Theorem rowIdText_of_task_id (row : Row) :
  (is_task row = false -> rowIdText row = ""%string) /\
  (forall x y : string,
     is_task row = true ->
     data_id (data row) = ("task-" ++ x ++ "-" ++ y)%string ->
     ~ In "-"%char (list_ascii_of_string x) ->
     rowIdText row = (x ++ "." ++ y)%string) /\
  (is_task row = true ->
   ~ In "-"%char (list_ascii_of_string (data_id (data row))) ->
   rowIdText row = data_id (data row)).
Proof.
  unfold rowIdText. split; [by intros -> |]. split.
  - intros x y -> -> Hx.
    rewrite replace_first_task_prefix. by apply replace_first_dash.
  - intros -> Hno. rewrite replace_first_task_absent by done.
    by apply replace_first_absent.
Qed.

End IdText.

(** ** Reading a date string *)

Module DateStrings.
Import Calendar JsDate Gantt Text IdText.

Lemma digit_cases k :
  0 <= k <= 9 ->
  k = 0 \/ k = 1 \/ k = 2 \/ k = 3 \/ k = 4 \/ k = 5 \/ k = 6 \/ k = 7 \/ k = 8 \/ k = 9.
Proof. lia. Qed.

Lemma digit_of_char k : 0 <= k <= 9 -> digit_of (digit_char k) = Some k.
Proof.
  intros H.
  destruct (digit_cases k H) as [E | [E | [E | [E | [E | [E | [E | [E | [E | E]]]]]]]]];
    rewrite E; reflexivity.
Qed.

Lemma digit_char_not_dash k : 0 <= k <= 9 -> Ascii.eqb (digit_char k) "-" = false.
Proof.
  intros H.
  destruct (digit_cases k H) as [E | [E | [E | [E | [E | [E | [E | [E | [E | E]]]]]]]]];
    rewrite E; reflexivity.
Qed.

Lemma split_dash_digit cur k s :
  0 <= k <= 9 ->
  split_dash cur (String (digit_char k) s) =
  split_dash (cur ++ String (digit_char k) EmptyString) s.
Proof. intros H. cbn [split_dash]. by rewrite digit_char_not_dash. Qed.

Lemma split_dash_dash cur s :
  split_dash cur (String "-" s) = cur :: split_dash EmptyString s.
Proof. reflexivity. Qed.

Lemma Number_digits_digit acc k s :
  0 <= k <= 9 ->
  Number_digits acc (String (digit_char k) s) = Number_digits (10 * acc + k) s.
Proof. intros H. cbn [Number_digits]. by rewrite digit_of_char. Qed.

Lemma Number_two_digits n : 0 <= n <= 99 -> Number (two_digits n) = Some n.
Proof.
  intros H. unfold Number, two_digits.
  rewrite !Number_digits_digit by (Z.to_euclidean_division_equations; lia).
  cbn [Number_digits]. f_equal. Z.to_euclidean_division_equations. lia.
Qed.

Lemma Number_four_digits n : 0 <= n <= 9999 -> Number (four_digits n) = Some n.
Proof.
  intros H. unfold Number, four_digits.
  rewrite !Number_digits_digit by (Z.to_euclidean_division_equations; lia).
  cbn [Number_digits]. f_equal. Z.to_euclidean_division_equations. lia.
Qed.

Lemma split_dash_two cur n s :
  0 <= n <= 99 ->
  split_dash cur (two_digits n ++ s) = split_dash (cur ++ two_digits n) s.
Proof.
  intros H. unfold two_digits. rewrite !append_cons, append_nil.
  rewrite !split_dash_digit by (Z.to_euclidean_division_equations; lia).
  f_equal. induction cur as [| a cur IH]; [done |].
  rewrite !append_cons. by rewrite IH.
Qed.

Lemma split_dash_four cur n s :
  0 <= n <= 9999 ->
  split_dash cur (four_digits n ++ s) = split_dash (cur ++ four_digits n) s.
Proof.
  intros H. unfold four_digits. rewrite !append_cons, append_nil.
  rewrite !split_dash_digit by (Z.to_euclidean_division_equations; lia).
  f_equal. induction cur as [| a cur IH]; [done |].
  rewrite !append_cons. by rewrite IH.
Qed.

(** A date written YYYY-MM-DD is read as the numbers it writes, leading
    zeros included, and [parseDate] of the string is the date of these
    numbers; what follows a further dash is ignored. *)
Theorem splitDate_iso (f : DateFields) :
  0 <= df_year f <= 9999 -> 0 <= df_month f <= 99 -> 0 <= df_day f <= 99 ->
  splitDate (iso_date f) = Some f /\
  parseDateString (iso_date f) = Some (parseDate f) /\
  forall rest : string, splitDate (iso_date f ++ "-" ++ rest) = Some f.
Proof.
  intros Hy Hm Hd.
  assert (Hsplit : forall tail : string,
            split_dash EmptyString (iso_date f ++ tail) =
            four_digits (df_year f) :: two_digits (df_month f)
              :: split_dash (two_digits (df_day f)) tail).
  { intros tail. unfold iso_date.
    assert (A : forall a b c : string, ((a ++ b) ++ c = a ++ (b ++ c))%string).
    { induction a as [| ch a IH]; intros b c; [done |]. rewrite !append_cons. by rewrite IH. }
    rewrite !A. rewrite split_dash_four by done. rewrite append_nil.
    rewrite append_cons, append_nil, split_dash_dash.
    rewrite split_dash_two by done. rewrite append_nil.
    rewrite append_cons, append_nil, split_dash_dash.
    rewrite split_dash_two by done. by rewrite append_nil. }
  assert (Hnum :
            match Number (four_digits (df_year f)), Number (two_digits (df_month f)),
                  Number (two_digits (df_day f)) with
            | Some y', Some m', Some d' => Some (mkDateFields y' m' d')
            | _, _, _ => None
            end = Some f).
  { rewrite Number_four_digits, !Number_two_digits by done. by destruct f. }
  assert (H1 : splitDate (iso_date f) = Some f).
  { unfold splitDate.
    assert (E : iso_date f = (iso_date f ++ EmptyString)%string).
    { generalize (iso_date f). induction s as [| a s IH]; [done |].
      rewrite append_cons. by rewrite <- IH. }
    rewrite E, Hsplit. cbn [split_dash]. exact Hnum. }
  split; [exact H1 |]. split; [unfold parseDateString; by rewrite H1 |].
  intros rest. unfold splitDate.
  rewrite Hsplit, append_cons, append_nil, split_dash_dash. exact Hnum.
Qed.

Lemma splitDate_iso_witness :
  splitDate (iso_date (mkDateFields 2024 1 5)) = Some (mkDateFields 2024 1 5).
Proof.
  apply (splitDate_iso (mkDateFields 2024 1 5)); simpl; lia.
Defined.

End DateStrings.

(** ** Lines of a chunked response *)

Module Framing.
Import Stream IdText.

Lemma append_assoc (a b c : string) : ((a ++ b) ++ c = a ++ (b ++ c))%string.
Proof. induction a as [| ch a IH]; [done |]. rewrite !append_cons. by rewrite IH. Qed.

Lemma append_empty_r (a : string) : (a ++ EmptyString)%string = a.
Proof. induction a as [| ch a IH]; [done |]. rewrite append_cons. by rewrite IH. Qed.

(** The piece being read is a prefix of the first piece. *)
Definition prepend (cur : string) (l : list string) : list string :=
  match l with
  | [] => [cur]
  | h :: t => (cur ++ h)%string :: t
  end.

Lemma split_on_prepend sep s : forall cur,
  split_on sep cur s = prepend cur (split_on sep EmptyString s).
Proof.
  induction s as [| c s IH]; intros cur; cbn [split_on].
  - cbn [prepend]. by rewrite append_empty_r.
  - destruct (Ascii.eqb c sep).
    + cbn [prepend]. by rewrite append_empty_r.
    + rewrite (IH (cur ++ String c EmptyString)%string).
      rewrite (IH (EmptyString ++ String c EmptyString)%string).
      destruct (split_on sep EmptyString s) as [| h t]; cbn [prepend].
      * by rewrite append_nil.
      * by rewrite append_nil, append_assoc.
Qed.

Lemma split_on_nonempty sep s cur : split_on sep cur s <> [].
Proof.
  revert cur. induction s as [| c s IH]; intros cur; cbn [split_on]; [done |].
  destruct (Ascii.eqb c sep); [done | apply IH].
Qed.

Lemma removelast_cons {A} (a : A) (l : list A) :
  l <> [] -> removelast (a :: l) = a :: removelast l.
Proof. by destruct l. Qed.

Lemma last_cons {A} (a d : A) (l : list A) :
  l <> [] -> List.last (a :: l) d = List.last l d.
Proof. by destruct l. Qed.

Lemma last_app_nonempty {A} (l l' : list A) (d : A) :
  l' <> [] -> List.last (l ++ l') d = List.last l' d.
Proof.
  intros H. induction l as [| a l IH]; [done |].
  rewrite <- app_comm_cons, last_cons; [done |]. by destruct l.
Qed.

(** Splitting a text cut in two: the complete pieces of the first part,
    then the pieces of what was left of it followed by the second part. *)
Lemma split_on_app sep s1 s2 :
  split_on sep EmptyString (s1 ++ s2) =
  removelast (split_on sep EmptyString s1)
  ++ split_on sep EmptyString (List.last (split_on sep EmptyString s1) EmptyString ++ s2).
Proof.
  induction s1 as [| c s1 IH].
  - rewrite append_nil. cbn [split_on removelast List.last app]. by rewrite append_nil.
  - rewrite append_cons. cbn [split_on]. destruct (Ascii.eqb c sep) eqn:Ec.
    + rewrite IH. pose proof (split_on_nonempty sep s1 EmptyString) as Hne.
      rewrite removelast_cons, last_cons by done. done.
    + rewrite append_nil.
      rewrite (split_on_prepend sep (s1 ++ s2)), (split_on_prepend sep s1), IH.
      pose proof (split_on_nonempty sep s1 EmptyString) as Hne.
      destruct (split_on sep EmptyString s1) as [| h [| h' t]]; [done | |].
      * cbn [removelast List.last app prepend].
        rewrite append_assoc, append_cons, append_nil. cbn [split_on]. rewrite Ec.
        rewrite append_nil. symmetry. apply split_on_prepend.
      * cbn [prepend]. rewrite !removelast_cons by done. rewrite !last_cons by done.
        done.
Qed.

Lemma chars_append (a b : string) :
  list_ascii_of_string (a ++ b) = (list_ascii_of_string a ++ list_ascii_of_string b)%list.
Proof.
  induction a as [| ch a IH]; [done |].
  rewrite append_cons. cbn [list_ascii_of_string]. by rewrite IH.
Qed.

(** A text without the separator is one piece. *)
Lemma split_on_no_sep sep s :
  ~ In sep (list_ascii_of_string s) -> split_on sep EmptyString s = [s].
Proof.
  induction s as [| c s IH]; intros Hno; [done |].
  cbn [list_ascii_of_string In] in Hno. cbn [split_on].
  destruct (Ascii.eqb_spec c sep) as [-> | N]; [tauto |].
  rewrite split_on_prepend, IH by tauto. cbn [prepend].
  by rewrite append_nil, append_cons, append_nil.
Qed.

(** No piece of a split holds the separator. *)
Lemma split_on_pieces sep s : forall cur,
  ~ In sep (list_ascii_of_string cur) ->
  Forall (fun p => ~ In sep (list_ascii_of_string p)) (split_on sep cur s).
Proof.
  induction s as [| c s IH]; intros cur Hcur; cbn [split_on].
  - by constructor.
  - destruct (Ascii.eqb_spec c sep) as [-> | N].
    + constructor; [done |]. apply IH. simpl. tauto.
    + apply IH. rewrite chars_append. cbn [list_ascii_of_string].
      rewrite in_app_iff. simpl. intros [? | [? | []]]; [tauto | congruence].
Qed.

Lemma last_piece sep s :
  ~ In sep (list_ascii_of_string (List.last (split_on sep EmptyString s) EmptyString)).
Proof.
  assert (H0 : ~ In sep (list_ascii_of_string EmptyString)) by (simpl; tauto).
  pose proof (split_on_pieces sep s EmptyString H0) as H.
  pose proof (split_on_nonempty sep s EmptyString) as Hne.
  destruct (split_on sep EmptyString s) as [| h t] using rev_ind; [done |].
  rewrite List.last_last. apply Forall_app in H as [_ H]. by inversion H.
Qed.

Lemma readLoop_joined chunks : forall buffer,
  ~ In newline (list_ascii_of_string buffer) ->
  readLoop buffer chunks = readStep buffer (joined chunks).
Proof.
  induction chunks as [| ch rest IH]; intros buffer Hb.
  - cbn [readLoop joined fold_right]. unfold readStep, splitLines.
    rewrite append_empty_r, split_on_no_sep by done. done.
  - assert (J : joined (ch :: rest) = (ch ++ joined rest)%string) by reflexivity.
    rewrite J. cbn [readLoop].
    unfold readStep at 1. rewrite IH by apply last_piece.
    unfold readStep, splitLines. rewrite <- append_assoc.
    rewrite (split_on_app newline (buffer ++ ch) (joined rest)).
    pose proof (split_on_nonempty newline
                  (List.last (split_on newline EmptyString (buffer ++ ch)) EmptyString
                   ++ joined rest) EmptyString) as Hne.
    set (A := removelast (split_on newline EmptyString (buffer ++ ch))).
    set (B := split_on newline EmptyString
                (List.last (split_on newline EmptyString (buffer ++ ch)) EmptyString
                 ++ joined rest)) in *.
    f_equal.
    + by rewrite removelast_app.
    + by rewrite last_app_nonempty.
Qed.

(** The lines do not depend on the chunking.  However the text of a
    response is cut into chunks, the read loop hands on the same complete
    lines, in order, as one split of the whole text, and keeps as buffer the
    unfinished last line; a line cut by a chunk border is handed on once,
    whole. *)
Theorem lines_independent_of_chunks (chunks : list string) :
  readLoop EmptyString chunks =
  (removelast (splitLines (joined chunks)),
   List.last (splitLines (joined chunks)) EmptyString) /\
  forall chunks' : list string,
    joined chunks' = joined chunks ->
    readLoop EmptyString chunks' = readLoop EmptyString chunks.
Proof.
  assert (H : forall cs, readLoop EmptyString cs =
            (removelast (splitLines (joined cs)),
             List.last (splitLines (joined cs)) EmptyString)).
  { intros cs. rewrite readLoop_joined by (simpl; tauto).
    unfold readStep. by rewrite append_nil. }
  split; [apply H |]. intros chunks' E. by rewrite !H, E.
Qed.

End Framing.

(** ** The tier of a pass *)

Module Tiers.
Import Calendar CalendarFacts JsDate DateFacts Double Gantt Flattener Geometry RenderSpec TickSpec.
Import Drawing DoubleFacts ZoneFacts LayoutFacts MonthFacts TickFacts Flatten RenderFacts TickGeometry Scale.

(** The tier tests in whole numbers: for a project of [T] days at a width
    of [W] pixels the rounded product [W / T * k] reaches 40 exactly when
    [40 T <= k W], for the two factors 7 and 30 of the tick generator.  Away
    from equality the gap is at least [1 / T], far more than the rounding;
    at equality the day width is the double nearest to 40/7 or 4/3, and its
    product rounds to 40. *)
Lemma tier_threshold (W T k : Z) :
  - 2 ^ 53 < W < 2 ^ 53 -> 1 <= T <= 200000000 -> k = 7 \/ k = 30 ->
  fleb (Fin 40) (fmul (fdiv (of_Z W) (of_Z T)) (Fin (inject_Z k))) = true <-> 40 * T <= k * W.
Proof.
  intros HW HT Hk.
  assert (HTq : (1 <= inject_Z T)%Q) by (change 1%Q with (inject_Z 1); rewrite <- Zle_Qle; lia).
  assert (HTq2 : (inject_Z T <= 200000000)%Q)
    by (change 200000000%Q with (inject_Z 200000000); rewrite <- Zle_Qle; lia).
  assert (E0 : Qeq_bool (inject_Z T) 0 = false).
  { destruct (Qeq_bool (inject_Z T) 0) eqn:E; [| done]. apply Qeq_bool_iff in E. lra. }
  destruct (Z_le_gt_dec W 0) as [Hneg | Hpos].
  - (* no width: the product is not positive *)
    split; [| intros; lia]. intros H. exfalso.
    rewrite !of_Z_exact in H by (unfold PREC; lia). cbn [fdiv] in H. rewrite E0 in H.
    assert (Hq : (inject_Z W / inject_Z T <= 0)%Q).
    { assert (HWq : (inject_Z W <= 0)%Q)
        by (change 0%Q with (inject_Z 0); rewrite <- Zle_Qle; lia).
      set (q0 := (inject_Z W / inject_Z T)%Q).
      assert (Hq0T : (q0 * inject_Z T == inject_Z W)%Q) by (unfold q0; field; lra).
      destruct (Qlt_le_dec 0 q0) as [Hp | Hnp]; [| done]. exfalso.
      assert (0 * inject_Z T < q0 * inject_Z T)%Q by (apply Qmult_lt_compat_r; lra). lra. }
    pose proof (round_nonpos _ Hq) as H1.
    assert (Hkq : (0 <= inject_Z k)%Q)
      by (change 0%Q with (inject_Z 0); rewrite <- Zle_Qle; lia).
    destruct (round (inject_Z W / inject_Z T)) as [w | | |]; try done;
      [| destruct Hk as [-> | ->]; done].
    apply dle_Fin in H1. cbn [fmul] in H.
    assert (Hp : (w * inject_Z k <= 0)%Q).
    { assert (inject_Z k * w <= inject_Z k * 0)%Q; [| lra].
      rewrite !(Qmult_comm (inject_Z k)). apply Qmult_le_compat_r; lra. }
    pose proof (round_nonpos _ Hp) as H2.
    destruct (round (w * inject_Z k)) as [p | | |]; try done.
    apply dle_Fin in H2. cbn [fleb] in H. apply Qle_bool_iff in H. lra.
  - assert (HW' : 0 < W < 2 ^ 53) by lia.
    destruct (day_width W T HW' HT) as (w & Ew & Hv & W1 & W2 & W3 & W4).
    rewrite Ew. cbn [fmul].
    pose proof EPS_value as Eeps. pose proof normal_low as Nlo.
    assert (HB : (1000000000000000000 <= pow2 (EMAX - 1))%Q) by (vm_compute; discriminate).
    assert (Hk1 : (7 <= inject_Z k)%Q)
      by (change 7%Q with (inject_Z 7); rewrite <- Zle_Qle; lia).
    assert (Hk2 : (inject_Z k <= 30)%Q)
      by (change 30%Q with (inject_Z 30); rewrite <- Zle_Qle; lia).
    assert (Hwk1 : (7 * w <= w * inject_Z k)%Q).
    { rewrite (Qmult_comm w). apply Qmult_le_compat_r; lra. }
    assert (Hwk2 : (w * inject_Z k <= 30 * w)%Q).
    { rewrite (Qmult_comm w). apply Qmult_le_compat_r; lra. }
    destruct (round_rel (w * inject_Z k)) as (p & Ep & _ & P1 & P2); [lra | lra |].
    rewrite Ep. cbn [fleb]. rewrite Qle_bool_iff.
    assert (HWq : (1 <= inject_Z W)%Q) by (change 1%Q with (inject_Z 1); rewrite <- Zle_Qle; lia).
    rewrite Eeps in *.
    destruct (Z.lt_trichotomy (40 * T) (k * W)) as [Hlt | [Heq | Hgt]].
    + (* above the threshold by at least 1 / T *)
      split; [intros; lia |]. intros _.
      assert (Hz : (40 * inject_Z T + 1 <= inject_Z k * inject_Z W)%Q).
      { change 40%Q with (inject_Z 40). change 1%Q with (inject_Z 1).
        rewrite <- !inject_Z_mult, <- inject_Z_plus, <- Zle_Qle. lia. }
      set (e := (1 # 9007199254740992)%Q) in *.
      assert (He : e = (1 # 9007199254740992)%Q) by reflexivity.
      set (g := (w * inject_Z k - 40 * (1 - e))%Q).
      assert (Hg : ((1 - e) <= g * inject_Z T)%Q).
      { assert (X : ((1 - e) * inject_Z W * inject_Z k <= inject_Z T * w * inject_Z k)%Q)
          by (apply Qmult_le_compat_r; lra).
        unfold g. rewrite He in *. lra. }
      assert (Hg0 : (0 <= g)%Q).
      { destruct (Qlt_le_dec g 0) as [Hn | Hn]; [| done]. exfalso.
        assert (g * inject_Z T <= 0 * inject_Z T)%Q by (apply Qmult_le_compat_r; lra).
        rewrite He in *. lra. }
      assert (Hg2 : (g * inject_Z T <= g * 200000000)%Q).
      { rewrite !(Qmult_comm g). apply Qmult_le_compat_r; lra. }
      assert (Eg : (w * inject_Z k == g + 40 * (1 - e))%Q) by (unfold g; ring).
      clearbody g. rewrite He in *. lra.
    + (* at the threshold: the day width is the double of 40/7 or of 4/3 *)
      split; [intros; lia |]. intros _.
      assert (Hq : (inject_Z W / inject_Z T == 40 / inject_Z k)%Q).
      { assert (Hz : (40 * inject_Z T == inject_Z k * inject_Z W)%Q).
        { change 40%Q with (inject_Z 40). rewrite <- !inject_Z_mult. by rewrite Heq. }
        field_simplify_eq; [| split; lra]. lra. }
      rewrite !of_Z_exact in Ew by (unfold PREC; lia). cbn [fdiv] in Ew. rewrite E0 in Ew.
      rewrite (round_proper _ _ Hq) in Ew.
      destruct Hk as [-> | ->].
      * assert (E : round (40 / inject_Z 7) = Fin (6433713753386423 # 1125899906842624))
          by (vm_compute; reflexivity).
        rewrite E in Ew. inversion Ew; subst w.
        assert (Ep' : round ((6433713753386423 # 1125899906842624) * inject_Z 7) = Fin 40)
          by (vm_compute; reflexivity).
        rewrite Ep' in Ep. inversion Ep; subst p. lra.
      * assert (E : round (40 / inject_Z 30) = Fin (6004799503160661 # 4503599627370496))
          by (vm_compute; reflexivity).
        rewrite E in Ew. inversion Ew; subst w.
        assert (Ep' : round ((6004799503160661 # 4503599627370496) * inject_Z 30) = Fin 40)
          by (vm_compute; reflexivity).
        rewrite Ep' in Ep. inversion Ep; subst p. lra.
    + (* below the threshold by at least 1 / T *)
      split; [| intros; lia]. intros Hp. exfalso.
      assert (Hz : (inject_Z k * inject_Z W + 1 <= 40 * inject_Z T)%Q).
      { change 40%Q with (inject_Z 40). change 1%Q with (inject_Z 1).
        rewrite <- !inject_Z_mult, <- inject_Z_plus, <- Zle_Qle. lia. }
      set (e := (1 # 9007199254740992)%Q) in *.
      assert (He : e = (1 # 9007199254740992)%Q) by reflexivity.
      set (g := (40 * (1 + e) - w * inject_Z k)%Q).
      assert (Hg : ((1 + e) <= g * inject_Z T)%Q).
      { assert (X : (inject_Z T * w * inject_Z k <= (1 + e) * inject_Z W * inject_Z k)%Q)
          by (apply Qmult_le_compat_r; lra).
        unfold g. rewrite He in *. lra. }
      assert (Hg0 : (0 <= g)%Q).
      { destruct (Qlt_le_dec g 0) as [Hn | Hn]; [| done]. exfalso.
        assert (g * inject_Z T <= 0 * inject_Z T)%Q by (apply Qmult_le_compat_r; lra).
        rewrite He in *. lra. }
      assert (Hg2 : (g * inject_Z T <= g * 200000000)%Q).
      { rewrite !(Qmult_comm g). apply Qmult_le_compat_r; lra. }
      assert (Eg : (w * inject_Z k == 40 * (1 + e) - g)%Q) by (unfold g; ring).
      clearbody g. rewrite He in *. lra.
Qed.

(** The labels of whatever a pass returns, by the tier tests. *)
Lemma tier_of_pass
    (tz : Z -> Z) (fuel : nat) (vp : Viewport) (c c' : GanttChart) (dom : Dom) :
  dst_drift_small tz ->
  constructed tz c ->
  calendar_date (p_start (project (chart_data c))) ->
  date_in_range (projectStart c) -> date_in_range (projectEnd c) ->
  valueOf tz (projectStart c) <= valueOf tz (projectEnd c) ->
  - 2 ^ 53 < availableWidth vp < 2 ^ 53 ->
  render tz fuel vp c = Some (c', dom) ->
  let W := availableWidth vp in
  let T := totalDays c' in
  let labels := map ht_text (th_ticks (dom_header dom)) in
  T = projectEnd c - projectStart c + 1 /\
  (40 * T <= 7 * W ->
   Forall (fun l => exists m d, l = MonthDay m d /\ m ∈ months /\ 1 <= d <= 31) labels) /\
  (~ 40 * T <= 7 * W -> 40 * T <= 30 * W ->
   Forall (fun l => exists m y, l = MonthYear m y /\ m ∈ months) labels) /\
  (~ 40 * T <= 30 * W ->
   Forall (fun l => exists q y, l = QuarterYear q y /\ 1 <= q <= 4) labels \/
   exists m y, labels = [MonthYear m y] /\ m ∈ months).
Proof.
  intros D K Hcal R1 R2 Hle HWr H W T labels.
  destruct (project_days tz c D K R1 R2 Hle) as (Hle' & HTc & HTr).
  destruct K as (K1 & K2 & K3).
  pose proof (parseDate_year _ Hcal) as Hyr. rewrite <- K1 in Hyr.
  pose proof (render_preserves_inputs _ _ _ _ _ _ H) as (A1 & A2 & A3 & A4 & A5).
  assert (HT : T = projectEnd c - projectStart c + 1) by (unfold T; by rewrite <- A4).
  assert (Hdw : dayWidth c' = fdiv (of_Z W) (of_Z T)).
  { destruct (render_result _ _ _ _ _ _ H) as [E _]. unfold T. rewrite E.
    change (dayWidth (with_rows ?rs ?p)) with (dayWidth p).
    change (totalDays (with_rows ?rs ?p)) with (totalDays p).
    destruct (prepared_fields vp c) as ((_ & _ & _ & Ht & _) & -> & _). by rewrite Ht. }
  assert (Hmonth : forall d : Z, month_name (getMonth d) ∈ months).
  { intros d. pose proof (MonthFromDay_range d) as Hr. unfold month_name, getMonth.
    assert (Hlt : (Z.to_nat (MonthFromDay d) < length months)%nat) by (simpl; lia).
    apply list_elem_of_In, nth_In, Hlt. }
  assert (Hlab : exists ticks,
            getTickDates tz fuel (projectStart c) (projectEnd c) (dayWidth c') = Some ticks /\
            labels = map tick_label ticks).
  { rewrite render_closed in H. cbv zeta in H.
    destruct (getTickDates tz fuel _ _ _) as [ticks |] eqn:Et; [| done].
    cbn [mbind option_bind] in H. inversion H; subst c' dom. clear H.
    exists ticks. split; [exact Et |]. unfold labels.
    cbn [dom_header th_ticks]. by rewrite map_map. }
  destruct Hlab as (ticks & Et & ->).
  assert (HTr' : 1 <= T <= 200000000) by (unfold T; by rewrite <- A4).
  assert (H7 : fleb (Fin 40) (fmul (dayWidth c') (Fin 7)) = true <-> 40 * T <= 7 * W).
  { rewrite Hdw. change 7%Q with (inject_Z 7). apply tier_threshold; [done | done | by left]. }
  assert (H30 : fleb (Fin 40) (fmul (dayWidth c') (Fin 30)) = true <-> 40 * T <= 30 * W).
  { rewrite Hdw. change 30%Q with (inject_Z 30). apply tier_threshold; [done | done | by right]. }
  split; [done |]. split; [| split].
  - intros Hw. apply H7 in Hw. rewrite getTickDates_weekly in Et by done.
    destruct (weeklyLoop_dates tz D _ _ _ _ Et) as (_ & _ & Hl).
    apply Forall_fmap. eapply Forall_impl; [exact Hl |]. intros t ->.
    eexists _, _. split; [reflexivity |]. split; [apply Hmonth |].
    apply DateFromDay_range.
  - intros Hw Hm. rewrite <- H7 in Hw. apply H30 in Hm. apply not_true_is_false in Hw.
    rewrite getTickDates_monthly in Et by done.
    destruct (monthlyLoop_dates tz D _ _ _ _ Et) as (_ & _ & Hl).
    apply Forall_fmap. eapply Forall_impl; [exact Hl |]. intros t ->.
    eexists _, _. split; [reflexivity | apply Hmonth].
  - intros Hm.
    assert (Hw : ~ 40 * T <= 7 * W) by lia.
    rewrite <- H7 in Hw. rewrite <- H30 in Hm.
    apply not_true_is_false in Hw. apply not_true_is_false in Hm.
    rewrite getTickDates_quarterly in Et by done.
    destruct (quarterlyTicks_dates tz D (projectStart c) (projectEnd c) Hyr) as (_ & _ & Hl).
    destruct (length (quarterlyTicks tz (projectStart c) (projectEnd c)) =? 0)%nat.
    + right. inversion Et; subst ticks. eexists _, _. split; [reflexivity | apply Hmonth].
    + left. inversion Et; subst ticks.
      apply Forall_fmap. eapply Forall_impl; [exact Hl |]. intros t ->.
      eexists _, _. split; [reflexivity |].
      pose proof (MonthFromDay_range (tick_date t)) as Hr. unfold getMonth.
      Z.to_euclidean_division_equations. lia.
Qed.

(** The tier is decided by the width and the length of the project.  For a
    project of [T] days, of valid dates and not ending before it starts, at
    an available width [W], a pass returns once the fuel suffices, and the
    ticks are weekly, labelled month and day, exactly when [40 T <= 7 W];
    otherwise monthly, labelled month and year, exactly when
    [40 T <= 30 W]; otherwise quarterly, labelled with the quarter and the
    year, or, for the single fallback tick, with month and year.  Every
    month shown is one of the twelve names.  The thresholds in whole numbers
    are those of the rounded products the code compares. *)
Theorem tier_by_project_length (tz : Z -> Z) (vp : Viewport) (c : GanttChart) :
  dst_drift_small tz ->
  constructed tz c ->
  calendar_date (p_start (project (chart_data c))) ->
  date_in_range (projectStart c) -> date_in_range (projectEnd c) ->
  valueOf tz (projectStart c) <= valueOf tz (projectEnd c) ->
  - 2 ^ 53 < availableWidth vp < 2 ^ 53 ->
  exists N, forall fuel, (N <= fuel)%nat ->
    exists c' dom,
      render tz fuel vp c = Some (c', dom) /\
      let W := availableWidth vp in
      let T := totalDays c' in
      let labels := map ht_text (th_ticks (dom_header dom)) in
      T = projectEnd c - projectStart c + 1 /\
      (fleb (Fin 40) (fmul (dayWidth c') (Fin 7)) = true <-> 40 * T <= 7 * W) /\
      (fleb (Fin 40) (fmul (dayWidth c') (Fin 30)) = true <-> 40 * T <= 30 * W) /\
      (40 * T <= 7 * W ->
       Forall (fun l => exists m d, l = MonthDay m d /\ m ∈ months /\ 1 <= d <= 31) labels) /\
      (~ 40 * T <= 7 * W -> 40 * T <= 30 * W ->
       Forall (fun l => exists m y, l = MonthYear m y /\ m ∈ months) labels) /\
      (~ 40 * T <= 30 * W ->
       Forall (fun l => exists q y, l = QuarterYear q y /\ 1 <= q <= 4) labels \/
       exists m y, labels = [MonthYear m y] /\ m ∈ months).
Proof.
  intros D K Hcal R1 R2 Hle HW. apply (render_total tz vp c); [exact D |].
  intros fuel c' dom H. cbv zeta.
  destruct (tier_of_pass tz fuel vp c c' dom D K Hcal R1 R2 Hle HW H) as (HT & L1 & L2 & L3).
  destruct (project_days tz c D K R1 R2 Hle) as (_ & _ & HTr).
  pose proof (render_preserves_inputs _ _ _ _ _ _ H) as (A1 & A2 & A3 & A4 & A5).
  assert (Hdw : dayWidth c' = fdiv (of_Z (availableWidth vp)) (of_Z (totalDays c'))).
  { destruct (render_result _ _ _ _ _ _ H) as [E _]. rewrite E.
    change (dayWidth (with_rows ?rs ?p)) with (dayWidth p).
    change (totalDays (with_rows ?rs ?p)) with (totalDays p).
    destruct (prepared_fields vp c) as ((_ & _ & _ & Ht & _) & -> & _). by rewrite Ht. }
  split; [exact HT |].
  split.
  { rewrite Hdw. change 7%Q with (inject_Z 7).
    apply tier_threshold; [done | by rewrite <- A4 | by left]. }
  split.
  { rewrite Hdw. change 30%Q with (inject_Z 30).
    apply tier_threshold; [done | by rewrite <- A4 | by right]. }
  split; [exact L1 |]. split; [exact L2 | exact L3].
Qed.

Lemma tier_by_project_length_witness :
  exists N, forall fuel, (N <= fuel)%nat ->
    exists c' dom,
      render tz_summer fuel MoreExamples.viewport_732
        (constructor tz_summer MoreExamples.year_schedule) = Some (c', dom) /\
      totalDays c' = projectEnd (constructor tz_summer MoreExamples.year_schedule)
                     - projectStart (constructor tz_summer MoreExamples.year_schedule) + 1.
Proof.
  destruct (tier_by_project_length tz_summer MoreExamples.viewport_732
              (constructor tz_summer MoreExamples.year_schedule)) as [N HN].
  - exact tz_summer_drift.
  - apply constructor_constructed.
  - unfold calendar_date. simpl. lia.
  - vm_compute. split; reflexivity.
  - vm_compute. split; reflexivity.
  - vm_compute. discriminate.
  - vm_compute. split; reflexivity.
  - exists N. intros fuel Hf. destruct (HN fuel Hf) as (c' & dom & H & HT & _).
    exists c', dom. split; [exact H | exact HT].
Defined.

End Tiers.

(** ** What is drawn stays inside the panels *)

Module Containment.
Import Calendar CalendarFacts JsDate DateFacts Double Gantt Flattener Geometry RenderSpec TickSpec.
Import Drawing Page TaskMapSpec DoubleFacts ZoneFacts LayoutFacts Flatten RenderFacts Collapse.
Import TaskMapFacts Panels Arrows Routing Scale TickGeometry.

(** The x of a day of the project and the right edge of its cell: inside
    the width, the right edge up to rounding. *)
Lemma day_x_range tz (c : GanttChart) (W d : Z) :
  dst_drift_small tz ->
  0 < W < 2 ^ 53 -> 1 <= totalDays c <= 200000000 ->
  totalDays c = projectEnd c - projectStart c + 1 ->
  dayWidth c = fdiv (of_Z W) (of_Z (totalDays c)) ->
  projectStart c <= d <= projectEnd c ->
  exists w qx qe,
    dayWidth c = Fin w /\
    dateToX tz d (projectStart c) (dayWidth c) = Fin qx /\
    fadd (dateToX tz d (projectStart c) (dayWidth c)) (dayWidth c) = Fin qe /\
    (0 <= qx)%Q /\ (qx < inject_Z W)%Q /\ (qx < qe)%Q /\
    (qe <= (1 + 4 * EPS) * inject_Z W)%Q /\ valid (Fin qx) /\ valid (Fin qe).
Proof.
  intros D HW HT HTe Hdw Hd. unfold dateToX. rewrite (daysBetween_days tz D).
  destruct (day_width W (totalDays c) HW HT) as (w & Ew & _).
  rewrite <- Hdw in Ew. rewrite Ew in Hdw. symmetry in Hdw. rewrite Ew.
  destruct (x_inside W (totalDays c) (d - projectStart c) w HW HT Hdw)
    as (qx & Ex & Hvx & X0 & XW & _); [lia |].
  destruct (end_inside W (totalDays c) (d - projectStart c) w HW HT Hdw)
    as (qx' & qe & Ex' & Ee & Hve & E1 & E2 & _); [lia |].
  rewrite Ex in Ex'. inversion Ex'; subst qx'.
  exists w, qx, qe. rewrite Ex, Ee. done.
Qed.

(** The fields a pass of a constructed chart works with. *)
Lemma rendered_fields tz fuel vp c c' dom :
  dst_drift_small tz -> constructed tz c ->
  date_in_range (projectStart c) -> date_in_range (projectEnd c) ->
  valueOf tz (projectStart c) <= valueOf tz (projectEnd c) ->
  render tz fuel vp c = Some (c', dom) ->
  projectStart c' = projectStart c /\ projectEnd c' = projectEnd c /\
  1 <= totalDays c' <= 200000000 /\
  totalDays c' = projectEnd c' - projectStart c' + 1 /\
  dayWidth c' = fdiv (of_Z (availableWidth vp)) (of_Z (totalDays c')).
Proof.
  intros D K R1 R2 Hle H.
  destruct (project_days tz c D K R1 R2 Hle) as (Hle' & HT & HT').
  pose proof (render_preserves_inputs _ _ _ _ _ _ H) as (A1 & A2 & A3 & A4 & A5).
  destruct (render_result _ _ _ _ _ _ H) as [E _].
  split; [done |]. split; [done |]. split; [by rewrite <- A4 |].
  split; [by rewrite <- A2, <- A3, <- A4 |].
  rewrite <- A4, E. change (dayWidth (with_rows ?rs ?p)) with (dayWidth p).
  by destruct (prepared_fields vp c) as (_ & -> & _).
Qed.

(** The bars of whatever a pass returns. *)
Lemma bars_inside_pass
    (tz : Z -> Z) (fuel : nat) (vp : Viewport) (c c' : GanttChart) (dom : Dom) :
  dst_drift_small tz ->
  constructed tz c ->
  date_in_range (projectStart c) -> date_in_range (projectEnd c) ->
  valueOf tz (projectStart c) <= valueOf tz (projectEnd c) ->
  0 < availableWidth vp < 2 ^ 53 ->
  render tz fuel vp c = Some (c', dom) ->
  let W := inject_Z (availableWidth vp) in
  forall k e,
    bar_groups dom !! k = Some e ->
    exists r x y w h,
      visibleRows (rows c') !! k = Some r /\
      e = SvgG [SvgRect x y w h] /\
      (within_project c' r ->
       exists qx qe qw,
         x = Fin qx /\ bar_endX tz c' r = Fin qe /\ w = Fin qw /\
         (0 <= qx)%Q /\ (qx < W)%Q /\ (0 < qe)%Q /\ (qe <= (1 + 4 * EPS) * W)%Q /\
         (4 <= qw)%Q /\
         ((qe - qx <= 4)%Q -> qw = 4%Q) /\
         ((4 <= qe - qx)%Q -> (qx + qw <= (1 + 6 * EPS) * W)%Q)).
Proof.
  intros D K R1 R2 Hle HW H W k e He.
  destruct (rendered_fields tz fuel vp c c' dom D K R1 R2 Hle H) as (P1 & P2 & T1 & T2 & Hdw).
  destruct (bar_group_row _ _ _ _ _ _ _ _ H He)
    as (r & x & y & w & h & H1 & _ & H2 & H3 & H4 & _).
  exists r, x, y, w, h. split; [done |]. split; [done |].
  intros [[Hs1 Hs2] [He1 He2]]. rewrite H3, H4.
  destruct (day_x_range tz c' (availableWidth vp) (parseDate (data_start (data r)))
              D HW T1 T2 Hdw) as (dw & qx & q0 & Edw & Ex & _ & X0 & XW & _ & _ & Hvx & _);
    [lia |].
  destruct (day_x_range tz c' (availableWidth vp) (parseDate (data_end (data r)))
              D HW T1 T2 Hdw) as (dw' & qs & qe & _ & Es & Ee & S0 & SW & SE & EW & _ & Hve);
    [lia |].
  fold (bar_x tz c' r) in Ex. fold (bar_endX tz c' r) in Ee.
  assert (HW1 : (1 <= W)%Q)
    by (unfold W; change 1%Q with (inject_Z 1); rewrite <- Zle_Qle; lia).
  assert (HW2 : (W <= 9007199254740992)%Q)
    by (unfold W; change 9007199254740992%Q with (inject_Z (2 ^ 53)); rewrite <- Zle_Qle; lia).
  fold W in XW, EW.
  pose proof EPS_value as Eeps. pose proof normal_low as Nlo. pose proof normal_high as Nhi.
  unfold bar_width. rewrite Ee, Ex. cbn [fsub].
  assert (Hr4 : round 4 = Fin 4) by reflexivity.
  rewrite Eeps in EW.
  destruct (Qlt_le_dec 4 (qe - qx)) as [Hbig | Hsmall].
  - destruct (round_rel (qe - qx)) as (n & En & Hvn & N1 & N2); [lra | lra |].
    rewrite En. rewrite Eeps in N1, N2.
    assert (Hn4 : (4 <= n)%Q).
    { assert (Hm : (4 <= qe - qx)%Q) by lra. pose proof (round_mono _ _ Hm) as Hm'.
      rewrite Hr4, En in Hm'. by apply dle_Fin in Hm'. }
    assert (Hmax : exists qw, fmax (Fin n) (Fin 4) = Fin qw /\ (qw == n)%Q).
    { unfold fmax, fleb. destruct (Qle_bool n 4) eqn:L.
      - apply Qle_bool_iff in L. exists 4%Q. split; [done | lra].
      - exists n. split; [done | reflexivity]. }
    destruct Hmax as (qw & -> & Eqw).
    exists qx, qe, qw.
    split; [done |]. split; [done |]. split; [done |]. split; [done |].
    split; [done |]. split; [lra |]. split; [rewrite Eeps; lra |].
    split; [lra |]. split; [intros; lra |]. intros _. rewrite Eeps. lra.
  - pose proof (round_mono _ _ Hsmall) as Hm. rewrite Hr4 in Hm.
    destruct (dle_not_nan _ _ Hm) as [Hnn _].
    destruct (fmax_spec (round (qe - qx)) (Fin 4) Hnn ltac:(done)) as (_ & _ & Hle4 & _).
    rewrite (Hle4 Hm).
    exists qx, qe, 4%Q.
    split; [done |]. split; [done |]. split; [done |]. split; [done |].
    split; [done |]. split; [lra |]. split; [rewrite Eeps; lra |].
    split; [lra |]. split; [done |]. intros H4'. rewrite Eeps. lra.
Qed.

(** Bars of rows within the project stay inside the viewport.  For a
    project of valid dates that does not end before it starts, at a positive
    width, a pass returns once the fuel suffices, and: the bar of a visible
    row whose dates are days of the project starts at [0 <= x < width]; its
    extent [endX] ends at the right edge at most, up to rounding
    (4 * 2^-53 of the width); the bar is 4 pixels wide when its extent is 4
    pixels or less, and otherwise the drawn rectangle ends at the right
    edge at most, up to rounding (6 * 2^-53 of the width). *)
Theorem bars_inside_viewport (tz : Z -> Z) (vp : Viewport) (c : GanttChart) :
  dst_drift_small tz ->
  constructed tz c ->
  date_in_range (projectStart c) -> date_in_range (projectEnd c) ->
  valueOf tz (projectStart c) <= valueOf tz (projectEnd c) ->
  0 < availableWidth vp < 2 ^ 53 ->
  exists N, forall fuel, (N <= fuel)%nat ->
    exists c' dom,
      render tz fuel vp c = Some (c', dom) /\
      let W := inject_Z (availableWidth vp) in
      forall k e,
        bar_groups dom !! k = Some e ->
        exists r x y w h,
          visibleRows (rows c') !! k = Some r /\
          e = SvgG [SvgRect x y w h] /\
          (within_project c' r ->
           exists qx qe qw,
             x = Fin qx /\ bar_endX tz c' r = Fin qe /\ w = Fin qw /\
             (0 <= qx)%Q /\ (qx < W)%Q /\ (0 < qe)%Q /\ (qe <= (1 + 4 * EPS) * W)%Q /\
             (4 <= qw)%Q /\
             ((qe - qx <= 4)%Q -> qw = 4%Q) /\
             ((4 <= qe - qx)%Q -> (qx + qw <= (1 + 6 * EPS) * W)%Q)).
Proof.
  intros D K R1 R2 Hle HW. apply (render_total tz vp c); [exact D |].
  intros fuel c' dom H. exact (bars_inside_pass tz fuel vp c c' dom D K R1 R2 Hle HW H).
Qed.

Lemma bars_inside_viewport_witness :
  exists N, forall fuel, (N <= fuel)%nat ->
    exists c' dom,
      render tz_summer fuel Examples.viewport_310
        (constructor tz_summer Examples.plan_schedule) = Some (c', dom) /\
      forall k e,
        bar_groups dom !! k = Some e ->
        exists r x y w h,
          visibleRows (rows c') !! k = Some r /\ e = SvgG [SvgRect x y w h].
Proof.
  destruct (bars_inside_viewport tz_summer Examples.viewport_310
              (constructor tz_summer Examples.plan_schedule)) as [N HN].
  - exact tz_summer_drift.
  - apply constructor_constructed.
  - vm_compute. split; reflexivity.
  - vm_compute. split; reflexivity.
  - vm_compute. discriminate.
  - vm_compute. split; reflexivity.
  - exists N. intros fuel Hf. destruct (HN fuel Hf) as (c' & dom & H & Hb).
    exists c', dom. split; [exact H |]. intros k e He.
    destruct (Hb k e He) as (r & x & y & w & h & H1 & H2 & _).
    exists r, x, y, w, h. split; [exact H1 | exact H2].
Defined.

(** *** Arrows *)

Lemma layoutRows_range rs : forall k r y,
  Forall (fun r => visibleY r = None) rs ->
  r ∈ layoutRows k rs -> visibleY r = Some y ->
  exists j : nat, y = Z.of_nat (k + j) * ROW_HEIGHT /\ (j < length (visibleRows rs))%nat.
Proof.
  induction rs as [| r0 rs IH]; intros k r y Hnone Hin Hy; [by apply elem_of_nil in Hin |].
  inversion Hnone as [| ? ? H0 Hrest]; subst.
  simpl in Hin. rewrite visibleRows_cons. destruct (visible r0) eqn:Ev.
  - apply elem_of_cons in Hin as [-> | Hin].
    + simpl in Hy. inversion Hy; subst y. exists 0%nat. simpl. split; [f_equal; lia | lia].
    + destruct (IH (S k) r y Hrest Hin Hy) as (j & -> & Hj).
      exists (S j). simpl. split; [f_equal; lia | lia].
  - apply elem_of_cons in Hin as [-> | Hin]; [congruence |].
    exact (IH k r y Hrest Hin Hy).
Qed.

Lemma flatten_not_laid sched cs :
  Forall (fun r => visibleY r = None) (flatten sched cs).
Proof.
  unfold flatten. pose proof (flattenGroups_unlaid cs (groups sched) 0 0) as E.
  apply Forall_forall. intros r Hr. apply list_elem_of_lookup in Hr as [i Hi].
  assert (E' : map unlaid (flattenGroups cs 0 0 (groups sched)) !! i = Some (unlaid r))
    by (rewrite list_lookup_fmap, Hi; done).
  rewrite E, Hi in E'. inversion E' as [E'']. by rewrite E'' at 1.
Qed.

(** A task row is never the first visible row: a phase row is above it. *)
Lemma task_row_offset sched cs r y :
  r ∈ layoutRows 0 (flatten sched cs) -> is_task r = true -> visibleY r = Some y ->
  exists j : nat,
    y = Z.of_nat (1 + j) * ROW_HEIGHT /\
    (1 + j < length (visibleRows (flatten sched cs)))%nat.
Proof.
  intros Hin Ht Hy. pose proof (flatten_not_laid sched cs) as Hnone.
  unfold flatten in *. destruct (groups sched) as [| g gs]; [by apply elem_of_nil in Hin |].
  cbn [flattenGroups] in *. inversion Hnone as [| ? ? _ Hrest]; subst.
  cbn [layoutRows visible] in Hin. rewrite visibleRows_cons. cbn [visible].
  apply elem_of_cons in Hin as [-> | Hin]; [done |].
  destruct (layoutRows_range _ _ _ _ Hrest Hin Hy) as (j & -> & Hj).
  exists j. split; [done | simpl; lia].
Qed.

(** The arrows of whatever a pass returns. *)
Lemma arrows_inside_pass
    (tz : Z -> Z) (fuel : nat) (vp : Viewport) (c c' : GanttChart) (dom : Dom) :
  dst_drift_small tz ->
  constructed tz c ->
  date_in_range (projectStart c) -> date_in_range (projectEnd c) ->
  valueOf tz (projectStart c) <= valueOf tz (projectEnd c) ->
  0 < availableWidth vp < 2 ^ 53 ->
  render tz fuel vp c = Some (c', dom) ->
  (forall r, r ∈ rows c' -> is_task r = true -> within_project c' r) ->
  forall e, e ∈ svg_dependencies (dom_svg dom) ->
    exists path,
      e = SvgPath path /\
      Forall (fun x => exists q, x = Fin q /\ (0 <= q)%Q /\
                (q <= (1 + 6 * EPS) * (inject_Z (availableWidth vp) + 10))%Q)
             (path_xs path) /\
      Forall (fun y => 0 < y < svg_height (dom_svg dom)) (path_ys path).
Proof.
  intros D K R1 R2 Hle HW H Hin e He.
  destruct (rendered_fields tz fuel vp c c' dom D K R1 R2 Hle H) as (P1 & P2 & T1 & T2 & Hdw).
  destruct (render_panels _ _ _ _ _ _ H) as (Hrows & _ & _ & Hh & _).
  destruct (arrow_origin _ _ _ _ _ _ _ H He)
    as (row & depId & depRow & vyF & vyT & A1 & A2 & A3 & A4 & A5 & A6 & A7 & A8 & _ & _ & A11).
  destruct (Hin depRow A2 A4) as [_ [Hde1 Hde2]].
  destruct (Hin row A1 A3) as [[Hrs1 Hrs2] _].
  destruct (day_x_range tz c' (availableWidth vp) (parseDate (data_end (data depRow)))
              D HW T1 T2 Hdw) as (dw & qs & qe & _ & _ & Ee & S0 & _ & SE & EW & _ & Hve);
    [lia |].
  destruct (day_x_range tz c' (availableWidth vp) (parseDate (data_start (data row)))
              D HW T1 T2 Hdw) as (dw' & qt & q1 & _ & Et & _ & T0 & TW & _ & _ & Hvt & _);
    [lia |].
  rewrite Hrows in A1, A2.
  destruct (task_row_offset _ _ _ _ A2 A4 A7) as (jF & EF & HjF).
  destruct (task_row_offset _ _ _ _ A1 A3 A8) as (jT & ET & HjT).
  pose proof (buildDependencyArrow_laid tz c' depRow row vyF vyT A7 A8) as El.
  cbv zeta in El. rewrite A11 in El. clear A11.
  assert (Hinj : forall a b : SvgEl, Some a = Some b -> a = b) by (intros a b E; by injection E).
  apply Hinj in El. clear Hinj. rewrite El. clear El.
  unfold arrow_fromX, arrow_toX, bar_endX, bar_x, row_centerY.
  rewrite Ee, Et.
  set (W := inject_Z (availableWidth vp)) in *.
  assert (HW1 : (1 <= W)%Q)
    by (unfold W; change 1%Q with (inject_Z 1); rewrite <- Zle_Qle; lia).
  assert (HW2 : (W <= 9007199254740992)%Q)
    by (unfold W; change 9007199254740992%Q with (inject_Z (2 ^ 53)); rewrite <- Zle_Qle; lia).
  pose proof EPS_value as Eeps. pose proof normal_low as Nlo. pose proof normal_high as Nhi.
  rewrite Eeps in EW.
  assert (HH : svg_height (dom_svg dom) =
               Z.of_nat (length (visibleRows (flatten (chart_data c) (collapsedGroups c))))
               * ROW_HEIGHT) by exact Hh.
  set (n := length (visibleRows (flatten (chart_data c) (collapsedGroups c)))) in *.
  assert (Hhalf : ROW_HEIGHT / 2 = 22) by reflexivity.
  (* the stub *)
  assert (Hstub : exists q, fadd (Fin qe) ELBOW = Fin q /\ (0 <= q)%Q /\
                            (q <= (1 + 6 * EPS) * (W + 10))%Q).
  { unfold ELBOW. cbn [fadd].
    destruct (round_rel (qe + 10)) as (q & -> & _ & Q1 & Q2); [lra | lra |].
    exists q. rewrite Eeps in *. split; [done |]. split; lra. }
  (* the approach column *)
  assert (Happ : exists q, fmax ELBOW (fsub (Fin qt) ELBOW) = Fin q /\ (0 <= q)%Q /\
                           (q <= (1 + 6 * EPS) * (W + 10))%Q).
  { unfold ELBOW. cbn [fsub].
    destruct (round_finite (qt - 10)) as [m Em]; [apply Qabs_Qle_condition; split; lra |].
    assert (Hm : (m <= W)%Q).
    { assert (Hle' : (qt - 10 <= W)%Q) by lra.
      pose proof (round_mono _ _ Hle') as Hr. rewrite Em in Hr.
      assert (EWr : round W = Fin W) by (apply (of_Z_exact (availableWidth vp)); unfold PREC; lia).
      rewrite EWr in Hr. by apply dle_Fin in Hr. }
    rewrite Em. unfold fmax, fleb. destruct (Qle_bool 10 m) eqn:L.
    - apply Qle_bool_iff in L. exists m. rewrite Eeps. split; [done |]. split; lra.
    - exists 10%Q. rewrite Eeps. split; [done |]. split; lra. }
  assert (Hfrom : exists q, Fin qe = Fin q /\ (0 <= q)%Q /\ (q <= (1 + 6 * EPS) * (W + 10))%Q).
  { exists qe. rewrite Eeps. split; [done |]. split; lra. }
  assert (Hto : exists q, Fin qt = Fin q /\ (0 <= q)%Q /\ (q <= (1 + 6 * EPS) * (W + 10))%Q).
  { exists qt. rewrite Eeps. split; [done |]. split; lra. }
  destruct (fleb (fadd (Fin qe) (fmul ELBOW (Fin 2))) (Fin qt)).
  - eexists. split; [reflexivity |]. cbn [path_xs path_ys flat_map app].
    split.
    + apply List.Forall_cons; [exact Hfrom |]. apply List.Forall_cons; [exact Hstub |].
      apply List.Forall_cons; [exact Hto |]. apply List.Forall_nil.
    + rewrite HH, Hhalf, EF, ET. unfold ROW_HEIGHT. repeat constructor; lia.
  - eexists. split; [reflexivity |]. cbn [path_xs path_ys flat_map app].
    split.
    + apply List.Forall_cons; [exact Hfrom |]. apply List.Forall_cons; [exact Hstub |].
      apply List.Forall_cons; [exact Happ |]. apply List.Forall_cons; [exact Hto |].
      apply List.Forall_nil.
    + rewrite HH, Hhalf, EF, ET. unfold ROW_HEIGHT.
      destruct (Z.ltb_spec (Z.of_nat (1 + jF) * 44 + 22) (Z.of_nat (1 + jT) * 44 + 22));
        repeat constructor; lia.
Qed.

(** Arrows between tasks of the project stay inside the body.  For a
    project of valid dates that does not end before it starts, at a positive
    width, a pass returns once the fuel suffices, and when the dates of all
    task rows are days of the project: every corner of every arrow has
    [0 <= x <= width + ELBOW] up to rounding, 6 * 2^-53 of that bound (the
    stub that leaves a bar ending on the last day sticks out to the right
    by [ELBOW]), and [0 < y < height of the body], the detour rows
    included. *)
Theorem arrows_inside_body (tz : Z -> Z) (vp : Viewport) (c : GanttChart) :
  dst_drift_small tz ->
  constructed tz c ->
  date_in_range (projectStart c) -> date_in_range (projectEnd c) ->
  valueOf tz (projectStart c) <= valueOf tz (projectEnd c) ->
  0 < availableWidth vp < 2 ^ 53 ->
  exists N, forall fuel, (N <= fuel)%nat ->
    exists c' dom,
      render tz fuel vp c = Some (c', dom) /\
      ((forall r, r ∈ rows c' -> is_task r = true -> within_project c' r) ->
       forall e, e ∈ svg_dependencies (dom_svg dom) ->
         exists path,
           e = SvgPath path /\
           Forall (fun x => exists q, x = Fin q /\ (0 <= q)%Q /\
                     (q <= (1 + 6 * EPS) * (inject_Z (availableWidth vp) + 10))%Q)
                  (path_xs path) /\
           Forall (fun y => 0 < y < svg_height (dom_svg dom)) (path_ys path)).
Proof.
  intros D K R1 R2 Hle HW. apply (render_total tz vp c); [exact D |].
  intros fuel c' dom H. exact (arrows_inside_pass tz fuel vp c c' dom D K R1 R2 Hle HW H).
Qed.

Lemma arrows_inside_body_witness :
  exists N, forall fuel, (N <= fuel)%nat ->
    exists c' dom,
      render tz_summer fuel Examples.viewport_310
        (constructor tz_summer Examples.plan_schedule) = Some (c', dom) /\
      forall e, e ∈ svg_dependencies (dom_svg dom) ->
        exists path,
          e = SvgPath path /\
          Forall (fun x => exists q, x = Fin q /\ (0 <= q)%Q /\
                    (q <= (1 + 6 * EPS) * (inject_Z 310 + 10))%Q) (path_xs path) /\
          Forall (fun y => 0 < y < svg_height (dom_svg dom)) (path_ys path).
Proof.
  destruct (arrows_inside_body tz_summer Examples.viewport_310
              (constructor tz_summer Examples.plan_schedule)) as [N HN].
  - exact tz_summer_drift.
  - apply constructor_constructed.
  - vm_compute. split; reflexivity.
  - vm_compute. split; reflexivity.
  - vm_compute. discriminate.
  - vm_compute. split; reflexivity.
  - exists N. intros fuel Hf. destruct (HN fuel Hf) as (c' & dom & H & Ha).
    exists c', dom. split; [exact H |]. apply Ha.
    destruct (render_panels _ _ _ _ _ _ H) as (Hrows & _).
    pose proof (render_preserves_inputs _ _ _ _ _ _ H) as (_ & A2 & A3 & _).
    intros r Hr _. unfold within_project. rewrite <- A2, <- A3.
    rewrite Hrows in Hr. apply list_elem_of_lookup in Hr as [i Hi].
    apply layoutRows_lookup in Hi as (r0 & Hr0 & Hu & _).
    assert (Hd : data r = data r0) by (apply (f_equal data) in Hu; exact Hu).
    rewrite Hd. apply list_elem_of_lookup_2 in Hr0.
    clear Hu Hd Hrows. revert r0 Hr0. apply Forall_forall.
    set (l := flatten _ _). vm_compute in l. subst l.
    repeat (apply List.Forall_cons; [repeat split; vm_compute; discriminate |]).
    apply List.Forall_nil.
Defined.

End Containment.
